(* ===== verification/_CoqProject ===== *)
-Q . S2P
Prelude.v
Utf8.v
Frame.v
FrameFacts.v
Transport.v
Osc.v
Std.v
Random.v
Tokio.v
Timers.v
Prio.v
Session.v
SessionFacts.v
Manager.v
Paste.v
PasteFinal.v
PasteFacts.v
PasteDir.v
TermDl.v
DownloadFacts.v
Cbor.v
CborFacts.v
Webauthn.v
WebauthnFacts.v
Auth.v
Login.v
Wire.v
Link.v
LinkFacts.v
Proxy.v
AgentAuth.v
AgentAuthFacts.v
Agent.v
StreamTask.v
UploadFacts.v
UploadWaits.v
UploadContents.v
StreamTaskFacts.v
StreamSafety.v
AgentFacts.v
EndToEnd.v
EndToEndFiles.v
Pty.v
PtyFacts.v
Launch.v
AgentSessions.v
AgentMain.v
HubConfig.v
Envelope.v
EnvelopeFacts.v
Pem.v
HubAdmin.v
HubAdminFacts.v
FileLock.v
Calendar.v
Metrics.v
HubConn.v
AgentRun.v
KeepAlive.v
Dial.v
DialFacts.v
HubWs.v
FrameLink.v
HubMain.v
HubRoutes.v
HubFacts.v
Testing.v
FrameTests.v
CommonTests.v
AgentTests.v
HubTests.v
AdminTests.v
SessionList.v
AdminReports.v
