(* ===== verification/Prelude.v ===== *)
(** * term: a verification development (root file)

    [term] gives a browser access to shells on machines that dial out.  A hub
    ([hub/]) serves the browser and keeps one connection per agent; an agent
    ([agent/]) runs on each machine, dials the hub, and keeps the shells in
    shared sessions; [term-dl] runs inside a shell and asks the agent to send a
    file to the browser; [hub-admin] enrols passkeys and issues the agents'
    certificates.  [common/] is what they share: the frame codec, the
    transports, WebAuthn and the agents' PKI.

<<
    browser --WebSocket--> hub: proxy, auth       agent: reader of the connection
            <------------- link of one agent ====> one task per stream --> session --> pty
                           (frames, TLS or WebSocket)   uploads, downloads
>>

    ** How the files follow the code

    Each file names in its header the sources it models; a definition has the
    name of the function or type it translates, and the manifest gives its
    lines.  Files named [..Facts], [StreamSafety], [UploadContents], [SessionList]
    and [EndToEnd..] hold theorems, with the histories and specifications they
    are stated with; files named [..Tests] hold the repository's unit tests.

    - Generic: this file (outcomes of fallible code, bytes, big-endian
      integers, slices), [Utf8], [Std] (string functions of Rust's standard
      library), [Random] ([random.rs]: filling a buffer), [Tokio] (the interfaces and laws of channels, permits and
      broadcasts, with instances that meet them), [Timers] (intervals and
      timeouts on one clock).
    - The protocol, [common/src]: [Frame], [FrameFacts] ([frame.rs]),
      [Transport] ([transport.rs]), [FrameLink] (what a connection promises to
      both ends, as a class, and the two transports as its instances), [Osc] ([osc.rs]), [Prio] ([prio.rs]), [Wire]
      (a writer queue, an ordered connection and a reader as one machine).
    - The agent, [agent/src]: [Session], [SessionFacts], [Manager]
      ([session.rs]); [Launch] (starting a session's shell); [AgentSessions] (the
      agent's shells, from [Open] to the end of each), [AgentMain] (the process
      around the connections, with the task that sweeps the sessions); [Paste],
      [PasteFinal] (what the handlers come to when they run to their end),
      [PasteFacts], [UploadFacts], [UploadWaits] (what they leave behind where
      they are dropped), [UploadContents] (uploads of [main.rs]) with [PasteDir]
      (their directory, over a file tree with links); [DownloadFacts] with
      [TermDl] (downloads, [term-dl/src]);
      [Agent], [AgentFacts] ([run_session] and the reconnect loop of
      [main.rs]), [AgentRun] (the tasks of one connection, from its hello to
      its end); [StreamTask], [StreamTaskFacts], [StreamSafety]
      ([run_session_stream]); [Dial], [DialFacts] ([wsdial.rs] and the
      configuration); [Pty], [PtyFacts] ([pty.rs]).
    - Passkeys: [Cbor], [CborFacts], [Webauthn], [WebauthnFacts]
      ([common/src/webauthn]); [Login] ([creds.rs], [webauthn_routes.rs]);
      [Envelope], [EnvelopeFacts] ([envelope.rs], and [add-passkey] and
      [remove] of [hub-admin]).
    - Certificates: [Pem] (chains and keys on disk, the hub's certificate
      reloader of [tls_files.rs]); [AgentAuth], [AgentAuthFacts] (both ways an
      agent authenticates); [HubAdmin], [HubAdminFacts], [Calendar] (the CA,
      issuing and revoking in [hub-admin], the list the hub reloads);
      [AdminReports] (what [hub-admin] prints, its exit code).
    - Files of several processes: [FileLock] ([flock.rs], with every
      transaction of the credential file and of the list of certificates).
    - The hub, [hub/src]: [Auth] ([auth.rs], [state.rs], [edge.rs]); [Proxy]
      ([proxy.rs]); [Link], [LinkFacts], [HubConn] ([agent_link.rs]);
      [HubWs] ([agent_ws.rs], the agent's WebSocket); [HubConfig] ([config.rs],
      [main.rs]); [HubMain] (the background tasks of [main.rs], with their
      timers); [Metrics] ([metrics.rs]);
      [HubRoutes], [HubFacts] (the route tables, the middleware and every
      handler).
    - Both together: [EndToEnd] puts the agent's machine, the wire and the hub's
      machine together, in each direction; [EndToEndFiles] follows uploads and
      downloads through it, [SessionList] the list of sessions, [KeepAlive] the
      pings, pongs and idle deadlines of one connection.
    - Conformance: [Testing] is the vocabulary of the unit tests, [FrameTests],
      [CommonTests], [AgentTests], [HubTests] and [AdminTests] are the tests,
      each a boolean that is evaluated on the model; [frame_tests_pass],
      [common_tests_pass], [agent_tests_pass], [hub_tests_pass] and
      [admin_tests_pass] say that all 196 hold, [osc_overflow_tests_pass] two
      more that are too long to evaluate.

    ** How state and steps are modelled

    Code that fails returns [res E A]: a value, a typed error, or [Panic] where
    an index, a slice bound or an arithmetic operation can go out of range.
    Unsigned integers are [Z] with their wrap or saturation written out.  A
    [String] is the list of its UTF-8 bytes.  Shared state is an explicit
    record; what a task does between two points where it can be suspended is
    one function, and theorems about concurrency quantify over every list of
    such steps ([Session.run], [StreamTask.run_task], the runs of [LinkFacts],
    [AgentFacts], [Prio], [Wire] and [HubConn], [HubFacts.hub_step]).  Where time
    decides ([HubMain], [AgentRun], [AgentMain], [KeepAlive]) every step has an
    instant, and how late the runtime and the network may be is a hypothesis
    of the theorem.  A session's
    lock is held by one function at a time, and what the code does after
    releasing it is a pending effect that may be delayed.  Where the code
    itself drops a task in the middle ([select!] of a stream's two halves) the
    suspension points inside a step count too: a paste handler is the list of
    the states in which it waits with the one it ends in ([Paste.Handler]), an
    outbound event a list of frames, and [StreamTask.TCut] and [TOutCut] stop
    them anywhere.  A broadcast receiver may lag: [Tokio.hands_out] says which
    sequences of messages and lags it can hand out.  A file's last write is in
    flight until the next write or flush asks for its result
    ([Paste.PendingPaste], [Paste.WriteEnd]).  Aliasing is modelled
    where it matters: sessions, channels and links live in heaps and are
    reached through references.

    Libraries are parameters: tokio ([Tokio.Mpsc], [Broadcast], [Semaphore];
    of its files, what a pending write comes to is an argument),
    SHA-256, ECDSA, HMAC, base64 and JSON ([Webauthn.Crypto],
    [Login.StoreLib], [Envelope]'s library), X.509 ([AgentAuth]'s and
    [HubAdmin]'s), axum's path matching and extractors and the URL and TOML
    readers ([HubRoutes], [HubConfig], [Dial]).  Their laws are what they
    document, and each theorem that uses them has a witness with a concrete
    instance.  Clock readings, random values and the operating system's
    answers are arguments, so theorems hold for all of them.

    ** What is proved

    - Codec and transports: decoding accepts exactly the encodings of
      well-formed frames and never panics; both transports deliver the same
      frames; every frame a stream's task sends is accepted
      ([ws_message_exactly_one_frame], [sent_frames_accepted]).
    - From the shell to the screen and back: what a browser shows is the
      output from one scrollback before the attach on, whatever is interleaved,
      with a gap only where its stream's receiver lagged, and what it types reaches
      its stream's task in order and the shell exactly while it holds control
      ([browser_shows_terminal], [keystrokes_reach_shell]).
    - Sessions and terminals: a viewer without control cannot touch the
      terminal, what a stream that ends leaves behind (nothing, unless a paste
      handler was dropped half way or typed to a dead terminal), and which
      shells the agent has at any time, with the shell of a start that failed
      late and the two races of its sweep
      ([viewer_is_powerless], [stream_leaves_nothing], [session_invariant],
      [shells_are_accounted_for]; lemma [conpty_output_exact]).
    - Routing: on both ends each stream gets a gap-free prefix of what was
      addressed to it, per half on the agent; the browser speaks only for its
      own stream; killing a session and listing them work through both codecs
      and back ([stream_gets_gap_free_prefix], [browser_speaks_only_its_stream],
      [kill_session_end_to_end], [session_list_end_to_end]; lemma
      [stream_task_input]).
    - Uploads and downloads: what arrives over the composed machines (an upload
      whole unless its last write failed, a download whole whenever it looks
      complete to the browser, however much its receiver missed), bounds,
      file names, grouping, tokens, the OSC grammar, and [term-dl] from the
      environment of a started shell to the downloads of its session
      ([uploads_arrive_whole], [downloads_arrive_whole], [paste_bounds],
      [paste_file_is_safe], [started_shell_downloads],
      [prio_channel_conserves], [feed_accounts_for_every_byte]; lemmas
      [paste_group_typed_once], [download_token_gate]).
    - Passkeys: registration and login ceremonies exactly, enrolment from the
      hub through [hub-admin] to the first login, removal, and the credential
      file under concurrent processes that may fail or crash at any call
      ([finish_authenticate_exact], [login_finish_sound],
      [add_passkey_exact], [enrolled_passkey_logs_in],
      [passkey_updates_are_atomic]; lemma [remove_passkey_exact]).
    - Agents: who is let in, no replay, a certificate from the CA's creation over
      its issue to its revocation, what becomes of an upgrade through a
      perimeter, the perimeter's token ([upgrade_accepted_iff],
      [accepted_upgrade_not_replayed],
      [issued_certificate_works_until_revoked], [list_changes_take_effect],
      [perimeter_upgrade]; lemma [tunnel_token_is_current]); the dates
      [hub-admin] writes ([civil_from_days_is_the_calendar]).
    - The hub over HTTP: nothing private without a token, the listener without
      authentication, logging out, guarded answers, the kill route, which
      listeners start ([private_needs_token], [no_auth_surface],
      [logout_is_final], [every_answer_is_guarded], [token_valid_iff],
      [started_hub_listeners]; lemma [kill_route_exact]).
    - Liveness and termination: a connection with life in it is kept and a
      dead one given up, a session is found again across connections and swept
      when its time is up, eviction stops the older connection, the wait for
      a killed shell ends, a connection that was torn down sends what was
      queued and ends, the agent always reconnects ([keepalive],
      [session_lifetime], [eviction_stops_both], [kill_wait_terminates];
      lemmas [connection_ends], [reconnect_backs_off]).

    Some theorems and lemmas show where the code differs from what its comments
    say; the manifest lists them as findings.

    ** Fuel

    Recursion that is not structural carries fuel that its callers derive from
    the input, so it never runs out: [Osc] and [Pty] step byte by byte and
    need none; [Cbor.skip_value] takes the reader's own depth bound, and
    [skip_value_exactly_one_item] shows that the result is decided within it;
    [PasteDir.resolve] follows at most as many
    links as Linux does and [create_dir_all] takes the number of components;
    chunking, white space stripping and the scans of strings take the length
    of their input; [StreamTask.data_frames] is shown to concatenate back to
    it; [Prio.prio_recv] is given three turns, each of which answers or closes
    a half ([prio_recv_spec]); [Pty.kill_loop] is given 52 turns, which [kill_wait_terminates] shows
    to be enough; [Paste.try_names] takes the code's own bound on candidates.

    ** What is not modelled

    TLS and X.509 chain building, ACME, sockets, the HTTP server and the
    WebSocket library (their results are arguments); [flock] and the random
    source beyond their documented answers; logging and help texts; the
    browser's JavaScript, the scripts and the static files.  The Windows
    variants of paths and shells are left out, except the cursor-query scanner
    ([Pty]) and the random source.  Five unit tests have no counterpart: one of
    real ECDSA keys, one of ConPTY, two of the random source alone, one that
    reads back the fields of a record.  The composed machines of [EndToEnd]
    follow one connection: what a reconnect keeps is in [AgentMain], what it
    loses are the frames on the wire, which no theorem promises.  The file
    system of a stream's task is its own: what other tasks and programs do to
    the same directory between two of its steps is not modelled, nor is the
    moment between the check of control and the typing of the pasted paths.
    TLS session resumption, in which rustls does not ask the verifier again, is
    left to rustls.  The hub's
    background tasks ([HubMain]) and its requests ([HubFacts]) meet in the
    data both read, not in one machine. *)

From Stdlib Require Import Strings.Byte.
From stdpp Require Import prelude gmap strings list.
#[global] Open Scope Z_scope.

(** ** Outcomes of fallible Rust code *)

(** A Rust function that returns [Result<A, E>] and may also panic (an index or
    a slice bound out of range, an arithmetic overflow in a debug build). *)
Inductive res (E A : Type) : Type :=
| Ok (a : A)
| Err (e : E)
| Panic.
Arguments Ok {E A} a.
Arguments Err {E A} e.
Arguments Panic {E A}.

#[export] Instance res_ret {E} : MRet (res E) := fun A a => Ok a.
#[export] Instance res_bind {E} : MBind (res E) := fun A B f m =>
  match m with Ok a => f a | Err e => Err e | Panic => Panic end.
#[export] Instance res_fmap {E} : FMap (res E) := fun A B f m =>
  match m with Ok a => Ok (f a) | Err e => Err e | Panic => Panic end.

(** [.map_err(f)] (and the [From] conversion that [?] inserts). *)
Definition map_err {E F A} (f : E -> F) (m : res E A) : res F A :=
  match m with Ok a => Ok a | Err e => Err (f e) | Panic => Panic end.

(** [.ok_or(e)] *)
Definition ok_or {E A} (e : E) (o : option A) : res E A :=
  match o with Some a => Ok a | None => Err e end.

(** [if c { return Err(e) }] *)
Definition guard_err {E} (c : bool) (e : E) : res E unit :=
  if c then Err e else Ok tt.

Definition is_ok {E A} (m : res E A) : bool :=
  match m with Ok _ => true | _ => false end.

Definition panics {E A} (m : res E A) : Prop := m = Panic.

(** ** Bytes, with their value as an integer *)

Definition byte_val (b : byte) : Z := Z.of_N (Byte.to_N b).
Definition byte_of (z : Z) : byte :=
  default x00 (Byte.of_N (Z.to_N (z mod 256))).

(** A byte-string literal ([b"..."]). *)
Definition lit (s : string) : list byte := String.list_byte_of_string s.
Arguments lit s%_string.

#[export] Instance byte_eq_dec : EqDecision byte := Byte.byte_eq_dec.
#[export] Program Instance byte_countable : Countable byte :=
  inj_countable Byte.to_N Byte.of_N _.
Next Obligation. apply Byte.of_to_N. Qed.

(** Machine-width ranges. *)
Definition u8 (z : Z) : Prop := 0 <= z < 2 ^ 8.
Definition u16 (z : Z) : Prop := 0 <= z < 2 ^ 16.
Definition u32 (z : Z) : Prop := 0 <= z < 2 ^ 32.
Definition u64 (z : Z) : Prop := 0 <= z < 2 ^ 64.
Definition U32_MAX : Z := 2 ^ 32 - 1.
Definition U64_MAX : Z := 2 ^ 64 - 1.

(** [x as u8], [x as u32]: truncating casts. *)
Definition as_u8 (z : Z) : Z := z mod 2 ^ 8.
Definition as_u32 (z : Z) : Z := z mod 2 ^ 32.
Definition as_u64 (z : Z) : Z := z mod 2 ^ 64.

(** [u64::saturating_add], [u64::saturating_sub], [u32::saturating_add]. *)
Definition sat_add64 (a b : Z) : Z := Z.min (a + b) U64_MAX.
Definition sat_sub64 (a b : Z) : Z := Z.max (a - b) 0.
Definition sat_add32 (a b : Z) : Z := Z.min (a + b) U32_MAX.

(** [.len()] *)
Definition len {A} (l : list A) : Z := Z.of_nat (length l).

(** ** Big-endian integers ([to_be_bytes] / [from_be_bytes]) *)

Fixpoint be_enc (n : nat) (z : Z) : list byte :=
  match n with
  | O => []
  | S k => byte_of (z / 256 ^ Z.of_nat k) :: be_enc k z
  end.

Definition be_dec (l : list byte) : Z :=
  foldl (fun a b => a * 256 + byte_val b) 0 l.

(** [payload[i]]: panics when out of range. *)
Definition rd {E} (l : list byte) (i : nat) : res E byte :=
  match l !! i with Some b => Ok b | None => Panic end.

(** [uN::from_be_bytes([l[i], .., l[i+n-1]])] *)
Fixpoint rds {E} (l : list byte) (i n : nat) : res E (list byte) :=
  match n with
  | O => Ok []
  | S k => b ← rd l i; bs ← rds l (S i) k; Ok (b :: bs)
  end.
Definition be_at {E} (n : nat) (l : list byte) (i : nat) : res E Z :=
  bs ← rds l i n; Ok (be_dec bs).

(** [l[a..b]] and [l[a..]]: panic when the bounds are out of range. *)
Definition slice {E} {A} (l : list A) (a b : nat) : res E (list A) :=
  if bool_decide (a <= b /\ b <= length l)%nat then Ok (take (b - a) (drop a l)) else Panic.
Definition slice_from {E} {A} (l : list A) (a : nat) : res E (list A) :=
  slice l a (length l).

(** ** Automation *)

Create HintDb term discriminated.
Create Rewrite HintDb term_len.

(** Split the next [match] or [if] of the goal. *)
Ltac case_res :=
  match goal with
  | |- context [match ?x with _ => _ end] =>
      lazymatch x with
      | context [match _ with _ => _ end] => fail
      | _ => let H := fresh "E" in destruct x eqn:H
      end
  end.

(** Turn boolean comparisons into propositions. *)
Ltac bool_to_prop :=
  repeat match goal with
  | H : context [bool_decide _ = true] |- _ => rewrite bool_decide_eq_true in H
  | H : context [bool_decide _ = false] |- _ => rewrite bool_decide_eq_false in H
  | H : (_ && _) = true |- _ => apply andb_true_iff in H; destruct H
  | H : (_ || _) = false |- _ => apply orb_false_iff in H; destruct H
  | H : (_ <? _) = true |- _ => apply Z.ltb_lt in H
  | H : (_ <? _) = false |- _ => apply Z.ltb_ge in H
  | H : (_ <=? _) = true |- _ => apply Z.leb_le in H
  | H : (_ <=? _) = false |- _ => apply Z.leb_gt in H
  | H : (_ =? _) = true |- _ => apply Z.eqb_eq in H
  | H : (_ =? _) = false |- _ => apply Z.eqb_neq in H
  | H : negb _ = true |- _ => apply negb_true_iff in H
  | H : negb _ = false |- _ => apply negb_false_iff in H
  end.

(** Turn a goal about a boolean into propositions, without unification. *)
Ltac bool_goal :=
  repeat lazymatch goal with
  | |- (_ && _) = true => apply andb_true_iff; split
  | |- (_ || _) = false => apply orb_false_iff; split
  | |- negb _ = true => apply negb_true_iff
  | |- negb _ = false => apply negb_false_iff
  | |- (_ >? _) = _ => rewrite Z.gtb_ltb
  | |- (_ <? _) = true => apply Z.ltb_lt
  | |- (_ <? _) = false => apply Z.ltb_ge
  | |- (_ <=? _) = true => apply Z.leb_le
  | |- (_ <=? _) = false => apply Z.leb_gt
  | |- (_ =? _) = true => apply Z.eqb_eq
  | |- (_ =? _) = false => apply Z.eqb_neq
  | |- bool_decide _ = true => apply bool_decide_eq_true
  | |- bool_decide _ = false => apply bool_decide_eq_false
  end.

(** ** Generic lemmas *)

Lemma byte_val_range b : 0 <= byte_val b < 256.
Proof.
  unfold byte_val. pose proof (Byte.to_N_bounded b). split; [lia|].
  change 256 with (Z.of_N 256). lia.
Qed.

Lemma byte_of_val b : byte_of (byte_val b) = b.
Proof.
  unfold byte_of. pose proof (byte_val_range b).
  rewrite Z.mod_small by lia. unfold byte_val. rewrite N2Z.id.
  by rewrite Byte.of_to_N.
Qed.

Lemma byte_val_inj a b : byte_val a = byte_val b -> a = b.
Proof. intros H. by rewrite <- (byte_of_val a), H, byte_of_val. Qed.

Lemma byte_val_of z : byte_val (byte_of z) = z mod 256.
Proof.
  unfold byte_val, byte_of. pose proof (Z.mod_pos_bound z 256 ltac:(lia)) as B.
  destruct (Byte.of_N (Z.to_N (z mod 256))) as [b|] eqn:E; simpl.
  - apply Byte.to_of_N in E. rewrite E. lia.
  - apply Byte.of_N_None_iff in E. lia.
Qed.

Lemma byte_of_mod z : byte_of (z mod 256) = byte_of z.
Proof. unfold byte_of. by rewrite Zmod_mod. Qed.

Lemma length_be_enc n z : length (be_enc n z) = n.
Proof. induction n; simpl; congruence. Qed.

Lemma be_dec_acc a l : foldl (fun a b => a * 256 + byte_val b) a l = a * 256 ^ len l + be_dec l.
Proof.
  unfold be_dec, len. revert a. induction l as [|b l IH]; intros a; cbn [foldl length].
  - simpl. lia.
  - rewrite IH, (IH (0 * 256 + byte_val b)), Nat2Z.inj_succ, Z.pow_succ_r by lia. ring.
Qed.

Lemma be_dec_cons b l : be_dec (b :: l) = byte_val b * 256 ^ len l + be_dec l.
Proof. unfold be_dec at 1. cbn [foldl]. rewrite be_dec_acc. f_equal; lia. Qed.

Lemma pow256_pos k : 0 <= k -> 0 < 256 ^ k.
Proof. intros. apply Z.pow_pos_nonneg; lia. Qed.

Lemma be_dec_bound l : 0 <= be_dec l < 256 ^ len l.
Proof.
  induction l as [|b l IH]; [done|]. rewrite be_dec_cons.
  pose proof (byte_val_range b). unfold len in *. cbn [length].
  rewrite Nat2Z.inj_succ, Z.pow_succ_r by lia. nia.
Qed.

Lemma be_dec_enc n z : be_dec (be_enc n z) = z mod 256 ^ Z.of_nat n.
Proof.
  induction n as [|n IH]; [by rewrite Z.mod_1_r|].
  cbn [be_enc]. rewrite be_dec_cons, IH, byte_val_of. unfold len.
  rewrite length_be_enc, Nat2Z.inj_succ, Z.pow_succ_r, (Z.mul_comm 256) by lia.
  pose proof (pow256_pos (Z.of_nat n) ltac:(lia)).
  rewrite Z.rem_mul_r by lia. ring.
Qed.

Lemma be_enc_add n z m : be_enc n (z + m * 256 ^ Z.of_nat n) = be_enc n z.
Proof.
  revert m. induction n as [|n IH]; intros m; [done|]. cbn [be_enc].
  rewrite Nat2Z.inj_succ, Z.pow_succ_r by lia.
  replace (z + m * (256 * 256 ^ Z.of_nat n)) with (z + (m * 256) * 256 ^ Z.of_nat n) by ring.
  rewrite IH. f_equal. pose proof (pow256_pos (Z.of_nat n) ltac:(lia)).
  rewrite Z.div_add by lia.
  rewrite <- byte_of_mod, Z.mod_add, byte_of_mod by lia. done.
Qed.

Lemma be_enc_dec l : be_enc (length l) (be_dec l) = l.
Proof.
  induction l as [|b l IH]; [done|]. cbn [length be_enc]. rewrite be_dec_cons. unfold len.
  pose proof (be_dec_bound l) as B. unfold len in B.
  f_equal.
  - rewrite Z.add_comm, Z.div_add, Z.div_small by lia. rewrite Z.add_0_l. apply byte_of_val.
  - rewrite Z.add_comm, be_enc_add. done.
Qed.

Lemma be_dec_enc_small n z : 0 <= z < 256 ^ Z.of_nat n -> be_dec (be_enc n z) = z.
Proof. intros. rewrite be_dec_enc. by apply Z.mod_small. Qed.

Lemma rds_spec {E} l i n :
  rds (E:=E) l i n = if bool_decide (i + n <= length l \/ n = 0)%nat
                     then Ok (take n (drop i l)) else Panic.
Proof.
  revert i. induction n as [|n IH]; intros i; cbn [rds].
  - by rewrite bool_decide_true by lia.
  - unfold rd. destruct (l !! i) as [b|] eqn:Hb; cbn.
    + pose proof (lookup_lt_Some _ _ _ Hb). rewrite IH, (drop_S _ _ _ Hb). cbn [take].
      do 2 case_bool_decide; cbn; try done; lia.
    + apply lookup_ge_None in Hb. rewrite bool_decide_false by lia. done.
Qed.

Lemma be_at_spec {E} n l i :
  (0 < n)%nat ->
  be_at (E:=E) n l i =
    if bool_decide (i + n <= length l)%nat then Ok (be_dec (take n (drop i l))) else Panic.
Proof. intros. unfold be_at. rewrite rds_spec. do 2 case_bool_decide; cbn; try done; lia. Qed.

Lemma take_drop_app_middle {A} (a b c : list A) n m :
  n = length a -> m = length b -> take m (drop n (a ++ b ++ c)) = b.
Proof. intros -> ->. by rewrite drop_app_length, take_app_length. Qed.

(** Reading back an integer that was written at a known offset. *)
Lemma be_at_app {E} n pre z post :
  (0 < n)%nat -> 0 <= z < 256 ^ Z.of_nat n ->
  be_at (E:=E) n (pre ++ be_enc n z ++ post) (length pre) = Ok z.
Proof.
  intros. rewrite be_at_spec by done.
  rewrite bool_decide_true by (rewrite !length_app, length_be_enc; lia).
  rewrite (take_drop_app_middle pre (be_enc n z) post) by (rewrite ?length_be_enc; done).
  by rewrite be_dec_enc_small.
Qed.

Lemma be_at_Ok {E} n l i z :
  (0 < n)%nat -> be_at (E:=E) n l i = Ok z ->
  (i + n <= length l)%nat /\ take n (drop i l) = be_enc n z /\ 0 <= z < 256 ^ Z.of_nat n.
Proof.
  intros Hn. rewrite be_at_spec by done. case_bool_decide; [|done]. intros [= <-].
  assert (L : length (take n (drop i l)) = n) by (rewrite length_take, length_drop; lia).
  split; [done|]. split.
  - rewrite <- L at 2. by rewrite be_enc_dec.
  - pose proof (be_dec_bound (take n (drop i l))) as B. unfold len in B. by rewrite L in B.
Qed.

Lemma rd_app {E} pre b post : rd (E:=E) (pre ++ b :: post) (length pre) = Ok b.
Proof. unfold rd. by rewrite list_lookup_middle. Qed.

Lemma slice_ok {E A} (l : list A) a b :
  (a <= b <= length l)%nat -> slice (E:=E) l a b = Ok (take (b - a) (drop a l)).
Proof. intros. unfold slice. by rewrite bool_decide_true by lia. Qed.

Lemma slice_from_ok {E A} (l : list A) a :
  (a <= length l)%nat -> slice_from (E:=E) l a = Ok (drop a l).
Proof.
  intros. unfold slice_from. rewrite slice_ok by lia. f_equal.
  apply take_ge. rewrite length_drop. lia.
Qed.

Lemma len_app {A} (a b : list A) : len (a ++ b) = len a + len b.
Proof. unfold len. rewrite length_app. lia. Qed.
Lemma len_nonneg {A} (a : list A) : 0 <= len a.
Proof. unfold len. lia. Qed.
Lemma len_cons {A} (a : A) l : len (a :: l) = 1 + len l.
Proof. unfold len. cbn [length]. lia. Qed.
Lemma len_nil {A} : len (@nil A) = 0.
Proof. done. Qed.
Lemma len_be_enc n z : len (be_enc n z) = Z.of_nat n.
Proof. unfold len. by rewrite length_be_enc. Qed.

#[export] Hint Rewrite @len_app @len_cons @len_nil len_be_enc @length_app length_be_enc
  @length_cons @length_nil : term_len.

(** Finish a goal about lengths. *)
Ltac len_lia := unfold len in *; autorewrite with term_len in *; unfold len in *; lia.

(** ** Reasoning about outcomes *)

Lemma bind_Ok {E A B} (m : res E A) (f : A -> res E B) b :
  m ≫= f = Ok b <-> exists a, m = Ok a /\ f a = Ok b.
Proof. destruct m; cbn; naive_solver. Qed.

Lemma fmap_Ok {E A B} (f : A -> B) (m : res E A) b :
  f <$> m = Ok b <-> exists a, m = Ok a /\ b = f a.
Proof. destruct m; cbn; naive_solver. Qed.

(** Invariants of left folds. *)
Lemma fold_inv {A B} (P : A -> Prop) (f : A -> B -> A) (l : list B) a :
  (forall a b, P a -> P (f a b)) -> P a -> P (foldl f a l).
Proof. intros Hf. revert a. induction l as [|b l IH]; intros a Ha; [done|]. cbn. apply IH. by apply Hf. Qed.

Lemma bind_no_panic {E A B} (m : res E A) (f : A -> res E B) :
  m <> Panic -> (forall a, m = Ok a -> f a <> Panic) -> m ≫= f <> Panic.
Proof. destruct m; cbn; naive_solver. Qed.

Lemma guard_err_Ok {E} c (e : E) u : guard_err c e = Ok u <-> c = false.
Proof. unfold guard_err. destruct c, u; naive_solver. Qed.

Lemma guard_err_no_panic {E} c (e : E) : guard_err c e <> Panic.
Proof. by destruct c. Qed.

Lemma ok_or_Ok {E A} (e : E) (o : option A) a : ok_or e o = Ok a <-> o = Some a.
Proof. destruct o; cbn; naive_solver. Qed.

Lemma ok_or_no_panic {E A} (e : E) (o : option A) : ok_or e o <> Panic.
Proof. by destruct o. Qed.

Lemma be_at_no_panic {E} n l i :
  (0 < n)%nat -> (i + n <= length l)%nat -> be_at (E:=E) n l i <> Panic.
Proof. intros. rewrite be_at_spec by done. by rewrite bool_decide_true. Qed.

Lemma rd_no_panic {E} l i : (i < length l)%nat -> rd (E:=E) l i <> Panic.
Proof. intros H. unfold rd. apply lookup_lt_is_Some in H as [b ->]. done. Qed.

Lemma slice_no_panic {E A} (l : list A) a b :
  (a <= b <= length l)%nat -> slice (E:=E) l a b <> Panic.
Proof. intros. by rewrite slice_ok. Qed.

Lemma slice_from_no_panic {E A} (l : list A) a :
  (a <= length l)%nat -> slice_from (E:=E) l a <> Panic.
Proof. intros. by rewrite slice_from_ok. Qed.

Lemma rd_Ok {E} l i b : rd (E:=E) l i = Ok b <-> l !! i = Some b.
Proof. unfold rd. destruct (l !! i); naive_solver. Qed.

Lemma slice_Ok {E A} (l : list A) a b s :
  slice (E:=E) l a b = Ok s <-> (a <= b <= length l)%nat /\ s = take (b - a) (drop a l).
Proof. unfold slice. case_bool_decide; naive_solver. Qed.

Lemma slice_from_Ok {E A} (l : list A) a s :
  slice_from (E:=E) l a = Ok s <-> (a <= length l)%nat /\ s = drop a l.
Proof.
  split.
  - unfold slice_from. rewrite slice_Ok. intros [? ->]. split; [lia|].
    apply take_ge. rewrite length_drop. lia.
  - intros [? ->]. by apply slice_from_ok.
Qed.

Lemma take_app_drop {A} n m (l : list A) :
  drop n l = take m (drop n l) ++ drop (n + m) l.
Proof. by rewrite <- drop_drop, take_drop. Qed.

(** Invert a hypothesis [_ = Ok _] about a monadic computation, step by step. *)
Ltac inv_res :=
  repeat match goal with
  | H : (_ ≫= _) = Ok _ |- _ => apply bind_Ok in H; destruct H as (? & ? & ?)
  | H : (_ <$> _) = Ok _ |- _ => apply fmap_Ok in H; destruct H as (? & ? & ?)
  | H : (let '(_, _) := ?x in _) = Ok _ |- _ => destruct x
  | H : (_, _) = (_, _) |- _ => injection H as ?
  | H : guard_err _ _ = Ok _ |- _ => apply guard_err_Ok in H
  | H : ok_or _ _ = Ok _ |- _ => apply ok_or_Ok in H
  | H : Ok _ = Ok _ |- _ => injection H as ?
  | H : Err _ = Ok _ |- _ => discriminate H
  | H : Panic = Ok _ |- _ => discriminate H
  end; subst.

Lemma filter_filter_bool {A} (f g : A -> bool) l : List.filter f (List.filter g l) = List.filter (fun a => g a && f a) l.
Proof. induction l as [|a l IH]; [done|]. cbn. destruct (g a); cbn; [|done]. by rewrite IH. Qed.

(** A closed, decidable statement, by evaluating its decision. *)
Ltac by_running := apply (bool_decide_unpack _); vm_compute; exact I.

(** Discharge a [_ <> Panic] goal whose indices are bounded by the guards. *)
Ltac no_panic :=
  repeat first
    [ discriminate
    | apply guard_err_no_panic
    | apply ok_or_no_panic
    | apply be_at_no_panic; [lia|len_lia]
    | apply rd_no_panic; len_lia
    | apply slice_no_panic; len_lia
    | apply slice_from_no_panic; len_lia
    | apply bind_no_panic; [|intros ? ?; inv_res; bool_to_prop] ].

(** ** Reading past a known prefix *)

Lemma be_at_app_l {E} n l r i :
  (0 < n)%nat -> (i + n <= length l)%nat -> be_at (E:=E) n (l ++ r) i = be_at n l i.
Proof.
  intros. rewrite !be_at_spec by done. rewrite length_app, !bool_decide_true by lia.
  by rewrite drop_app_le, take_app_le by (rewrite ?length_drop; lia).
Qed.

Lemma rd_app_l {E} l r i : (i < length l)%nat -> rd (E:=E) (l ++ r) i = rd l i.
Proof. intros. unfold rd. by rewrite lookup_app_l. Qed.

Lemma be_at_here {E} n z post :
  (0 < n)%nat -> 0 <= z < 256 ^ Z.of_nat n -> be_at (E:=E) n (be_enc n z ++ post) 0 = Ok z.
Proof. exact (be_at_app n [] z post). Qed.

Lemma be_at_skip {E} n pre l i :
  (0 < n)%nat -> (length pre <= i)%nat ->
  be_at (E:=E) n (pre ++ l) i = be_at n l (i - length pre).
Proof.
  intros. rewrite !be_at_spec by done. rewrite length_app, drop_app_ge by done.
  do 2 case_bool_decide; done || lia.
Qed.

Lemma be_at_cons {E} n b l i :
  (0 < n)%nat -> be_at (E:=E) n (b :: l) (S i) = be_at n l i.
Proof. intros. rewrite (be_at_skip n [b] l (S i)) by (cbn; lia). cbn. by rewrite Nat.sub_0_r. Qed.

Lemma rd_skip {E} pre l i :
  (length pre <= i)%nat -> rd (E:=E) (pre ++ l) i = rd l (i - length pre).
Proof. intros. unfold rd. by rewrite lookup_app_r. Qed.

Lemma slice_skip {E A} (pre l : list A) a b :
  (length pre <= a <= b)%nat -> slice (E:=E) (pre ++ l) a b = slice l (a - length pre) (b - length pre).
Proof.
  intros. unfold slice. rewrite length_app, drop_app_ge by lia.
  replace (b - length pre - (a - length pre))%nat with (b - a)%nat by lia.
  do 2 case_bool_decide; done || lia.
Qed.

Lemma slice_full {E A} (l : list A) n : n = length l -> slice (E:=E) l 0 n = Ok l.
Proof. intros ->. rewrite slice_ok by lia. by rewrite Nat.sub_0_r, drop_0, firstn_all. Qed.

Lemma slice_prefix {E A} (l post : list A) n :
  n = length l -> slice (E:=E) (l ++ post) 0 n = Ok l.
Proof.
  intros ->. rewrite slice_ok by (rewrite length_app; lia).
  by rewrite Nat.sub_0_r, drop_0, take_app_length.
Qed.

Lemma slice_from_skip {E A} (pre l : list A) n :
  (length pre <= n)%nat -> slice_from (E:=E) (pre ++ l) n = slice_from l (n - length pre).
Proof.
  intros. unfold slice_from, slice. rewrite length_app, drop_app_ge by lia.
  replace (length l - (n - length pre))%nat with (length pre + length l - n)%nat by lia.
  do 2 case_bool_decide; done || lia.
Qed.

Lemma slice_from_0 {E A} (l : list A) : slice_from (E:=E) l 0 = Ok l.
Proof. by apply slice_full. Qed.

Lemma be_at_all {E} n z : (0 < n)%nat -> 0 <= z < 256 ^ Z.of_nat n -> be_at (E:=E) n (be_enc n z) 0 = Ok z.
Proof. intros. rewrite <- (app_nil_r (be_enc n z)). by apply be_at_here. Qed.

Lemma u16_be z : u16 z -> 0 <= z < 256 ^ Z.of_nat 2.
Proof. done. Qed.
Lemma u32_be z : u32 z -> 0 <= z < 256 ^ Z.of_nat 4.
Proof. done. Qed.
Lemma u64_be z : u64 z -> 0 <= z < 256 ^ Z.of_nat 8.
Proof. done. Qed.
Lemma u8_be z : u8 z -> 0 <= z < 256 ^ Z.of_nat 1.
Proof. done. Qed.

#[export] Hint Resolve u8_be u16_be u32_be u64_be : term.

(** Evaluate reads at constant offsets of a concatenation of [be_enc] blocks. *)
Ltac off := rewrite ?length_be_enc; cbn [length Nat.add]; lia.
Ltac read_back :=
  repeat first
    [ rewrite be_at_here by (solve [lia | auto with term])
    | rewrite be_at_all by (solve [lia | auto with term])
    | rewrite be_at_skip by off
    | rewrite rd_skip by off
    | rewrite slice_skip by off
    | rewrite slice_from_skip by off
    | rewrite slice_from_0
    | progress (rewrite ?length_be_enc; cbn [Nat.sub mbind res_bind]) ].

Lemma byte_val_of_small z : u8 z -> byte_val (byte_of z) = z.
Proof. unfold u8. intros. rewrite byte_val_of. apply Z.mod_small. lia. Qed.

Lemma as_u32_small z : u32 z -> as_u32 z = z.
Proof. apply Z.mod_small. Qed.

Lemma guard_pass {E} c (e : E) : c = false -> guard_err c e = Ok tt.
Proof. by intros ->. Qed.

(** A successful read determines the front of what was read. *)
Lemma be_at_split {E} n l z :
  (0 < n)%nat -> be_at (E:=E) n l 0 = Ok z ->
  exists post, l = be_enc n z ++ post /\ 0 <= z < 256 ^ Z.of_nat n.
Proof.
  intros Hn H. apply be_at_Ok in H as (_ & H & ?); [|done]. rewrite drop_0 in H.
  exists (drop n l). by rewrite <- H, take_drop.
Qed.

Lemma rd_split {E} l b : rd (E:=E) l 0 = Ok b -> exists post, l = b :: post.
Proof. rewrite rd_Ok. destruct l; [done|]. intros [= ->]. eauto. Qed.

(** ** Lists with gaps *)

(** [a] is [b], up to some point, with at most [n] contiguous parts left out. *)
Inductive gappy {A} : nat -> list A -> list A -> Prop :=
| gappy_prefix n a b : a `prefix_of` b -> gappy n a b
| gappy_keep n pre a b : gappy n a b -> gappy n (pre ++ a) (pre ++ b)
| gappy_gap n k a b : gappy n a (drop k b) -> gappy (S n) a b.

Lemma gappy_none {A} (a b : list A) : gappy 0 a b -> a `prefix_of` b.
Proof.
  remember 0%nat as n. induction 1 as [|n pre a b _ IH|]; [done| |done]. apply prefix_app. by apply IH.
Qed.

Lemma gappy_shorter {A} n (a a' b : list A) : a' `prefix_of` a -> gappy n a b -> gappy n a' b.
Proof.
  intros P G. revert a' P. induction G as [n a b H|n pre a b _ IH|n k a b _ IH]; intros a' P.
  - apply gappy_prefix. by etrans.
  - destruct (prefix_weak_total a' pre (pre ++ a) P) as [P'|[l ->]]; [by apply prefix_app_r| |].
    + apply gappy_prefix. by apply prefix_app_r.
    + apply prefix_app_inv in P. by apply gappy_keep, IH.
  - by apply (gappy_gap _ k), IH.
Qed.

Lemma prefix_sublist {A} (a b : list A) : a `prefix_of` b -> a `sublist_of` b.
Proof. intros [c ->]. by apply sublist_inserts_r. Qed.

Lemma filter_sublist {A} (f : A -> bool) a b : a `sublist_of` b -> List.filter f a `sublist_of` List.filter f b.
Proof.
  induction 1 as [|x a b _ IH|x a b _ IH]; cbn; [done|destruct (f x); [by apply sublist_skip|done]|].
  destruct (f x); [by apply sublist_cons|done].
Qed.

(** A part of a list that weighs as much as the list is the list. *)
Lemma sublist_weight {A} (w : A -> nat) a b : a `sublist_of` b -> (sum_list (w <$> a) <= sum_list (w <$> b))%nat.
Proof. induction 1 as [|x a b _ IH|x a b _ IH]; cbn; lia. Qed.
Lemma sublist_same_weight {A} (w : A -> nat) a b :
  a `sublist_of` b -> Forall (fun x => (0 < w x)%nat) b -> (sum_list (w <$> b) <= sum_list (w <$> a))%nat -> a = b.
Proof.
  induction 1 as [|x a b _ IH|x a b S IH]; intros F L; [done|..]; apply Forall_cons in F as [Fx F]; cbn in L.
  - f_equal. apply IH; [done|lia].
  - apply (sublist_weight w) in S. lia.
Qed.
