(* ===== verification/Utf8.v ===== *)
(** * UTF-8, as Rust's [String] uses it

    [String::from_utf8], [str::is_char_boundary] and the loop with which
    [common/src/frame.rs] rounds a file name down to a character boundary.
    A Rust [String] is modelled as the list of its bytes; [utf8_valid] is the
    invariant the type carries. *)

From Stdlib Require Import Strings.Byte.
From stdpp Require Import prelude list.
From S2P Require Import Prelude.

(** The validator as an automaton: the bytes still expected after the current
    one.  [E0], [ED], [F0] and [F4] restrict their second byte (no overlong
    form, no surrogate, nothing above U+10FFFF). *)
Inductive ustate := UStart | UNeed1 | UNeed2 | UNeed3 | UAfterE0 | UAfterED | UAfterF0 | UAfterF4.

#[export] Instance ustate_eq_dec : EqDecision ustate.
Proof. solve_decision. Defined.

Definition in_range (lo hi v : Z) : bool := (lo <=? v) && (v <=? hi).

Definition utf8_step (s : ustate) (b : byte) : option ustate :=
  let v := byte_val b in
  match s with
  | UStart =>
      if v <? 128 then Some UStart
      else if in_range 194 223 v then Some UNeed1
      else if v =? 224 then Some UAfterE0
      else if v =? 237 then Some UAfterED
      else if in_range 225 239 v then Some UNeed2
      else if v =? 240 then Some UAfterF0
      else if in_range 241 243 v then Some UNeed3
      else if v =? 244 then Some UAfterF4
      else None
  | UNeed1 => if in_range 128 191 v then Some UStart else None
  | UNeed2 => if in_range 128 191 v then Some UNeed1 else None
  | UNeed3 => if in_range 128 191 v then Some UNeed2 else None
  | UAfterE0 => if in_range 160 191 v then Some UNeed1 else None
  | UAfterED => if in_range 128 159 v then Some UNeed1 else None
  | UAfterF0 => if in_range 144 191 v then Some UNeed2 else None
  | UAfterF4 => if in_range 128 143 v then Some UNeed2 else None
  end.

Fixpoint utf8_run (s : ustate) (l : list byte) : option ustate :=
  match l with
  | [] => Some s
  | b :: l => match utf8_step s b with Some s' => utf8_run s' l | None => None end
  end.

Definition utf8_valid (l : list byte) : bool := bool_decide (utf8_run UStart l = Some UStart).

(** [String::from_utf8(v).map_err(|_| e)] *)
Definition from_utf8 {E} (e : E) (l : list byte) : res E (list byte) :=
  if utf8_valid l then Ok l else Err e.

(** [str::is_char_boundary] *)
Definition is_char_boundary (s : list byte) (k : nat) : bool :=
  match k with
  | O => true
  | _ => match s !! k with
         | None => bool_decide (k = length s)
         | Some b => negb (in_range 128 191 (byte_val b))
         end
  end.

(** [while k > 0 && !name.is_char_boundary(k) { k -= 1; }] *)
Fixpoint floor_char_boundary (s : list byte) (k : nat) : nat :=
  match k with
  | O => O
  | S k' => if is_char_boundary s k then k else floor_char_boundary s k'
  end.

(** [str::is_ascii] *)
Definition is_ascii (b : byte) : bool := byte_val b <? 128.

(** ** Lemmas *)

Lemma in_range_spec lo hi v : in_range lo hi v = true <-> lo <= v <= hi.
Proof. unfold in_range. rewrite andb_true_iff, !Z.leb_le. done. Qed.

Lemma utf8_run_app s l1 l2 :
  utf8_run s (l1 ++ l2) = utf8_run s l1 ≫= fun s' => utf8_run s' l2.
Proof.
  revert s. induction l1 as [|b l1 IH]; intros s; [done|]. cbn.
  destruct (utf8_step s b); [apply IH|done].
Qed.

Lemma utf8_valid_run l : utf8_valid l = true <-> utf8_run UStart l = Some UStart.
Proof. unfold utf8_valid. by rewrite bool_decide_eq_true. Qed.

Lemma utf8_valid_app l1 l2 :
  utf8_valid l1 = true -> utf8_valid l2 = true -> utf8_valid (l1 ++ l2) = true.
Proof. rewrite !utf8_valid_run, utf8_run_app. intros -> H. done. Qed.

Lemma ascii_utf8_valid l : forallb is_ascii l = true -> utf8_valid l = true.
Proof.
  rewrite utf8_valid_run. induction l as [|b l IH]; [done|]. cbn [forallb utf8_run].
  rewrite andb_true_iff. intros [Hb Hl]. unfold is_ascii in Hb. unfold utf8_step.
  rewrite Hb. auto.
Qed.

(** Inside a character only a continuation byte is accepted. *)
Lemma utf8_step_cont s b s' :
  s <> UStart -> utf8_step s b = Some s' -> in_range 128 191 (byte_val b) = true.
Proof.
  intros Hs H. apply in_range_spec.
  destruct s; [done|..]; cbn in H;
    match type of H with (if ?c then _ else _) = _ => destruct c eqn:E; [|done] end;
    apply in_range_spec in E; lia.
Qed.

(** Cutting a valid string at a character boundary leaves a valid string. *)
Lemma utf8_valid_take s k :
  utf8_valid s = true -> is_char_boundary s k = true -> utf8_valid (take k s) = true.
Proof.
  rewrite !utf8_valid_run. intros Hv Hk.
  rewrite <- (take_drop k s), utf8_run_app in Hv.
  destruct (utf8_run UStart (take k s)) as [st|] eqn:Hr; [|done]. cbn in Hv.
  destruct k as [|k]; [done|].
  unfold is_char_boundary in Hk. destruct (s !! S k) as [b|] eqn:Hb.
  - rewrite (drop_S _ _ _ Hb) in Hv. cbn [utf8_run] in Hv.
    destruct (decide (st = UStart)) as [->|Hn]; [done|].
    destruct (utf8_step st b) as [st'|] eqn:Hst; [|done].
    apply utf8_step_cont in Hst; [|done]. by rewrite Hst in Hk.
  - apply bool_decide_eq_true in Hk. rewrite Hk, drop_all in Hv. done.
Qed.

Lemma floor_char_boundary_boundary s k :
  is_char_boundary s (floor_char_boundary s k) = true.
Proof.
  induction k as [|k IH]; [done|]. cbn [floor_char_boundary].
  destruct (is_char_boundary s (S k)) eqn:E; done.
Qed.

Lemma floor_char_boundary_le s k : (floor_char_boundary s k <= k)%nat.
Proof.
  induction k as [|k IH]; [done|]. cbn [floor_char_boundary].
  destruct (is_char_boundary s (S k)); lia.
Qed.

(** It is the highest boundary not above [k]. *)
Lemma floor_char_boundary_max s k j :
  (j <= k)%nat -> is_char_boundary s j = true -> (j <= floor_char_boundary s k)%nat.
Proof.
  induction k as [|k IH]; intros Hj Hb; [lia|]. cbn [floor_char_boundary].
  destruct (is_char_boundary s (S k)) eqn:E; [done|].
  destruct (decide (j = S k)) as [->|]; [congruence|]. apply IH; [lia|done].
Qed.

Lemma utf8_valid_floor s k :
  utf8_valid s = true -> utf8_valid (take (floor_char_boundary s k) s) = true.
Proof. intros. apply utf8_valid_take; [done|]. apply floor_char_boundary_boundary. Qed.

Lemma from_utf8_Ok {E} (e : E) l s : from_utf8 e l = Ok s -> s = l /\ utf8_valid l = true.
Proof. unfold from_utf8. destruct (utf8_valid l) eqn:V; [|done]. by intros [= ->]. Qed.

Lemma from_utf8_valid {E} (e : E) l : utf8_valid l = true -> from_utf8 e l = Ok l.
Proof. unfold from_utf8. by intros ->. Qed.

#[export] Hint Resolve utf8_valid_floor utf8_valid_app ascii_utf8_valid : term.
