(* ===== verification/Frame.v ===== *)
(** * Frame: the wire protocol ([common/src/frame.rs])

    The frame types, the payload caps, the typed errors, the encoder and the
    two decoding passes ([validate_header] on the 9-byte header, then
    [from_payload]).  A [String] field is the list of its UTF-8 bytes, an
    unsigned integer field is a [Z] in the range of its width. *)

From Stdlib Require Import Strings.Byte.
From stdpp Require Import prelude list.
From S2P Require Import Prelude Utf8.

(** ** Constants *)

Definition HEADER_LEN : Z := 9.
Definition MAX_DATA_LEN : Z := 64 * 1024.
Definition MAX_SESSION_ID_LEN : Z := 64.
Definition MAX_HELLO_LEN : Z := 1024.
Definition MAX_PING_LEN : Z := 64.
Definition MAX_PASTE_TOTAL_BYTES : Z := 4 * 1024 * 1024 * 1024 - 1.
Definition MAX_PASTE_CHUNK_BYTES : Z := 1024 * 1024.
Definition MAX_PASTE_NAME_LEN : Z := 255.
Definition MAX_PASTE_BEGIN_LEN : Z := 4 + 8 + 4 + 4 + 1 + MAX_PASTE_NAME_LEN.
Definition MAX_PASTE_CHUNK_LEN : Z := 4 + MAX_PASTE_CHUNK_BYTES.
Definition PASTE_END_LEN : Z := 4 + 1.
Definition PASTE_REJECT_LEN : Z := 4 + 1.
Definition PASTE_STATUS_OK : Z := 0.
Definition PASTE_STATUS_CANCEL : Z := 1.
Definition PASTE_REJECT_REGISTRY_FULL : Z := 0.
Definition PASTE_REJECT_OPEN_FAILED : Z := 1.
Definition PASTE_REJECT_SIZE_MISMATCH : Z := 2.
Definition PASTE_REJECT_WRITE_FAILED : Z := 3.
Definition PASTE_REJECT_DUPLICATE_PASTE : Z := 4.
Definition PASTE_REJECT_GROUP_OVERSIZE : Z := 5.
Definition PASTE_REJECT_NOT_CONTROLLER : Z := 6.
Definition PASTE_REJECT_MAX_REASON : Z := PASTE_REJECT_NOT_CONTROLLER.
Definition MAX_DOWNLOAD_BEGIN_LEN : Z := 4 + 8 + 1 + MAX_PASTE_NAME_LEN.
Definition MAX_DOWNLOAD_CHUNK_LEN : Z := 4 + MAX_PASTE_CHUNK_BYTES.
Definition DOWNLOAD_END_LEN : Z := 4 + 1.
Definition DOWNLOAD_STATUS_OK : Z := 0.
Definition DOWNLOAD_STATUS_CANCEL : Z := 1.
Definition MAX_OPEN_LEN : Z := MAX_SESSION_ID_LEN + 4.
Definition CONTROLLER_CHANGED_LEN : Z := 1.
Definition CONTROLLER_STATUS_NONE : Z := 0.
Definition CONTROLLER_STATUS_SELF : Z := 1.
Definition CONTROLLER_STATUS_OTHER : Z := 2.
Definition CONTROLLER_NONE_STREAM_ID : Z := 0.
Definition LIST_SESSIONS_LEN : Z := 4.
Definition MAX_SESSION_LIST_JSON_LEN : Z := 256 * 1024.
Definition MAX_SESSION_LIST_LEN : Z := 4 + 4 + MAX_SESSION_LIST_JSON_LEN.
Definition MAX_KILL_SESSION_LEN : Z := 4 + 1 + MAX_SESSION_ID_LEN.
Definition KILL_SESSION_ACK_LEN : Z := 4 + 1.
Definition KILL_STATUS_OK : Z := 0.
Definition KILL_STATUS_NOT_FOUND : Z := 1.
Definition KILL_STATUS_MAX : Z := KILL_STATUS_NOT_FOUND.
Definition CONTROL_STREAM : Z := 0.
Definition HELLO_VERSION : Z := 2.

(** ** Data *)

(** [enum FrameType] *)
Module Ty.
Inductive FrameType :=
| Data | Resize | Open | Close | Ping | Pong | Hello
| PasteBegin | PasteChunk | PasteEnd | PasteReject
| DownloadBegin | DownloadChunk | DownloadEnd
| AcquireControl | ReleaseControl | TakeControl | ControllerChanged
| ListSessions | SessionList | KillSession | KillSessionAck.
End Ty.
Abbreviation FrameType := Ty.FrameType.

#[export] Instance FrameType_eq_dec : EqDecision FrameType.
Proof. solve_decision. Defined.

(** [ty as u8]: the discriminants of the enum. *)
Definition type_byte (ty : FrameType) : Z :=
  match ty with
  | Ty.Data => 0 | Ty.Resize => 1 | Ty.Open => 2 | Ty.Close => 3
  | Ty.Ping => 4 | Ty.Pong => 5 | Ty.Hello => 6
  | Ty.PasteBegin => 7 | Ty.PasteChunk => 8 | Ty.PasteEnd => 9 | Ty.PasteReject => 10
  | Ty.DownloadBegin => 11 | Ty.DownloadChunk => 12 | Ty.DownloadEnd => 13
  | Ty.AcquireControl => 14 | Ty.ReleaseControl => 15 | Ty.TakeControl => 16
  | Ty.ControllerChanged => 17
  | Ty.ListSessions => 18 | Ty.SessionList => 19
  | Ty.KillSession => 20 | Ty.KillSessionAck => 21
  end.

(** [FrameType::from_u8] *)
Definition from_u8 (b : Z) : option FrameType :=
  match b with
  | 0 => Some Ty.Data | 1 => Some Ty.Resize | 2 => Some Ty.Open | 3 => Some Ty.Close
  | 4 => Some Ty.Ping | 5 => Some Ty.Pong | 6 => Some Ty.Hello
  | 7 => Some Ty.PasteBegin | 8 => Some Ty.PasteChunk
  | 9 => Some Ty.PasteEnd | 10 => Some Ty.PasteReject
  | 11 => Some Ty.DownloadBegin | 12 => Some Ty.DownloadChunk | 13 => Some Ty.DownloadEnd
  | 14 => Some Ty.AcquireControl | 15 => Some Ty.ReleaseControl | 16 => Some Ty.TakeControl
  | 17 => Some Ty.ControllerChanged
  | 18 => Some Ty.ListSessions | 19 => Some Ty.SessionList
  | 20 => Some Ty.KillSession | 21 => Some Ty.KillSessionAck
  | _ => None
  end.

(** The [io::ErrorKind]s the code builds or inspects. *)
Inductive IoKind := UnexpectedEof | InvalidData | OtherIo.

(** [enum FrameError] *)
Inductive FrameError :=
| Io (k : IoKind)
| UnknownType (b : Z)
| PayloadTooLarge (ty : FrameType) (l : Z) (max : Z)
| InvalidResizeLen (l : Z)
| InvalidCloseLen (l : Z)
| InvalidSessionId
| SessionIdNotUtf8
| ControlOnDataStream (id : Z)
| DataOnControlStream
| PasteBeginTruncated (l : Z)
| PasteBeginNameNotUtf8
| PasteBeginTotalSize (n : Z)
| PasteBeginGroupSizeZero (n : Z)
| PasteChunkTruncated (l : Z)
| PasteEndLen (l : Z)
| PasteEndStatus (s : Z)
| PasteRejectLen (l : Z)
| PasteRejectReason (r : Z)
| DownloadBeginTruncated (l : Z)
| DownloadBeginNameNotUtf8
| DownloadBeginTotalSize (n : Z)
| DownloadChunkTruncated (l : Z)
| DownloadEndLen (l : Z)
| DownloadEndStatus (s : Z)
| ControllerChangedLen (l : Z)
| ControllerChangedStatus (s : Z)
| ListSessionsLen (l : Z)
| SessionListTruncated (l : Z)
| SessionListJsonLen (l payload expected : Z)
| SessionListOverflow (l : Z)
| KillSessionTruncated (l : Z)
| KillSessionIdLen (id_len l : Z)
| KillSessionAckLen (l : Z)
| KillSessionAckStatus (s : Z)
| ControlFrameNonEmpty (ty : FrameType) (l : Z).

(** [enum Body] *)
Module Bd.
Inductive Body :=
| Data (bytes : list byte)
| Resize (rows cols : Z)
| Open (session_id : list byte) (initial_size : Z * Z)
| Close
| Ping (bytes : list byte)
| Pong (bytes : list byte)
| Hello (bytes : list byte)
| PasteBegin (paste_id total_size group_id group_size : Z) (name : list byte)
| PasteChunk (paste_id : Z) (bytes : list byte)
| PasteEnd (paste_id status : Z)
| PasteReject (paste_id reason : Z)
| DownloadBegin (download_id total_size : Z) (name : list byte)
| DownloadChunk (download_id : Z) (bytes : list byte)
| DownloadEnd (download_id status : Z)
| AcquireControl
| ReleaseControl
| TakeControl
| ControllerChanged (status : Z)
| ListSessions (request_id : Z)
| SessionList (request_id : Z) (json : list byte)
| KillSession (request_id : Z) (session_id : list byte)
| KillSessionAck (request_id status : Z).
End Bd.
Abbreviation Body := Bd.Body.

#[export] Instance Body_eq_dec : EqDecision Body.
Proof. solve_decision. Defined.

(** [struct Frame] *)
Record Frame := mk_frame { stream_id : Z; body : Body }.

#[export] Instance Frame_eq_dec : EqDecision Frame.
Proof. solve_decision. Defined.

(** [Frame::ty] *)
Definition ty (f : Frame) : FrameType :=
  match body f with
  | Bd.Data _ => Ty.Data
  | Bd.Resize _ _ => Ty.Resize
  | Bd.Open _ _ => Ty.Open
  | Bd.Close => Ty.Close
  | Bd.Ping _ => Ty.Ping
  | Bd.Pong _ => Ty.Pong
  | Bd.Hello _ => Ty.Hello
  | Bd.PasteBegin _ _ _ _ _ => Ty.PasteBegin
  | Bd.PasteChunk _ _ => Ty.PasteChunk
  | Bd.PasteEnd _ _ => Ty.PasteEnd
  | Bd.PasteReject _ _ => Ty.PasteReject
  | Bd.DownloadBegin _ _ _ => Ty.DownloadBegin
  | Bd.DownloadChunk _ _ => Ty.DownloadChunk
  | Bd.DownloadEnd _ _ => Ty.DownloadEnd
  | Bd.AcquireControl => Ty.AcquireControl
  | Bd.ReleaseControl => Ty.ReleaseControl
  | Bd.TakeControl => Ty.TakeControl
  | Bd.ControllerChanged _ => Ty.ControllerChanged
  | Bd.ListSessions _ => Ty.ListSessions
  | Bd.SessionList _ _ => Ty.SessionList
  | Bd.KillSession _ _ => Ty.KillSession
  | Bd.KillSessionAck _ _ => Ty.KillSessionAck
  end.

(** The constructors of [impl Frame]; the ones for stream-0 frames pin the id. *)
Definition data sid bytes := mk_frame sid (Bd.Data bytes).
Definition resize sid rows cols := mk_frame sid (Bd.Resize rows cols).
Definition open sid session_id initial_size := mk_frame sid (Bd.Open session_id initial_size).
Definition close sid := mk_frame sid Bd.Close.
Definition ping payload := mk_frame CONTROL_STREAM (Bd.Ping payload).
Definition pong payload := mk_frame CONTROL_STREAM (Bd.Pong payload).
Definition hello payload := mk_frame CONTROL_STREAM (Bd.Hello payload).
Definition paste_begin sid paste_id total_size group_id group_size name :=
  mk_frame sid (Bd.PasteBegin paste_id total_size group_id group_size name).
Definition paste_chunk sid paste_id bytes := mk_frame sid (Bd.PasteChunk paste_id bytes).
Definition paste_end sid paste_id status := mk_frame sid (Bd.PasteEnd paste_id status).
Definition paste_reject sid paste_id reason := mk_frame sid (Bd.PasteReject paste_id reason).
Definition download_begin sid download_id total_size name :=
  mk_frame sid (Bd.DownloadBegin download_id total_size name).
Definition download_chunk sid download_id bytes := mk_frame sid (Bd.DownloadChunk download_id bytes).
Definition download_end sid download_id status := mk_frame sid (Bd.DownloadEnd download_id status).
Definition acquire_control sid := mk_frame sid Bd.AcquireControl.
Definition release_control sid := mk_frame sid Bd.ReleaseControl.
Definition take_control sid := mk_frame sid Bd.TakeControl.
Definition controller_changed sid status := mk_frame sid (Bd.ControllerChanged status).
Definition list_sessions request_id := mk_frame CONTROL_STREAM (Bd.ListSessions request_id).
Definition session_list request_id json := mk_frame CONTROL_STREAM (Bd.SessionList request_id json).
Definition kill_session request_id session_id :=
  mk_frame CONTROL_STREAM (Bd.KillSession request_id session_id).
Definition kill_session_ack request_id status :=
  mk_frame CONTROL_STREAM (Bd.KillSessionAck request_id status).

(** ** Encoding *)

(** The number of name bytes [encode] keeps: all of them up to the cap, else
    the cap rounded down to a character boundary. *)
Definition name_cut (name : list byte) : nat :=
  let max := Z.to_nat MAX_PASTE_NAME_LEN in
  if bool_decide (length name <= max)%nat then length name
  else floor_char_boundary name max.

(** The two arms of [encode] that cut an over-long name. *)
Definition paste_begin_payload (paste_id total_size group_id group_size : Z)
    (name : list byte) : list byte :=
  let n := name_cut name in
  be_enc 4 paste_id ++ be_enc 8 total_size ++ be_enc 4 group_id ++ be_enc 4 group_size
    ++ byte_of (Z.of_nat n) :: take n name.
Definition download_begin_payload (download_id total_size : Z) (name : list byte) : list byte :=
  let n := name_cut name in
  be_enc 4 download_id ++ be_enc 8 total_size ++ byte_of (Z.of_nat n) :: take n name.

(** The [match &self.body] of [encode]. *)
Definition payload (b : Body) : list byte :=
  match b with
  | Bd.Data b => b
  | Bd.Open session_id (rows, cols) => session_id ++ be_enc 2 rows ++ be_enc 2 cols
  | Bd.Ping b | Bd.Pong b | Bd.Hello b => b
  | Bd.Close => []
  | Bd.Resize rows cols => be_enc 2 rows ++ be_enc 2 cols
  | Bd.PasteBegin paste_id total_size group_id group_size name =>
      paste_begin_payload paste_id total_size group_id group_size name
  | Bd.PasteChunk paste_id bytes => be_enc 4 paste_id ++ bytes
  | Bd.PasteEnd paste_id status => be_enc 4 paste_id ++ [byte_of status]
  | Bd.PasteReject paste_id reason => be_enc 4 paste_id ++ [byte_of reason]
  | Bd.DownloadBegin download_id total_size name =>
      download_begin_payload download_id total_size name
  | Bd.DownloadChunk download_id bytes => be_enc 4 download_id ++ bytes
  | Bd.DownloadEnd download_id status => be_enc 4 download_id ++ [byte_of status]
  | Bd.AcquireControl | Bd.ReleaseControl | Bd.TakeControl => []
  | Bd.ControllerChanged status => [byte_of status]
  | Bd.ListSessions request_id => be_enc 4 request_id
  | Bd.SessionList request_id json =>
      be_enc 4 request_id ++ be_enc 4 (as_u32 (len json)) ++ json
  | Bd.KillSession request_id session_id =>
      let n := Nat.min (length session_id) (Z.to_nat MAX_SESSION_ID_LEN) in
      be_enc 4 request_id ++ byte_of (Z.of_nat n) :: take n session_id
  | Bd.KillSessionAck request_id status => be_enc 4 request_id ++ [byte_of status]
  end.

(** [Frame::encode] *)
Definition encode (f : Frame) : list byte :=
  let p := payload (body f) in
  be_enc 4 (stream_id f) ++ byte_of (type_byte (ty f)) :: be_enc 4 (as_u32 (len p)) ++ p.

(** [encode_download_chunk] *)
Definition encode_download_chunk (sid download_id : Z) (bytes : list byte) : list byte :=
  let payload_len := 4 + len bytes in
  be_enc 4 sid ++ byte_of (type_byte Ty.DownloadChunk) :: be_enc 4 (as_u32 payload_len)
    ++ be_enc 4 download_id ++ bytes.

(** ** Decoding, first pass: the header *)

(** The two stream guards every arm of [validate_header] starts with. *)
Definition on_data_stream (sid : Z) : res FrameError unit :=
  guard_err (sid =? CONTROL_STREAM) DataOnControlStream.
Definition on_control_stream (sid : Z) : res FrameError unit :=
  guard_err (negb (sid =? CONTROL_STREAM)) (ControlOnDataStream sid).

(** Data, Resize, Open, Close. *)
Definition vh_terminal (sid : Z) (ty : FrameType) (l : Z) : res FrameError unit :=
  on_data_stream sid ;;
  match ty with
  | Ty.Data => guard_err (l >? MAX_DATA_LEN) (PayloadTooLarge ty l MAX_DATA_LEN)
  | Ty.Resize => guard_err (negb (l =? 4)) (InvalidResizeLen l)
  | Ty.Open =>
      guard_err (negb ((5 <=? l) && (l <=? MAX_OPEN_LEN))) (PayloadTooLarge ty l MAX_OPEN_LEN)
  | _ => guard_err (negb (l =? 0)) (InvalidCloseLen l)
  end.

(** Ping, Pong, Hello. *)
Definition vh_control (sid : Z) (ty : FrameType) (l : Z) : res FrameError unit :=
  on_control_stream sid ;;
  match ty with
  | Ty.Hello =>
      guard_err ((l =? 0) || (l >? MAX_HELLO_LEN)) (PayloadTooLarge ty l MAX_HELLO_LEN)
  | _ => guard_err (l >? MAX_PING_LEN) (PayloadTooLarge ty l MAX_PING_LEN)
  end.

(** PasteBegin, PasteChunk, PasteEnd, PasteReject. *)
Definition vh_paste (sid : Z) (ty : FrameType) (l : Z) : res FrameError unit :=
  on_data_stream sid ;;
  match ty with
  | Ty.PasteBegin =>
      guard_err (l <? 21) (PasteBeginTruncated l) ;;
      guard_err (l >? MAX_PASTE_BEGIN_LEN) (PayloadTooLarge ty l MAX_PASTE_BEGIN_LEN)
  | Ty.PasteChunk =>
      guard_err (l <? 4) (PasteChunkTruncated l) ;;
      guard_err (l >? MAX_PASTE_CHUNK_LEN) (PayloadTooLarge ty l MAX_PASTE_CHUNK_LEN)
  | Ty.PasteEnd => guard_err (negb (l =? PASTE_END_LEN)) (PasteEndLen l)
  | _ => guard_err (negb (l =? PASTE_REJECT_LEN)) (PasteRejectLen l)
  end.

(** DownloadBegin, DownloadChunk, DownloadEnd. *)
Definition vh_download (sid : Z) (ty : FrameType) (l : Z) : res FrameError unit :=
  on_data_stream sid ;;
  match ty with
  | Ty.DownloadBegin =>
      guard_err (l <? 13) (DownloadBeginTruncated l) ;;
      guard_err (l >? MAX_DOWNLOAD_BEGIN_LEN) (PayloadTooLarge ty l MAX_DOWNLOAD_BEGIN_LEN)
  | Ty.DownloadChunk =>
      guard_err (l <? 4) (DownloadChunkTruncated l) ;;
      guard_err (l >? MAX_DOWNLOAD_CHUNK_LEN) (PayloadTooLarge ty l MAX_DOWNLOAD_CHUNK_LEN)
  | _ => guard_err (negb (l =? DOWNLOAD_END_LEN)) (DownloadEndLen l)
  end.

(** AcquireControl, ReleaseControl, TakeControl, ControllerChanged. *)
Definition vh_controller (sid : Z) (ty : FrameType) (l : Z) : res FrameError unit :=
  on_data_stream sid ;;
  match ty with
  | Ty.ControllerChanged =>
      guard_err (negb (l =? CONTROLLER_CHANGED_LEN)) (ControllerChangedLen l)
  | _ => guard_err (negb (l =? 0)) (ControlFrameNonEmpty ty l)
  end.

(** ListSessions, SessionList, KillSession, KillSessionAck. *)
Definition vh_admin (sid : Z) (ty : FrameType) (l : Z) : res FrameError unit :=
  on_control_stream sid ;;
  match ty with
  | Ty.ListSessions => guard_err (negb (l =? LIST_SESSIONS_LEN)) (ListSessionsLen l)
  | Ty.SessionList =>
      guard_err (l <? 8) (SessionListTruncated l) ;;
      guard_err (l >? MAX_SESSION_LIST_LEN) (SessionListOverflow l)
  | Ty.KillSession =>
      guard_err (l <? 5) (KillSessionTruncated l) ;;
      guard_err (l >? MAX_KILL_SESSION_LEN) (PayloadTooLarge ty l MAX_KILL_SESSION_LEN)
  | _ => guard_err (negb (l =? KILL_SESSION_ACK_LEN)) (KillSessionAckLen l)
  end.

(** [Frame::validate_header] *)
Definition validate_header (sid ty_byte l : Z) : res FrameError (FrameType * Z) :=
  ty ← ok_or (UnknownType ty_byte) (from_u8 ty_byte);
  match ty with
  | Ty.Data | Ty.Resize | Ty.Open | Ty.Close => vh_terminal sid ty l
  | Ty.Ping | Ty.Pong | Ty.Hello => vh_control sid ty l
  | Ty.PasteBegin | Ty.PasteChunk | Ty.PasteEnd | Ty.PasteReject => vh_paste sid ty l
  | Ty.DownloadBegin | Ty.DownloadChunk | Ty.DownloadEnd => vh_download sid ty l
  | Ty.AcquireControl | Ty.ReleaseControl | Ty.TakeControl
  | Ty.ControllerChanged => vh_controller sid ty l
  | Ty.ListSessions | Ty.SessionList | Ty.KillSession | Ty.KillSessionAck => vh_admin sid ty l
  end ;;
  Ok (ty, l).

(** ** Decoding, second pass: the payload *)

Definition is_ascii_alphanumeric (b : byte) : bool :=
  let v := byte_val b in in_range 48 57 v || in_range 65 90 v || in_range 97 122 v.

Definition id_byte (b : byte) : bool :=
  is_ascii_alphanumeric b || bool_decide (b = "_"%byte) || bool_decide (b = "-"%byte).

(** [is_valid_session_id] *)
Definition is_valid_session_id (s : list byte) : bool :=
  if (len s =? 0) || (len s >? MAX_SESSION_ID_LEN) then false else forallb id_byte s.

(** [payload.len() as u32] *)
Definition len32 (p : list byte) : Z := as_u32 (len p).

Definition fp_open (p : list byte) : res FrameError Body :=
  guard_err (len p <? 5) (PayloadTooLarge Ty.Open (len32 p) MAX_OPEN_LEN) ;;
  let split := (length p - 4)%nat in
  rows ← be_at 2 p split;
  cols ← be_at 2 p (split + 2);
  id_bytes ← slice p 0 split;
  s ← from_utf8 SessionIdNotUtf8 id_bytes;
  guard_err (negb (is_valid_session_id s)) InvalidSessionId ;;
  Ok (Bd.Open s (rows, cols)).

Definition fp_resize (p : list byte) : res FrameError Body :=
  guard_err (negb (len p =? 4)) (InvalidResizeLen (len32 p)) ;;
  rows ← be_at 2 p 0; cols ← be_at 2 p 2; Ok (Bd.Resize rows cols).

Definition fp_paste_begin (p : list byte) : res FrameError Body :=
  guard_err (len p <? 21) (PasteBeginTruncated (len32 p)) ;;
  paste_id ← be_at 4 p 0;
  total_size ← be_at 8 p 4;
  guard_err (total_size >? MAX_PASTE_TOTAL_BYTES) (PasteBeginTotalSize total_size) ;;
  group_id ← be_at 4 p 12;
  group_size ← be_at 4 p 16;
  guard_err (group_size =? 0) (PasteBeginGroupSizeZero group_size) ;;
  nl ← rd p 20;
  let name_end := (21 + Z.to_nat (byte_val nl))%nat in
  guard_err (negb (bool_decide (length p = name_end))) (PasteBeginTruncated (len32 p)) ;;
  nb ← slice p 21 name_end;
  name ← from_utf8 PasteBeginNameNotUtf8 nb;
  Ok (Bd.PasteBegin paste_id total_size group_id group_size name).

Definition fp_paste_chunk (p : list byte) : res FrameError Body :=
  guard_err (len p <? 4) (PasteChunkTruncated (len32 p)) ;;
  paste_id ← be_at 4 p 0;
  guard_err (len p >? 4 + MAX_PASTE_CHUNK_BYTES)
    (PayloadTooLarge Ty.PasteChunk (len32 p) MAX_PASTE_CHUNK_LEN) ;;
  bytes ← slice_from p 4;
  Ok (Bd.PasteChunk paste_id bytes).

Definition fp_paste_end (p : list byte) : res FrameError Body :=
  guard_err (negb (len p =? PASTE_END_LEN)) (PasteEndLen (len32 p)) ;;
  paste_id ← be_at 4 p 0;
  status ← rd p 4;
  guard_err (negb (byte_val status =? PASTE_STATUS_OK)
             && negb (byte_val status =? PASTE_STATUS_CANCEL)) (PasteEndStatus (byte_val status)) ;;
  Ok (Bd.PasteEnd paste_id (byte_val status)).

Definition fp_paste_reject (p : list byte) : res FrameError Body :=
  guard_err (negb (len p =? PASTE_REJECT_LEN)) (PasteRejectLen (len32 p)) ;;
  paste_id ← be_at 4 p 0;
  reason ← rd p 4;
  guard_err (byte_val reason >? PASTE_REJECT_MAX_REASON) (PasteRejectReason (byte_val reason)) ;;
  Ok (Bd.PasteReject paste_id (byte_val reason)).

Definition fp_download_begin (p : list byte) : res FrameError Body :=
  guard_err (len p <? 13) (DownloadBeginTruncated (len32 p)) ;;
  download_id ← be_at 4 p 0;
  total_size ← be_at 8 p 4;
  guard_err (total_size >? MAX_PASTE_TOTAL_BYTES) (DownloadBeginTotalSize total_size) ;;
  nl ← rd p 12;
  let name_end := (13 + Z.to_nat (byte_val nl))%nat in
  guard_err (negb (bool_decide (length p = name_end))) (DownloadBeginTruncated (len32 p)) ;;
  nb ← slice p 13 name_end;
  name ← from_utf8 DownloadBeginNameNotUtf8 nb;
  Ok (Bd.DownloadBegin download_id total_size name).

Definition fp_download_chunk (p : list byte) : res FrameError Body :=
  guard_err (len p <? 4) (DownloadChunkTruncated (len32 p)) ;;
  download_id ← be_at 4 p 0;
  guard_err (len p >? 4 + MAX_PASTE_CHUNK_BYTES)
    (PayloadTooLarge Ty.DownloadChunk (len32 p) MAX_DOWNLOAD_CHUNK_LEN) ;;
  bytes ← slice_from p 4;
  Ok (Bd.DownloadChunk download_id bytes).

Definition fp_download_end (p : list byte) : res FrameError Body :=
  guard_err (negb (len p =? DOWNLOAD_END_LEN)) (DownloadEndLen (len32 p)) ;;
  download_id ← be_at 4 p 0;
  status ← rd p 4;
  guard_err (negb (byte_val status =? DOWNLOAD_STATUS_OK)
             && negb (byte_val status =? DOWNLOAD_STATUS_CANCEL))
    (DownloadEndStatus (byte_val status)) ;;
  Ok (Bd.DownloadEnd download_id (byte_val status)).

Definition fp_controller_changed (p : list byte) : res FrameError Body :=
  guard_err (negb (len p =? CONTROLLER_CHANGED_LEN)) (ControllerChangedLen (len32 p)) ;;
  status ← rd p 0;
  guard_err (byte_val status >? CONTROLLER_STATUS_OTHER)
    (ControllerChangedStatus (byte_val status)) ;;
  Ok (Bd.ControllerChanged (byte_val status)).

Definition fp_list_sessions (p : list byte) : res FrameError Body :=
  guard_err (negb (len p =? LIST_SESSIONS_LEN)) (ListSessionsLen (len32 p)) ;;
  request_id ← be_at 4 p 0;
  Ok (Bd.ListSessions request_id).

Definition fp_session_list (p : list byte) : res FrameError Body :=
  guard_err (len p <? 8) (SessionListTruncated (len32 p)) ;;
  request_id ← be_at 4 p 0;
  json_len ← be_at 4 p 4;
  let json_actual := as_u32 (len p - 8) in
  guard_err (negb (json_len =? json_actual))
    (SessionListJsonLen json_len (len32 p) (sat_add32 json_len 8)) ;;
  json ← slice_from p 8;
  Ok (Bd.SessionList request_id json).

Definition fp_kill_session (p : list byte) : res FrameError Body :=
  guard_err (len p <? 5) (KillSessionTruncated (len32 p)) ;;
  request_id ← be_at 4 p 0;
  id_len ← rd p 4;
  let id_end := (5 + Z.to_nat (byte_val id_len))%nat in
  guard_err (negb (bool_decide (length p = id_end)))
    (KillSessionIdLen (byte_val id_len) (len32 p)) ;;
  ib ← slice p 5 id_end;
  session_id ← from_utf8 SessionIdNotUtf8 ib;
  guard_err (negb (is_valid_session_id session_id)) InvalidSessionId ;;
  Ok (Bd.KillSession request_id session_id).

Definition fp_kill_session_ack (p : list byte) : res FrameError Body :=
  guard_err (negb (len p =? KILL_SESSION_ACK_LEN)) (KillSessionAckLen (len32 p)) ;;
  request_id ← be_at 4 p 0;
  status ← rd p 4;
  guard_err (byte_val status >? KILL_STATUS_MAX) (KillSessionAckStatus (byte_val status)) ;;
  Ok (Bd.KillSessionAck request_id (byte_val status)).

(** [Frame::from_payload] *)
Definition from_payload (sid : Z) (ty : FrameType) (p : list byte) : res FrameError Frame :=
  body ← match ty with
  | Ty.Data => Ok (Bd.Data p)
  | Ty.Open => fp_open p
  | Ty.Close => Ok Bd.Close
  | Ty.Resize => fp_resize p
  | Ty.Ping => Ok (Bd.Ping p)
  | Ty.Pong => Ok (Bd.Pong p)
  | Ty.Hello => Ok (Bd.Hello p)
  | Ty.PasteBegin => fp_paste_begin p
  | Ty.PasteChunk => fp_paste_chunk p
  | Ty.PasteEnd => fp_paste_end p
  | Ty.PasteReject => fp_paste_reject p
  | Ty.DownloadBegin => fp_download_begin p
  | Ty.DownloadChunk => fp_download_chunk p
  | Ty.DownloadEnd => fp_download_end p
  | Ty.AcquireControl => Ok Bd.AcquireControl
  | Ty.ReleaseControl => Ok Bd.ReleaseControl
  | Ty.TakeControl => Ok Bd.TakeControl
  | Ty.ControllerChanged => fp_controller_changed p
  | Ty.ListSessions => fp_list_sessions p
  | Ty.SessionList => fp_session_list p
  | Ty.KillSession => fp_kill_session p
  | Ty.KillSessionAck => fp_kill_session_ack p
  end;
  Ok (mk_frame sid body).

(** ** Well-formed frames *)

(** The ranges the Rust types impose on every value. *)
Definition body_typed (b : Body) : Prop :=
  match b with
  | Bd.Data _ | Bd.Close | Bd.Ping _ | Bd.Pong _ | Bd.Hello _
  | Bd.AcquireControl | Bd.ReleaseControl | Bd.TakeControl => True
  | Bd.Resize rows cols => u16 rows /\ u16 cols
  | Bd.Open s (rows, cols) => utf8_valid s = true /\ u16 rows /\ u16 cols
  | Bd.PasteBegin pid total gid gsize name =>
      u32 pid /\ u64 total /\ u32 gid /\ u32 gsize /\ utf8_valid name = true
  | Bd.PasteChunk i _ | Bd.DownloadChunk i _ | Bd.ListSessions i | Bd.SessionList i _ => u32 i
  | Bd.PasteEnd i s | Bd.PasteReject i s | Bd.DownloadEnd i s | Bd.KillSessionAck i s =>
      u32 i /\ u8 s
  | Bd.DownloadBegin i total name => u32 i /\ u64 total /\ utf8_valid name = true
  | Bd.ControllerChanged s => u8 s
  | Bd.KillSession i s => u32 i /\ utf8_valid s = true
  end.

(** The protocol's own restrictions (the caps of the README's table). *)
Definition body_legal (b : Body) : Prop :=
  match b with
  | Bd.Data b => len b <= MAX_DATA_LEN
  | Bd.Resize _ _ | Bd.Close | Bd.AcquireControl | Bd.ReleaseControl | Bd.TakeControl
  | Bd.ListSessions _ => True
  | Bd.Open s _ | Bd.KillSession _ s => is_valid_session_id s = true
  | Bd.Ping b | Bd.Pong b => len b <= MAX_PING_LEN
  | Bd.Hello b => 0 < len b <= MAX_HELLO_LEN
  | Bd.PasteBegin _ total _ gsize name =>
      total <= MAX_PASTE_TOTAL_BYTES /\ gsize <> 0 /\ len name <= MAX_PASTE_NAME_LEN
  | Bd.PasteChunk _ b | Bd.DownloadChunk _ b => len b <= MAX_PASTE_CHUNK_BYTES
  | Bd.PasteEnd _ s | Bd.DownloadEnd _ s => s <= 1
  | Bd.PasteReject _ r => r <= PASTE_REJECT_MAX_REASON
  | Bd.DownloadBegin _ total name =>
      total <= MAX_PASTE_TOTAL_BYTES /\ len name <= MAX_PASTE_NAME_LEN
  | Bd.ControllerChanged s => s <= CONTROLLER_STATUS_OTHER
  | Bd.SessionList _ json => len json <= MAX_SESSION_LIST_JSON_LEN
  | Bd.KillSessionAck _ s => s <= KILL_STATUS_MAX
  end.

(** Which frames travel on stream 0. *)
Definition is_control_type (ty : FrameType) : bool :=
  match ty with
  | Ty.Ping | Ty.Pong | Ty.Hello
  | Ty.ListSessions | Ty.SessionList | Ty.KillSession | Ty.KillSessionAck => true
  | _ => false
  end.

Record wf_frame (f : Frame) : Prop := {
  wf_sid : u32 (stream_id f);
  wf_stream : (stream_id f =? CONTROL_STREAM) = is_control_type (ty f);
  wf_typed : body_typed (body f);
  wf_legal : body_legal (body f);
}.
