(* ===== verification/FrameFacts.v ===== *)
(** * FrameFacts: correctness of the frame codec

    The encoder and the two decoding passes of [Frame] are inverse to each
    other on the legal frames, decoding never panics, and the encoder's
    truncation of file names keeps them valid UTF-8. *)

From Stdlib Require Import Strings.Byte.
From stdpp Require Import prelude strings list.
From S2P Require Import Prelude Utf8 Frame.

(** ** Frame types *)

Lemma from_u8_type_byte t : from_u8 (type_byte t) = Some t.
Proof. by destruct t. Qed.

Lemma from_u8_Some b t : from_u8 b = Some t -> b = type_byte t.
Proof.
  unfold from_u8. intros H.
  repeat match type of H with
  | Some _ = Some _ => injection H as <-; reflexivity
  | None = Some _ => discriminate H
  | (match ?x with _ => _ end) = _ => destruct x
  end.
Qed.

Lemma type_byte_range t : 0 <= type_byte t < 22.
Proof. destruct t; cbn; lia. Qed.

Lemma byte_val_type_byte t : byte_val (byte_of (type_byte t)) = type_byte t.
Proof. apply byte_val_of_small. pose proof (type_byte_range t). unfold u8. lia. Qed.

(** ** No panic *)

Lemma from_utf8_no_panic {E} (e : E) l : from_utf8 e l <> Panic.
Proof. unfold from_utf8. by destruct (utf8_valid l). Qed.

Ltac body_no_panic :=
  repeat first [ apply from_utf8_no_panic | progress no_panic | intros ? ? ].

Lemma body_dec_no_panic sid t p : from_payload sid t p <> Panic.
Proof.
  unfold from_payload. apply bind_no_panic; [|done].
  destruct t; try done;
    unfold fp_open, fp_resize, fp_paste_begin, fp_paste_chunk, fp_paste_end, fp_paste_reject,
      fp_download_begin, fp_download_chunk, fp_download_end, fp_controller_changed,
      fp_list_sessions, fp_session_list, fp_kill_session, fp_kill_session_ack;
    unfold PASTE_END_LEN, PASTE_REJECT_LEN, DOWNLOAD_END_LEN, CONTROLLER_CHANGED_LEN,
      LIST_SESSIONS_LEN, KILL_SESSION_ACK_LEN; body_no_panic.
Qed.

(** ** Decoding what was encoded *)

Lemma id_byte_ascii b : id_byte b = true -> is_ascii b = true.
Proof.
  unfold id_byte, is_ascii_alphanumeric, is_ascii, in_range. intros H.
  apply Z.ltb_lt. rewrite !orb_true_iff, !andb_true_iff, !Z.leb_le, !bool_decide_eq_true in H.
  destruct H as [[H| ->]| ->]; [lia|done..].
Qed.

Lemma session_id_utf8 s : is_valid_session_id s = true -> utf8_valid s = true.
Proof.
  unfold is_valid_session_id. destruct (_ || _); [done|]. intros H.
  apply ascii_utf8_valid. rewrite forallb_forall in H |- *.
  intros b Hb. by apply id_byte_ascii, H.
Qed.

Lemma session_id_len s : is_valid_session_id s = true -> 0 < len s <= 64.
Proof.
  unfold is_valid_session_id, MAX_SESSION_ID_LEN.
  destruct (_ || _) eqn:E; [done|]. bool_to_prop. pose proof (len_nonneg s).
  rewrite Z.gtb_ltb in *. bool_to_prop. lia.
Qed.

Lemma name_cut_all name : len name <= MAX_PASTE_NAME_LEN -> name_cut name = length name.
Proof. unfold name_cut, len, MAX_PASTE_NAME_LEN. intros. rewrite bool_decide_true; [done|lia]. Qed.

Ltac consts :=
  unfold MAX_DATA_LEN, MAX_PING_LEN, MAX_HELLO_LEN, MAX_PASTE_TOTAL_BYTES,
    MAX_PASTE_BEGIN_LEN, MAX_DOWNLOAD_BEGIN_LEN, MAX_OPEN_LEN, MAX_PASTE_NAME_LEN,
    MAX_PASTE_CHUNK_LEN, MAX_DOWNLOAD_CHUNK_LEN, MAX_PASTE_CHUNK_BYTES, PASTE_END_LEN,
    PASTE_REJECT_LEN, PASTE_REJECT_MAX_REASON, PASTE_REJECT_NOT_CONTROLLER, DOWNLOAD_END_LEN,
    PASTE_STATUS_OK, PASTE_STATUS_CANCEL, DOWNLOAD_STATUS_OK, DOWNLOAD_STATUS_CANCEL,
    CONTROLLER_CHANGED_LEN, CONTROLLER_STATUS_OTHER, LIST_SESSIONS_LEN, KILL_SESSION_ACK_LEN,
    KILL_STATUS_MAX, KILL_STATUS_NOT_FOUND, MAX_SESSION_LIST_LEN, MAX_SESSION_LIST_JSON_LEN,
    MAX_KILL_SESSION_LEN, MAX_SESSION_ID_LEN, CONTROL_STREAM in *.

(** Show that a guard of the decoder does not fire. *)
Ltac pass :=
  rewrite guard_pass by (bool_goal; consts; first [assumption | len_lia]); cbn [mbind res_bind].

Lemma fp_open_back s rows cols :
  is_valid_session_id s = true -> u16 rows -> u16 cols ->
  fp_open (payload (Bd.Open s (rows, cols))) = Ok (Bd.Open s (rows, cols)).
Proof.
  intros V Hr Hc. pose proof (session_id_len s V). unfold fp_open. cbn [payload]. pass.
  assert (L : (length (s ++ be_enc 2 rows ++ be_enc 2 cols) - 4)%nat = length s) by len_lia.
  rewrite L, slice_prefix by done.
  rewrite (be_at_skip 2 s) by lia. rewrite (be_at_skip 2 s) by lia.
  replace (length s - length s)%nat with 0%nat by lia.
  replace (length s + 2 - length s)%nat with 2%nat by lia. read_back.
  rewrite from_utf8_valid by (by apply session_id_utf8). cbn. by rewrite V.
Qed.

Lemma fp_resize_back rows cols :
  u16 rows -> u16 cols -> fp_resize (payload (Bd.Resize rows cols)) = Ok (Bd.Resize rows cols).
Proof. intros. unfold fp_resize. cbn [payload]. pass. read_back. done. Qed.

Lemma rd_here {E} b l : rd (E:=E) (b :: l) 0 = Ok b.
Proof. done. Qed.

Lemma slice_cons {E A} (x : A) (l : list A) a b :
  (1 <= a <= b)%nat -> slice (E:=E) (x :: l) a b = slice l (a - 1) (b - 1).
Proof. intros. by rewrite (slice_skip [x] l) by (cbn; lia). Qed.

Lemma slice_all {E A} (l : list A) a b : a = 0%nat -> b = length l -> slice (E:=E) l a b = Ok l.
Proof. intros -> ->. by apply slice_full. Qed.

(** Read a length byte and the name behind it, at the end of a payload. *)
Ltac read_name :=
  read_back; rewrite rd_here; cbn [mbind res_bind];
  rewrite byte_val_of_small by (unfold u8; len_lia); pass;
  rewrite !slice_skip by len_lia; rewrite slice_cons by len_lia;
  rewrite slice_all by len_lia; cbn [mbind res_bind].

Lemma fp_paste_begin_back pid total gid gsize name :
  body_typed (Bd.PasteBegin pid total gid gsize name) ->
  body_legal (Bd.PasteBegin pid total gid gsize name) ->
  fp_paste_begin (payload (Bd.PasteBegin pid total gid gsize name))
  = Ok (Bd.PasteBegin pid total gid gsize name).
Proof.
  intros (? & ? & ? & ? & V) (? & ? & L). cbn [payload]. unfold paste_begin_payload.
  rewrite name_cut_all, firstn_all by done. unfold MAX_PASTE_NAME_LEN, len in L.
  unfold fp_paste_begin. pass. read_back. pass. read_back. pass. read_name.
  rewrite from_utf8_valid by done. done.
Qed.

Lemma fp_download_begin_back i total name :
  body_typed (Bd.DownloadBegin i total name) -> body_legal (Bd.DownloadBegin i total name) ->
  fp_download_begin (payload (Bd.DownloadBegin i total name)) = Ok (Bd.DownloadBegin i total name).
Proof.
  intros (? & ? & V) (? & L). cbn [payload]. unfold download_begin_payload.
  rewrite name_cut_all, firstn_all by done. unfold MAX_PASTE_NAME_LEN, len in L.
  unfold fp_download_begin. pass. read_back. pass. read_name.
  rewrite from_utf8_valid by done. done.
Qed.

Lemma fp_kill_session_back i s :
  u32 i -> is_valid_session_id s = true ->
  fp_kill_session (payload (Bd.KillSession i s)) = Ok (Bd.KillSession i s).
Proof.
  intros Hi V. pose proof (session_id_len s V) as L. cbn [payload].
  rewrite Nat.min_l by (unfold len, MAX_SESSION_ID_LEN in *; lia). rewrite firstn_all.
  unfold len in L. unfold fp_kill_session. pass. read_back. read_name.
  rewrite from_utf8_valid by (by apply session_id_utf8). cbn. by rewrite V.
Qed.

Lemma fp_chunk_back (D : bool) i b :
  u32 i -> len b <= MAX_PASTE_CHUNK_BYTES ->
  (if D then fp_download_chunk (payload (Bd.DownloadChunk i b)) = Ok (Bd.DownloadChunk i b)
   else fp_paste_chunk (payload (Bd.PasteChunk i b)) = Ok (Bd.PasteChunk i b)).
Proof.
  intros Hi L. unfold fp_download_chunk, fp_paste_chunk. consts.
  destruct D; cbn [payload]; pass; read_back; pass; read_back; done.
Qed.

(** The five-byte bodies: an id and a status byte. *)
Ltac id_status :=
  cbn [payload]; pass; read_back; rewrite rd_here; cbn [mbind res_bind];
  rewrite byte_val_of_small by done.

Lemma fp_status_back b :
  body_typed b -> body_legal b ->
  match b with
  | Bd.PasteEnd _ _ => fp_paste_end (payload b) = Ok b
  | Bd.PasteReject _ _ => fp_paste_reject (payload b) = Ok b
  | Bd.DownloadEnd _ _ => fp_download_end (payload b) = Ok b
  | Bd.KillSessionAck _ _ => fp_kill_session_ack (payload b) = Ok b
  | _ => True
  end.
Proof.
  intros T L. destruct b; try done; destruct T as [? T]; cbn [body_legal] in L; 
    unfold fp_paste_end, fp_paste_reject, fp_download_end, fp_kill_session_ack; id_status; 
    try (pass; done); assert (status = 0 \/ status = 1) as [-> | ->] by (unfold u8 in T; lia); done.
Qed.

Lemma fp_controller_changed_back s :
  u8 s -> s <= CONTROLLER_STATUS_OTHER ->
  fp_controller_changed (payload (Bd.ControllerChanged s)) = Ok (Bd.ControllerChanged s).
Proof.
  intros. unfold fp_controller_changed. cbn [payload]. pass. rewrite rd_here. cbn [mbind res_bind].
  rewrite byte_val_of_small by done. pass. done.
Qed.

Lemma fp_list_sessions_back i :
  u32 i -> fp_list_sessions (payload (Bd.ListSessions i)) = Ok (Bd.ListSessions i).
Proof. intros. unfold fp_list_sessions. cbn [payload]. pass. read_back. done. Qed.

Lemma fp_session_list_back i json :
  u32 i -> len json <= MAX_SESSION_LIST_JSON_LEN ->
  fp_session_list (payload (Bd.SessionList i json)) = Ok (Bd.SessionList i json).
Proof.
  intros Hi L. unfold fp_session_list. cbn [payload]. pose proof (len_nonneg json).
  rewrite (as_u32_small (len json)) by (consts; unfold u32; lia).
  rewrite as_u32_small by (consts; unfold u32; len_lia). pass. read_back.
  rewrite be_at_here by (consts; unfold u32 in *; cbn; lia). cbn [mbind res_bind]. pass. done.
Qed.

(** Decoding the payload of a legal frame gives the frame back. *)
Lemma from_payload_payload f :
  body_typed (body f) -> body_legal (body f) ->
  from_payload (stream_id f) (ty f) (payload (body f)) = Ok f.
Proof.
  destruct f as [sid b]. cbn [body stream_id ty]. intros T L. unfold from_payload.
  pose proof (fp_status_back b T L) as S.
  destruct b; cbn [ty body] in *; try done; try (rewrite S; done).
  - destruct T. by rewrite fp_resize_back.
  - destruct initial_size, T as (? & ? & ?). by rewrite fp_open_back.
  - by rewrite fp_paste_begin_back.
  - by rewrite (fp_chunk_back false).
  - by rewrite fp_download_begin_back.
  - by rewrite (fp_chunk_back true).
  - by rewrite fp_controller_changed_back.
  - by rewrite fp_list_sessions_back.
  - by rewrite fp_session_list_back.
  - destruct T. by rewrite fp_kill_session_back.
Qed.

(** ** Only encodings decode *)

(** Peel the front of the payload each time a field is read off it. *)
Ltac peel_head :=
  match goal with
  | H : be_at _ ?l 0 = Ok _ |- _ =>
      is_var l; apply be_at_split in H; [destruct H as (? & ? & ?); subst l|lia]
  | H : rd ?l 0 = Ok _ |- _ => is_var l; apply rd_split in H; destruct H as [? ?]; subst l
  end.
Ltac peel_shift :=
  match goal with
  | H : be_at _ (be_enc _ _ ++ _) _ = Ok _ |- _ => rewrite be_at_skip in H by off; rewrite ?length_be_enc in H
  | H : rd (be_enc _ _ ++ _) _ = Ok _ |- _ => rewrite rd_skip in H by off; rewrite ?length_be_enc in H
  | H : slice_from (be_enc _ _ ++ _) _ = Ok _ |- _ =>
      rewrite slice_from_skip in H by off; rewrite ?length_be_enc in H
  | H : slice_from _ 0 = Ok _ |- _ => rewrite slice_from_0 in H; injection H as ?; subst
  | H : slice (be_enc _ _ ++ _) _ _ = Ok _ |- _ => rewrite slice_skip in H by off; rewrite ?length_be_enc in H
  | H : slice (_ :: _) _ _ = Ok _ |- _ => rewrite slice_cons in H by (cbn [Nat.add Nat.sub]; lia)
  | H : from_utf8 _ _ = Ok _ |- _ => apply from_utf8_Ok in H; destruct H as [-> H]
  end.
Ltac peel := inv_res; rewrite ?Z.gtb_ltb in *; bool_to_prop; consts; repeat first [peel_head | peel_shift | progress cbn [Nat.sub] in *].

(** [b] is the only reading of the payload [p], and it is legal. *)
Record reads_as (p : list byte) (b : Body) : Prop := {
  ra_payload : payload b = p;
  ra_typed : body_typed b;
  ra_legal : body_legal b;
}.

(** Fixed-size bodies leave nothing behind the last field. *)
Ltac no_tail := match goal with
  | x : list byte |- _ => assert (x = []) as -> by (destruct x; [done|len_lia])
  end; rewrite ?app_nil_r.

Lemma byte_u8 b : u8 (byte_val b).
Proof. apply byte_val_range. Qed.

Lemma fp_resize_inv p b : fp_resize p = Ok b -> reads_as p b.
Proof. unfold fp_resize. intros H. peel. no_tail. by split. Qed.

Lemma fp_status_inv t p b :
  match t with
  | Ty.PasteEnd => fp_paste_end p = Ok b
  | Ty.PasteReject => fp_paste_reject p = Ok b
  | Ty.DownloadEnd => fp_download_end p = Ok b
  | Ty.KillSessionAck => fp_kill_session_ack p = Ok b
  | _ => False
  end -> reads_as p b.
Proof.
  destruct t; try done; unfold fp_paste_end, fp_paste_reject, fp_download_end, fp_kill_session_ack;
    intros H; peel; no_tail; split; cbn [payload body_typed body_legal];
    rewrite ?byte_of_val; try done; try (split; [done|apply byte_u8]); consts; try lia.
  all: match goal with H : _ && _ = false |- _ =>
    apply andb_false_iff in H; rewrite !negb_false_iff, !Z.eqb_eq in H; lia end.
Qed.

Lemma fp_controller_changed_inv p b : fp_controller_changed p = Ok b -> reads_as p b.
Proof.
  unfold fp_controller_changed. intros H. peel. no_tail.
  split; cbn [payload body_typed body_legal]; rewrite ?byte_of_val; try done; try apply byte_u8.
Qed.

Lemma fp_list_sessions_inv p b : fp_list_sessions p = Ok b -> reads_as p b.
Proof. unfold fp_list_sessions. intros H. peel. no_tail. by split. Qed.

Lemma fp_chunk_inv p b : fp_paste_chunk p = Ok b \/ fp_download_chunk p = Ok b -> reads_as p b.
Proof.
  intros [H|H]; unfold fp_paste_chunk, fp_download_chunk in H; peel; 
    (split; cbn [payload body_typed body_legal]; [done|done|consts; len_lia]).
Qed.

Lemma fp_session_list_inv p b :
  len p <= MAX_SESSION_LIST_LEN -> fp_session_list p = Ok b -> reads_as p b.
Proof.
  intros L H. unfold fp_session_list in H. peel.
  split; cbn [payload body_typed body_legal]; [|done|consts; len_lia]. do 3 f_equal.
  symmetry. match goal with H : _ = as_u32 _ |- _ => etrans; [exact H|] end. f_equal. len_lia.
Qed.

Lemma slice_0_all {E A} (l s : list A) n : slice (E:=E) l 0 n = Ok s -> n = length l -> s = l.
Proof. intros H ->. rewrite slice_full in H by done. by injection H. Qed.

Lemma name_byte b (l : list byte) :
  length l = Z.to_nat (byte_val b) -> byte_of (Z.of_nat (length l)) = b /\ len l <= 255.
Proof.
  intros E. pose proof (byte_val_range b). unfold len. rewrite E, Z2Nat.id by lia.
  split; [apply byte_of_val|lia].
Qed.

(** The name read is all that is left of the payload, and its length byte is
    the one the encoder writes. *)
Ltac whole_name :=
  match goal with H : slice ?l 0 _ = Ok ?s |- _ =>
    apply slice_0_all in H; [subst s|len_lia] end;
  match goal with |- context [?b :: ?l] =>
    destruct (name_byte b l) as [? ?]; [len_lia|] end.

Lemma fp_paste_begin_inv p b : fp_paste_begin p = Ok b -> reads_as p b.
Proof.
  unfold fp_paste_begin. intros H. peel. whole_name.
  split; cbn [payload body_typed body_legal]; [|done|done].
  unfold paste_begin_payload. rewrite name_cut_all, firstn_all by done. congruence.
Qed.

Lemma fp_download_begin_inv p b : fp_download_begin p = Ok b -> reads_as p b.
Proof.
  unfold fp_download_begin. intros H. peel. whole_name.
  split; cbn [payload body_typed body_legal]; [|done|done].
  unfold download_begin_payload. rewrite name_cut_all, firstn_all by done. congruence.
Qed.

Lemma fp_kill_session_inv p b : fp_kill_session p = Ok b -> reads_as p b.
Proof.
  unfold fp_kill_session. intros H. peel. whole_name.
  match goal with V : is_valid_session_id _ = true |- _ => pose proof (session_id_len _ V) end.
  split; cbn [payload body_typed body_legal]; [|done|done].
  rewrite Nat.min_l by (unfold len, MAX_SESSION_ID_LEN in *; lia). rewrite firstn_all. congruence.
Qed.

Lemma fp_open_inv p b : fp_open p = Ok b -> reads_as p b.
Proof.
  unfold fp_open. intros H. inv_res. bool_to_prop.
  repeat match goal with
  | H : be_at _ _ _ = Ok _ |- _ => apply be_at_Ok in H; [destruct H as (? & ? & ?)|lia]
  | H : slice _ _ _ = Ok _ |- _ => apply slice_Ok in H; destruct H as [? ->]
  | H : from_utf8 _ _ = Ok _ |- _ => apply from_utf8_Ok in H; destruct H as [-> ?]
  end.
  rewrite Nat.sub_0_r, drop_0 in *. split; cbn [payload body_typed body_legal]; try done.
  repeat match goal with H : take 2 _ = be_enc 2 _ |- _ => rewrite <- H; clear H end.
  rewrite <- drop_drop, (take_ge (drop 2 _)), !take_drop; [done|].
  rewrite !length_drop. unfold len in *. lia.
Qed.

(** ** The two passes *)

(** Everything the header pass says about the payload length. *)
Definition header_len_ok (t : FrameType) (l : Z) : Prop :=
  match t with
  | Ty.Data => l <= MAX_DATA_LEN
  | Ty.Resize => l = 4
  | Ty.Open => 5 <= l <= MAX_OPEN_LEN
  | Ty.Close | Ty.AcquireControl | Ty.ReleaseControl | Ty.TakeControl => l = 0
  | Ty.Ping | Ty.Pong => l <= MAX_PING_LEN
  | Ty.Hello => 0 < l <= MAX_HELLO_LEN
  | Ty.PasteBegin => 21 <= l <= MAX_PASTE_BEGIN_LEN
  | Ty.PasteChunk => 4 <= l <= MAX_PASTE_CHUNK_LEN
  | Ty.PasteEnd | Ty.PasteReject | Ty.DownloadEnd | Ty.KillSessionAck => l = 5
  | Ty.DownloadBegin => 13 <= l <= MAX_DOWNLOAD_BEGIN_LEN
  | Ty.DownloadChunk => 4 <= l <= MAX_DOWNLOAD_CHUNK_LEN
  | Ty.ControllerChanged => l = 1
  | Ty.ListSessions => l = 4
  | Ty.SessionList => 8 <= l <= MAX_SESSION_LIST_LEN
  | Ty.KillSession => 5 <= l <= MAX_KILL_SESSION_LEN
  end.

Lemma guard_true {E} c (e : E) : guard_err c e = Ok tt <-> c = false.
Proof. apply guard_err_Ok. Qed.

Lemma validate_header_Ok sid tb l t l' :
  0 <= l ->
  validate_header sid tb l = Ok (t, l') <->
  l' = l /\ tb = type_byte t /\ (sid =? CONTROL_STREAM) = is_control_type t /\ header_len_ok t l.
Proof.
  intros Hl. unfold validate_header. rewrite bind_Ok. setoid_rewrite ok_or_Ok. split.
  - intros (t0 & H & Hv). apply from_u8_Some in H. apply bind_Ok in Hv as ([] & Hv & [= -> ->]).
    split; [done|]. split; [done|].
    destruct t; unfold vh_terminal, vh_control, vh_paste, vh_download, vh_controller, vh_admin,
      on_data_stream, on_control_stream in Hv; inv_res; rewrite ?Z.gtb_ltb in *; bool_to_prop;
      cbn [is_control_type header_len_ok]; consts.
    all: split; [by first [apply Z.eqb_neq|apply Z.eqb_eq]|lia].
  - intros (-> & -> & Hs & Hlen). exists t. split; [apply from_u8_type_byte|].
    destruct t; cbn [is_control_type header_len_ok] in *;
      unfold vh_terminal, vh_control, vh_paste, vh_download, vh_controller, vh_admin,
        on_data_stream, on_control_stream; rewrite Hs; cbn [negb guard_err mbind res_bind].
    all: rewrite ?bind_Ok; repeat first [exists tt; split | rewrite guard_pass]; try done.
    all: bool_goal; consts; try lia.
Qed.

Lemma body_len_ok f :
  body_legal (body f) -> header_len_ok (ty f) (len (payload (body f))).
Proof.
  destruct f as [sid b]. cbn [body]. intros L. unfold ty. cbn [body].
  destruct b; cbn [header_len_ok payload body_legal] in *; unfold paste_begin_payload,
    download_begin_payload; consts; try (destruct initial_size);
    try match goal with V : is_valid_session_id _ = true |- _ =>
      pose proof (session_id_len _ V); unfold MAX_SESSION_ID_LEN in * end;
    try (rewrite name_cut_all by (unfold MAX_PASTE_NAME_LEN; lia));
    autorewrite with term_len; unfold len in *; rewrite ?length_take; len_lia.
Qed.

Lemma payload_small f : body_legal (body f) -> u32 (len (payload (body f))).
Proof.
  intros L. pose proof (body_len_ok f L) as H. pose proof (len_nonneg (payload (body f))).
  unfold header_len_ok in H. destruct (ty f); consts; unfold u32; lia.
Qed.

(** The longest payload is a full chunk's. *)
Lemma payload_bound f : body_legal (body f) -> len (payload (body f)) <= MAX_PASTE_CHUNK_LEN.
Proof.
  intros L. pose proof (body_len_ok f L) as H. unfold header_len_ok in H. destruct (ty f); consts; lia.
Qed.

(** What the payload pass accepts after the header pass, and as what. *)
Lemma from_payload_inv sid t p f :
  header_len_ok t (len p) -> from_payload sid t p = Ok f ->
  stream_id f = sid /\ ty f = t /\ reads_as p (body f).
Proof.
  intros Hl H. unfold from_payload in H. apply bind_Ok in H as (b & H & [= <-]).
  cbn [stream_id body]. unfold ty. cbn [body].
  assert (R : reads_as p b).
  { destruct t; cbn [header_len_ok] in Hl;
      try solve [ injection H as <-; split; cbn [body_typed body_legal payload]; try done;
                  (destruct p; [done|len_lia]) ];
      eauto using fp_resize_inv, fp_open_inv, fp_paste_begin_inv, fp_chunk_inv,
        fp_download_begin_inv, fp_controller_changed_inv, fp_list_sessions_inv,
        fp_session_list_inv, fp_kill_session_inv.
    all: first [ by apply (fp_status_inv Ty.PasteEnd) | by apply (fp_status_inv Ty.PasteReject)
      | by apply (fp_status_inv Ty.DownloadEnd) | by apply (fp_status_inv Ty.KillSessionAck)
      | apply fp_session_list_inv; [lia|done] ]. }
  split; [done|]. split; [|done]. clear - H. destruct t; cbn in H; try solve [by injection H as <-];
    unfold fp_resize, fp_open, fp_paste_begin, fp_paste_chunk, fp_paste_end, fp_paste_reject,
      fp_download_begin, fp_download_chunk, fp_download_end, fp_controller_changed,
      fp_list_sessions, fp_session_list, fp_kill_session, fp_kill_session_ack in H;
    inv_res; done.
Qed.

(** The two passes together. *)
Lemma decode_iff sid t p f :
  u32 sid -> (sid =? CONTROL_STREAM) = is_control_type t -> header_len_ok t (len p) ->
  from_payload sid t p = Ok f <->
  wf_frame f /\ stream_id f = sid /\ ty f = t /\ payload (body f) = p.
Proof.
  intros Hs Hc Hl. split.
  - intros H. apply from_payload_inv in H as (<- & <- & []); [|done]. split; [by split|done].
  - intros ([] & <- & <- & <-). by apply from_payload_payload.
Qed.

(** No longer prefix within the cap ends on a character boundary. *)
Lemma name_cut_max name j :
  (name_cut name < j <= 255)%nat -> (j <= length name)%nat -> is_char_boundary name j = false.
Proof.
  unfold name_cut, MAX_PASTE_NAME_LEN. case_bool_decide; [lia|]. intros Hj _.
  destruct (is_char_boundary name j) eqn:B; [|done].
  assert (j <= floor_char_boundary name (Z.to_nat 255))%nat; [|lia].
  apply floor_char_boundary_max; [lia|done].
Qed.

(** ** Properties *)

(** Decoding accepts exactly the encodings of well-formed frames: when
    the header pass accepts a header that announces the payload's length, the
    payload pass succeeds with [f] if and only if [f] is a well-formed frame
    with that stream, that type and that payload (the round trip in both
    directions: every legal frame decodes to itself, and no other byte
    sequence decodes to it). *)
Lemma decode_exactly_encodings sid tb p t f :
  u32 sid -> validate_header sid tb (len p) = Ok (t, len p) ->
  from_payload sid t p = Ok f <->
  wf_frame f /\ stream_id f = sid /\ ty f = t /\ payload (body f) = p.
Proof.
  intros Hs H. apply validate_header_Ok in H as (_ & _ & ? & ?); [|apply len_nonneg].
  by apply decode_iff.
Qed.

Lemma decode_exactly_encodings_witness :
  let p := lit "ab-1" ++ be_enc 2 24 ++ be_enc 2 80 in
  from_payload 7 Ty.Open p = Ok (open 7 (lit "ab-1") (24, 80)) <->
  wf_frame (open 7 (lit "ab-1") (24, 80)) /\ 7 = 7 /\ Ty.Open = Ty.Open /\ p = p.
Proof. apply (decode_exactly_encodings 7 2); [done|by vm_compute]. Defined.

(** Decoding is total: neither pass ever indexes or slices out of range,
    whatever the header fields and the payload bytes are (a hostile peer
    gets an error value, never a panic). *)
Lemma decode_never_panics sid tb l t p :
  validate_header sid tb l <> Panic /\ from_payload sid t p <> Panic.
Proof.
  split; [|apply body_dec_no_panic].
  unfold validate_header. apply bind_no_panic; [apply ok_or_no_panic|]. intros t0 _.
  apply bind_no_panic; [|done].
  destruct t0; unfold vh_terminal, vh_control, vh_paste, vh_download, vh_controller, vh_admin,
    on_data_stream, on_control_stream; no_panic.
Qed.

(** Over-long file names: [encode] keeps the longest prefix of at most
    255 bytes that ends on a character boundary, so the name stays valid
    UTF-8 and the frame that arrives is the one sent with that prefix as its
    name (same for the two frame types that carry a name). *)
Lemma long_name_truncated pid total gid gsize did name :
  body_typed (Bd.PasteBegin pid total gid gsize name) -> u32 did ->
  total <= MAX_PASTE_TOTAL_BYTES -> gsize <> 0 ->
  let short := take (name_cut name) name in
  utf8_valid short = true /\ len short <= 255 /\
  (forall j, (name_cut name < j <= 255)%nat -> (j <= length name)%nat ->
     is_char_boundary name j = false) /\
  fp_paste_begin (payload (Bd.PasteBegin pid total gid gsize name))
    = Ok (Bd.PasteBegin pid total gid gsize short) /\
  fp_download_begin (payload (Bd.DownloadBegin did total name))
    = Ok (Bd.DownloadBegin did total short).
Proof.
  intros (? & ? & ? & ? & V) ? Ht Hg short.
  assert (Vs : utf8_valid short = true).
  { unfold short, name_cut. case_bool_decide; [by rewrite firstn_all|by apply utf8_valid_floor]. }
  assert (Ls : (length short = name_cut name /\ name_cut name <= 255)%nat).
  { unfold short. rewrite length_take. unfold name_cut, MAX_PASTE_NAME_LEN.
    case_bool_decide as E; [lia|].
    pose proof (floor_char_boundary_le name (Z.to_nat 255)). lia. }
  assert (Es : payload (Bd.PasteBegin pid total gid gsize name)
               = payload (Bd.PasteBegin pid total gid gsize short) /\
               payload (Bd.DownloadBegin did total name)
               = payload (Bd.DownloadBegin did total short)).
  { cbn [payload]. unfold paste_begin_payload, download_begin_payload.
    rewrite (name_cut_all short) by (unfold len, MAX_PASTE_NAME_LEN; lia).
    rewrite firstn_all, (proj1 Ls). done. }
  destruct Es as [-> ->].
  split; [done|]. split; [unfold len; lia|]. split; [by apply name_cut_max|].
  assert (len short <= MAX_PASTE_NAME_LEN) by (unfold len, MAX_PASTE_NAME_LEN; lia).
  split; [apply fp_paste_begin_back|apply fp_download_begin_back]; cbn [body_typed body_legal]; by split_and!.
Qed.

Lemma long_name_truncated_witness :
  let name := repeat "e"%byte 254 ++ [xc3; xa9] in
  take (name_cut name) name = repeat "e"%byte 254 /\
  fp_paste_begin (payload (Bd.PasteBegin 1 10 2 1 name))
    = Ok (Bd.PasteBegin 1 10 2 1 (repeat "e"%byte 254)).
Proof.
  split; [by vm_compute|].
  refine (proj1 (proj2 (proj2 (proj2
    (long_name_truncated 1 10 2 1 3 (repeat "e"%byte 254 ++ [xc3; xa9]) _ _ _ _))))).
  - by split_and!; vm_compute.
  - by vm_compute.
  - by vm_compute.
  - done.
Defined.

(** The allocation-free encoder of download chunks writes the same bytes
    as building the frame and encoding it. *)
Lemma encode_download_chunk_same sid did bytes :
  encode_download_chunk sid did bytes = encode (download_chunk sid did bytes).
Proof.
  unfold encode_download_chunk, encode, download_chunk. cbn [stream_id body payload ty].
  rewrite len_app, len_be_enc. done.
Qed.
