(* ===== verification/Transport.v ===== *)
(** * Transport: frames over a byte stream and over WebSocket messages
    ([common/src/transport.rs])

    The byte stream is any implementation of the interface [AsyncRead]
    below (tokio's [AsyncReadExt::read_exact] is not code of this repository);
    [ReadLaws] states what its documentation promises in terms of the bytes
    that are still to come. *)

From Stdlib Require Import Strings.Byte.
From stdpp Require Import prelude strings list.
From S2P Require Import Prelude Utf8 Frame FrameFacts.

(** ** The reader and the writer the transport is generic over *)

Class AsyncRead (R : Type) := {
  read_exact : nat -> R -> (IoKind + list byte) * R;
}.

(** The documented behaviour of [read_exact] on a connection that will still
    deliver [remaining r] and then end: it fills the buffer when there are
    enough bytes, and reports [UnexpectedEof] otherwise. *)
Class ReadLaws (R : Type) `{AsyncRead R} := {
  remaining : R -> list byte;
  read_enough : forall n r, (n <= length (remaining r))%nat ->
    exists r', read_exact n r = (inr (take n (remaining r)), r')
               /\ remaining r' = drop n (remaining r);
  read_short : forall n r, (length (remaining r) < n)%nat ->
    exists r', read_exact n r = (inl UnexpectedEof, r');
}.

(** An in-memory reader: [std::io::Cursor] over a buffer. *)
#[export] Instance cursor_read : AsyncRead (list byte) := {
  read_exact n r :=
    if bool_decide (n <= length r)%nat then (inr (take n r), drop n r) else (inl UnexpectedEof, []);
}.

#[export, refine] Instance cursor_laws : ReadLaws (list byte) := { remaining r := r }.
Proof.
  - intros n r H. cbn. rewrite bool_decide_true by done. eauto.
  - intros n r H. cbn. rewrite bool_decide_false by lia. eauto.
Defined.

(** ** Receiving *)

(** The header fields ([u32::from_be_bytes([hdr[0], ..])] and so on). *)
Definition header_fields (hdr : list byte) : res FrameError (Z * Z * Z) :=
  stream_id ← be_at 4 hdr 0;
  ty_byte ← rd hdr 4;
  l ← be_at 4 hdr 5;
  Ok (stream_id, byte_val ty_byte, l).

(** [ByteStreamRecv::recv]; the reader is threaded through explicitly. *)
Definition recv {R} `{AsyncRead R} (r : R) : res FrameError (option (Frame * Z)) * R :=
  match read_exact (Z.to_nat HEADER_LEN) r with
  | (inl UnexpectedEof, r) => (Ok None, r)
  | (inl e, r) => (Err (Io e), r)
  | (inr hdr, r) =>
      match ('(sid, tb, l) ← header_fields hdr;
             '(ty, l) ← validate_header sid tb l; Ok (sid, ty, l)) with
      | Err e => (Err e, r)
      | Panic => (Panic, r)
      | Ok (sid, ty, l) =>
          let '(payload, r) := if l >? 0 then read_exact (Z.to_nat l) r else (inr [], r) in
          match payload with
          | inl e => (Err (Io e), r)
          | inr payload =>
              ((fun f => Some (f, HEADER_LEN + l)) <$> from_payload sid ty payload, r)
          end
      end
  end.

(** [frame_from_ws_payload] *)
Definition frame_from_ws_payload (data : list byte) : res FrameError (Frame * Z) :=
  guard_err (len data <? HEADER_LEN) (Io InvalidData) ;;
  '(sid, tb, l) ← header_fields data;
  '(ty, l) ← validate_header sid tb l;
  guard_err (negb (len data =? HEADER_LEN + l)) (Io InvalidData) ;;
  payload ← slice_from data (Z.to_nat HEADER_LEN);
  (fun f => (f, HEADER_LEN + len payload)) <$> from_payload sid ty payload.

(** A consumer that reads frames until the stream ends or an error. *)
Fixpoint recv_all {R} `{AsyncRead R} (fuel : nat) (r : R) : list Frame * res FrameError unit :=
  match fuel with
  | O => ([], Err (Io OtherIo))
  | S k => match recv r with
           | (Ok (Some (f, _)), r) => let '(fs, e) := recv_all k r in (f :: fs, e)
           | (Ok None, _) => ([], Ok tt)
           | (Err e, _) => ([], Err e)
           | (Panic, _) => ([], Panic)
           end
  end.

(** ** Lemmas *)

Lemma length_header f : length (encode f) = (9 + length (payload (body f)))%nat.
Proof. unfold encode. autorewrite with term_len. lia. Qed.

(** The first nine bytes of an encoding, whatever follows them. *)
Lemma header_fields_encode f rest :
  wf_frame f ->
  header_fields (take 9 (encode f) ++ rest)
  = Ok (stream_id f, type_byte (ty f), len (payload (body f))).
Proof.
  intros []. pose proof (payload_small f wf_legal).
  unfold encode. rewrite as_u32_small by done.
  set (p := payload (body f)) in *.
  replace (take 9 _) with (be_enc 4 (stream_id f) ++ byte_of (type_byte (ty f)) :: be_enc 4 (len p))
    by (cbn; by rewrite take_0).
  rewrite <- !app_assoc. cbn [app]. unfold header_fields. read_back.
  rewrite rd_here. cbn [mbind res_bind].
  rewrite be_at_cons by lia. read_back.
  by rewrite byte_val_type_byte.
Qed.

Lemma header_fields_encode' f rest :
  wf_frame f -> header_fields (encode f ++ rest)
  = Ok (stream_id f, type_byte (ty f), len (payload (body f))).
Proof.
  intros W. rewrite <- (take_drop 9 (encode f)) at 1. rewrite <- app_assoc. 
  by apply header_fields_encode.
Qed.

Lemma header_accepts f :
  wf_frame f ->
  validate_header (stream_id f) (type_byte (ty f)) (len (payload (body f)))
  = Ok (ty f, len (payload (body f))).
Proof.
  intros []. apply validate_header_Ok; [apply len_nonneg|].
  split_and!; try done. by apply body_len_ok.
Qed.

(** Nine header bytes determine, and are determined by, their fields. *)
Lemma header_fields_inv hdr sid tb l :
  length hdr = 9%nat -> header_fields hdr = Ok (sid, tb, l) ->
  u32 sid /\ u32 l /\ hdr = be_enc 4 sid ++ byte_of tb :: be_enc 4 l.
Proof.
  unfold header_fields. intros L H. apply bind_Ok in H as (s & H & H1).
  apply bind_Ok in H1 as (b & H1 & H2). apply bind_Ok in H2 as (n & H2 & [= <- <- <-]).
  apply be_at_split in H as (h1 & -> & ?); [|lia].
  rewrite rd_skip in H1 by off. rewrite length_be_enc in H1. apply rd_split in H1 as (h2 & ->).
  rewrite be_at_skip in H2 by off. rewrite length_be_enc in H2. 
  change (5 - 4)%nat with 1%nat in H2. rewrite be_at_cons in H2 by lia.
  apply be_at_split in H2 as (h3 & -> & ?); [|lia].
  autorewrite with term_len in L. assert (h3 = []) as -> by (destruct h3; [done|cbn in L; lia]).
  by rewrite byte_of_val, app_nil_r.
Qed.

Lemma header_fields_app hdr rest :
  length hdr = 9%nat -> header_fields (hdr ++ rest) = header_fields hdr.
Proof. intros L. unfold header_fields. by rewrite !be_at_app_l, rd_app_l by lia. Qed.

Lemma header_fields_no_panic hdr : (9 <= length hdr)%nat -> header_fields hdr <> Panic.
Proof. intros. unfold header_fields. no_panic. Qed.

Lemma validate_header_no_panic sid tb l : validate_header sid tb l <> Panic.
Proof.
  unfold validate_header. apply bind_no_panic; [apply ok_or_no_panic|]. intros t _.
  apply bind_no_panic; [|done].
  destruct t; unfold vh_terminal, vh_control, vh_paste, vh_download, vh_controller, vh_admin,
    on_data_stream, on_control_stream; no_panic.
Qed.

(** The bytes of a header and a payload that both passes accept. *)
Lemma accepted_bytes hdr p sid tb t l l' f :
  length hdr = 9%nat -> header_fields hdr = Ok (sid, tb, l) ->
  validate_header sid tb l = Ok (t, l') -> len p = l' -> from_payload sid t p = Ok f ->
  wf_frame f /\ hdr ++ p = encode f /\ l' = l.
Proof.
  intros L Hh Hv <- Hp. apply header_fields_inv in Hh as (? & ? & ->); [|done].
  assert (0 <= l) by (unfold u32 in *; lia).
  apply validate_header_Ok in Hv as (<- & -> & ? & ?); [|done].
  apply decode_iff in Hp as (W & <- & <- & <-); [|done..].
  split; [done|]. split; [|done]. unfold encode. rewrite as_u32_small by done.
  by rewrite <- app_assoc.
Qed.

Lemma ws_payload_encode f :
  wf_frame f -> frame_from_ws_payload (encode f) = Ok (f, len (encode f)).
Proof.
  intros W. unfold frame_from_ws_payload. pose proof (length_header f).
  rewrite guard_pass by (bool_goal; unfold HEADER_LEN, len; lia). cbn [mbind res_bind].
  pose proof (header_fields_encode' f [] W) as Hh. rewrite app_nil_r in Hh.
  rewrite Hh. cbn [mbind res_bind].
  rewrite header_accepts by done. cbn [mbind res_bind].
  rewrite guard_pass by (bool_goal; unfold HEADER_LEN, len; lia). cbn [mbind res_bind].
  change (Z.to_nat HEADER_LEN) with 9%nat. rewrite slice_from_ok by lia. cbn [mbind res_bind].
  replace (drop 9 (encode f)) with (payload (body f)) by done.
  rewrite from_payload_payload by apply W. cbn [fmap res_fmap].
  do 2 f_equal. unfold HEADER_LEN, len. lia.
Qed.

Lemma ws_payload_inv d f n :
  frame_from_ws_payload d = Ok (f, n) -> wf_frame f /\ d = encode f /\ n = len d.
Proof.
  unfold frame_from_ws_payload. intros H. inv_res. bool_to_prop. unfold HEADER_LEN in *.
  change (Z.to_nat 9) with 9%nat in *.
  match goal with H : slice_from _ _ = Ok _ |- _ => apply slice_from_Ok in H as [? ->] end.
  rewrite <- (take_drop 9 d).
  match goal with H : header_fields _ = Ok _ |- _ =>
    rewrite <- (take_drop 9 d), header_fields_app in H by (rewrite length_take; lia) end.
  edestruct accepted_bytes as (? & E & ?); [|eassumption..| |eassumption|].
  - rewrite length_take. lia.
  - unfold len. rewrite length_drop. unfold len in *. lia.
  - split; [done|]. split; [done|]. rewrite E. unfold len. rewrite length_drop.
    pose proof (length_header x2). unfold HEADER_LEN, len in *. lia.
Qed.

Section Stream.
Context {R : Type} `{ReadLaws R}.

Lemma read_front r n pre rest :
  remaining r = pre ++ rest -> n = length pre ->
  exists r', read_exact n r = (inr pre, r') /\ remaining r' = rest.
Proof.
  intros E ->. destruct (read_enough (length pre) r) as (r' & Hr & Hr').
  { rewrite E, length_app. lia. }
  exists r'. rewrite Hr, Hr', E. by rewrite take_app_length, drop_app_length.
Qed.

Lemma recv_encode r f rest :
  wf_frame f -> remaining r = encode f ++ rest ->
  exists r', recv r = (Ok (Some (f, len (encode f))), r') /\ remaining r' = rest.
Proof.
  intros W E. set (p := payload (body f)). pose proof (length_header f) as L. fold p in L.
  assert (Ef : encode f = take 9 (encode f) ++ p) by (rewrite <- (take_drop 9 (encode f)) at 1; done).
  rewrite Ef, <- app_assoc in E.
  destruct (read_front r 9 _ _ E) as (r1 & Hr1 & Er1); [rewrite length_take; lia|].
  pose proof (header_fields_encode f [] W) as Hh. rewrite app_nil_r in Hh.
  unfold recv. change (Z.to_nat HEADER_LEN) with 9%nat. rewrite Hr1, Hh.
  cbn [mbind res_bind]. rewrite header_accepts by done. cbn [mbind res_bind]. fold p.
  assert (exists r', (if len p >? 0 then read_exact (Z.to_nat (len p)) r1 else (inr [], r1))
                     = (inr p, r') /\ remaining r' = rest) as (r' & -> & Er').
  { rewrite Z.gtb_ltb. destruct (0 <? len p) eqn:Ep; bool_to_prop.
    - apply (read_front r1 _ _ _ Er1). unfold len. lia.
    - exists r1. assert (p = []) as Hp by (destruct p; [done|len_lia]). rewrite Hp in *. done. }
  exists r'. split; [|done]. unfold p. rewrite from_payload_payload by apply W.
  cbn [fmap res_fmap]. do 4 f_equal. unfold HEADER_LEN, len. fold p. lia.
Qed.

Lemma read_exact_inv r n b r' :
  read_exact n r = (inr b, r') -> remaining r = b ++ remaining r' /\ length b = n.
Proof.
  intros Hr. destruct (decide (n <= length (remaining r))%nat) as [Hn|Hn].
  - destruct (read_enough n r Hn) as (r1 & E & E'). rewrite Hr in E. injection E as -> ->.
    rewrite E', take_drop, length_take. split; [done|lia].
  - destruct (read_short n r) as (r1 & E); [lia|]. congruence.
Qed.

Lemma recv_inv r f n r' :
  recv r = (Ok (Some (f, n)), r') ->
  wf_frame f /\ remaining r = encode f ++ remaining r' /\ n = len (encode f).
Proof.
  unfold recv. change (Z.to_nat HEADER_LEN) with 9%nat.
  destruct (read_exact 9 r) as [[e|hdr] r1] eqn:Hr1; [by destruct e|].
  apply read_exact_inv in Hr1 as [Er1 Lh].
  destruct (mbind _ _) as [[[sid t] l]| |] eqn:Hh; [|done..].
  destruct (if l >? 0 then _ else _) as [[e|p] r2] eqn:Hr2; [done|].
  intros [= Hf <-]. apply fmap_Ok in Hf as (f' & Hf & [= <- ->]).
  inv_res.
  assert (L0 : 0 <= l).
  { apply header_fields_inv in H1 as (_ & Hl & _); [|done]. unfold u32 in Hl.
    apply validate_header_Ok in H2 as (-> & _); lia. }
  assert (remaining r1 = p ++ remaining r2 /\ len p = l) as [Ep Lp].
  { rewrite Z.gtb_ltb in Hr2. destruct (0 <? l) eqn:E; bool_to_prop.
    - apply read_exact_inv in Hr2 as [? Lp]. split; [done|]. unfold len. lia.
    - injection Hr2 as <- <-. split; [done|]. rewrite len_nil. lia. }
  destruct (accepted_bytes _ _ _ _ _ _ _ _ Lh H1 H2 Lp Hf) as (W & Ee & _).
  split; [done|]. rewrite Er1, Ep, app_assoc, Ee. split; [done|].
  rewrite <- Ee, len_app, Lp. unfold len. by rewrite Lh.
Qed.

Lemma recv_eof r : remaining r = [] -> exists r', recv r = (Ok None, r').
Proof.
  intros E. destruct (read_short 9 r) as (r' & Hr); [rewrite E; cbn; lia|].
  exists r'. unfold recv. change (Z.to_nat HEADER_LEN) with 9%nat. by rewrite Hr.
Qed.

Lemma recv_no_panic r : (recv r).1 <> Panic.
Proof.
  unfold recv. change (Z.to_nat HEADER_LEN) with 9%nat.
  destruct (read_exact 9 r) as [[e|hdr] r1] eqn:Hr1; [by destruct e|].
  apply read_exact_inv in Hr1 as [_ Lh].
  destruct (mbind _ _) as [[[sid t] l]| |] eqn:Hh.
  - destruct (if l >? 0 then _ else _) as [[e|p] r2]; [done|]. cbn [fst].
    pose proof (body_dec_no_panic sid t p) as N. by destruct (from_payload sid t p).
  - done.
  - exfalso. revert Hh. apply bind_no_panic; [apply header_fields_no_panic; lia|].
    intros [[sid tb] l] _. apply bind_no_panic; [apply validate_header_no_panic|].
    by intros [].
Qed.

(** Everything that was written frame by frame is read back frame by frame. *)
Lemma recv_all_encodings fs r :
  Forall wf_frame fs -> remaining r = concat (map encode fs) ->
  recv_all (S (length fs)) r = (fs, Ok tt).
Proof.
  intros W. revert r. induction W as [|f fs Wf _ IH]; intros r E; cbn [map concat] in E.
  - destruct (recv_eof r E) as (r' & Hr). cbn. by rewrite Hr.
  - destruct (recv_encode r f _ Wf E) as (r' & Hr & Er).
    specialize (IH _ Er). cbn [length]. remember (S (length fs)) as k.
    cbn [recv_all]. by rewrite Hr, IH.
Qed.
End Stream.

(** ** Properties *)

(** [C7] A binary WebSocket message decodes to a frame exactly when it is the
    encoding of that frame and the frame is well formed; the reported wire
    size is the message's size.  In particular a message with trailing or
    missing bytes is refused, and decoding is injective. *)
Theorem ws_message_exactly_one_frame data f n :
  frame_from_ws_payload data = Ok (f, n)
  <-> wf_frame f /\ data = encode f /\ n = len data.
Proof.
  split; [apply ws_payload_inv|]. intros (W & -> & ->). by apply ws_payload_encode.
Qed.

(** Reading a frame off the byte stream consumes exactly the bytes of
    that frame's encoding, and any well-formed frame at the front of the
    stream is the one read, whatever follows it.  A stream that has ended
    between two frames is a clean close, and no input makes receiving
    panic. *)
Lemma recv_reads_one_frame (R : Type) `{ReadLaws R} (r : R) (f : Frame) n :
  ((exists r', recv r = (Ok (Some (f, n)), r'))
   <-> wf_frame f /\ n = len (encode f) /\ exists rest, remaining r = encode f ++ rest) /\
  (remaining r = [] -> (recv r).1 = Ok None) /\
  (recv r).1 <> Panic.
Proof.
  split; [split|split].
  - intros (r' & Hr). apply recv_inv in Hr as (? & ? & ?). eauto.
  - intros (W & -> & rest & E). destruct (recv_encode r f rest W E) as (r' & Hr & _). eauto.
  - intros E. by destruct (recv_eof r E) as (r' & ->).
  - apply recv_no_panic.
Qed.

(** The two transports carry the same conversation: a list of
    well-formed frames written back to back on the byte stream is read back
    as that list followed by a clean end of stream, and sent as one message
    each over WebSocket it is decoded to that list. *)
Lemma transports_agree (R : Type) `{ReadLaws R} (r : R) (fs : list Frame) :
  Forall wf_frame fs -> remaining r = concat (map encode fs) ->
  recv_all (S (length fs)) r = (fs, Ok tt) /\
  map frame_from_ws_payload (map encode fs) = map (fun f => Ok (f, len (encode f))) fs.
Proof.
  intros W E. split; [by apply recv_all_encodings|]. rewrite map_map.
  apply map_ext_in. intros f Hf. apply ws_payload_encode.
  rewrite Forall_forall in W. apply W. by apply list_elem_of_In.
Qed.

Lemma transports_agree_witness :
  let fs := [resize 7 24 80; data 7 (lit "ls"); close 7] in
  let r := concat (map encode fs) in
  recv_all 4 r = (fs, Ok tt) /\
  map frame_from_ws_payload (map encode fs) = map (fun f => Ok (f, len (encode f))) fs.
Proof.
  apply (transports_agree (list byte) (concat (map encode [resize 7 24 80; data 7 (lit "ls"); close 7]))
    [resize 7 24 80; data 7 (lit "ls"); close 7]).
  - repeat constructor; vm_compute; done.
  - done.
Defined.
