(* ===== verification/Osc.v ===== *)
(** * Osc: the scanner for application OSC sequences ([common/src/osc.rs])

    The scanner is a state machine over the bytes of the terminal output.  Its
    specification is a grammar: the input is a sequence of segments, each of
    them forwarded verbatim, captured, or dropped, followed by the bytes the
    scanner still withholds. *)

From Stdlib Require Import Strings.Byte.
From stdpp Require Import prelude strings list.
From S2P Require Import Prelude.

(** ** The machine *)

Definition MAX_OSC_LEN : Z := 64 * 1024.
Definition ESC : byte := x1b.
Definition BEL : byte := x07.

(** [enum State] *)
Inductive State := Normal | Esc | Osc | OscEsc | OscOverflow | OscOverflowEsc.

(** [enum Term] *)
Inductive Term := Bel | St.

(** [struct OscScanner] *)
Record OscScanner := mk_scanner { state : State; buf : list byte }.

#[export] Instance State_eq_dec : EqDecision State.
Proof. solve_decision. Defined.
#[export] Instance OscScanner_eq_dec : EqDecision OscScanner.
Proof. solve_decision. Defined.

(** [OscScanner::new] (and [default]) *)
Definition new : OscScanner := mk_scanner Normal [].

(** [OscScanner::reset] *)
Definition reset (s : OscScanner) : OscScanner := mk_scanner Normal [].

(** [buf.split(|&b| b == b';').next()]: the bytes before the first [;]. *)
Fixpoint before_semi (l : list byte) : list byte :=
  match l with
  | [] => []
  | b :: l => if bool_decide (b = ";"%byte) then [] else b :: before_semi l
  end.

(** What a step appends to [out] and to [captured]. *)
Definition emitted : Type := list byte * list (list byte).

Definition term_bytes (t : Term) : list byte :=
  match t with Bel => [BEL] | St => [ESC; "\"%byte] end.

(** [OscScanner::finish_osc] *)
Definition finish_osc (t : Term) (s : OscScanner) : OscScanner * emitted :=
  let out :=
    if bool_decide (before_semi (buf s) = lit "5111") then
      let payload := if len (buf s) >? 5 then drop 5 (buf s) else [] in
      ([], [payload])
    else (ESC :: "]"%byte :: buf s ++ term_bytes t, []) in
  (mk_scanner Normal [], out).

(** One iteration of the loop of [feed]. *)
Definition step (s : OscScanner) (b : byte) : OscScanner * emitted :=
  let goto st := (mk_scanner st (buf s), ([], [])) in
  match state s with
  | Normal => if bool_decide (b = ESC) then goto Esc else (s, ([b], []))
  | Esc =>
      if bool_decide (b = "]"%byte) then (mk_scanner Osc [], ([], []))
      else (mk_scanner Normal (buf s), ([ESC; b], []))
  | Osc =>
      if bool_decide (b = BEL) then finish_osc Bel s
      else if bool_decide (b = ESC) then goto OscEsc
      else if len (buf s) <? MAX_OSC_LEN then (mk_scanner Osc (buf s ++ [b]), ([], []))
      else (mk_scanner OscOverflow [], ([], []))
  | OscEsc =>
      if bool_decide (b = "\"%byte) then finish_osc St s
      else if len (buf s) + 2 <=? MAX_OSC_LEN then (mk_scanner Osc (buf s ++ [ESC; b]), ([], []))
      else (mk_scanner OscOverflow [], ([], []))
  | OscOverflow =>
      if bool_decide (b = BEL) then goto Normal
      else if bool_decide (b = ESC) then goto OscOverflowEsc
      else goto OscOverflow
  | OscOverflowEsc =>
      if bool_decide (b = "\"%byte) then goto Normal
      else if bool_decide (b = ESC) then goto OscOverflowEsc
      else goto OscOverflow
  end.

Definition emit_app (e1 e2 : emitted) : emitted := (e1.1 ++ e2.1, e1.2 ++ e2.2).

(** [OscScanner::feed] *)
Fixpoint feed (s : OscScanner) (input : list byte) : OscScanner * emitted :=
  match input with
  | [] => (s, ([], []))
  | b :: rest =>
      let '(s, e) := step s b in
      let '(s, e') := feed s rest in (s, emit_app e e')
  end.

(** ** The grammar *)

(** The payload of an OSC: [ESC] only before a byte that is not a backslash
    (such a byte is taken whatever it is), no [BEL] outside such a pair. *)
Inductive osc_payload : list byte -> Prop :=
| op_nil : osc_payload []
| op_byte p b : osc_payload p -> b <> BEL -> b <> ESC -> osc_payload (p ++ [b])
| op_esc p b : osc_payload p -> b <> "\"%byte -> osc_payload (p ++ [ESC; b]).

(** The bytes behind [ESC ]] of an OSC that has exceeded the cap; the flag
    says that the last byte is an [ESC] that may begin the terminator. *)
Inductive overlong : bool -> list byte -> Prop :=
| ov_byte p b : osc_payload p -> len p = MAX_OSC_LEN -> b <> BEL -> b <> ESC ->
    overlong false (p ++ [b])
| ov_pair p b : osc_payload p -> len p <= MAX_OSC_LEN < len p + 2 -> b <> "\"%byte ->
    overlong false (p ++ [ESC; b])
| ov_more q b : overlong false q -> b <> BEL -> b <> ESC -> overlong false (q ++ [b])
| ov_esc q f : overlong f q -> overlong true (q ++ [ESC])
| ov_back q b : overlong true q -> b <> "\"%byte -> b <> ESC -> overlong false (q ++ [b]).

Inductive segment :=
| Plain (b : byte)                     (** an ordinary byte *)
| Escape (b : byte)                    (** [ESC b], not an OSC *)
| OscSeq (p : list byte) (t : Term)    (** a complete OSC *)
| LongOsc (q : list byte) (t : Term).  (** a complete OSC over the cap *)

Definition introducer : list byte := [ESC; "]"%byte].

Definition seg_wf (g : segment) : Prop :=
  match g with
  | Plain b => b <> ESC
  | Escape b => b <> "]"%byte
  | OscSeq p t => osc_payload p /\ len p <= MAX_OSC_LEN
  | LongOsc q Bel => overlong false q
  | LongOsc q St => overlong true (q ++ [ESC])
  end.

(** The bytes of a segment in the input. *)
Definition seg_raw (g : segment) : list byte :=
  match g with
  | Plain b => [b]
  | Escape b => [ESC; b]
  | OscSeq p t | LongOsc p t => introducer ++ p ++ term_bytes t
  end.

(** An OSC of this application. *)
Definition is_private (p : list byte) : bool := bool_decide (before_semi p = lit "5111").

(** What the browser sees of a segment, and what the server is handed. *)
Definition seg_out (g : segment) : emitted :=
  match g with
  | Plain _ | Escape _ => (seg_raw g, [])
  | OscSeq p _ => if is_private p then ([], [drop 5 p]) else (seg_raw g, [])
  | LongOsc _ _ => ([], [])
  end.

Definition segs_raw (gs : list segment) : list byte := concat (map seg_raw gs).
Definition segs_out (gs : list segment) : emitted :=
  (concat (map (fun g => (seg_out g).1) gs), concat (map (fun g => (seg_out g).2) gs)).

(** The scanner [s] withholds the bytes [w]. *)
Inductive withholds : OscScanner -> list byte -> Prop :=
| wh_normal : withholds (mk_scanner Normal []) []
| wh_esc : withholds (mk_scanner Esc []) [ESC]
| wh_osc p : osc_payload p -> len p <= MAX_OSC_LEN ->
    withholds (mk_scanner Osc p) (introducer ++ p)
| wh_osc_esc p : osc_payload p -> len p <= MAX_OSC_LEN ->
    withholds (mk_scanner OscEsc p) (introducer ++ p ++ [ESC])
| wh_over q : overlong false q -> withholds (mk_scanner OscOverflow []) (introducer ++ q)
| wh_over_esc q f : overlong f q ->
    withholds (mk_scanner OscOverflowEsc []) (introducer ++ q ++ [ESC]).

(** ** Lemmas *)

Lemma feed_app s a b :
  feed s (a ++ b) =
  let '(s1, e1) := feed s a in let '(s2, e2) := feed s1 b in (s2, emit_app e1 e2).
Proof.
  revert s. induction a as [|x a IH]; intros s; cbn [feed app].
  - destruct (feed s b) as [s2 [o c]]. done.
  - destruct (step s x) as [s1 e1]. rewrite IH.
    destruct (feed s1 a) as [s2 e2]. destruct (feed s2 b) as [s3 e3].
    unfold emit_app. cbn. by rewrite !app_assoc.
Qed.

(** A prefix that emits nothing only moves the state. *)
Lemma feed_silent s s' a b : feed s a = (s', ([], [])) -> feed s (a ++ b) = feed s' b.
Proof. intros E. rewrite feed_app, E. by destruct (feed s' b) as [? [? ?]]. Qed.

Lemma private_payload p :
  before_semi p = lit "5111" -> (if len p >? 5 then drop 5 p else []) = drop 5 p.
Proof.
  intros _. rewrite Z.gtb_ltb. case_res; [done|]. bool_to_prop.
  rewrite drop_ge; [done|]. unfold len in *. lia.
Qed.

Lemma finish_osc_out t p st :
  finish_osc t (mk_scanner st p) = (new, seg_out (OscSeq p t)).
Proof.
  unfold finish_osc, seg_out, is_private. cbn [buf seg_raw introducer app].
  case_bool_decide as E; [|done]. by rewrite private_payload.
Qed.

Lemma segs_one g : segs_raw [g] = seg_raw g /\ segs_out [g] = seg_out g.
Proof. unfold segs_raw, segs_out. cbn. rewrite !app_nil_r. by destruct (seg_out g). Qed.

(** A step closes a segment, or withholds one byte more. *)
Lemma closes w b g e :
  seg_wf g -> w ++ [b] = seg_raw g -> e = seg_out g ->
  exists gs w', Forall seg_wf gs /\ w ++ [b] = segs_raw gs ++ w' /\
    e = segs_out gs /\ withholds new w'.
Proof.
  intros Hg Hw ->. destruct (segs_one g) as [Er Eo]. exists [g], [].
  rewrite Er, Eo, app_nil_r. split_and!; [by constructor|done..|constructor].
Qed.

Lemma keeps w b s' :
  withholds s' (w ++ [b]) ->
  exists gs w', Forall seg_wf gs /\ w ++ [b] = segs_raw gs ++ w' /\
    ([], []) = segs_out gs /\ withholds s' w'.
Proof. intros. by exists [], (w ++ [b]). Qed.

Ltac flat := rewrite <- ?app_assoc; cbn [app].

(** One step: the withheld bytes and the new byte are at most one segment and
    the bytes withheld next. *)
Lemma step_segment s w b :
  withholds s w ->
  exists gs w', Forall seg_wf gs /\ w ++ [b] = segs_raw gs ++ w' /\
    (step s b).2 = segs_out gs /\ withholds (step s b).1 w'.
Proof.
  intros W. destruct W; unfold step; cbn [state buf];
    repeat case_bool_decide; subst; cbn [fst snd];
    try (destruct (_ <? _) eqn:E); try (destruct (_ <=? _) eqn:E); bool_to_prop; cbn [fst snd].
  all: rewrite ?finish_osc_out; cbn [fst snd].
  all: try solve [apply keeps; flat; by constructor].
  all: try (apply keeps; rewrite <- ?app_assoc;
    lazymatch goal with |- withholds (mk_scanner Normal _) _ => fail | _ => idtac end).
  - by apply (closes [] b (Plain b)).
  - by apply (wh_osc []); [constructor|].
  - by apply (closes [ESC] b (Escape b)).
  - apply (closes _ _ (OscSeq p Bel)); [done|by rewrite <- app_assoc|done].
  - apply wh_osc; [by constructor|len_lia].
  - apply wh_over, ov_byte; [done| |done..]. unfold MAX_OSC_LEN in *; lia.
  - apply (closes _ _ (OscSeq p St)); [done|by rewrite <- !app_assoc|done].
  - apply wh_osc; [by constructor|len_lia].
  - apply wh_over, ov_pair; [done|unfold MAX_OSC_LEN in *; lia|done].
  - by apply (closes _ _ (LongOsc q Bel)); [|by rewrite <- app_assoc|].
  - by apply (wh_over_esc q false).
  - by apply wh_over, ov_more.
  - apply (closes _ _ (LongOsc q St)); [by apply (ov_esc q f)|by rewrite <- !app_assoc|done].
  - rewrite (app_assoc q [ESC] [ESC]). apply (wh_over_esc (q ++ [ESC]) true). by apply (ov_esc q f).
  - rewrite (app_assoc q [ESC] [b]). apply wh_over, ov_back; [by apply (ov_esc q f)|done..].
Qed.

Lemma segs_app g1 g2 :
  segs_raw (g1 ++ g2) = segs_raw g1 ++ segs_raw g2 /\
  segs_out (g1 ++ g2) = emit_app (segs_out g1) (segs_out g2).
Proof. unfold segs_raw, segs_out, emit_app. by rewrite !map_app, !concat_app. Qed.

(** From any state whose withheld bytes are known, [feed] is the parser. *)
Lemma feed_segments s w input :
  withholds s w ->
  exists gs w', Forall seg_wf gs /\ w ++ input = segs_raw gs ++ w' /\
    (feed s input).2 = segs_out gs /\ withholds (feed s input).1 w'.
Proof.
  revert s w. induction input as [|b input IH]; intros s w W; cbn [feed].
  - exists [], w. by rewrite app_nil_r.
  - destruct (step_segment s w b W) as (g1 & w1 & F1 & R1 & O1 & W1).
    destruct (step s b) as [s1 e1]. cbn [fst snd] in *.
    destruct (IH s1 w1 W1) as (g2 & w2 & F2 & R2 & O2 & W2).
    destruct (feed s1 input) as [s2 e2]. cbn [fst snd] in *. subst e1 e2.
    destruct (segs_app g1 g2) as [Er Eo]. exists (g1 ++ g2), w2. rewrite Er, Eo.
    split_and!; [by apply Forall_app| |done..].
    rewrite (app_assoc w [b] input : w ++ b :: input = _), R1, <- app_assoc, R2. by rewrite app_assoc.
Qed.

(** Feeding a payload accumulates it. *)
Lemma feed_payload p :
  osc_payload p -> len p <= MAX_OSC_LEN ->
  feed (mk_scanner Osc []) p = (mk_scanner Osc p, ([], [])).
Proof.
  induction 1 as [|p b Hp IH Hb He|p b Hp IH Hb]; intros L; [done|..];
    rewrite feed_app, IH by len_lia; cbn [feed step state buf].
  - rewrite !bool_decide_false by done. autorewrite with term_len in L.
    rewrite (proj2 (Z.ltb_lt _ _)) by (unfold len in *; lia). done.
  - rewrite bool_decide_false by done. rewrite bool_decide_true by done.
    cbn [step state buf]. rewrite bool_decide_false by done. autorewrite with term_len in L.
    rewrite (proj2 (Z.leb_le _ _)) by (unfold len in *; lia). done.
Qed.

Definition over_state (f : bool) : OscScanner :=
  mk_scanner (if f then OscOverflowEsc else OscOverflow) [].

Ltac decided :=
  repeat first
    [ rewrite bool_decide_false by done | rewrite bool_decide_true by done
    | progress cbn [feed step state buf over_state] ].

Lemma feed_overlong f q :
  overlong f q -> feed (mk_scanner Osc []) q = (over_state f, ([], [])).
Proof.
  induction 1 as [p b Hp L ? ?|p b Hp L ?|q b ? IH ? ?|q f ? IH|q b ? IH ? ?];
    rewrite feed_app; try rewrite feed_payload by (done || lia); try rewrite IH;
    unfold over_state; decided.
  - rewrite (proj2 (Z.ltb_ge _ _)) by lia. done.
  - rewrite (proj2 (Z.leb_gt _ _)) by lia. done.
  - done.
  - by destruct f.
  - done.
Qed.

Lemma feed_term t p :
  feed (mk_scanner Osc p) (term_bytes t) = (new, seg_out (OscSeq p t)).
Proof.
  destruct t; cbn [term_bytes feed step state buf]; decided; rewrite finish_osc_out; unfold emit_app;
    destruct (seg_out _); cbn [fst snd app]; by rewrite !app_nil_r.
Qed.

(** A payload without control bytes. *)
Lemma op_plain p :
  forallb (fun b => negb (bool_decide (b = BEL)) && negb (bool_decide (b = ESC))) p = true ->
  osc_payload p.
Proof.
  induction p as [|b p IH] using rev_ind; [constructor|].
  rewrite forallb_app. cbn [forallb]. rewrite andb_true_r, !andb_true_iff. intros (? & ? & ?).
  bool_to_prop. by apply op_byte; [apply IH|..].
Qed.

(** The scanner on one segment. *)
Lemma feed_segment g : seg_wf g -> feed new (seg_raw g) = (new, seg_out g).
Proof.
  destruct g as [b|b|p t|q t]; cbn [seg_wf].
  - intros H. cbn. by decided.
  - intros H. cbn. by decided.
  - intros [Hp L]. cbn [seg_raw]. rewrite (feed_silent _ (mk_scanner Osc [])) by done.
    rewrite (feed_silent _ (mk_scanner Osc p)) by (by apply feed_payload). apply feed_term.
  - intros H. cbn [seg_raw]. rewrite (feed_silent _ (mk_scanner Osc [])) by done.
    destruct t; cbn [term_bytes].
    + by rewrite (feed_silent _ (over_state false)) by (by apply feed_overlong).
    + change [ESC; "\"%byte] with ([ESC] ++ ["\"%byte]). rewrite app_assoc.
      by rewrite (feed_silent _ (over_state true)) by (by apply feed_overlong).
Qed.

Lemma feed_segs gs : Forall seg_wf gs -> feed new (segs_raw gs) = (new, segs_out gs).
Proof.
  induction 1 as [|g gs Hg _ IH]; [done|].
  change (g :: gs) with ([g] ++ gs). destruct (segs_app [g] gs) as [-> ->].
  destruct (segs_one g) as [-> ->]. by rewrite feed_app, feed_segment, IH.
Qed.

Lemma withholds_len s w : withholds s w -> len (buf s) <= MAX_OSC_LEN.
Proof. destruct 1; cbn [buf]; done. Qed.

(** ** Properties *)

(** Feeding a chunk and then another is feeding their concatenation:
    the scanner's output does not depend on how the reader cut the stream. *)
Lemma feed_split_independent s a b :
  feed s (a ++ b) =
  let '(s1, (o1, c1)) := feed s a in
  let '(s2, (o2, c2)) := feed s1 b in (s2, (o1 ++ o2, c1 ++ c2)).
Proof. rewrite feed_app. destruct (feed s a) as [s1 [o1 c1]]. by destruct (feed s1 b) as [s2 [o2 c2]]. Qed.

(** [C26] Every byte is accounted for: whatever is fed to a new scanner, in
    whatever chunks, is a sequence of well-formed segments followed by the
    bytes withheld in the scanner's state; the forwarded bytes are the raw
    bytes of the segments that are not private OSCs, in order and unchanged,
    and the captured payloads are those of the private ones.  The scanner
    never buffers more than [MAX_OSC_LEN] bytes. *)
Theorem feed_accounts_for_every_byte chunks :
  let r := foldl (fun '(s, e) c => let '(s, e') := feed s c in (s, emit_app e e'))
             (new, ([], [])) chunks in
  exists gs w, Forall seg_wf gs /\ concat chunks = segs_raw gs ++ w /\
    r.2 = segs_out gs /\ withholds r.1 w /\ len (buf r.1) <= MAX_OSC_LEN.
Proof.
  assert (E : forall s e, foldl (fun '(s, e) c => let '(s, e') := feed s c in (s, emit_app e e'))
                    (s, e) chunks
              = let '(s', e') := feed s (concat chunks) in (s', emit_app e e')).
  { induction chunks as [|c cs IH]; intros s e; cbn [foldl concat].
    - unfold emit_app. cbn. rewrite !app_nil_r. by destruct e.
    - rewrite feed_app. destruct (feed s c) as [s1 e1]. rewrite IH.
      destruct (feed s1 (concat cs)) as [s2 e2]. unfold emit_app. cbn. by rewrite !app_assoc. }
  rewrite E. destruct (feed_segments new [] (concat chunks)) as (gs & w & ? & ? & Ho & ?);
    [constructor|]. exists gs, w. cbn zeta. destruct (feed new (concat chunks)) as [s' e'].
  cbn [fst snd] in *. subst e'. unfold emit_app. cbn.
  split_and!; try done. by eapply withholds_len.
Qed.

(** Conversely, any sequence of well-formed segments is scanned as that
    sequence: it is forwarded and captured segment by segment, and the
    scanner is back in its initial state. *)
Lemma feed_follows_the_grammar gs :
  Forall seg_wf gs -> feed new (segs_raw gs) = (new, segs_out gs).
Proof. apply feed_segs. Qed.

Lemma feed_follows_the_grammar_witness :
  feed new (lit "a" ++ introducer ++ lit "5111;x" ++ [BEL] ++ introducer ++ lit "0;t" ++ [ESC; "\"%byte])
  = (new, (lit "a" ++ introducer ++ lit "0;t" ++ [ESC; "\"%byte], [lit "x"])).
Proof.
  apply (feed_follows_the_grammar [Plain "a"; OscSeq (lit "5111;x") Bel; OscSeq (lit "0;t") St]).
  repeat constructor; try done; by apply op_plain.
Defined.
