(* ===== verification/Std.v ===== *)
(** * Std: what the agent uses of Rust's string and path types

    [str::split_whitespace], [str::eq_ignore_ascii_case],
    [slice::iter().position] and [Path::file_name] (on Unix), on strings given
    as their UTF-8 bytes. *)

From Stdlib Require Import Strings.Byte.
From stdpp Require Import prelude strings list.
From S2P Require Import Prelude Utf8.

(** ** Positions and splitting *)

(** [iter().position(|&b| b == x)] *)
Fixpoint position (x : byte) (l : list byte) : option nat :=
  match l with
  | [] => None
  | b :: l => if bool_decide (b = x) then Some O else S <$> position x l
  end.

(** [split(x)]: always at least one piece. *)
Fixpoint split_on (x : byte) (l : list byte) : list (list byte) :=
  match l with
  | [] => [[]]
  | b :: l =>
      if bool_decide (b = x) then [] :: split_on x l
      else match split_on x l with
           | [] => [[b]]
           | p :: ps => (b :: p) :: ps
           end
  end.

(** ** Whitespace *)

(** The length of the whitespace character a string starts with (Unicode
    [White_Space]), 0 when it starts with none. *)
Definition ws_len (l : list byte) : nat :=
  match l with
  | a :: l' =>
      let a := byte_val a in
      if in_range 9 13 a || (a =? 32) then 1%nat else
      match l' with
      | b :: l'' =>
          let b := byte_val b in
          if (a =? 0xc2) && ((b =? 0x85) || (b =? 0xa0)) then 2%nat else
          match l'' with
          | c :: _ =>
              let c := byte_val c in
              if ((a =? 0xe1) && (b =? 0x9a) && (c =? 0x80))
                 || ((a =? 0xe2) && (b =? 0x80)
                     && (in_range 0x80 0x8a c || (c =? 0xa8) || (c =? 0xa9) || (c =? 0xaf)))
                 || ((a =? 0xe2) && (b =? 0x81) && (c =? 0x9f))
                 || ((a =? 0xe3) && (b =? 0x80) && (c =? 0x80))
              then 3%nat else O
          | [] => O
          end
      | [] => O
      end
  | [] => O
  end.

(** [split_whitespace], with the string's length as fuel; [cur] is the word
    being collected. *)
Fixpoint split_ws (fuel : nat) (cur l : list byte) : list (list byte) :=
  let flush := match cur with [] => [] | _ => [cur] end in
  match fuel with
  | O => flush
  | S k =>
      match l with
      | [] => flush
      | b :: l' =>
          match ws_len l with
          | O => split_ws k (cur ++ [b]) l'
          | n => flush ++ split_ws k [] (drop n l)
          end
      end
  end.
Definition split_whitespace (s : list byte) : list (list byte) := split_ws (length s) [] s.

(** ** ASCII case *)

Definition to_ascii_lowercase (b : byte) : byte :=
  if in_range 65 90 (byte_val b) then byte_of (byte_val b + 32) else b.
Definition eq_ignore_ascii_case (a b : list byte) : bool :=
  bool_decide (map to_ascii_lowercase a = map to_ascii_lowercase b).

(** ** Paths *)

(** [Path::file_name]: the last component when it is a normal one. *)
Definition file_name (path : list byte) : option (list byte) :=
  match List.last (List.filter (fun c => negb (bool_decide (c = [])) && negb (bool_decide (c = lit ".")))
                 (split_on "/" path)) [] with
  | [] => None
  | c => if bool_decide (c = lit "..") then None else Some c
  end.

(** ** Formatting integers *)

(** [format!("{n}")] for an unsigned [n] of at most 64 bits (20 digits). *)
Fixpoint dec_digits (fuel : nat) (n : Z) : list byte :=
  match fuel with
  | O => []
  | S k => (if n <? 10 then [] else dec_digits k (n / 10)) ++ [byte_of (48 + n mod 10)]
  end.
Definition dec (n : Z) : list byte := dec_digits 20 n.

(** [format!("{n:016x}")] *)
Definition hex_digit (d : Z) : byte :=
  if d <? 10 then byte_of (48 + d) else byte_of (87 + d).
Fixpoint hex (digits : nat) (n : Z) : list byte :=
  match digits with
  | O => []
  | S k => hex_digit (n / 16 ^ Z.of_nat k mod 16) :: hex k n
  end.

(** ** Lemmas *)

Lemma position_app x a b :
  x ∉ a -> position x (a ++ x :: b) = Some (length a).
Proof.
  induction a as [|c a IH]; intros H; cbn [app position].
  - by rewrite bool_decide_true.
  - rewrite bool_decide_false by set_solver. rewrite IH by set_solver. done.
Qed.

Lemma position_Some x l n :
  position x l = Some n -> l = take n l ++ x :: drop (S n) l /\ x ∉ take n l.
Proof.
  revert n. induction l as [|b l IH]; intros n H; [done|]. cbn [position] in H.
  case_bool_decide as E.
  - injection H as <-. subst. split; [done|]. set_solver.
  - destruct (position x l) as [m|] eqn:P; [|done]. injection H as <-.
    destruct (IH _ eq_refl) as [E1 E2]. cbn [take drop app]. split; [by f_equal|]. set_solver.
Qed.

Lemma position_None x l : position x l = None -> x ∉ l.
Proof.
  induction l as [|b l IH]; intros H; [set_solver|]. cbn [position] in H. case_bool_decide; [done|].
  destruct (position x l); [done|]. rewrite not_elem_of_cons. auto.
Qed.

(** The accumulated difference of two byte strings of the same length. *)
Lemma ct_fold a b d :
  length a = length b ->
  foldl (fun diff '(x, y) => Z.lor diff (Z.lxor (byte_val x) (byte_val y))) d (zip a b) = 0
  <-> d = 0 /\ a = b.
Proof.
  revert b d. induction a as [|x a IH]; intros [|y b] d L; cbn [zip zip_with foldl] in *;
    try done; [naive_solver|].
  change (zip_with pair a b) with (zip a b). rewrite IH by (cbn in L; lia).
  rewrite Z.lor_eq_0_iff, Z.lxor_eq_0_iff. split.
  - intros [[-> E] ->]. split; [done|]. f_equal. by apply byte_val_inj.
  - intros [-> [= -> ->]]. done.
Qed.
