(* ===== verification/Random.v ===== *)
(** * Random: bytes from the operating system ([common/src/random.rs])

    On Unix the bytes are read from [/dev/urandom] with [Read::read_exact]; what
    [open] and each [read] return is an argument.  On Windows one call fills
    the buffer or fails.  Either failure is a panic. *)

From Stdlib Require Import Strings.Byte.
From stdpp Require Import prelude list.
From S2P Require Import Prelude.

(** What one [read] returns: bytes ([[]] is the end of the file), an
    interruption, another error. *)
Inductive ReadAnswer := ReadBytes (bytes : list byte) | ReadInterrupted | ReadFailed.

(** [read_exact] into a buffer of [n] bytes: interruptions are retried; a read
    never returns more than there is room for. *)
Fixpoint read_exact (n : nat) (answers : list ReadAnswer) : option (list byte) :=
  match n with
  | O => Some []
  | _ =>
      match answers with
      | ReadBytes [] :: _ | ReadFailed :: _ | [] => None
      | ReadInterrupted :: answers => read_exact n answers
      | ReadBytes bytes :: answers =>
          let got := take n bytes in
          rest ← read_exact (n - length got) answers; Some (got ++ rest)
      end
  end.

(** [fill] on Unix and on Windows ([status] is what [BCryptGenRandom] returns) *)
Definition fill_unix (opens : bool) (answers : list ReadAnswer) (n : nat) : res Empty_set (list byte) :=
  if opens then match read_exact n answers with Some b => Ok b | None => Panic end else Panic.
Definition fill_windows (status : Z) (bytes : list byte) (n : nat) : res Empty_set (list byte) :=
  if status <? 0 then Panic else Ok (take n bytes).

Lemma read_exact_length n answers b : read_exact n answers = Some b -> length b = n.
Proof.
  revert n b. induction answers as [|a answers IH]; intros n b; destruct n as [|n]; cbn; try by intros [= <-].
  destruct a as [[|x l]| |]; [done| |apply IH|done]. intros H. apply bind_Some in H as (rest & Hr & [= <-]).
  apply IH in Hr. cbn in *. rewrite length_app, length_take, Hr, length_take. lia.
Qed.

(** The caller gets exactly as many bytes as it asked for, or does not go on. *)
Lemma fill_exact opens answers n : 
  match fill_unix opens answers n with Ok b => length b = n | Panic => True | Err _ => False end.
Proof.
  unfold fill_unix. destruct opens; [|done]. destruct (read_exact n answers) as [b|] eqn:E; [|done].
  by apply read_exact_length in E.
Qed.

Lemma read_exact_0 answers : read_exact 0 answers = Some [].
Proof. by destruct answers. Qed.

(** An interruption changes nothing. *)
Lemma read_exact_interrupted n a b : read_exact n (a ++ ReadInterrupted :: b) = read_exact n (a ++ b).
Proof.
  revert n. induction a as [|x a IH]; intros [|n]; rewrite ?read_exact_0; [done..|].
  destruct x as [[|y l]| |]; cbn [app read_exact]; [done|by rewrite IH|by rewrite IH|done].
Qed.
