(* ===== verification/Tokio.v ===== *)
(** * Tokio: the interfaces of the asynchronous runtime

    The channels the program is built on are tokio's, not code of this
    repository: each is an interface (the operations the program calls) and a
    class of laws (what tokio documents about them).  The instances at the
    end show that the laws can be met. *)

From stdpp Require Import prelude list.
From S2P Require Import Prelude.

(** ** [tokio::sync::broadcast] *)

Class Broadcast (E Ch Rx : Type) := {
  bc_send : E -> Ch -> Ch;
  bc_subscribe : Ch -> Rx;
}.

(** "Each receiver receives every value sent after the call to [subscribe]",
    in order, for a receiver that is never lagged: [delivered c rx] is what
    [rx] has been or will be handed once the values sent so far arrive. *)
Class BroadcastLaws (E Ch Rx : Type) `{Broadcast E Ch Rx} := {
  receiver_of : Ch -> Rx -> Prop;
  delivered : Ch -> Rx -> list E;
  subscribe_receiver : forall c, receiver_of c (bc_subscribe c);
  send_receiver : forall c e rx, receiver_of c rx -> receiver_of (bc_send e c) rx;
  delivered_subscribe : forall c, delivered c (bc_subscribe c) = [];
  delivered_send : forall c e rx, receiver_of c rx ->
    delivered (bc_send e c) rx = delivered c rx ++ [e];
}.

(** What a receiver of a channel of [cap] slots hands out of the values sent
    after it subscribed, whatever its pace: the next value, or, when more than
    [cap] values wait, [None] ([RecvError::Lagged(n)]) for the [n] oldest of
    them, which are lost, and then goes on with the oldest value still in its
    slots. *)
Inductive hands_out {E} (cap : nat) : list (option E) -> list E -> Prop :=
| hands_out_none l : hands_out cap [] l
| hands_out_item e r l : hands_out cap r l -> hands_out cap (Some e :: r) (e :: l)
| hands_out_lagged n r l : (0 < n)%nat -> (n + cap <= length l)%nat ->
    hands_out cap r (drop n l) -> hands_out cap (None :: r) l.

(** How often it has lagged. *)
Definition lag_count {E} (r : list (option E)) : nat :=
  length (List.filter (fun x => bool_decide (x = None)) r).

Lemma hands_out_sublist {E} cap r (l : list E) : hands_out cap r l -> omap id r `sublist_of` l.
Proof.
  induction 1 as [l|e r l _ IH|n r l _ _ _ IH]; [apply sublist_nil_l|by apply sublist_skip|].
  etrans; [exact IH|]. apply sublist_drop.
Qed.

(** Without lagging, it hands out what was sent, from the first value on. *)
Lemma hands_out_prefix {E} cap r (l : list E) : hands_out cap r l -> lag_count r = 0%nat -> omap id r `prefix_of` l.
Proof.
  unfold lag_count. induction 1 as [l|e r l _ IH|n r l _ _ _ IH]; cbn; [intros _; apply prefix_nil|intros E0|done].
  by apply prefix_cons, IH.
Qed.

Lemma hands_out_small {E} cap r (l : list E) : hands_out cap r l -> (length l <= cap)%nat -> lag_count r = 0%nat.
Proof.
  unfold lag_count. induction 1 as [l|e r l _ IH|n r l Hn Hl _ IH]; cbn; intros Hc; [done|apply IH; lia|lia].
Qed.

(** Each lag leaves out one contiguous part of what the values carry. *)
Lemma hands_out_gappy {E A} cap (f : E -> list A) r l :
  hands_out cap r l -> gappy (lag_count r) (concat (f <$> omap id r)) (concat (f <$> l)).
Proof.
  unfold lag_count. induction 1 as [l|e r l _ IH|n r l _ _ _ IH]; cbn.
  - apply gappy_prefix, prefix_nil.
  - by apply gappy_keep.
  - apply (gappy_gap _ (length (concat (f <$> take n l)))).
    rewrite <- (take_drop n l) at 2. by rewrite fmap_app, concat_app, drop_app_length.
Qed.

(** A channel as the log of the values sent, a receiver as a position in it. *)
#[export] Instance log_broadcast E : Broadcast E (list E) nat := {
  bc_send e c := c ++ [e];
  bc_subscribe c := length c;
}.

#[export, refine] Instance log_broadcast_laws E : BroadcastLaws E (list E) nat := {
  receiver_of c rx := (rx <= length c)%nat;
  delivered c rx := drop rx c;
}.
Proof.
  - intros c. cbn. lia.
  - intros c e rx. cbn. rewrite length_app. lia.
  - intros c. cbn. apply drop_all.
  - intros c e rx Hr. cbn. by apply drop_app_le.
Defined.

(** ** [tokio::sync::mpsc] *)

Inductive SendResult := Sent | Full | ChanClosed.
Inductive RecvResult (E : Type) := Item (e : E) | Empty | Ended.
Arguments Item {E}.
Arguments Empty {E}.
Arguments Ended {E}.

(** One channel with both its ends: [ch_send] is [send] of an unbounded and
    [try_send] of a bounded channel, [ch_recv] is one poll of [recv], the last
    two drop the last sender and the receiver. *)
Class Mpsc (E Ch : Type) := {
  ch_new : option nat -> Ch;
  ch_send : E -> Ch -> Ch * SendResult;
  ch_recv : Ch -> Ch * RecvResult E;
  ch_drop_tx : Ch -> Ch;
  ch_drop_rx : Ch -> Ch;
}.

(** What one can know of a channel: its capacity, the values in it, and which
    ends are left. *)
Record ChanView (E : Type) := mk_view {
  ch_cap : option nat; ch_items : list E; ch_tx : bool; ch_rx : bool;
}.
Arguments mk_view {E}.
Arguments ch_cap {E}.
Arguments ch_items {E}.
Arguments ch_tx {E}.
Arguments ch_rx {E}.

Definition has_room {E} (v : ChanView E) : bool :=
  match ch_cap v with None => true | Some n => bool_decide (length (ch_items v) < n)%nat end.

(** A send fails when the receiver is gone or a bounded channel is full and
    otherwise appends; [recv] takes the oldest value, and reports the end once
    the channel is empty and no sender is left; dropping the receiver drops
    what is queued. *)
Class MpscLaws (E Ch : Type) `{Mpsc E Ch} := {
  view : Ch -> ChanView E;
  view_new : forall c, view (ch_new c) = mk_view c [] true true;
  view_send : forall e c, let v := view c in
    let '(c', r) := ch_send e c in
    (view c', r) =
    if negb (ch_rx v) then (v, ChanClosed)
    else if has_room v then (mk_view (ch_cap v) (ch_items v ++ [e]) (ch_tx v) true, Sent) else (v, Full);
  view_recv : forall c, let v := view c in
    let '(c', r) := ch_recv c in
    (view c', r) =
    match ch_items v with
    | e :: es => (mk_view (ch_cap v) es (ch_tx v) (ch_rx v), Item e)
    | [] => (v, if ch_tx v then Empty else Ended)
    end;
  view_drop_tx : forall c, view (ch_drop_tx c) = mk_view (ch_cap (view c)) (ch_items (view c)) false (ch_rx (view c));
  view_drop_rx : forall c, view (ch_drop_rx c) = mk_view (ch_cap (view c)) [] (ch_tx (view c)) false;
}.

#[export] Instance view_mpsc E : Mpsc E (ChanView E) := {
  ch_new c := mk_view c [] true true;
  ch_send e v :=
    if negb (ch_rx v) then (v, ChanClosed)
    else if has_room v then (mk_view (ch_cap v) (ch_items v ++ [e]) (ch_tx v) true, Sent) else (v, Full);
  ch_recv v :=
    match ch_items v with
    | e :: es => (mk_view (ch_cap v) es (ch_tx v) (ch_rx v), Item e)
    | [] => (v, if ch_tx v then Empty else Ended)
    end;
  ch_drop_tx v := mk_view (ch_cap v) (ch_items v) false (ch_rx v);
  ch_drop_rx v := mk_view (ch_cap v) [] (ch_tx v) false;
}.

#[export, refine] Instance view_mpsc_laws E : MpscLaws E (ChanView E) := { view v := v }.
Proof.
  - done.
  - intros e c. cbn. by repeat case_match.
  - intros c. cbn. by case_match.
  - done.
  - done.
Defined.

(** ** [tokio::sync::Semaphore] *)

(** [sem_acquire n] is one poll of [acquire_many_owned(n)] by the task whose turn
    it is (waiting tasks are served in order); [None] is "wait". *)
Class Semaphore (S : Type) := {
  sem_new : Z -> S;
  sem_acquire : Z -> S -> option S;
  sem_release : Z -> S -> S;
}.

Class SemaphoreLaws (S : Type) `{Semaphore S} := {
  available : S -> Z;
  available_new : forall n, available (sem_new n) = n;
  available_acquire : forall n s, available <$> sem_acquire n s =
    if n <=? available s then Some (available s - n) else None;
  available_release : forall n s, available (sem_release n s) = available s + n;
}.

#[export] Instance z_semaphore : Semaphore Z := {
  sem_new n := n;
  sem_acquire n s := if n <=? s then Some (s - n) else None;
  sem_release n s := s + n;
}.

#[export, refine] Instance z_semaphore_laws : SemaphoreLaws Z := { available s := s }.
Proof.
  - done.
  - intros n s. cbn. by case_match.
  - done.
Defined.
