(* ===== verification/Timers.v ===== *)
(** * Timers: [tokio::time::interval] and [tokio::time::timeout]

    Instants and durations are nanoseconds of one clock, and a task looks at
    it when it is polled.  What the runtime may do is be late: [on_time] says by
    how much. *)

From stdpp Require Import prelude.
From S2P Require Import Prelude.

Definition SECOND : Z := 1000000000.

(** ** [tokio::time::interval] *)

Inductive MissedTickBehavior := Burst | Skip.

(** An interval inside the loop of its task: [due] is when its next tick
    completes, [None] before the task was first polled. *)
Record Ticker := mk_ticker { period : Z; missed : MissedTickBehavior; due : option Z }.

(** The deadline after a tick with deadline [d] that completes at [now]: the
    default catches up tick by tick, [Skip] goes to the next multiple. *)
Definition next_due (m : MissedTickBehavior) (period d now : Z) : Z :=
  match m with Burst => d + period | Skip => d + ((now - d) / period + 1) * period end.

(** One poll of [interval(period); tick(); loop { tick(); body }]: the interval
    starts at the first poll, whose tick completes at once and is skipped; the
    flag says whether the body runs. *)
Definition tick_poll (now : Z) (k : Ticker) : Ticker * bool :=
  match due k with
  | None => (mk_ticker (period k) (missed k) (Some (now + period k)), false)
  | Some d =>
      if now <? d then (k, false)
      else (mk_ticker (period k) (missed k) (Some (next_due (missed k) (period k) d now)), true)
  end.

(** One poll at [now] of [timeout(d, fut)] that was made at [since]: what the
    future gives comes first, then the deadline. *)
Inductive Timed (A : Type) := NotYet | TimedOut | InTime (a : A).
Arguments NotYet {A}.
Arguments TimedOut {A}.
Arguments InTime {A}.
Definition timeout_poll {A} (d since now : Z) (fut : option A) : Timed A :=
  match fut with
  | Some a => InTime a
  | None => if since + d <=? now then TimedOut else NotYet
  end.

(** ** Facts *)

(** No tick is due later than a period from now. *)
Definition ticker_ok (now : Z) (k : Ticker) : Prop := 0 < period k -> forall d, due k = Some d -> d <= now + period k.

Lemma next_due_soon m p d now : 0 < p -> d <= now -> next_due m p d now <= now + p.
Proof.
  intros Hp Hd. unfold next_due. destruct m; [lia|].
  pose proof (Z.mul_div_le (now - d) p Hp). lia.
Qed.

Lemma tick_poll_period now k : period (tick_poll now k).1 = period k.
Proof. unfold tick_poll. destruct (due k); [destruct (_ <? _)|]; done. Qed.
Lemma tick_poll_ok T now k : now <= T -> ticker_ok T k -> ticker_ok T (tick_poll now k).1.
Proof.
  intros Hn Hd Hp. rewrite tick_poll_period in Hp. specialize (Hd Hp). unfold tick_poll. destruct (due k) as [d|] eqn:E.
  - destruct (Z.ltb_spec now d) as [?|Hle]; cbn [fst due period]; [by rewrite E|].
    intros d' [= <-]. pose proof (next_due_soon (missed k) (period k) d now Hp Hle). lia.
  - cbn [fst due period]. intros d' [= <-]. lia.
Qed.

(** Once the loop has started, a poll changes nothing or runs the body. *)
Lemma tick_poll_started now k : due k <> None -> tick_poll now k = (k, false) \/ (tick_poll now k).2 = true.
Proof. unfold tick_poll. destruct (due k); [intros _|done]. destruct (_ <? _); [by left|by right]. Qed.

(** At [t] the task is not late by more than [lag]. *)
Definition on_time (lag t : Z) (k : Ticker) : Prop := forall d, due k = Some d -> t <= d + lag.
