(* ===== verification/Prio.v ===== *)
(** * Prio: byte-bounded channels with two priorities ([common/src/prio.rs])

    The channel and the semaphore are tokio's; this file adds the byte budget
    and the biased receiver, and proves that nothing is lost, reordered or
    over budget. *)

From Stdlib Require Import Strings.Byte.
From stdpp Require Import prelude strings list.
From S2P Require Import Prelude Tokio.

(** ** Definitions *)

(** What one poll of a [send] returns. *)
Inductive SendPoll := Sending | SendOk | SendErr (bytes : list byte).

(** What one poll of a [recv] returns; [GotNone] is the end of the channel. *)
Inductive RecvPoll (E : Type) := Waiting | Got (e : E) | GotNone.
Arguments Waiting {E}.
Arguments Got {E}.
Arguments GotNone {E}.

Section Bytes.
Context {Ch Sem : Type} `{Mpsc (Z * list byte) Ch} `{Semaphore Sem}.

(** [struct BytesTx] and [struct BytesRx]: the two ends share the channel and
    the semaphore. *)
Record Bytes := mk_bytes { tx : Ch; sem : Sem; cap : Z }.

(** [bytes_channel] *)
Definition bytes_channel (cap_bytes : Z) : Bytes :=
  let permits := Z.min cap_bytes U32_MAX in
  mk_bytes (ch_new None) (sem_new permits) permits.

(** [BytesTx::send], one poll *)
Definition bytes_send (bytes : list byte) (b : Bytes) : Bytes * SendPoll :=
  if len bytes >? cap b then (b, SendErr bytes)
  else
    let n := as_u32 (len bytes) in
    match sem_acquire n (sem b) with
    | None => (b, Sending)
    | Some s =>
        match ch_send (n, bytes) (tx b) with
        | (c, Sent) => (mk_bytes c s (cap b), SendOk)
        | (c, _) => (mk_bytes c (sem_release n s) (cap b), SendErr bytes)
        end
    end.

(** [BytesRx::recv], one poll: the permit is dropped when the message is
    returned. *)
Definition bytes_recv (b : Bytes) : Bytes * RecvPoll (list byte) :=
  match ch_recv (tx b) with
  | (c, Item (n, bytes)) => (mk_bytes c (sem_release n (sem b)) (cap b), Got bytes)
  | (c, Empty) => (mk_bytes c (sem b) (cap b), Waiting)
  | (c, Ended) => (mk_bytes c (sem b) (cap b), GotNone)
  end.

(** Dropping the last clone of the sender. *)
Definition bytes_drop_tx (b : Bytes) : Bytes := mk_bytes (ch_drop_tx (tx b)) (sem b) (cap b).

(** Dropping the receiver: what is queued is dropped with its permits. *)
Fixpoint release_queued (fuel : nat) (c : Ch) (s : Sem) : Sem :=
  match fuel, ch_recv c with
  | S k, (c, Item (n, _)) => release_queued k c (sem_release n s)
  | _, _ => s
  end.
Definition bytes_drop_rx `{!MpscLaws (Z * list byte) Ch} (b : Bytes) : Bytes :=
  mk_bytes (ch_drop_rx (tx b)) (release_queued (length (ch_items (view (tx b)))) (tx b) (sem b)) (cap b).

End Bytes.
Arguments Bytes : clear implicits.

(** ** Two priorities *)

Inductive Half := Hi | Lo.
Definition same_half (h k : Half) : bool := match h, k with Hi, Hi | Lo, Lo => true | _, _ => false end.

Section Biased.
Context {H E : Type} (poll : H -> H * RecvPoll E).

(** [struct PrioTx] with [struct PrioRx], and [ItemPrioTx] with [ItemPrioRx] *)
Record Prio := mk_prio { hi : H; lo : H; hi_closed : bool; lo_closed : bool }.

Definition half (h : Half) (p : Prio) : H := match h with Hi => hi p | Lo => lo p end.
Definition set_half (h : Half) (x : H) (p : Prio) : Prio :=
  match h with
  | Hi => mk_prio x (lo p) (hi_closed p) (lo_closed p)
  | Lo => mk_prio (hi p) x (hi_closed p) (lo_closed p)
  end.

(** One arm of the [select!]: skipped when its half is closed. *)
Definition poll_half (closed : bool) (x : H) : H * RecvPoll E :=
  if closed then (x, Waiting) else poll x.

(** [PrioRx::recv] and [ItemPrioRx::recv], one poll.  A turn of the loop
    either answers or closes a half, so three turns are enough. *)
Fixpoint prio_recv_loop (fuel : nat) (p : Prio) : Prio * RecvPoll E :=
  match fuel with
  | O => (p, Waiting)
  | S k =>
      if hi_closed p && lo_closed p then (p, GotNone)
      else
        let '(x, r) := poll_half (hi_closed p) (hi p) in
        let p := set_half Hi x p in
        match r with
        | Got e => (p, Got e)
        | GotNone => prio_recv_loop k (mk_prio (hi p) (lo p) true (lo_closed p))
        | Waiting =>
            let '(x, r) := poll_half (lo_closed p) (lo p) in
            let p := set_half Lo x p in
            match r with
            | Got e => (p, Got e)
            | GotNone => prio_recv_loop k (mk_prio (hi p) (lo p) (hi_closed p) true)
            | Waiting => (p, Waiting)
            end
        end
  end.
Definition prio_recv (p : Prio) : Prio * RecvPoll E := prio_recv_loop 3 p.
End Biased.
Arguments Prio : clear implicits.

(** [prio_channel] *)
Definition prio_channel {Ch Sem} `{Mpsc (Z * list byte) Ch} `{Semaphore Sem}
    (cap_hi cap_lo : Z) : Prio (Bytes Ch Sem) :=
  mk_prio (bytes_channel cap_hi) (bytes_channel cap_lo) false false.

(** [item_prio_channel] *)
Definition item_prio_channel {E Ch} `{Mpsc E Ch} (cap_hi cap_lo : nat) : Prio Ch :=
  mk_prio (ch_new (Some cap_hi)) (ch_new (Some cap_lo)) false false.

(** [mpsc::Receiver::recv], one poll *)
Definition item_recv {E Ch} `{Mpsc E Ch} (c : Ch) : Ch * RecvPoll E :=
  match ch_recv c with
  | (c, Item e) => (c, Got e)
  | (c, Empty) => (c, Waiting)
  | (c, Ended) => (c, GotNone)
  end.

(** ** The biased receiver *)

(** What a half holds, and whether a sender is left. *)
Class Polled {H E : Type} (poll : H -> H * RecvPoll E) := {
  held : H -> list E;
  open : H -> bool;
  poll_spec : forall x,
    let '(x', r) := poll x in
    open x' = open x /\
    match held x with
    | e :: es => r = Got e /\ held x' = es
    | [] => r = (if open x then Waiting else GotNone) /\ held x' = []
    end;
}.
Arguments held {H E poll _}.
Arguments open {H E poll _}.

Section BiasedFacts.
Context {H E : Type} (poll : H -> H * RecvPoll E) `{!Polled poll}.

(** A half marked closed is drained and has no sender left. *)
Definition closed_ok (p : Prio H) : Prop :=
  (hi_closed p = true -> held (hi p) = [] /\ open (hi p) = false) /\
  (lo_closed p = true -> held (lo p) = [] /\ open (lo p) = false).

(** What a poll is meant to return, and from which half. *)
Definition recv_spec (p : Prio H) : RecvPoll (Half * E) :=
  match held (hi p), held (lo p) with
  | e :: _, _ => Got (Hi, e)
  | [], e :: _ => Got (Lo, e)
  | [], [] => if open (hi p) || open (lo p) then Waiting else GotNone
  end.
Definition untag (r : RecvPoll (Half * E)) : RecvPoll E :=
  match r with Got (_, e) => Got e | Waiting => Waiting | GotNone => GotNone end.

(** What is left in a half. *)
Definition held_after (h : Half) (p : Prio H) : list E :=
  match recv_spec p, h with
  | Got (Hi, _), Hi | Got (Lo, _), Lo => tail (held (half h p))
  | _, _ => held (half h p)
  end.

Lemma poll_half_spec closed x :
  (closed = true -> held x = [] /\ open x = false) ->
  exists x', poll_half poll closed x = (x', match held x with
    | e :: _ => Got e
    | [] => if open x || closed then Waiting else GotNone
    end) /\ held x' = tail (held x) /\ open x' = open x.
Proof.
  intros Hc. unfold poll_half. destruct closed.
  - destruct (Hc eq_refl) as [E1 E2]. exists x. by rewrite E1, E2.
  - pose proof (poll_spec x) as P. destruct (poll x) as [x' r]. destruct P as [Ho P]. exists x'.
    rewrite orb_false_r. destruct (held x); destruct P as [-> ->]; done.
Qed.

(** One turn on a half that is not closed yet. *)
Lemma poll_open x :
  exists x', poll_half poll false x = (x', match held x with
    | e :: _ => Got e
    | [] => if open x then Waiting else GotNone
    end) /\ held x' = tail (held x) /\ open x' = open x.
Proof. destruct (poll_half_spec false x) as (x' & E1 & E2 & E3); [done|]. rewrite orb_false_r in E1. eauto. Qed.

Lemma poll_closed x : poll_half poll true x = (x, Waiting).
Proof. done. Qed.

Ltac turn :=
  match goal with
  | |- context [poll_half poll true ?x] => rewrite (poll_closed x)
  | |- context [poll_half poll false ?x] =>
      let x' := fresh x in let E := fresh "E" in let Hh := fresh "Hh" in let Ho := fresh "Ho" in
      destruct (poll_open x) as (x' & E & Hh & Ho); rewrite E; clear E;
      match goal with K : held x = _ |- _ => rewrite K in Hh; cbn [tail] in Hh end;
      match goal with K : open x = _ |- _ => rewrite K in Ho end
  end;
  repeat match goal with
  | H : held ?x = _ |- context [match held ?x with _ => _ end] => rewrite H
  | H : open ?x = _ |- context [if open ?x then _ else _] => rewrite H
  end; cbn [tail].

Lemma prio_recv_spec p :
  closed_ok p ->
  exists p', prio_recv poll p = (p', untag (recv_spec p)) /\ closed_ok p' /\
    (forall h, held (half h p') = held_after h p /\ open (half h p') = open (half h p)).
Proof.
  destruct p as [h l hc lc]. unfold closed_ok, held_after, recv_spec, prio_recv.
  cbn [hi lo hi_closed lo_closed half]. intros [Kh Kl].
  destruct (held h) as [|a hs] eqn:Hh; destruct (held l) as [|b ls] eqn:Hl;
    destruct (open h) eqn:Oh; destruct (open l) eqn:Ol; destruct hc; destruct lc;
    try (destruct (Kh eq_refl); discriminate); try (destruct (Kl eq_refl); discriminate);
    cbn [prio_recv_loop hi lo hi_closed lo_closed andb orb untag set_half];
    repeat (turn; cbn [prio_recv_loop hi lo hi_closed lo_closed andb orb untag set_half]);
    eexists; (split; [reflexivity|]); cbn [hi lo hi_closed lo_closed half];
    (split; [split; intros; try done; split; congruence|]);
    intros []; cbn [hi lo half tail]; rewrite ?Hh, ?Hl; cbn [tail]; split; congruence.
Qed.

(** What polling a half keeps, receiving keeps. *)
Lemma prio_recv_keeps (P : Half -> H -> Prop) p :
  (forall h x, P h x -> P h (poll x).1) -> (forall h, P h (half h p)) ->
  forall h, P h (half h (prio_recv poll p).1).
Proof.
  intros Hp. unfold prio_recv.
  assert (Hq : forall h c x, P h x -> P h (poll_half poll c x).1) by (intros h [] x Hx; [done|by apply Hp]).
  generalize 3%nat. intros k. revert p. induction k as [|k IH]; intros p K; [done|]. cbn [prio_recv_loop].
  destruct (hi_closed p && lo_closed p); [done|].
  pose proof (Hq Hi (hi_closed p) (hi p) (K Hi)) as Q. destruct (poll_half poll (hi_closed p) (hi p)) as [x r].
  cbn in Q. destruct r; [|by intros []; [|apply (K Lo)]|apply IH; intros []; [done|apply (K Lo)]].
  pose proof (Hq Lo (lo_closed p) (lo p) (K Lo)) as R. cbn [set_half hi lo hi_closed lo_closed].
  destruct (poll_half poll (lo_closed p) (lo p)) as [y r]. cbn in R.
  destruct r; [by intros []..|]. apply IH. by intros [].
Qed.
End BiasedFacts.

(** ** Instances *)

#[export, refine] Instance item_polled {E Ch} `{MpscLaws E Ch} : Polled (item_recv (E:=E) (Ch:=Ch)) := {
  held c := ch_items (view c);
  open c := ch_tx (view c);
}.
Proof.
  intros c. unfold item_recv. pose proof (view_recv c) as V. cbn zeta in V.
  destruct (ch_recv c) as [c' r]. destruct (ch_items (view c)) as [|e es] eqn:Hi; cbn beta.
  - injection V as Ev ->. destruct (ch_tx (view c)) eqn:Ht; cbn; by rewrite Ev, ?Ht, ?Hi.
  - injection V as Ev ->. cbn. by rewrite Ev.
Defined.

#[export, refine] Instance bytes_polled {Ch Sem} `{MpscLaws (Z * list byte) Ch} `{Semaphore Sem} :
    Polled (bytes_recv (Ch:=Ch) (Sem:=Sem)) := {
  held b := (ch_items (view (tx b))).*2;
  open b := ch_tx (view (tx b));
}.
Proof.
  intros b. unfold bytes_recv. pose proof (view_recv (tx b)) as V. cbn zeta in V.
  destruct (ch_recv (tx b)) as [c' r]. destruct (ch_items (view (tx b))) as [|[n e] es] eqn:Hi; cbn beta.
  - injection V as Ev ->. destruct (ch_tx (view (tx b))) eqn:Ht; cbn; by rewrite Ev, ?Ht, ?Hi.
  - injection V as Ev ->. cbn. by rewrite Ev.
Defined.

(** ** The byte budget *)

Section BytesFacts.
Context {Ch Sem : Type} `{MpscLaws (Z * list byte) Ch} `{SemaphoreLaws Sem}.

Definition total (l : list (list byte)) : Z := foldr (fun b n => len b + n) 0 l.

Lemma total_app a b : total (a ++ b) = total a + total b.
Proof. induction a as [|x a IH]; cbn [total foldr app]; unfold total in *; lia. Qed.

Lemma total_nonneg l : 0 <= total l.
Proof. induction l as [|x l IH]; cbn; [done|]. unfold total in IH. pose proof (len_nonneg x). lia. Qed.

(** Free permits and queued bytes make up the capacity; each message carries a
    permit for its own length. *)
Record bytes_ok (b : Bytes Ch Sem) : Prop := {
  ok_cap : 0 <= cap b <= U32_MAX;
  ok_budget : available (sem b) + total (held b) = cap b;
  ok_sizes : forall n m, (n, m) ∈ ch_items (view (tx b)) -> n = len m;
  ok_rx : ch_rx (view (tx b)) = true;
  ok_kind : ch_cap (view (tx b)) = None;
  ok_free : 0 <= available (sem b);
}.

Lemma channel_ok c : 0 <= c -> bytes_ok (bytes_channel c).
Proof.
  intros Hc. unfold bytes_channel. split; cbn [cap tx sem held bytes_polled]; rewrite ?view_new, ?available_new;
    cbn [ch_items ch_rx ch_cap fmap list_fmap total foldr]; try done;
    change U32_MAX with 4294967295; try lia. intros n m Hm. by apply elem_of_nil in Hm.
Qed.

(** What one poll of [send] does. *)
Lemma bytes_send_spec m b :
  bytes_ok b ->
  exists b' r, bytes_send m b = (b', r) /\ bytes_ok b' /\ cap b' = cap b /\ open b' = open b /\
    ((r = SendErr m /\ len m > cap b /\ held b' = held b) \/
     (r = Sending /\ len m <= cap b < total (held b) + len m /\ held b' = held b) \/
     (r = SendOk /\ total (held b) + len m <= cap b /\ held b' = held b ++ [m])).
Proof.
  intros K. destruct K as [Kc Kb Ks Kr Kk Kf]. unfold bytes_send. rewrite Z.gtb_ltb.
  pose proof (len_nonneg m). destruct (Z.ltb_spec (cap b) (len m)) as [Hl|Hl].
  { exists b, (SendErr m). split; [done|]. split; [done|]. split; [done|]. split; [done|]. left. split; [done|]. split; [lia|done]. }
  assert (Em : as_u32 (len m) = len m) by (apply as_u32_small; unfold u32, U32_MAX in *; lia). rewrite Em.
  pose proof (available_acquire (len m) (sem b)) as A. destruct (sem_acquire (len m) (sem b)) as [s|] eqn:Es; cbn in A.
  - destruct (Z.leb_spec (len m) (available (sem b))) as [La|La]; [|done]. injection A as A.
    pose proof (view_send (len m, m) (tx b)) as V. cbn zeta in V. unfold has_room in V. rewrite Kr, Kk in V.
    destruct (ch_send (len m, m) (tx b)) as [c r]. cbn in V. injection V as Ev ->.
    assert (Eh : held (mk_bytes c s (cap b)) = held b ++ [m]).
    { cbn. rewrite Ev. cbn. by rewrite fmap_app. }
    exists (mk_bytes c s (cap b)), SendOk. split; [done|]. split.
    { split; [done|rewrite Eh, total_app; cbn [sem cap]; change (total [m]) with (len m + 0); lia| |by cbn; rewrite Ev|by cbn; rewrite Ev|cbn; lia].
      intros n k. cbn. rewrite Ev. cbn. rewrite elem_of_app, list_elem_of_singleton.
      intros [Hin|[= -> ->]]; [by apply Ks|done]. }
    split; [done|]. split; [cbn; by rewrite Ev|]. right. right. split; [done|]. split; [lia|done].
  - destruct (Z.leb_spec (len m) (available (sem b))) as [La|La]; [done|].
    exists b, Sending. split; [done|]. split; [done|]. split; [done|]. split; [done|]. right. left. split; [done|]. split; [lia|done].
Qed.

(** Taking a message gives its bytes back. *)
Lemma bytes_recv_ok b : bytes_ok b -> bytes_ok (bytes_recv b).1 /\ cap (bytes_recv b).1 = cap b.
Proof.
  intros K. destruct K as [Kc Kb Ks Kr Kk Kf].
  unfold bytes_recv. pose proof (view_recv (tx b)) as V. cbn zeta in V.
  destruct (ch_recv (tx b)) as [c r]. destruct (ch_items (view (tx b))) as [|[n m] es] eqn:Hi.
  - injection V as Ev Er. assert (K : bytes_ok (mk_bytes c (sem b) (cap b))).
    { cbn in Kb. rewrite Hi in Kb. cbn in Kb. split; cbn; rewrite ?Ev, ?Hi; done. }
    destruct (ch_tx (view (tx b))); rewrite Er; done.
  - injection V as Ev ->. cbn in Kb. rewrite Hi in Kb. cbn in Kb.
    assert (n = len m) as -> by (apply Ks; constructor). pose proof (len_nonneg m). split; [|done].
    cbn [fst]. split; cbn; rewrite ?Ev, ?available_release; cbn; try done; try (unfold total in *; lia).
    intros k x Hx. apply Ks. by constructor.
Qed.

(** ** Histories *)

(** Senders send while they exist, the receiver polls, senders disappear. *)
Inductive Op := OSend (h : Half) (m : list byte) | ORecv | ODropTx (h : Half).

(** The channel with the log of what it accepted and what it returned. *)
Record History := mk_history {
  chan : Prio (Bytes Ch Sem);
  accepted : list (Half * list byte);
  received : list (Half * list byte);
}.

Definition run_op (t : History) (o : Op) : History :=
  let p := chan t in
  match o with
  | OSend h m =>
      if open (half h p) then
        let '(b, r) := bytes_send m (half h p) in
        mk_history (set_half h b p)
          (match r with SendOk => accepted t ++ [(h, m)] | _ => accepted t end) (received t)
      else t
  | ORecv =>
      let '(p', r) := prio_recv bytes_recv p in
      let from := match held (hi p) with [] => Lo | _ => Hi end in
      mk_history p' (accepted t)
        (match r with Got m => received t ++ [(from, m)] | _ => received t end)
  | ODropTx h => mk_history (set_half h (bytes_drop_tx (half h p)) p) (accepted t) (received t)
  end.
Definition history (cap_hi cap_lo : Z) (ops : list Op) : History :=
  foldl run_op (mk_history (prio_channel cap_hi cap_lo) [] []) ops.

Definition of_half (h : Half) (l : list (Half * list byte)) : list (list byte) :=
  omap (fun '(k, m) => match k, h with Hi, Hi | Lo, Lo => Some m | _, _ => None end) l.

Lemma of_half_app h a b : of_half h (a ++ b) = of_half h a ++ of_half h b.
Proof. apply omap_app. Qed.

Record history_ok (cap_hi cap_lo : Z) (t : History) : Prop := {
  h_closed : closed_ok bytes_recv (chan t);
  h_bytes : forall h, bytes_ok (half h (chan t));
  h_caps : cap (hi (chan t)) = Z.min cap_hi U32_MAX /\ cap (lo (chan t)) = Z.min cap_lo U32_MAX;
  h_order : forall h, of_half h (accepted t) = of_half h (received t) ++ held (half h (chan t));
}.

Lemma half_set_half {X} h k (x : X) p :
  half k (set_half h x p) = match h, k with Hi, Hi | Lo, Lo => x | _, _ => half k p end.
Proof. by destruct h, k. Qed.

Lemma drop_tx_ok b : bytes_ok b -> bytes_ok (bytes_drop_tx b).
Proof.
  intros [Kc Kb Ks Kr Kk Kf]. unfold bytes_drop_tx. cbn in Kb.
  split; cbn; rewrite ?view_drop_tx; cbn; auto.
Qed.

(** A half marked closed is not touched by a step of its senders. *)
Lemma closed_ok_set h x p :
  closed_ok bytes_recv p ->
  (open (half h p) = false -> held x = held (half h p) /\ open x = false) ->
  closed_ok bytes_recv (set_half h x p).
Proof.
  intros [Ch' Cl] Hx.
  destruct h; split; cbn [set_half half hi lo hi_closed lo_closed] in *; intros Hc; auto.
  - destruct (Ch' Hc) as [E1 E2]. destruct (Hx E2) as [-> ->]. done.
  - destruct (Cl Hc) as [E1 E2]. destruct (Hx E2) as [-> ->]. done.
Qed.

Lemma run_send_ok ch cl t h m : history_ok ch cl t -> history_ok ch cl (run_op t (OSend h m)).
Proof.
  intros K. destruct K as [Kc Kb Kp Ko]. cbn [run_op]. destruct (open (half h (chan t))) eqn:O; [|by split].
  destruct (bytes_send_spec m _ (Kb h)) as (b' & r & -> & B & C & O' & R). split; cbn [chan accepted received].
  - apply closed_ok_set; [done|]. congruence.
  - intros k. rewrite half_set_half. by destruct h, k.
  - destruct h; cbn in *; by rewrite C.
  - intros k. specialize (Ko k). rewrite half_set_half.
    destruct R as [(-> & _ & E)|[(-> & _ & E)|(-> & _ & E)]]; rewrite ?of_half_app, Ko, <- ?app_assoc;
      destruct h, k; cbn in *; by rewrite ?E, ?app_nil_r.
Qed.

Lemma run_recv_ok ch cl t : history_ok ch cl t -> history_ok ch cl (run_op t ORecv).
Proof.
  intros K. destruct K as [Kc Kb Kp Ko]. cbn [run_op].
  pose proof (prio_recv_keeps bytes_recv
    (fun h b => bytes_ok b /\ cap b = match h with Hi => Z.min ch U32_MAX | Lo => Z.min cl U32_MAX end)
    (chan t)) as Kk.
  destruct (prio_recv_spec bytes_recv _ Kc) as (p' & Er & Kc' & Hh). rewrite Er in *.
  assert (Q : forall h, bytes_ok (half h p') /\ cap (half h p') = match h with Hi => Z.min ch U32_MAX | Lo => Z.min cl U32_MAX end).
  { apply Kk; [|intros []; split; try apply Kb; by destruct Kp].
    intros h b [B E]. destruct (bytes_recv_ok b B) as [B' E']. split; [done|]. by rewrite E'. }
  split; cbn [chan accepted received]; [done|apply Q|split; [apply (Q Hi)|apply (Q Lo)]|].
  intros h. rewrite (Ko h). destruct (Hh h) as [-> _]. unfold held_after, recv_spec.
  cbn [half]. destruct (held (hi (chan t))) as [|a hs] eqn:E1; destruct (held (lo (chan t))) as [|b ls] eqn:E2;
    destruct h; cbn [half untag tail]; rewrite ?E1, ?E2, ?of_half_app, <- ?app_assoc; try done.
  all: destruct (open (hi (chan t)) || open (lo (chan t))); cbn [untag half]; by rewrite ?E1, ?E2.
Qed.

Lemma run_drop_ok ch cl t h : history_ok ch cl t -> history_ok ch cl (run_op t (ODropTx h)).
Proof.
  intros K. destruct K as [Kc Kb Kp Ko]. cbn [run_op].
  assert (E : forall b : Bytes Ch Sem, held (bytes_drop_tx b) = held b) by (intros b; cbn; by rewrite view_drop_tx).
  split; cbn [chan accepted received].
  - apply closed_ok_set; [done|]. intros _. split; [apply E|]. cbn. by rewrite view_drop_tx.
  - intros k. rewrite half_set_half. destruct h, k; try apply drop_tx_ok; apply Kb.
  - by destruct h.
  - intros k. rewrite half_set_half, (Ko k). destruct h, k; by rewrite ?E.
Qed.

Lemma history_holds ch cl ops : 0 <= ch -> 0 <= cl -> history_ok ch cl (history ch cl ops).
Proof.
  intros Ph Pl. unfold history. assert (K : history_ok ch cl (mk_history (prio_channel ch cl) [] [])).
  { split; cbn [chan accepted received].
    - by split.
    - intros []; by apply channel_ok.
    - done.
    - intros []; cbn; by rewrite view_new. }
  revert K. generalize (mk_history (prio_channel ch cl) [] []).
  induction ops as [|o ops IH]; intros t K; [done|]. cbn [foldl]. apply IH.
  destruct o; [by apply run_send_ok|by apply run_recv_ok|by apply run_drop_ok].
Qed.

(** ** Properties *)

(** [C36] Whatever senders and receiver do, and in whatever order: on each half
    the messages accepted are exactly those already received followed by
    those still queued, in order, so nothing is lost, duplicated or
    reordered; the bytes queued on a half never exceed its capacity; and
    free permits plus queued bytes always make up the capacity, so no budget
    leaks. *)
Theorem prio_channel_conserves cap_hi cap_lo ops h :
  0 <= cap_hi -> 0 <= cap_lo ->
  let t := history cap_hi cap_lo ops in
  let b := half h (chan t) in
  of_half h (accepted t) = of_half h (received t) ++ held b /\
  total (held b) <= cap b /\ available (sem b) + total (held b) = cap b /\
  cap b = Z.min (match h with Hi => cap_hi | Lo => cap_lo end) U32_MAX.
Proof.
  intros Ph Pl. cbn zeta. destruct (history_holds cap_hi cap_lo ops Ph Pl) as [_ Kb Kp Ko].
  destruct (Kb h) as [_ Kbud _ _ _ Kf]. split; [apply Ko|]. split; [lia|]. split; [done|].
  by destruct h; destruct Kp.
Qed.

(** In every reachable state: receiving returns the oldest message of the
    high half, the oldest of the low half only when the high half is empty,
    waits while both are empty and a sender is left, and reports the end
    exactly when both halves are empty and have no senders; sending refuses
    a message exactly when it is larger than the half's capacity, waits only
    while something is queued, and otherwise accepts. *)
Lemma prio_channel_answers cap_hi cap_lo ops h m :
  0 <= cap_hi -> 0 <= cap_lo ->
  let p := chan (history cap_hi cap_lo ops) in
  (prio_recv bytes_recv p).2 =
    match held (hi p), held (lo p) with
    | e :: _, _ => Got e
    | [], e :: _ => Got e
    | [], [] => if open (hi p) || open (lo p) then Waiting else GotNone
    end /\
  match (bytes_send m (half h p)).2 with
  | SendErr m' => m' = m /\ len m > cap (half h p)
  | Sending => len m <= cap (half h p) /\ held (half h p) <> []
  | SendOk => total (held (half h p)) + len m <= cap (half h p)
  end.
Proof.
  intros Ph Pl. cbn zeta. destruct (history_holds cap_hi cap_lo ops Ph Pl) as [Kc Kb _ _].
  set (p := chan _) in *. split.
  - destruct (prio_recv_spec bytes_recv p Kc) as (p' & -> & _). unfold recv_spec.
    destruct (held (hi p)); [destruct (held (lo p)); [by destruct (_ || _)|done]|done].
  - destruct (bytes_send_spec m _ (Kb h)) as (b' & r & -> & _ & _ & _ & [(-> & L & _)|[(-> & L & _)|(-> & L & _)]]); cbn [snd].
    + done.
    + split; [lia|]. intros E. rewrite E in L. change (total []) with 0 in L. lia.
    + done.
Qed.
End BytesFacts.

(** ** Witnesses *)

Definition sample_ops : list Op :=
  [OSend Lo (lit "bulk"); OSend Hi (lit "key"); ORecv; OSend Lo (lit "toolong!!"); OSend Lo (lit "rest"); ORecv].

Lemma prio_channel_conserves_witness :
  let t := history (Ch:=ChanView (Z * list byte)) (Sem:=Z) 4 8 sample_ops in
  accepted t = [(Lo, lit "bulk"); (Hi, lit "key"); (Lo, lit "rest")] /\
  received t = [(Hi, lit "key"); (Lo, lit "bulk")] /\
  of_half Lo (accepted t) = of_half Lo (received t) ++ held (lo (chan t)).
Proof.
  split; [vm_compute; reflexivity|]. split; [vm_compute; reflexivity|].
  exact (proj1 (prio_channel_conserves (Ch:=ChanView (Z * list byte)) (Sem:=Z) 4 8 sample_ops Lo ltac:(lia) ltac:(lia))).
Defined.

Lemma prio_channel_answers_witness :
  let p := chan (history (Ch:=ChanView (Z * list byte)) (Sem:=Z) 4 8 sample_ops) in
  (prio_recv bytes_recv p).2 = Got (lit "rest") /\ (bytes_send (lit "five!") (lo p)).2 = Sending /\
  len (lit "five!") <= 8 /\ held (lo p) <> [].
Proof.
  pose proof (prio_channel_answers (Ch:=ChanView (Z * list byte)) (Sem:=Z) 4 8 sample_ops Lo (lit "five!")
    ltac:(lia) ltac:(lia)) as W. split; [vm_compute; reflexivity|]. split; [vm_compute; reflexivity|].
  exact (proj2 W).
Defined.
