(* ===== verification/Session.v ===== *)
(** * Session: shared terminals ([agent/src/session.rs])

    A session's mutex-protected state, its operations, and the session
    manager.  An operation is two parts, as in the code: a section that runs
    under the lock ([.._locked]) and the effects it performs after releasing
    it.  [serve] runs the first part and leaves the effects pending, so that
    the effects of concurrent operations interleave arbitrarily in
    [World]. *)

From Stdlib Require Import Strings.Byte.
From stdpp Require Import prelude strings list gmap.
From S2P Require Import Prelude Utf8 Frame Osc Std Tokio.

(** ** Data *)

Abbreviation StreamId := Z.
Abbreviation size := (Z * Z)%type.

(** [enum SessionEvent] *)
Module SE.
Inductive SessionEvent :=
| Data (bytes : list byte)
| ControllerChanged (controller : StreamId)
| Closed.
End SE.
Abbreviation SessionEvent := SE.SessionEvent.

(** [enum DownloadEvent] *)
Module DE.
Inductive DownloadEvent :=
| Begin (id total_size : Z) (name : list byte)
| Chunk (id : Z) (bytes : list byte)
| End (id status : Z).
End DE.
Abbreviation DownloadEvent := DE.DownloadEvent.

(** The slots of a session's two broadcast channels. *)
Definition BROADCAST_CAP : nat := 1024.
Definition DOWNLOAD_BROADCAST_CAP : nat := 32.

(** [struct ByteRing] *)
Record ByteRing := mk_ring { ring_buf : list byte; ring_cap : nat }.

Definition ring_new (cap : nat) : ByteRing := mk_ring [] cap.

(** [ByteRing::extend] *)
Definition ring_extend (r : ByteRing) (bytes : list byte) : ByteRing :=
  let b := ring_buf r ++ bytes in
  if bool_decide (ring_cap r < length b)%nat
  then mk_ring (drop (length b - ring_cap r) b) (ring_cap r)
  else mk_ring b (ring_cap r).

(** [ByteRing::snapshot] *)
Definition ring_snapshot (r : ByteRing) : list byte := ring_buf r.

(** [enum PasteStyle] *)
Inductive PasteStyle := Bracketed | PlainStyle.

(** [PasteStyle::from_shell] *)
Definition from_shell (shell : list byte) : PasteStyle :=
  let prog := default [] (file_name (default [] (head (split_whitespace shell)))) in
  if eq_ignore_ascii_case prog (lit "cmd.exe") || eq_ignore_ascii_case prog (lit "cmd")
  then PlainStyle else Bracketed.

(** [struct SessionInner] *)
Record SessionInner := mk_inner {
  controller : option StreamId;
  last_size : size;
  attached : gmap StreamId size;
  scrollback : ByteRing;
  last_attached_at : Z;
  exited : bool;
}.

(** What a session asks of its pseudo-terminal. *)
Inductive PtyOp := PtyResize (rows cols : Z) | PtyInput (bytes : list byte) | PtyKill.

(** The result of an attach, the receivers apart. *)
Record AttachResult (Rx : Type) := mk_attach {
  event_rx : Rx;
  replay : list byte;
  became_controller : bool;
  current_controller : option StreamId;
}.
Arguments mk_attach {Rx}.
Arguments event_rx {Rx}.
Arguments replay {Rx}.
Arguments became_controller {Rx}.
Arguments current_controller {Rx}.

Section Session.
Context {Ch Rx : Type} `{Broadcast SessionEvent Ch Rx}.

(** [struct Session]: the lock's content, the event channel, and what has been
    sent to the PTY so far.  [output] is a ghost: everything the reader task
    has forwarded. *)
Record Session := mk_session {
  inner : SessionInner;
  broadcast_tx : Ch;
  pty : list PtyOp;
  output : list byte;
}.

Definition with_inner (s : Session) (i : SessionInner) : Session :=
  mk_session i (broadcast_tx s) (pty s) (output s).

(** ** Effects performed without the lock *)

Inductive Effect := EResize (rows cols : Z) | EBroadcast (e : SessionEvent).

Definition run_effect (e : Effect) (s : Session) : Session :=
  match e with
  | EResize r c => mk_session (inner s) (broadcast_tx s) (pty s ++ [PtyResize r c]) (output s)
  | EBroadcast ev => mk_session (inner s) (bc_send ev (broadcast_tx s)) (pty s) (output s)
  end.

Definition run_effects (es : list Effect) (s : Session) : Session :=
  foldl (fun s e => run_effect e s) s es.

(** The two effects of gaining control. *)
Definition take_over (sid : StreamId) (sz : size) : list Effect :=
  [EResize sz.1 sz.2; EBroadcast (SE.ControllerChanged sid)].

(** ** Operations: the part under the lock *)

(** [Session::attach] *)
Definition attach_locked (now : Z) (sid : StreamId) (sz : size) (s : Session)
    : Session * AttachResult Rx * list Effect :=
  let i := inner s in
  let rx := bc_subscribe (broadcast_tx s) in
  let snap := ring_snapshot (scrollback i) in
  let att := <[sid := sz]> (attached i) in
  match controller i with
  | None =>
      (with_inner s (mk_inner (Some sid) sz att (scrollback i) now (exited i)),
       mk_attach rx snap true (Some sid), take_over sid sz)
  | Some c =>
      (with_inner s (mk_inner (Some c) (last_size i) att (scrollback i) now (exited i)),
       mk_attach rx snap false (Some c), [])
  end.

(** [Session::detach] *)
Definition detach_locked (now : Z) (sid : StreamId) (s : Session) : Session * list Effect :=
  let i := inner s in
  let was := bool_decide (controller i = Some sid) in
  let i' := mk_inner (if was then None else controller i) (last_size i)
              (delete sid (attached i)) (scrollback i) now (exited i) in
  (with_inner s i',
   if was then [EBroadcast (SE.ControllerChanged CONTROLLER_NONE_STREAM_ID)] else []).

(** [Session::write_input_from]; [room] says whether the PTY's input queue
    accepts the bytes ([try_send]). *)
Definition write_input_from (sid : StreamId) (bytes : list byte) (room : bool) (s : Session)
    : Session :=
  if bool_decide (controller (inner s) = Some sid) then
    if room then mk_session (inner s) (broadcast_tx s) (pty s ++ [PtyInput bytes]) (output s)
    else s
  else s.

(** [Session::write_internal] and whether it succeeds; [alive]: the PTY's writer
    thread has not exited (when it has, the error is [BrokenPipe]). *)
Definition write_internal (bytes : list byte) (alive : bool) (s : Session) : Session * bool :=
  if alive then (mk_session (inner s) (broadcast_tx s) (pty s ++ [PtyInput bytes]) (output s), true)
  else (s, false).

(** [Session::resize_for] *)
Definition resize_for_locked (sid : StreamId) (rows cols : Z) (s : Session)
    : Session * list Effect :=
  let i := inner s in
  let att := <[sid := (rows, cols)]> (attached i) in
  if bool_decide (controller i = Some sid) then
    (with_inner s (mk_inner (controller i) (rows, cols) att (scrollback i)
                     (last_attached_at i) (exited i)), [EResize rows cols])
  else
    (with_inner s (mk_inner (controller i) (last_size i) att (scrollback i)
                     (last_attached_at i) (exited i)), []).

(** Make [sid] the controller with its own geometry ([acquire_control] and
    [take_control] share these lines). *)
Definition set_controller (sid : StreamId) (sz : size) (s : Session) : Session :=
  let i := inner s in
  with_inner s (mk_inner (Some sid) sz (attached i) (scrollback i) (last_attached_at i) (exited i)).

(** [Session::acquire_control] *)
Definition acquire_locked (sid : StreamId) (s : Session) : Session * bool * list Effect :=
  match attached (inner s) !! sid with
  | None => (s, false, [])
  | Some sz =>
      match controller (inner s) with
      | Some _ => (s, false, [])
      | None => (set_controller sid sz s, true, take_over sid sz)
      end
  end.

(** [Session::release_control] *)
Definition release_locked (sid : StreamId) (s : Session) : Session * bool * list Effect :=
  let i := inner s in
  if bool_decide (controller i = Some sid) then
    (with_inner s (mk_inner None (last_size i) (attached i) (scrollback i)
                     (last_attached_at i) (exited i)),
     true, [EBroadcast (SE.ControllerChanged CONTROLLER_NONE_STREAM_ID)])
  else (s, false, []).

(** [Session::take_control] *)
Definition take_locked (sid : StreamId) (s : Session) : Session * bool * list Effect :=
  match attached (inner s) !! sid with
  | None => (s, false, [])
  | Some sz => (set_controller sid sz s, true, take_over sid sz)
  end.

(** [Session::is_controller] *)
Definition is_controller (sid : StreamId) (s : Session) : bool :=
  bool_decide (controller (inner s) = Some sid).

(** The reader task on a non-empty chunk to forward: scrollback and broadcast
    under one lock. *)
Definition forward_locked (fwd : list byte) (s : Session) : Session :=
  let i := inner s in
  mk_session
    (mk_inner (controller i) (last_size i) (attached i) (ring_extend (scrollback i) fwd)
       (last_attached_at i) (exited i))
    (bc_send (SE.Data fwd) (broadcast_tx s)) (pty s) (output s ++ fwd).

(** The reader task when the shell has exited. *)
Definition exited_locked (s : Session) : Session * list Effect :=
  let i := inner s in
  (with_inner s (mk_inner (controller i) (last_size i) (attached i) (scrollback i)
                   (last_attached_at i) true), [EBroadcast SE.Closed]).

(** A fresh session ([Session::spawn]). *)
Definition spawn (now : Z) (initial_size : size) (scrollback_cap : nat) (c : Ch) : Session :=
  mk_session (mk_inner None initial_size ∅ (ring_new scrollback_cap) now false) c [] [].

(** ** Concurrent operations *)

Inductive Request :=
| RAttach (sid : StreamId) (sz : size)
| RDetach (sid : StreamId)
| RInput (sid : StreamId) (bytes : list byte) (room : bool)
| RInternal (bytes : list byte) (alive : bool)
| RResize (sid : StreamId) (rows cols : Z)
| RAcquire (sid : StreamId)
| RRelease (sid : StreamId)
| RTake (sid : StreamId)
| ROutput (fwd : list byte)
| RExited.

(** The locked part of an operation, and the effects left to perform. *)
Definition serve (now : Z) (r : Request) (s : Session) : Session * list Effect :=
  match r with
  | RAttach sid sz => let '(s, _, es) := attach_locked now sid sz s in (s, es)
  | RDetach sid => detach_locked now sid s
  | RInput sid b room => (write_input_from sid b room s, [])
  | RInternal b alive => ((write_internal b alive s).1, [])
  | RResize sid r c => resize_for_locked sid r c s
  | RAcquire sid => let '(s, _, es) := acquire_locked sid s in (s, es)
  | RRelease sid => let '(s, _, es) := release_locked sid s in (s, es)
  | RTake sid => let '(s, _, es) := take_locked sid s in (s, es)
  | ROutput fwd => (forward_locked fwd s, [])
  | RExited => exited_locked s
  end.

(** The session and, for each operation that has released the lock, the
    effects it has yet to perform. *)
Record World := mk_world { sess : Session; pending : list (list Effect) }.

Inductive Event := Serve (now : Z) (r : Request) | Perform (task : nat).

(** One scheduling step: an operation enters and leaves the lock, or one of
    the operations past its lock performs its next effect. *)
Definition step (e : Event) (w : World) : World :=
  match e with
  | Serve now r => let '(s, es) := serve now r (sess w) in mk_world s (pending w ++ [es])
  | Perform t =>
      match pending w !! t with
      | Some (e :: es) => mk_world (run_effect e (sess w)) (<[t := es]> (pending w))
      | _ => w
      end
  end.

Definition run (es : list Event) (w : World) : World := foldl (fun w e => step e w) w es.

(** Nobody waits: every operation performs its effects before the next one. *)
Definition serve_all (now : Z) (rs : list Request) (s : Session) : Session :=
  foldl (fun s r => let '(s, es) := serve now r s in run_effects es s) s rs.
End Session.
Arguments Session Ch : clear implicits.
Arguments World Ch : clear implicits.

(** ** Downloads asked for by the terminal program *)

(** [ct_eq_str] *)
Definition ct_eq_str (a b : list byte) : bool :=
  if negb (bool_decide (length a = length b)) then false
  else foldl (fun diff '(x, y) => Z.lor diff (Z.lxor (byte_val x) (byte_val y))) 0 (zip a b) =? 0.

(** [parse_dl_osc]: the token and the path of [dl;<token>;<path>]. *)
Definition parse_dl_osc (payload : list byte) : option (list byte * list byte) :=
  semi1 ← position ";" payload;
  if negb (bool_decide (take semi1 payload = lit "dl")) then None else
  let rest := drop (S semi1) payload in
  semi2 ← position ";" rest;
  token ← (if utf8_valid (take semi2 rest) then Some (take semi2 rest) else None);
  path ← (if utf8_valid (drop (S semi2) rest) then Some (drop (S semi2) rest) else None);
  Some (token, path).

(** One captured payload: the path of the download it starts, if any. *)
Definition handle_osc (dl_token payload : list byte) : option (list byte) :=
  '(token, path) ← parse_dl_osc payload;
  if ct_eq_str token dl_token then Some path else None.

(** The reader task on one chunk of PTY output: the scanner's next state, what
    is forwarded (nothing is, when it is empty) and the paths of the downloads
    that are started. *)
Definition reader_chunk (dl_token : list byte) (osc : OscScanner) (chunk : list byte)
    : OscScanner * list byte * list (list byte) :=
  let '(osc, (fwd, captured)) := feed osc chunk in
  (osc, fwd, omap (handle_osc dl_token) captured).

(** [next_download_id.fetch_add(1)]: the id taken and the counter afterwards. *)
Definition fetch_download_id (next : Z) : Z * Z := (next, as_u32 (next + 1)).

(** ** Sending a file *)

Inductive DlError :=
| OpenFailed | StatFailed | NotRegular | OverCap (n : Z)
| ReadFailed | Grew (declared would : Z) | Shrank (declared sent : Z).

(** The file as the operating system serves it: the results of [open],
    [metadata] ([is_file] and [len]) and of the successive [read]s. *)
Record FileAccess := mk_file {
  fa_open : bool;
  fa_stat : option (bool * Z);
  fa_reads : list (option (list byte));
}.

(** The read loop; [listening] answers, for each event sent, whether a receiver
    is attached.  A list of reads that runs out is the end of the file. *)
Fixpoint download_loop (id total : Z) (reads : list (option (list byte))) (listening : list bool)
    (sent : Z) : list DownloadEvent * (DlError + unit) :=
  let finish :=
    if negb (sent =? total) then ([], inl (Shrank total sent))
    else ([DE.End id DOWNLOAD_STATUS_OK], inr tt) in
  match reads with
  | [] => finish
  | None :: _ => ([], inl ReadFailed)
  | Some [] :: _ => finish
  | Some chunk :: reads =>
      let n := len chunk in
      if sat_add64 sent n >? total then ([], inl (Grew total (sent + n)))
      else
        let '(ok, listening) :=
          match listening with [] => (true, []) | b :: l => (b, l) end in
        if ok : bool then
          let '(evs, r) := download_loop id total reads listening (sat_add64 sent n) in
          (DE.Chunk id chunk :: evs, r)
        else ([DE.Chunk id chunk], inr tt)
  end.

(** [stream_download]: the events sent on the download channel and the result. *)
Definition stream_download (id : Z) (path : list byte) (f : FileAccess) (listening : list bool)
    : list DownloadEvent * (DlError + unit) :=
  if negb (fa_open f) then ([], inl OpenFailed)
  else match fa_stat f with
  | None => ([], inl StatFailed)
  | Some (is_file, total) =>
      if negb is_file then ([], inl NotRegular)
      else if total >? MAX_PASTE_TOTAL_BYTES then ([], inl (OverCap total))
      else
        let name := default (lit "download") (file_name path) in
        let '(ok, listening) :=
          match listening with [] => (true, []) | b :: l => (b, l) end in
        if ok : bool then
          let '(evs, r) := download_loop id total (fa_reads f) listening 0 in
          (DE.Begin id total name :: evs, r)
        else ([DE.Begin id total name], inr tt)
  end.

(** The task the reader spawns: an error is reported by a cancelling end (the
    line typed into the terminal is left to [write_internal]). *)
Definition download_task (id : Z) (path : list byte) (f : FileAccess) (listening : list bool)
    : list DownloadEvent :=
  match stream_download id path f listening with
  | (evs, inr _) => evs
  | (evs, inl _) => evs ++ [DE.End id DOWNLOAD_STATUS_CANCEL]
  end.
