(* ===== verification/SessionFacts.v ===== *)
(** * SessionFacts: correctness of shared sessions *)

From Stdlib Require Import Strings.Byte.
From stdpp Require Import prelude strings list gmap.
From S2P Require Import Prelude Utf8 Frame Osc Std Tokio Session.

(** ** The scrollback ring *)

(** The last [n] elements of a list. *)
Definition last_n {A} (n : nat) (l : list A) : list A := drop (length l - n) l.

Lemma last_n_length {A} n (l : list A) : length (last_n n l) = Nat.min n (length l).
Proof. unfold last_n. rewrite length_drop. lia. Qed.

Lemma last_n_app {A} n (a b : list A) : last_n n (last_n n a ++ b) = last_n n (a ++ b).
Proof.
  unfold last_n. rewrite !length_app, length_drop.
  destruct (decide (n <= length b)%nat).
  - rewrite !drop_app_ge by (rewrite ?length_drop; lia). rewrite !length_drop. f_equal. lia.
  - rewrite !drop_app_le by (rewrite ?length_drop; lia). rewrite drop_drop. do 2 f_equal. lia.
Qed.

Lemma ring_extend_last r bytes :
  ring_buf (ring_extend r bytes) = last_n (ring_cap r) (ring_buf r ++ bytes).
Proof.
  unfold ring_extend, last_n. case_bool_decide; [done|]. cbn [ring_buf].
  replace (length (ring_buf r ++ bytes) - ring_cap r)%nat with 0%nat by lia. done.
Qed.

Lemma ring_extend_cap r bytes : ring_cap (ring_extend r bytes) = ring_cap r.
Proof. unfold ring_extend. by case_bool_decide. Qed.

(** ** The lock's invariant *)

Section Facts.
Context {Ch Rx : Type} `{BroadcastLaws SessionEvent Ch Rx}.

Record sess_inv (cap : nat) (s : Session Ch) : Prop := {
  inv_controller : forall c, controller (inner s) = Some c -> is_Some (attached (inner s) !! c);
  inv_cap : ring_cap (scrollback (inner s)) = cap;
  inv_ring : ring_buf (scrollback (inner s)) = last_n cap (output s);
}.

Lemma spawn_inv now sz cap c : sess_inv cap (spawn now sz cap c).
Proof. by split. Qed.

Lemma run_effect_inv cap e s : sess_inv cap s -> sess_inv cap (run_effect e s).
Proof. intros []. by destruct e. Qed.

Lemma serve_inv cap now r s : sess_inv cap s -> sess_inv cap (serve now r s).1.
Proof.
  intros I. pose proof I as [Ic Icap Ir]. destruct r; cbn [serve].
  - unfold attach_locked. destruct (controller (inner s)) as [c|] eqn:Ec; cbn [fst];
      (split; [|done|done]); cbn; intros c' [= <-].
    + destruct (decide (c = sid)) as [->|]; [by rewrite lookup_insert_eq|].
      rewrite lookup_insert_ne by done. auto.
    + by rewrite lookup_insert_eq.
  - cbn. split; [|done|done]. cbn. intros c. case_bool_decide as E; [done|]. intros Ec.
    rewrite lookup_delete_ne by congruence. auto.
  - unfold write_input_from. case_bool_decide; [|by split]. by destruct room.
  - by destruct alive.
  - unfold resize_for_locked. case_bool_decide as E; (split; [|done|done]); cbn; intros c Ec;
      (destruct (decide (c = sid)) as [->|]; [by rewrite lookup_insert_eq|];
       rewrite lookup_insert_ne by done; auto).
  - unfold acquire_locked. destruct (attached (inner s) !! sid) eqn:Ea; [|by split].
    destruct (controller (inner s)) eqn:Ec; [done|]. split; [|done|done]. cbn. intros c [= <-]. by rewrite Ea.
  - unfold release_locked. case_bool_decide; [|by split]. by split.
  - unfold take_locked. destruct (attached (inner s) !! sid) eqn:Ea; [|by split].
    split; [|done|done]. cbn. intros c [= <-]. by rewrite Ea.
  - split; [done|cbn; by rewrite ring_extend_cap|]. cbn [fst forward_locked inner scrollback output].
    rewrite ring_extend_last, Icap, Ir. apply last_n_app.
  - by split.
Qed.

Lemma step_inv cap e w : sess_inv cap (sess w) -> sess_inv cap (sess (step e w)).
Proof.
  intros I. destruct e as [now r|t]; cbn [step].
  - pose proof (serve_inv cap now r _ I). by destruct (serve now r (sess w)).
  - destruct (pending w !! t) as [[|e es]|]; [done| |done]. by apply run_effect_inv.
Qed.

Lemma run_inv cap es w : sess_inv cap (sess w) -> sess_inv cap (sess (run es w)).
Proof. revert w. induction es as [|e es IH]; intros w I; [done|]. apply IH. by apply step_inv. Qed.

(** ** What a subscriber receives *)

Definition data_of (evs : list SessionEvent) : list byte :=
  concat (map (fun e => match e with SE.Data b => b | _ => [] end) evs).

Lemma data_of_app a b : data_of (a ++ b) = data_of a ++ data_of b.
Proof. unfold data_of. by rewrite map_app, concat_app. Qed.

(** [rx] has been handed exactly the output behind the first [k] bytes. *)
Definition follows (k : nat) (rx : Rx) (s : Session Ch) : Prop :=
  receiver_of (broadcast_tx s) rx /\ (k <= length (output s))%nat /\
  data_of (delivered (broadcast_tx s) rx) = drop k (output s).

Lemma send_follows k rx s ev :
  follows k rx s -> data_of [ev] = [] ->
  follows k rx (mk_session (inner s) (bc_send ev (broadcast_tx s)) (pty s) (output s)).
Proof.
  intros (R & L & D) E. split; [by apply send_receiver|]. split; [done|]. cbn.
  by rewrite delivered_send, data_of_app, D, E, app_nil_r.
Qed.

Lemma run_effect_follows k rx e s :
  follows k rx s -> (forall b, e <> EBroadcast (SE.Data b)) -> follows k rx (run_effect e s).
Proof.
  intros F N. destruct e as [|ev]; [done|]. apply send_follows; [done|].
  destruct ev; [|done..]. by destruct (N bytes).
Qed.

Definition quiet (es : list Effect) : Prop := Forall (fun e => forall b, e <> EBroadcast (SE.Data b)) es.

Lemma serve_follows k rx now r s : follows k rx s -> follows k rx (serve now r s).1.
Proof.
  intros F. destruct r; cbn [serve]; try done.
  - unfold attach_locked. by destruct (controller (inner s)).
  - unfold write_input_from. case_bool_decide; [|done]. by destruct room.
  - by destruct alive.
  - unfold resize_for_locked. by case_bool_decide.
  - unfold acquire_locked. destruct (attached (inner s) !! sid); [|done].
    by destruct (controller (inner s)).
  - unfold release_locked. by case_bool_decide.
  - unfold take_locked. by destruct (attached (inner s) !! sid).
  - destruct F as (R & L & D). split; [by apply send_receiver|]. cbn. rewrite length_app.
    split; [lia|]. rewrite delivered_send, data_of_app, D by done. unfold data_of. cbn.
    by rewrite app_nil_r, drop_app_le.
Qed.

Lemma serve_quiet now r s : quiet (serve now r s).2.
Proof.
  destruct r; cbn [serve]; unfold quiet, attach_locked, detach_locked, resize_for_locked, 
    acquire_locked, release_locked, take_locked, take_over;
    repeat case_match; simplify_eq; cbn; repeat constructor; done.
Qed.

Lemma step_follows k rx e w :
  follows k rx (sess w) -> Forall quiet (pending w) ->
  follows k rx (sess (step e w)) /\ Forall quiet (pending (step e w)).
Proof.
  intros F Q. destruct e as [now r|t]; cbn [step].
  - pose proof (serve_follows k rx now r _ F). pose proof (serve_quiet now r (sess w)).
    destruct (serve now r (sess w)). split; [done|]. by apply Forall_app_2; [|constructor].
  - destruct (pending w !! t) as [[|e es]|] eqn:P; [done| |done].
    pose proof (Forall_lookup_1 _ _ _ _ Q P) as Qe. inversion Qe; subst.
    split; [by apply run_effect_follows|]. by apply Forall_insert.
Qed.

Lemma run_follows k rx es w :
  follows k rx (sess w) -> Forall quiet (pending w) -> follows k rx (sess (run es w)).
Proof.
  revert w. induction es as [|e es IH]; intros w F Q; [done|].
  destruct (step_follows k rx e w F Q). by apply IH.
Qed.

Lemma run_quiet es w : Forall quiet (pending w) -> Forall quiet (pending (run es w)).
Proof.
  revert w. induction es as [|e es IH]; intros w Q; [done|]. apply IH. clear IH.
  destruct e as [now r|t]; cbn [step].
  - pose proof (serve_quiet now r (sess w)). destruct (serve now r (sess w)).
    by apply Forall_app_2; [|constructor].
  - destruct (pending w !! t) as [[|e es']|] eqn:P; [done| |done].
    pose proof (Forall_lookup_1 _ _ _ _ Q P) as Qe. inversion Qe; subst. by apply Forall_insert.
Qed.

Lemma attach_follows now sid sz s :
  let '(s', r, _) := attach_locked now sid sz s in
  follows (length (output s)) (event_rx r) s' /\ replay r = ring_buf (scrollback (inner s)).
Proof.
  unfold attach_locked. destruct (controller (inner s)); (split; [|done]);
    (split; [apply subscribe_receiver|]); (split; [done|]); cbn;
    by rewrite delivered_subscribe, drop_all.
Qed.

Lemma attach_output now sid sz (s : Session Ch) :
  output (attach_locked now sid sz s).1.1 = output s.
Proof. unfold attach_locked. by destruct (controller (inner s)). Qed.

Lemma run_output es (w : World Ch) :
  exists more, output (sess (run es w)) = output (sess w) ++ more.
Proof.
  revert w. induction es as [|e es IH]; intros w; [by exists []; rewrite app_nil_r|].
  destruct (IH (step e w)) as [m E]. cbn. fold (run es (step e w)). rewrite E. clear.
  assert (exists m', output (sess (step e w)) = output (sess w) ++ m') as [m' ->];
    [|exists (m' ++ m); by rewrite app_assoc].
  destruct e as [now r|t]; cbn [step].
  - destruct r; cbn [serve];
      unfold attach_locked, detach_locked, resize_for_locked, acquire_locked, release_locked,
        take_locked, write_input_from, write_internal, exited_locked;
      repeat case_match; simplify_eq; cbn; first [by exists fwd|by exists []; rewrite app_nil_r].
  - exists []. destruct (pending w !! t) as [[|[] es']|]; cbn; by rewrite app_nil_r.
Qed.

(** ** Who reaches the terminal *)

Definition inputs (ops : list PtyOp) : list (list byte) :=
  omap (fun o => match o with PtyInput b => Some b | _ => None end) ops.

Lemma inputs_app a b : inputs (a ++ b) = inputs a ++ inputs b.
Proof. unfold inputs. apply omap_app. Qed.

(** What one event adds to the terminal's input. *)
Definition admitted_input (e : Event) (w : World Ch) : list (list byte) :=
  match e with
  | Serve _ (RInput sid b true) =>
      if bool_decide (controller (inner (sess w)) = Some sid) then [b] else []
  | Serve _ (RInternal b true) => [b]
  | _ => []
  end.

Lemma step_inputs e w :
  inputs (pty (sess (step e w))) = inputs (pty (sess w)) ++ admitted_input e w.
Proof.
  destruct e as [now r|t]; cbn [step admitted_input].
  - destruct r; cbn [serve];
      unfold attach_locked, detach_locked, resize_for_locked, acquire_locked, release_locked,
        take_locked, write_input_from, write_internal, exited_locked;
      repeat case_match; simplify_eq; cbn; rewrite ?inputs_app, ?app_nil_r; try done;
      repeat case_bool_decide; done.
  - destruct (pending w !! t) as [[|[] es]|]; cbn; rewrite ?inputs_app, ?app_nil_r; done.
Qed.

(** ** Sequential use *)

(** The controller announced by the last [ControllerChanged]. *)
Fixpoint last_announced (evs : list SessionEvent) (d : StreamId) : StreamId :=
  match evs with
  | [] => d
  | SE.ControllerChanged c :: evs => last_announced evs c
  | _ :: evs => last_announced evs d
  end.
Fixpoint last_resize (ops : list PtyOp) (d : size) : size :=
  match ops with
  | [] => d
  | PtyResize r c :: ops => last_resize ops (r, c)
  | _ :: ops => last_resize ops d
  end.

Lemma last_announced_app a b d : last_announced (a ++ b) d = last_announced b (last_announced a d).
Proof. revert d. induction a as [|[] a IH]; intros d; cbn; auto. Qed.
Lemma last_resize_app a b d : last_resize (a ++ b) d = last_resize b (last_resize a d).
Proof. revert d. induction a as [|[] a IH]; intros d; cbn; auto. Qed.

Definition controller_id (s : Session Ch) : StreamId :=
  default CONTROLLER_NONE_STREAM_ID (controller (inner s)).

(** What an observer that subscribed from the start knows, and the geometry of
    the terminal. *)
Record in_sync (rx : Rx) (d : size) (s : Session Ch) : Prop := {
  sync_rx : receiver_of (broadcast_tx s) rx;
  sync_announced : last_announced (delivered (broadcast_tx s) rx) CONTROLLER_NONE_STREAM_ID
                   = controller_id s;
  sync_size : last_resize (pty s) d = last_size (inner s);
  sync_own : forall c, controller (inner s) = Some c ->
               attached (inner s) !! c = Some (last_size (inner s));
}.

(** Announcing the controller the lock now holds. *)
Lemma announce rx d (s : Session Ch) i es :
  receiver_of (broadcast_tx s) rx ->
  es = take_over (default CONTROLLER_NONE_STREAM_ID (controller i)) (last_size i) \/
    (es = [EBroadcast (SE.ControllerChanged (default CONTROLLER_NONE_STREAM_ID (controller i)))]
     /\ last_resize (pty s) d = last_size i) ->
  (forall c, controller i = Some c -> attached i !! c = Some (last_size i)) ->
  in_sync rx d (run_effects es (with_inner s i)).
Proof.
  intros R [->|[-> E]] O; (split; cbn; [by apply send_receiver| | |done]);
    rewrite ?last_resize_app; try done.
  - by rewrite delivered_send, last_announced_app.
  - by destruct (last_size i).
  - by rewrite delivered_send, last_announced_app.
Qed.

(** An attach uses a stream id that is not attached. *)
Definition fresh_request (r : Request) (s : Session Ch) : Prop :=
  match r with RAttach sid _ => attached (inner s) !! sid = None | _ => True end.

Lemma serve_in_sync rx d now r s :
  in_sync rx d s -> fresh_request r s ->
  in_sync rx d (let '(s', es) := serve now r s in run_effects es s').
Proof.
  intros I Fr. pose proof I as [Ir Ia Is Io]. unfold controller_id in *.
  destruct r; cbn [serve fresh_request] in *.
  - unfold attach_locked. destruct (controller (inner s)) as [c|] eqn:Ec.
    + split; cbn; rewrite ?Ec in *; try done. intros c' [= <-].
      rewrite lookup_insert_ne; [by apply Io|]. intros ->. by rewrite Io in Fr.
    + apply announce; [done|by left|]. cbn. intros c' [= <-]. by rewrite lookup_insert_eq.
  - unfold detach_locked. case_bool_decide as E.
    + apply announce; [done|by right|done].
    + split; cbn; try done. intros c Ec. rewrite lookup_delete_ne by congruence. auto.
  - unfold write_input_from. case_bool_decide; [|done]. destruct room; [|done].
    split; cbn; rewrite ?last_resize_app; done.
  - destruct alive; [|done]. split; cbn; rewrite ?last_resize_app; done.
  - unfold resize_for_locked. case_bool_decide as E.
    + split; cbn; rewrite ?last_resize_app; try done. intros c Ec.
      assert (c = sid) as -> by congruence. by rewrite lookup_insert_eq.
    + split; cbn; try done. intros c Ec. rewrite lookup_insert_ne by congruence. auto.
  - unfold acquire_locked. destruct (attached (inner s) !! sid) eqn:Ea; [|done].
    destruct (controller (inner s)); [done|]. apply announce; [done|by left|].
    cbn. by intros c [= <-].
  - unfold release_locked. case_bool_decide; [|done]. apply announce; [done|by right|done].
  - unfold take_locked. destruct (attached (inner s) !! sid) eqn:Ea; [|done].
    apply announce; [done|by left|]. cbn. by intros c [= <-].
  - split; cbn; try done; [by apply send_receiver|].
    by rewrite delivered_send, last_announced_app.
  - split; cbn; try done; [by apply send_receiver|].
    by rewrite delivered_send, last_announced_app.
Qed.

(** A sequence of requests in which every attach is fresh when it is made. *)
Fixpoint all_fresh (now : Z) (rs : list Request) (s : Session Ch) : Prop :=
  match rs with
  | [] => True
  | r :: rs => fresh_request r s /\
               all_fresh now rs (let '(s', es) := serve now r s in run_effects es s')
  end.

Lemma serve_all_in_sync rx d now rs s :
  in_sync rx d s -> all_fresh now rs s -> in_sync rx d (serve_all now rs s).
Proof.
  revert s. induction rs as [|r rs IH]; intros s I F; [done|]. destruct F as [F1 F2].
  apply IH; [by apply serve_in_sync|done].
Qed.
End Facts.

(** ** Properties *)

(** A new viewer sees the output without gap or duplicate: from any state
    reached by any interleaving of operations, what an attach replays followed
    by everything its subscription is handed later (in any further
    interleaving) is the session's output from a point at most
    [scrollback_cap] bytes before the attach. *)
Lemma attach_no_gap_no_duplicate (Ch Rx : Type) `{BroadcastLaws SessionEvent Ch Rx}
    now0 sz0 cap c0 before now sid sz after :
  let w1 := run before (mk_world (spawn now0 sz0 cap c0) []) in
  let '(s', r, es) := attach_locked now sid sz (sess w1) in
  let w2 := run after (mk_world s' (pending w1 ++ [es])) in
  replay r ++ data_of (delivered (broadcast_tx (sess w2)) (event_rx r))
  = drop (length (output (sess w1)) - cap) (output (sess w2)).
Proof.
  intros w1. set (w0 := mk_world (spawn now0 sz0 cap c0) []) in *.
  pose proof (run_inv cap before w0 (spawn_inv now0 sz0 cap c0)) as [_ _ I].
  change (run before w0) with w1 in I.
  pose proof (run_quiet before w0 ltac:(constructor)) as Q.
  pose proof (attach_follows now sid sz (sess w1)) as F.
  pose proof (serve_quiet now (RAttach sid sz) (sess w1)) as Qa. cbn [serve] in Qa.
  pose proof (attach_output now sid sz (sess w1)) as Eo.
  destruct (attach_locked now sid sz (sess w1)) as [[s' r] es]. cbn [fst snd] in *.
  destruct F as [F ->].
  destruct (run_follows _ _ after (mk_world s' (pending w1 ++ [es])) F) as (_ & L & D).
  { by apply Forall_app_2; [|constructor]. }
  destruct (run_output after (mk_world s' (pending w1 ++ [es]))) as [more E].
  cbn [sess] in E. rewrite I, D, E, Eo.
  unfold last_n. by rewrite drop_app_length, drop_app_le by lia.
Qed.

(** [C27] In every state reached by any interleaving: the controller is one of the
    attached streams, and the scrollback is exactly the last
    [scrollback_cap] bytes of the session's output. *)
Theorem session_invariant (Ch Rx : Type) `{BroadcastLaws SessionEvent Ch Rx} now0 sz0 cap c0 events :
  let s := sess (run events (mk_world (spawn now0 sz0 cap c0) [])) in
  (forall c, controller (inner s) = Some c -> is_Some (attached (inner s) !! c)) /\
  ring_snapshot (scrollback (inner s)) = drop (length (output s) - cap) (output s) /\
  (length (ring_snapshot (scrollback (inner s))) <= cap)%nat.
Proof.
  pose proof (run_inv cap events (mk_world (spawn now0 sz0 cap c0) []) (spawn_inv _ _ _ _))
    as [Ic _ Ir].
  cbn zeta. unfold ring_snapshot. rewrite Ir. split; [done|]. split; [done|].
  rewrite last_n_length. lia.
Qed.

(** Only the controller types: whatever one scheduling step does, the
    bytes it hands to the terminal's input are those of a [write_input_from]
    of the stream that holds control at that moment (and only if the PTY's
    queue had room), or the agent's own while its writer is alive. *)
Lemma only_controller_input (Ch Rx : Type) `{BroadcastLaws SessionEvent Ch Rx} e (w : World Ch) :
  inputs (pty (sess (step e w))) = inputs (pty (sess w)) ++
    match e with
    | Serve _ (RInput sid b true) =>
        if bool_decide (controller (inner (sess w)) = Some sid) then [b] else []
    | Serve _ (RInternal b true) => [b]
    | _ => []
    end.
Proof. apply step_inputs. Qed.

(** The control lease on every branch: acquiring succeeds exactly for an
    attached stream of a session without controller, taking for any attached
    stream, releasing for the controller; a success makes the caller (or
    nobody) the controller with the caller's own geometry, a failure changes
    nothing, and no branch detaches a stream. *)
Lemma control_lease (Ch Rx : Type) `{BroadcastLaws SessionEvent Ch Rx} sid (s : Session Ch) :
  let '(sa, oka, esa) := acquire_locked sid s in
  let '(st, okt, est) := take_locked sid s in
  let '(sr, okr, esr) := release_locked sid s in
  (oka = true <-> is_Some (attached (inner s) !! sid) /\ controller (inner s) = None) /\
  (okt = true <-> is_Some (attached (inner s) !! sid)) /\
  (okr = true <-> controller (inner s) = Some sid) /\
  (if oka then controller (inner sa) = Some sid /\ attached (inner s) !! sid = Some (last_size (inner sa))
   else sa = s /\ esa = []) /\
  (if okt then controller (inner st) = Some sid /\ attached (inner s) !! sid = Some (last_size (inner st))
   else st = s /\ est = []) /\
  (if okr then controller (inner sr) = None else sr = s /\ esr = []) /\
  attached (inner sa) = attached (inner s) /\ attached (inner st) = attached (inner s) /\
  attached (inner sr) = attached (inner s).
Proof.
  unfold acquire_locked, take_locked, release_locked.
  destruct (attached (inner s) !! sid) as [sz|] eqn:Ea, (controller (inner s)) as [c|] eqn:Ec;
    case_bool_decide as E; simplify_eq; cbn; naive_solver.
Qed.

(** Without concurrency the announcements are right: when every operation
    performs its effects before the next one starts and attaches use new
    stream ids, an observer's last [ControllerChanged] names the controller,
    the terminal's last resize is the recorded geometry, and that geometry is
    the one the controller last reported. *)
Lemma sequential_announcements (Ch Rx : Type) `{BroadcastLaws SessionEvent Ch Rx}
    now0 sz0 cap (c0 : Ch) now rs :
  all_fresh now rs (spawn now0 sz0 cap c0) ->
  let s := serve_all now rs (spawn now0 sz0 cap c0) in
  last_announced (delivered (broadcast_tx s) (bc_subscribe c0)) CONTROLLER_NONE_STREAM_ID
    = default CONTROLLER_NONE_STREAM_ID (controller (inner s)) /\
  last_resize (pty s) sz0 = last_size (inner s) /\
  (forall c, controller (inner s) = Some c ->
     attached (inner s) !! c = Some (last_size (inner s))).
Proof.
  intros F s.
  assert (I : in_sync (bc_subscribe c0) sz0 (spawn now0 sz0 cap c0)).
  { split; cbn; [apply subscribe_receiver|by rewrite delivered_subscribe|done|done]. }
  by destruct (serve_all_in_sync _ _ _ _ _ I F).
Qed.

Lemma sequential_announcements_witness :
  let rs := [RAttach 1 (24, 80); RAttach 2 (50, 132); RTake 2; RResize 1 10 10; RDetach 2] in
  let s := serve_all 0 rs (spawn 0 (24, 80) 100 ([] : list SessionEvent)) in
  last_announced (delivered (broadcast_tx s) (bc_subscribe ([] : list SessionEvent))) 0
    = default 0 (controller (inner s)).
Proof.
  refine (proj1 (sequential_announcements (list SessionEvent) nat 0 (24, 80) 100 [] 0
    [RAttach 1 (24, 80); RAttach 2 (50, 132); RTake 2; RResize 1 10 10; RDetach 2] _)).
  by vm_compute.
Defined.

(** With concurrency they can be wrong: two [take_control] calls whose
    broadcasts are performed in the other order leave, with no effect pending,
    an observer that believes stream 1 is the controller while stream 2 is,
    and a terminal with the geometry of stream 1. *)
Lemma concurrent_take_misannounces :
  exists events : list Event,
    let c0 : list SessionEvent := [] in
    let w := run events (mk_world (spawn 0 (24, 80) 100 c0) []) in
    Forall (fun es => es = []) (pending w) /\
    controller (inner (sess w)) = Some 2 /\
    last_announced (delivered (broadcast_tx (sess w)) (bc_subscribe c0)) 0 = 1 /\
    last_size (inner (sess w)) = (50, 132) /\ last_resize (pty (sess w)) (24, 80) = (24, 80).
Proof.
  exists [Serve 0 (RAttach 1 (24, 80)); Perform 0; Perform 0; Serve 0 (RAttach 2 (50, 132));
          Serve 0 (RTake 1); Serve 0 (RTake 2); Perform 3; Perform 3; Perform 2; Perform 2].
  split_and!; [|by vm_compute..]. vm_compute. by repeat constructor.
Qed.
