(* ===== verification/Manager.v ===== *)
(** * Manager: the registry of sessions ([SessionManager] in
    [agent/src/session.rs])

    Sessions are shared by reference ([Arc]), so they live in a heap and the
    registry maps session ids to references. *)

From Stdlib Require Import Strings.Byte.
From stdpp Require Import prelude strings list gmap.
From S2P Require Import Prelude Session.

Abbreviation SessionId := (list byte).
Abbreviation Ref := nat.

(** The limits the manager uses. *)
Record Limits := { max_sessions : nat; idle_ttl : Z; scrollback_cap_bytes : nat }.

Record SessionManager := mk_manager {
  map : gmap SessionId Ref;
  heap : gmap Ref SessionInner;
  next_ref : Ref;
  killed : list Ref;
}.

Inductive OpenError := LimitReached | SpawnFailed.

(** [s.exited()] *)
Definition has_exited (m : SessionManager) (r : Ref) : bool :=
  match heap m !! r with Some i => exited i | None => false end.

Section Manager.
Variable limits : Limits.

(** The second half of [lookup_or_spawn]: the limit, then a new session
    ([spawn_ok] says whether the shell could be started). *)
Definition open_new (now : Z) (spawn_ok : bool) (id : SessionId) (initial_size : size)
    (m : SessionManager) : SessionManager * (OpenError + Ref) :=
  if bool_decide (max_sessions limits <= base.size (map m))%nat then (m, inl LimitReached)
  else if negb spawn_ok then (m, inl SpawnFailed)
  else
    let r := next_ref m in
    let i := mk_inner None initial_size ∅ (ring_new (scrollback_cap_bytes limits)) now false in
    (mk_manager (<[id := r]> (map m)) (<[r := i]> (heap m)) (S r) (killed m), inr r).

(** [SessionManager::lookup_or_spawn] (the registry's lock is held throughout) *)
Definition lookup_or_spawn (now : Z) (spawn_ok : bool) (id : SessionId) (initial_size : size)
    (m : SessionManager) : SessionManager * (OpenError + Ref) :=
  match map m !! id with
  | Some r =>
      if negb (has_exited m r) then (m, inr r)
      else open_new now spawn_ok id initial_size
             (mk_manager (delete id (map m)) (heap m) (next_ref m) (killed m))
  | None => open_new now spawn_ok id initial_size m
  end.

(** [SessionManager::remove] *)
Definition remove (id : SessionId) (m : SessionManager) : SessionManager * option Ref :=
  (mk_manager (delete id (map m)) (heap m) (next_ref m) (killed m), map m !! id).

(** [SessionManager::list] *)
Definition list_sessions (m : SessionManager) : list Ref := (map_to_list (map m)).*2.

(** The condition of [gc_pass] on one session. *)
Definition expired (now : Z) (i : SessionInner) : bool :=
  let idle := Z.max (now - last_attached_at i) 0 in
  let detached := bool_decide (attached i = ∅) in
  exited i || (detached && (idle >? idle_ttl limits)).

Definition ref_expired (now : Z) (m : SessionManager) (r : Ref) : bool :=
  match heap m !! r with Some i => expired now i | None => false end.

(** The first half of [gc_pass], under the lock: what to drop. *)
Definition gc_collect (now : Z) (m : SessionManager) : list (SessionId * Ref) :=
  List.filter (fun '(_, r) => ref_expired now m r) (map_to_list (map m)).

(** One iteration of the second half: remove and kill. *)
Definition gc_drop (d : SessionId * Ref) (m : SessionManager) : SessionManager :=
  mk_manager (delete d.1 (map m)) (heap m) (next_ref m) (killed m ++ [d.2]).

(** [SessionManager::gc_pass] when nothing runs between its two halves. *)
Definition gc_pass (now : Z) (m : SessionManager) : SessionManager :=
  foldl (fun m d => gc_drop d m) m (gc_collect now m).
End Manager.

(** ** Lemmas *)

Lemma size_insert_le (m : gmap SessionId Ref) id r :
  (base.size (<[id := r]> m) <= S (base.size m))%nat.
Proof. rewrite map_size_insert. destruct (m !! id); cbn; lia. Qed.

Lemma size_delete_le (m : gmap SessionId Ref) id : (base.size (delete id m) <= base.size m)%nat.
Proof. rewrite map_size_delete. destruct (m !! id); cbn; lia. Qed.

Lemma open_new_size l now ok id sz m :
  (base.size (map m) <= max_sessions l)%nat ->
  (base.size (map (open_new l now ok id sz m).1) <= max_sessions l)%nat.
Proof.
  intros B. unfold open_new. case_bool_decide; [done|]. destruct ok; cbn; [|done].
  pose proof (size_insert_le (map m) id (next_ref m)). lia.
Qed.

Lemma drops_map ds m :
  map (foldl (fun m d => gc_drop d m) m ds) = foldl (fun mp d => delete d mp) (map m) ds.*1 /\
  killed (foldl (fun m d => gc_drop d m) m ds) = killed m ++ ds.*2 /\
  heap (foldl (fun m d => gc_drop d m) m ds) = heap m.
Proof.
  revert m. induction ds as [|d ds IH]; intros m; cbn [foldl fmap list_fmap].
  - by rewrite app_nil_r.
  - destruct (IH (gc_drop d m)) as (-> & -> & ->). cbn. by rewrite <- app_assoc.
Qed.

Lemma foldl_delete_lookup (ids : list SessionId) (mp : gmap SessionId Ref) id :
  foldl (fun mp d => delete d mp) mp ids !! id = if bool_decide (id ∈ ids) then None else mp !! id.
Proof.
  revert mp. induction ids as [|d ids IH]; intros mp; cbn [foldl].
  - by rewrite bool_decide_false by apply not_elem_of_nil.
  - rewrite IH. destruct (decide (id = d)) as [->|N].
    + rewrite lookup_delete_eq. rewrite (bool_decide_true (d ∈ d :: ids)) by apply list_elem_of_here.
      by case_bool_decide.
    + rewrite lookup_delete_ne by done. do 2 case_bool_decide; set_solver.
Qed.

Lemma collect_lookup l now m id :
  id ∈ (gc_collect l now m).*1 <-> exists r, map m !! id = Some r /\ ref_expired l now m r = true.
Proof.
  rewrite list_elem_of_fmap. unfold gc_collect. split.
  - intros ([id' r] & -> & Hin). apply list_elem_of_In, filter_In in Hin as [Hin E].
    apply list_elem_of_In, elem_of_map_to_list in Hin. eauto.
  - intros (r & Hm & E). exists (id, r). split; [done|]. apply list_elem_of_In, filter_In.
    split; [|done]. by apply list_elem_of_In, elem_of_map_to_list.
Qed.

(** ** Properties *)

(** Opening a session on every branch: a live session of that id is always
    returned, unchanged and even at the limit; otherwise a new session is
    registered exactly when fewer than [max_sessions] others are and the
    shell starts; and the number of registered sessions never exceeds
    [max_sessions]. *)
Lemma lookup_or_spawn_correct l now ok id sz m :
  let '(m', r) := lookup_or_spawn l now ok id sz m in
  let others := base.size (delete id (map m)) in
  (forall ref, map m !! id = Some ref -> has_exited m ref = false -> m' = m /\ r = inr ref) /\
  ((forall ref, map m !! id = Some ref -> has_exited m ref = true) ->
     match r with
     | inr ref => (others < max_sessions l)%nat /\ ok = true /\ ref = next_ref m /\
                  map m' = <[id := ref]> (map m) /\ has_exited m' ref = false
     | inl LimitReached => (max_sessions l <= others)%nat /\ map m' = delete id (map m)
     | inl SpawnFailed => (others < max_sessions l)%nat /\ ok = false /\ map m' = delete id (map m)
     end) /\
  ((base.size (map m) <= max_sessions l)%nat -> (base.size (map m') <= max_sessions l)%nat).
Proof.
  assert (On : forall mp, mp = delete id (map m) -> 
    let m0 := mk_manager mp (heap m) (next_ref m) (killed m) in
    match open_new l now ok id sz m0 with
    | (m', inr ref) => (base.size mp < max_sessions l)%nat /\ ok = true /\ ref = next_ref m /\
                  map m' = <[id := ref]> (map m) /\ has_exited m' ref = false
    | (m', inl LimitReached) => (max_sessions l <= base.size mp)%nat /\ map m' = mp
    | (m', inl SpawnFailed) => (base.size mp < max_sessions l)%nat /\ ok = false /\ map m' = mp
    end).
  { intros mp ->. cbn zeta. unfold open_new. case_bool_decide; [done|]. cbn [map] in *.
    destruct ok; cbn [negb]; [|split_and!; [lia|done..]]. split_and!; try done; [lia|..].
    - cbn. by rewrite insert_delete_eq.
    - unfold has_exited. cbn. by rewrite lookup_insert_eq. }
  unfold lookup_or_spawn. destruct (map m !! id) as [ref|] eqn:Em.
  - destruct (has_exited m ref) eqn:Ex; cbn [negb].
    + specialize (On _ eq_refl). cbn zeta in On.
      pose proof (open_new_size l now ok id sz
        (mk_manager (delete id (map m)) (heap m) (next_ref m) (killed m))) as Sz.
      destruct (open_new _ _ _ _ _ _) as [m' r]. cbn [map fst] in Sz.
      split_and!; [intros r' [= <-]; by rewrite Ex| |pose proof (size_delete_le (map m) id); intros; apply Sz; lia].
      intros _. done.
    + split_and!; [by intros r [= <-]|intros N; by rewrite (N ref eq_refl) in Ex|done].
  - assert (Ed : delete id (map m) = map m) by (by apply delete_id).
    specialize (On (map m) (eq_sym Ed)). cbn zeta in On. rewrite Ed.
    replace (mk_manager (map m) _ _ _) with m in On by (by destruct m).
    pose proof (open_new_size l now ok id sz m) as Sz.
    destruct (open_new _ _ _ _ _ _) as [m' r]. split_and!; [done| |done]. intros _. done.
Qed.

(** One sweep drops exactly the sessions that have exited or have been without
    a viewer for longer than the TTL, keeps every other one, and kills
    precisely what it dropped (when no other operation runs in between). *)
Lemma gc_pass_drops_expired l now m :
  (forall id, map (gc_pass l now m) !! id =
     match map m !! id with
     | Some r => if ref_expired l now m r then None else Some r
     | None => None
     end) /\
  (forall r, r ∈ killed (gc_pass l now m) <->
     r ∈ killed m \/ exists id, map m !! id = Some r /\ ref_expired l now m r = true).
Proof.
  unfold gc_pass. destruct (drops_map (gc_collect l now m) m) as (-> & -> & _). split.
  - intros id. rewrite foldl_delete_lookup.
    pose proof (collect_lookup l now m id) as C.
    case_bool_decide as E.
    + apply C in E as (r & -> & ->). done.
    + destruct (map m !! id) as [r|] eqn:Em; [|done].
      destruct (ref_expired l now m r) eqn:Ex; [|done]. destruct E. apply C. eauto.
  - intros r. rewrite elem_of_app, list_elem_of_fmap. f_equiv. unfold gc_collect. split.
    + intros ([id r'] & -> & Hin). apply list_elem_of_In, filter_In in Hin as [Hin E].
      apply list_elem_of_In, elem_of_map_to_list in Hin. eauto.
    + intros (id & Hm & E). exists (id, r). split; [done|]. apply list_elem_of_In, filter_In.
      split; [|done]. by apply list_elem_of_In, elem_of_map_to_list.
Qed.
