(* ===== verification/Paste.v ===== *)
(** * Paste: uploads of pasted files ([agent/src/main.rs])

    The handlers of PasteBegin, PasteChunk and PasteEnd, the choice of a file
    name, and the injection of the finished paths into the terminal.  The
    file system maps paths to inodes and inodes to contents; what it may
    refuse ([ensure_paste_dir], [open], [write]) is decided by the
    environment.  A handler is modelled with the points at which it can be
    suspended, because its task may be dropped at any of them. *)

From Stdlib Require Import Strings.Byte.
From stdpp Require Import prelude strings list gmap.
From S2P Require Import Prelude Utf8 Frame Std Session.

(** ** The file system *)

Abbreviation Path := (list byte).
Abbreviation Ino := nat.

Record File := mk_file { mtime : Z; is_file : bool; content : list byte }.

Record Fs := mk_fs {
  names : gmap Path Ino;
  inodes : gmap Ino File;
  next_ino : Ino;
}.

(** [dir.join(name)] *)
Definition join (dir name : Path) : Path := dir ++ "/"%byte :: name.

(** [fs::remove_file] (an open file keeps its inode). *)
Definition remove_file (p : Path) (fs : Fs) : Fs := mk_fs (delete p (names fs)) (inodes fs) (next_ino fs).

Inductive CreateResult := Created (i : Ino) (fs : Fs) | AlreadyExists | CreateFailed.

(** [OpenOptions::new().write(true).create_new(true).open(path)] *)
Definition create_new (refuses : Path -> bool) (now : Z) (p : Path) (fs : Fs) : CreateResult :=
  if refuses p then CreateFailed
  else match names fs !! p with
  | Some _ => AlreadyExists
  | None =>
      let i := next_ino fs in
      Created i (mk_fs (<[p := i]> (names fs)) (<[i := mk_file now true []]> (inodes fs)) (S i))
  end.

(** [std::fs::File::write_all] *)
Definition write_bytes (i : Ino) (bytes : list byte) (fs : Fs) : Fs :=
  mk_fs (names fs)
    (alter (fun f => mk_file (mtime f) (is_file f) (content f ++ bytes)) i (inodes fs)) (next_ino fs).

(** ** File names *)

Definition name_byte (b : byte) : bool :=
  is_ascii_alphanumeric b || bool_decide (b = "."%byte) || bool_decide (b = "_"%byte)
  || bool_decide (b = "-"%byte).

(** One [char] of the basename: kept, or replaced by an underscore (the
    continuation bytes of a character go with its first byte). *)
Definition clean_byte (b : byte) : option byte :=
  if in_range 128 191 (byte_val b) then None
  else if name_byte b then Some b else Some "_"%byte.

(** [trim_start_matches(['.', '-'])] *)
Fixpoint trim_start (l : list byte) : list byte :=
  match l with
  | b :: l' => if bool_decide (b = "."%byte) || bool_decide (b = "-"%byte) then trim_start l' else l
  | [] => []
  end.

(** [sanitize_paste_name]; [nanos] is the clock. *)
Definition sanitize_paste_name (nanos : Z) (input : list byte) : list byte :=
  let basename := default [] (file_name input) in
  let cleaned := omap clean_byte basename in
  let truncated := take 200 (trim_start cleaned) in
  match truncated with
  | [] => lit "term-paste-" ++ hex 16 nanos
  | _ => truncated
  end.

(** [rsplit_once('.')] *)
Fixpoint rsplit_dot (l : list byte) : option (list byte * list byte) :=
  match l with
  | [] => None
  | b :: l' =>
      match rsplit_dot l' with
      | Some (stem, ext) => Some (b :: stem, ext)
      | None => if bool_decide (b = "."%byte) then Some ([], l') else None
      end
  end.

(** [split_ext] *)
Definition split_ext (name : list byte) : list byte * list byte :=
  match rsplit_dot name with
  | Some (stem, ext) =>
      if negb (bool_decide (stem = [])) && negb (bool_decide (ext = [])) then (stem, ext) else (name, [])
  | None => (name, [])
  end.

(** The name of attempt [i]. *)
Definition candidate (base stem ext : list byte) (i : nat) : list byte :=
  match i with
  | O => base
  | _ => match ext with
         | [] => stem ++ "-"%byte :: dec (Z.of_nat i)
         | _ => stem ++ "-"%byte :: dec (Z.of_nat i) ++ "."%byte :: ext
         end
  end.
Definition fallback_candidate (stem ext : list byte) (nanos : Z) : list byte :=
  match ext with
  | [] => stem ++ "-"%byte :: hex 16 nanos
  | _ => stem ++ "-"%byte :: hex 16 nanos ++ "."%byte :: ext
  end.

(** The loop over the attempts [i, i+1, .., i+n-1], then the fallback. *)
Fixpoint try_names (refuses : Path -> bool) (now nanos : Z) (dir base stem ext : list byte)
    (i n : nat) (fs : Fs) : option (Ino * Path * Fs) :=
  match n with
  | O =>
      let p := join dir (fallback_candidate stem ext nanos) in
      match create_new refuses now p fs with Created f fs => Some (f, p, fs) | _ => None end
  | S n =>
      let p := join dir (candidate base stem ext i) in
      match create_new refuses now p fs with
      | Created f fs => Some (f, p, fs)
      | AlreadyExists => try_names refuses now nanos dir base stem ext (S i) n fs
      | CreateFailed => None
      end
  end.

(** [sweep_old_paste_files]: [seen] are the directory entries that could be
    read, in order; times in seconds. *)
Definition SWEEP_TTL : Z := 60 * 60.
Definition sweep_entry (now : Z) (dir name : list byte) (fs : Fs) : Fs :=
  if bool_decide (take 11 name = lit "term-paste-") then
    match names fs !! join dir name ≫= fun i => inodes fs !! i with
    | Some f =>
        if is_file f && (now - mtime f >? SWEEP_TTL) then remove_file (join dir name) fs else fs
    | None => fs
    end
  else fs.
Definition sweep_old_paste_files (now : Z) (dir : list byte) (seen : list (list byte)) (fs : Fs) : Fs :=
  foldl (fun fs name => sweep_entry now dir name fs) fs seen.

(** What the environment decides during one [open_paste_file]. *)
Record OpenEnv := mk_open_env {
  oe_dir : option (list byte);    (** [ensure_paste_dir]'s directory, if it can be used *)
  oe_seen : list (list byte);     (** the entries the sweep reads *)
  oe_refuses : Path -> bool;      (** paths that cannot be created for another reason *)
  oe_now : Z;
  oe_nanos : Z;
}.

(** [open_paste_file] *)
Definition open_paste_file (env : OpenEnv) (name : list byte) (fs : Fs) : Fs * option (Ino * Path) :=
  match oe_dir env with
  | None => (fs, None)
  | Some dir =>
      let fs := sweep_old_paste_files (oe_now env) dir (oe_seen env) fs in
      let base := sanitize_paste_name (oe_nanos env) name in
      let '(stem, ext) := split_ext base in
      match try_names (oe_refuses env) (oe_now env) (oe_nanos env) dir base stem ext 0 1024 fs with
      | Some (f, p, fs) => (fs, Some (f, p))
      | None => (fs, None)
      end
  end.

(** The file system at each point where [open_paste_file] waits: for the
    directory, for each file the sweep removes, and for the file it creates
    (a name that is taken changes nothing). *)
Definition open_waits (env : OpenEnv) (name : list byte) (fs : Fs) : list Fs :=
  match oe_dir env with
  | None => [fs]
  | Some dir =>
      fs :: ((fun n => sweep_old_paste_files (oe_now env) dir (take n (oe_seen env)) fs) <$> seq 1 (length (oe_seen env)))
      ++ [(open_paste_file env name fs).1]
  end.

(** ** Files that are written *)

(** [struct PendingPaste]; of its [tokio::fs::File] the inode and the write in
    flight: a write copies its bytes and returns, and a thread of the blocking
    pool writes them. *)
Record PendingPaste := mk_pending {
  pp_file : Ino;
  pp_path : Path;
  pp_total_size : Z;
  pp_written : Z;
  pp_group_id : Z;
  pp_buf : list byte;
}.

(** What becomes of a write in flight: all of it is in the file, or the first
    [k] bytes are and the rest is lost with an error. *)
Inductive WriteEnd := Written | Failed (k : nat).

Definition reaches (w : WriteEnd) (buf : list byte) : list byte :=
  match w with Written => buf | Failed k => take k buf end.
Definition settle (w : WriteEnd) (p : PendingPaste) (fs : Fs) : Fs :=
  write_bytes (pp_file p) (reaches w (pp_buf p)) fs.

(** [file.write_all(bytes)] of at most the buffer's 2 MiB: it waits for the
    write in flight and returns that one's error; otherwise the new bytes are
    taken.  No bytes are no write. *)
Definition write_all (w : WriteEnd) (bytes : list byte) (p : PendingPaste) (fs : Fs) : Fs * option PendingPaste :=
  let take_bytes buf :=
    mk_pending (pp_file p) (pp_path p) (pp_total_size p) (pp_written p + len bytes) (pp_group_id p) buf in
  match bytes with
  | [] => (fs, Some (take_bytes (pp_buf p)))
  | _ =>
      (settle w p fs, match w with Written => Some (take_bytes bytes) | Failed _ => None end)
  end.

(** [file.flush()]: waits for the write in flight and returns its error. *)
Definition flush (w : WriteEnd) (p : PendingPaste) (fs : Fs) : Fs * bool :=
  (settle w p fs, match w with Written => true | Failed _ => bool_decide (pp_buf p = []) end).

(** ** The handlers *)

(** [struct PendingGroup] *)
Record PendingGroup := mk_group {
  group_size : Z;
  finished : list Path;
  total_declared : Z;
}.

(** The state of one stream's task that the handlers use: the two registries,
    the file system, the frames sent to the hub and the bytes typed. *)
Record PasteState := mk_state {
  pending_pastes : gmap Z PendingPaste;
  pending_groups : gmap Z PendingGroup;
  fs : Fs;
  frames : list Frame;
  typed : list (list byte);
}.

(** A handler: the states in which it waits, in order, and the one in which
    it is done.  A task that is dropped stays for ever in one of the former. *)
Definition Handler : Type := PasteState -> list PasteState * PasteState.
Definition final (h : Handler) (s : PasteState) : PasteState := (h s).2.

Definition act (f : PasteState -> PasteState) : Handler := fun s => ([], f s).
Definition wait : Handler := fun s => ([s], s).
Definition before (h1 h2 : Handler) : Handler :=
  fun s => let '(l1, s) := h1 s in let '(l2, s) := h2 s in (l1 ++ l2, s).
Declare Scope handler_scope.
Infix ";;;" := before (at level 60, right associativity) : handler_scope.
#[global] Open Scope handler_scope.

(** An operation that runs on the blocking pool: it is carried out also when
    the task that waits for it is dropped. *)
Definition blocking (f : PasteState -> PasteState) : Handler := act f ;;; wait.

Section Handlers.
Variables max_pending_pastes max_pending_groups : nat.
Variable sid : Z.

Definition set_pastes (s : PasteState) pp := mk_state pp (pending_groups s) (fs s) (frames s) (typed s).
Definition set_groups (s : PasteState) pg := mk_state (pending_pastes s) pg (fs s) (frames s) (typed s).
Definition set_fs (s : PasteState) f :=
  mk_state (pending_pastes s) (pending_groups s) f (frames s) (typed s).

(** [send_paste_reject]: the frame is sent, and the wait for room before it. *)
Definition send_paste_reject (paste_id reason : Z) (s : PasteState) : PasteState :=
  mk_state (pending_pastes s) (pending_groups s) (fs s)
    (frames s ++ [paste_reject sid paste_id reason]) (typed s).
Definition reject (paste_id reason : Z) : Handler := wait ;;; act (send_paste_reject paste_id reason).

(** [for path in paths { fs::remove_file(&path).await }] *)
Fixpoint remove_all (ps : list Path) : Handler :=
  match ps with
  | [] => act id
  | p :: ps => blocking (fun s => set_fs s (remove_file p (fs s))) ;;; remove_all ps
  end.

(** The group bookkeeping of [handle_paste_begin]: the state to go on with, or
    the files to remove, the reason to reject with, and the state then. *)
Definition reserve_group (total group_id gsize : Z) (s : PasteState)
    : PasteState + (list Path * Z * PasteState) :=
  match pending_groups s !! group_id with
  | Some g =>
      let declared := sat_add64 (total_declared g) total in
      if declared >? MAX_PASTE_TOTAL_BYTES then
        inr (finished g, PASTE_REJECT_GROUP_OVERSIZE, set_groups s (delete group_id (pending_groups s)))
      else inl (set_groups s (<[group_id := mk_group (group_size g) (finished g) declared]>
                                (pending_groups s)))
  | None =>
      if bool_decide (max_pending_groups <= base.size (pending_groups s))%nat then
        inr ([], PASTE_REJECT_REGISTRY_FULL, s)
      else if total >? MAX_PASTE_TOTAL_BYTES then
        inr ([], PASTE_REJECT_GROUP_OVERSIZE, s)
      else inl (set_groups s (<[group_id := mk_group gsize [] total]> (pending_groups s)))
  end.

(** Opening the file, and the registration, or the roll-back of the group. *)
Definition open_and_register (env : OpenEnv) (paste_id total group_id : Z) (name : list byte) : Handler := fun s =>
  let waits := set_fs s <$> open_waits env name (fs s) in
  match open_paste_file env name (fs s) with
  | (f, Some (ino, path)) =>
      (waits, set_pastes (set_fs s f)
                (<[paste_id := mk_pending ino path total 0 group_id []]> (pending_pastes s)))
  | (f, None) =>
      let '(l, s) :=
        (wait ;;;
         act (fun s => set_groups s
                (alter (fun g => mk_group (group_size g) (finished g) (sat_sub64 (total_declared g) total))
                   group_id (pending_groups s))) ;;;
         reject paste_id PASTE_REJECT_OPEN_FAILED) (set_fs s f) in
      (waits ++ l, s)
  end.

(** [handle_paste_begin] *)
Definition handle_paste_begin (env : OpenEnv) (paste_id total group_id gsize : Z) (name : list byte) : Handler :=
  wait ;;; fun s =>
  if bool_decide (max_pending_pastes <= base.size (pending_pastes s))%nat then
    reject paste_id PASTE_REJECT_REGISTRY_FULL s
  else if bool_decide (is_Some (pending_pastes s !! paste_id)) then
    reject paste_id PASTE_REJECT_DUPLICATE_PASTE s
  else
    (wait ;;; fun s =>
     match reserve_group total group_id gsize s with
     | inr (to_drop, reason, s) => (remove_all to_drop ;;; reject paste_id reason) s
     | inl s => open_and_register env paste_id total group_id name s
     end) s.

(** [handle_paste_chunk]; [w]: what became of the write in flight. *)
Definition handle_paste_chunk (w : WriteEnd) (paste_id : Z) (bytes : list byte) : Handler :=
  wait ;;; fun s =>
  match pending_pastes s !! paste_id with
  | None => act id s
  | Some p =>
      let cancel reason :=
        act (fun s => set_pastes s (delete paste_id (pending_pastes s))) ;;;
        remove_all [pp_path p] ;;; reject paste_id reason in
      if sat_add64 (pp_written p) (len bytes) >? pp_total_size p then
        cancel PASTE_REJECT_SIZE_MISMATCH s
      else
        (wait ;;; fun s =>
         match write_all w bytes p (fs s) with
         | (f, None) => cancel PASTE_REJECT_WRITE_FAILED (set_fs s f)
         | (f, Some p) => act (fun s => set_pastes s (<[paste_id := p]> (pending_pastes s))) (set_fs s f)
         end) s
  end.

(** The text typed for a list of paths. *)
Fixpoint join_paths (quote : Path -> list byte) (ps : list Path) : list byte :=
  match ps with
  | [] => []
  | [p] => quote p
  | p :: ps => quote p ++ " "%byte :: join_paths quote ps
  end.
Definition quote_plain (p : Path) : list byte :=
  if existsb (fun b => bool_decide (b = " "%byte) || (byte_val b =? 9)) p
  then byte_of 34 :: p ++ [byte_of 34] else p.
Definition paste_text (style : PasteStyle) (paths : list Path) : list byte :=
  match style with
  | Bracketed => x1b :: lit "[200~" ++ join_paths id paths ++ " "%byte :: x1b :: lit "[201~"
  | PlainStyle => join_paths quote_plain paths ++ [" "%byte]
  end.

(** [inject_paste_paths]; [in_control]: this stream is the controller.  The
    bytes are handed to [write_internal]. *)
Definition inject_paste_paths (style : PasteStyle) (in_control : bool) (paths : list Path) : Handler :=
  wait ;;;
  if negb in_control then remove_all paths
  else wait ;;; act (fun s =>
    mk_state (pending_pastes s) (pending_groups s) (fs s) (frames s) (typed s ++ [paste_text style paths])).

(** The group of a cancelled or failed paste goes with it. *)
Definition drop_group (group_id : Z) : Handler :=
  wait ;;; fun s =>
  match pending_groups s !! group_id with
  | Some g => (act (fun s => set_groups s (delete group_id (pending_groups s))) ;;; remove_all (finished g)) s
  | None => act id s
  end.

(** The path joins its group, and a full group is injected. *)
Definition stage (style : PasteStyle) (in_control : bool) (p : PendingPaste) : Handler :=
  wait ;;; fun s =>
  match pending_groups s !! pp_group_id p with
  | Some g =>
      let done := finished g ++ [pp_path p] in
      if as_u32 (len done) >=? group_size g then
        inject_paste_paths style in_control done (set_groups s (delete (pp_group_id p) (pending_groups s)))
      else
        act (fun s => set_groups s (<[pp_group_id p := mk_group (group_size g) done (total_declared g)]>
                                      (pending_groups s))) s
  | None => inject_paste_paths style in_control [pp_path p] s
  end.

(** [handle_paste_end]; [w]: what became of the write in flight.  An error of
    [flush] is logged and ignored. *)
Definition handle_paste_end (w : WriteEnd) (style : PasteStyle) (in_control : bool) (paste_id status : Z) : Handler :=
  wait ;;; fun s =>
  match pending_pastes s !! paste_id with
  | None => act id s
  | Some p =>
      (act (fun s => set_pastes s (delete paste_id (pending_pastes s))) ;;;
       if status =? PASTE_STATUS_CANCEL then
         remove_all [pp_path p] ;;; drop_group (pp_group_id p)
       else if negb (pp_written p =? pp_total_size p) then
         remove_all [pp_path p] ;;; reject paste_id PASTE_REJECT_SIZE_MISMATCH ;;; drop_group (pp_group_id p)
       else
         blocking (fun s => let '(f, _) := flush w p (fs s) in set_fs s f) ;;;
         stage style in_control p) s
  end.
End Handlers.
