(* ===== verification/PasteFinal.v ===== *)
(** * PasteFinal: what each paste handler does, once it is done

    The handlers of [Paste] stop wherever they wait; here is where one that is
    not dropped ends, as a function of the state it starts from. *)

From Stdlib Require Import Strings.Byte.
From stdpp Require Import prelude strings list gmap.
From S2P Require Import Prelude Utf8 Frame Std Session Paste.

Lemma final_before h1 h2 s : final (h1 ;;; h2) s = final h2 (final h1 s).
Proof. unfold final, before. destruct (h1 s) as [l1 s1]. cbn. by destruct (h2 s1). Qed.
Lemma final_act f s : final (act f) s = f s.
Proof. done. Qed.
Lemma final_wait s : final wait s = s.
Proof. done. Qed.
Lemma final_blocking f s : final (blocking f) s = f s.
Proof. done. Qed.

Definition remove_files (ps : list Path) (s : PasteState) : PasteState :=
  set_fs s (foldl (fun f p => remove_file p f) (fs s) ps).

Lemma final_remove ps s : final (remove_all ps) s = remove_files ps s.
Proof.
  revert s. induction ps as [|p ps IH]; intros s; [by destruct s|].
  cbn [remove_all]. by rewrite final_before, final_blocking, IH.
Qed.
Lemma final_reject sid pid reason s : final (reject sid pid reason) s = send_paste_reject sid pid reason s.
Proof. done. Qed.

Definition dropped (gid : Z) (s : PasteState) : PasteState :=
  match pending_groups s !! gid with
  | Some g => remove_files (finished g) (set_groups s (delete gid (pending_groups s)))
  | None => s
  end.
Lemma final_drop_group gid s : final (drop_group gid) s = dropped gid s.
Proof.
  unfold drop_group, dropped. rewrite final_before, final_wait. unfold final. destruct (pending_groups s !! gid); [|done].
  fold (final (act (fun s => set_groups s (delete gid (pending_groups s))) ;;; remove_all (finished p)) s).
  by rewrite final_before, final_remove.
Qed.

Definition injected (style : PasteStyle) (in_control : bool) (paths : list Path) (s : PasteState) : PasteState :=
  if negb in_control then remove_files paths s
  else mk_state (pending_pastes s) (pending_groups s) (fs s) (frames s) (typed s ++ [paste_text style paths]).
Lemma final_inject style ctl paths s : final (inject_paste_paths style ctl paths) s = injected style ctl paths s.
Proof.
  unfold inject_paste_paths, injected. rewrite final_before, final_wait. destruct ctl; cbn [negb]; [done|]. apply final_remove.
Qed.

Section Finals.
Variables (maxp maxg : nat) (sid : Z).

Definition begin_paste env pid total gid gsize name s := final (handle_paste_begin maxp maxg sid env pid total gid gsize name) s.
Definition chunk_paste w pid bytes s := final (handle_paste_chunk sid w pid bytes) s.
Definition end_paste w style ctl pid status s := final (handle_paste_end sid w style ctl pid status) s.

Definition refused (pid : Z) (r : list Path * Z * PasteState) : PasteState :=
  send_paste_reject sid pid r.1.2 (remove_files r.1.1 r.2).
Lemma refused_at_once pid reason s : refused pid ([], reason, s) = send_paste_reject sid pid reason s.
Proof. by destruct s. Qed.

Definition registered (env : OpenEnv) (pid total gid : Z) (name : list byte) (s : PasteState) : PasteState :=
  match open_paste_file env name (fs s) with
  | (f, Some (ino, path)) =>
      set_pastes (set_fs s f) (<[pid := mk_pending ino path total 0 gid []]> (pending_pastes s))
  | (f, None) =>
      let s := set_fs s f in
      let s := set_groups s (alter (fun g => mk_group (group_size g) (finished g)
                                       (sat_sub64 (total_declared g) total)) gid (pending_groups s)) in
      send_paste_reject sid pid PASTE_REJECT_OPEN_FAILED s
  end.

Lemma begin_paste_eq env pid total gid gsize name s :
  begin_paste env pid total gid gsize name s =
  if bool_decide (maxp <= base.size (pending_pastes s))%nat then
    send_paste_reject sid pid PASTE_REJECT_REGISTRY_FULL s
  else if bool_decide (is_Some (pending_pastes s !! pid)) then
    send_paste_reject sid pid PASTE_REJECT_DUPLICATE_PASTE s
  else match reserve_group maxg total gid gsize s with
       | inr r => refused pid r
       | inl s => registered env pid total gid name s
       end.
Proof.
  unfold begin_paste, handle_paste_begin. rewrite final_before, final_wait. unfold final.
  repeat (case_bool_decide; [done|]).
  match goal with |- ((wait ;;; ?h) s).2 = _ => change (final (wait ;;; h) s = match reserve_group maxg total gid gsize s with inr r => refused pid r | inl s => registered env pid total gid name s end) end.
  rewrite final_before, final_wait. unfold final. destruct (reserve_group maxg total gid gsize s) as [s'|[[ps r] s']].
  - unfold open_and_register, registered. by destruct (open_paste_file env name (fs s')) as [f [[ino path]|]].
  - fold (final (remove_all ps ;;; reject sid pid r) s'). by rewrite final_before, final_remove, final_reject.
Qed.

Definition cancelled (pid : Z) (p : PendingPaste) (reason : Z) (s : PasteState) : PasteState :=
  send_paste_reject sid pid reason (remove_files [pp_path p] (set_pastes s (delete pid (pending_pastes s)))).

Lemma chunk_paste_eq w pid bytes s :
  chunk_paste w pid bytes s =
  match pending_pastes s !! pid with
  | None => s
  | Some p =>
      if sat_add64 (pp_written p) (len bytes) >? pp_total_size p then cancelled pid p PASTE_REJECT_SIZE_MISMATCH s
      else match write_all w bytes p (fs s) with
           | (f, None) => cancelled pid p PASTE_REJECT_WRITE_FAILED (set_fs s f)
           | (f, Some p) => set_pastes (set_fs s f) (<[pid := p]> (pending_pastes s))
           end
  end.
Proof.
  unfold chunk_paste, handle_paste_chunk. rewrite final_before, final_wait. unfold final.
  destruct (pending_pastes s !! pid) as [p|]; [|done]. destruct (_ >? _); [done|].
  cbn. by destruct (write_all w bytes p (fs s)) as [f [q|]].
Qed.

Definition staged (style : PasteStyle) (ctl : bool) (p : PendingPaste) (s : PasteState) : PasteState :=
  match pending_groups s !! pp_group_id p with
  | Some g =>
      let done := finished g ++ [pp_path p] in
      if as_u32 (len done) >=? group_size g then
        injected style ctl done (set_groups s (delete (pp_group_id p) (pending_groups s)))
      else
        set_groups s (<[pp_group_id p := mk_group (group_size g) done (total_declared g)]> (pending_groups s))
  | None => injected style ctl [pp_path p] s
  end.
Lemma final_stage style ctl p s : final (stage style ctl p) s = staged style ctl p s.
Proof.
  unfold stage, staged. rewrite final_before, final_wait. unfold final. destruct (pending_groups s !! pp_group_id p); [|apply final_inject].
  destruct (_ >=? _); [apply final_inject|done].
Qed.

Lemma end_paste_eq w style ctl pid status s :
  end_paste w style ctl pid status s =
  match pending_pastes s !! pid with
  | None => s
  | Some p =>
      let s := set_pastes s (delete pid (pending_pastes s)) in
      if status =? PASTE_STATUS_CANCEL then dropped (pp_group_id p) (remove_files [pp_path p] s)
      else if negb (pp_written p =? pp_total_size p) then
        dropped (pp_group_id p) (send_paste_reject sid pid PASTE_REJECT_SIZE_MISMATCH (remove_files [pp_path p] s))
      else staged style ctl p (set_fs s (settle w p (fs s)))
  end.
Proof.
  unfold end_paste, handle_paste_end. rewrite final_before, final_wait. unfold final.
  destruct (pending_pastes s !! pid) as [p|]; [|done].
  match goal with |- ((?h1 ;;; ?h2) s).2 = _ => change (((h1 ;;; h2) s).2) with (final (h1 ;;; h2) s) end.
  rewrite final_before, final_act. destruct (status =? _); [by rewrite final_before, final_remove, final_drop_group|].
  destruct (negb _); [by rewrite !final_before, final_remove, final_reject, final_drop_group|].
  by rewrite final_before, final_blocking, final_stage.
Qed.
End Finals.
