(* ===== verification/PasteFacts.v ===== *)
(** * PasteFacts: correctness of the paste uploads *)

From Stdlib Require Import Strings.Byte.
From stdpp Require Import prelude strings list gmap.
From S2P Require Import Prelude Utf8 Frame FrameFacts Std Session Paste PasteFinal.

(** ** File names *)

(** A name that is one path component, not hidden, and not a flag. *)
Record safe_name (c : list byte) : Prop := {
  safe_bytes : forallb name_byte c = true;
  safe_head : exists b c', c = b :: c' /\ b <> "."%byte /\ b <> "-"%byte;
}.

Lemma digit_name_byte d : 0 <= d < 10 -> name_byte (byte_of (48 + d)) = true.
Proof.
  intros H. assert (d = 0 \/ d = 1 \/ d = 2 \/ d = 3 \/ d = 4 \/ d = 5 \/ d = 6 \/ d = 7 \/ d = 8 \/ d = 9)
    as E by lia.
  repeat destruct E as [->|E]; try (subst d); by vm_compute.
Qed.

Lemma dec_name_bytes n : 0 <= n -> forallb name_byte (dec n) = true.
Proof.
  unfold dec. generalize 20%nat. intros k. revert n. induction k as [|k IH]; intros n H; [done|].
  cbn [dec_digits]. rewrite forallb_app. apply andb_true_iff. split.
  - destruct (n <? 10); [done|]. apply IH. apply Z.div_pos; lia.
  - cbn. rewrite digit_name_byte; [done|]. apply Z.mod_pos_bound. lia.
Qed.

Lemma hex_digit_name_byte d : 0 <= d < 16 -> name_byte (hex_digit d) = true.
Proof.
  intros H. unfold hex_digit. destruct (d <? 10) eqn:E; bool_to_prop; [apply digit_name_byte; lia|].
  assert (d = 10 \/ d = 11 \/ d = 12 \/ d = 13 \/ d = 14 \/ d = 15) as C by lia.
  repeat destruct C as [->|C]; try (subst d); by vm_compute.
Qed.

Lemma hex_name_bytes k n : forallb name_byte (hex k n) = true.
Proof.
  induction k as [|k IH]; [done|]. cbn [hex forallb]. rewrite IH, hex_digit_name_byte; [done|].
  apply Z.mod_pos_bound. lia.
Qed.

Lemma clean_name_bytes l : forallb name_byte (omap clean_byte l) = true.
Proof.
  induction l as [|b l IH]; [done|]. cbn [omap list_omap]. unfold clean_byte at 1.
  destruct (in_range 128 191 (byte_val b)); [done|].
  destruct (name_byte b) eqn:E; cbn [forallb]; [by rewrite E|]. done.
Qed.

Lemma trim_start_suffix l : exists p, l = p ++ trim_start l.
Proof.
  induction l as [|b l [p E]]; [by exists []|]. cbn [trim_start].
  destruct (bool_decide (b = "."%byte) || bool_decide (b = "-"%byte)); [|by exists []].
  exists (b :: p). cbn. by f_equal.
Qed.

Lemma trim_start_head l b l' : trim_start l = b :: l' -> b <> "."%byte /\ b <> "-"%byte.
Proof.
  induction l as [|c l IH]; [done|]. cbn [trim_start].
  destruct (bool_decide (c = "."%byte) || bool_decide (c = "-"%byte)) eqn:E; [done|].
  bool_to_prop. by intros [= -> ->].
Qed.

Lemma sanitize_safe nanos input :
  safe_name (sanitize_paste_name nanos input) /\ (length (sanitize_paste_name nanos input) <= 200)%nat.
Proof.
  unfold sanitize_paste_name. pose proof (clean_name_bytes (default [] (file_name input))) as H.
  revert H. generalize (omap clean_byte (default [] (file_name input))). intros l H.
  destruct (trim_start_suffix l) as [p Ep]. pose proof (trim_start_head l) as Hh.
  rewrite Ep, forallb_app in H. apply andb_true_iff in H as [_ H].
  revert H Hh. generalize (trim_start l). clear Ep. intros t H Hh.
  destruct (take 200 t) as [|b c] eqn:E.
  - split; [|cbn; lia]. split; [|by exists "t"%byte, (lit "erm-paste-" ++ hex 16 nanos)].
    rewrite forallb_app. by rewrite hex_name_bytes.
  - split; [|rewrite <- E, length_take; lia]. split.
    + rewrite <- E. rewrite <- (take_drop 200 t), forallb_app in H.
      by apply andb_true_iff in H as [H _].
    + exists b, c. split; [done|]. destruct t as [|b' l']; [done|].
      cbn [take] in E. injection E as <- _. by eapply Hh.
Qed.

Lemma rsplit_dot_join l stem ext : rsplit_dot l = Some (stem, ext) -> l = stem ++ "."%byte :: ext.
Proof.
  revert stem. induction l as [|b l IH]; intros stem; [done|]. cbn [rsplit_dot].
  destruct (rsplit_dot l) as [[s e]|].
  - intros [= <- <-]. cbn. f_equal. by apply IH.
  - case_bool_decide; [|done]. intros [= <- <-]. by subst.
Qed.

Lemma split_ext_stem base :
  exists suffix, base = (split_ext base).1 ++ suffix /\ ((split_ext base).1 = [] -> base = []) /\
    (forallb name_byte base = true -> forallb name_byte (split_ext base).1 = true /\
                                     forallb name_byte (split_ext base).2 = true).
Proof.
  unfold split_ext. destruct (rsplit_dot base) as [[stem ext]|] eqn:E.
  - destruct (negb _ && negb _) eqn:N; [|by exists []; rewrite app_nil_r].
    bool_to_prop. apply rsplit_dot_join in E as ->. exists ("."%byte :: ext). split; [done|].
    split; [done|]. rewrite forallb_app. cbn [fst snd forallb]. rewrite !andb_true_iff. tauto.
  - by exists []; rewrite app_nil_r.
Qed.

Lemma safe_candidates base i nanos :
  safe_name base ->
  safe_name (candidate base (split_ext base).1 (split_ext base).2 i) /\
  safe_name (fallback_candidate (split_ext base).1 (split_ext base).2 nanos).
Proof.
  intros [Hb (b & c & -> & Hh)]. set (base := b :: c) in *.
  destruct (split_ext_stem base) as (suf & Es & En & Hn). destruct (Hn Hb) as [H1 H2].
  destruct (split_ext base) as [stem ext]. cbn [fst snd] in *.
  destruct stem as [|b' stem]; [by specialize (En eq_refl)|]. injection Es as <- _.
  assert (S : forall tail, forallb name_byte tail = true -> safe_name ((b :: stem) ++ tail)).
  { intros tail Ht. split; [by rewrite forallb_app, H1|]. by exists b, (stem ++ tail). }
  split.
  - destruct i as [|i]; [split; [done|by exists b, c]|]. cbn [candidate].
    destruct ext; apply S; cbn [forallb]; rewrite ?forallb_app, dec_name_bytes by lia; done.
  - unfold fallback_candidate. destruct ext; apply S; cbn [forallb];
      rewrite ?forallb_app, hex_name_bytes; done.
Qed.

(** ** The file system *)

Lemma sweep_keeps now dir seen fs :
  inodes (sweep_old_paste_files now dir seen fs) = inodes fs /\
  next_ino (sweep_old_paste_files now dir seen fs) = next_ino fs /\
  forall p, names (sweep_old_paste_files now dir seen fs) !! p = names fs !! p \/
    names (sweep_old_paste_files now dir seen fs) !! p = None /\
    exists n, p = join dir n /\ take 11 n = lit "term-paste-".
Proof.
  unfold sweep_old_paste_files. revert fs.
  induction seen as [|n seen IH]; intros fs; cbn [foldl]; [by auto|].
  destruct (IH (sweep_entry now dir n fs)) as (-> & -> & Hn).
  assert (E : inodes (sweep_entry now dir n fs) = inodes fs /\
              next_ino (sweep_entry now dir n fs) = next_ino fs /\
              forall p, names (sweep_entry now dir n fs) !! p = names fs !! p \/
                names (sweep_entry now dir n fs) !! p = None /\ p = join dir n /\
                take 11 n = lit "term-paste-").
  { unfold sweep_entry. case_bool_decide; [|by auto].
    destruct (names fs !! join dir n ≫= _) as [f|]; [|by auto].
    destruct (is_file f && _); [|by auto]. split; [done|]. split; [done|]. intros p. cbn.
    destruct (decide (p = join dir n)) as [->|Hp]; [rewrite lookup_delete_eq; auto|].
    rewrite lookup_delete_ne by done. auto. }
  destruct E as (-> & -> & Hs). split; [done|]. split; [done|]. intros p.
  destruct (Hn p) as [->|?]; [|by auto]. destruct (Hs p) as [->|(-> & ? & ?)]; eauto 6.
Qed.

Lemma create_new_Created refuses now p fs i fs' :
  create_new refuses now p fs = Created i fs' ->
  names fs !! p = None /\ i = next_ino fs /\
  fs' = mk_fs (<[p := i]> (names fs)) (<[i := mk_file now true []]> (inodes fs)) (S i).
Proof.
  unfold create_new. destruct (refuses p); [done|]. destruct (names fs !! p); [done|].
  by intros [= <- <-].
Qed.

Lemma try_names_spec refuses now nanos dir base i n fs f p fs' :
  safe_name base ->
  try_names refuses now nanos dir base (split_ext base).1 (split_ext base).2 i n fs = Some (f, p, fs') ->
  exists c, p = join dir c /\ safe_name c /\ create_new refuses now p fs = Created f fs'.
Proof.
  intros S. revert i. induction n as [|n IH]; intros i; cbn [try_names].
  - destruct (create_new _ _ (join _ _) _) eqn:E; [|done..]. intros [= <- <- <-].
    exists (fallback_candidate (split_ext base).1 (split_ext base).2 nanos).
    split; [done|]. split; [apply (safe_candidates base 0 nanos S)|done].
  - destruct (create_new _ _ (join _ _) _) eqn:E; [|eauto|done]. intros [= <- <- <-].
    exists (candidate base (split_ext base).1 (split_ext base).2 i).
    split; [done|]. split; [apply (safe_candidates base i 0 S)|done].
Qed.

Lemma open_spec env name fs fs' f p :
  open_paste_file env name fs = (fs', Some (f, p)) ->
  exists dir c, oe_dir env = Some dir /\ p = join dir c /\ safe_name c /\
    let swept := sweep_old_paste_files (oe_now env) dir (oe_seen env) fs in
    names swept !! p = None /\ f = next_ino fs /\
    fs' = mk_fs (<[p := f]> (names swept)) (<[f := mk_file (oe_now env) true []]> (inodes fs)) (S f).
Proof.
  unfold open_paste_file. destruct (oe_dir env) as [dir|]; [|done].
  pose proof (proj1 (sanitize_safe (oe_nanos env) name)) as S.
  set (base := sanitize_paste_name _ _) in *.
  destruct (sweep_keeps (oe_now env) dir (oe_seen env) fs) as (E1 & E2 & _).
  set (swept := sweep_old_paste_files _ _ _ _) in *.
  pose proof (try_names_spec (oe_refuses env) (oe_now env) (oe_nanos env) dir base 0 1024 swept) as T.
  destruct (split_ext base) as [stem ext]. cbn [fst snd] in T.
  destruct (try_names _ _ _ _ _ _ _ _ _ _) as [[[f' p'] fs1]|] eqn:E; [|done].
  intros [= <- <- <-]. destruct (T _ _ _ S eq_refl) as (c & -> & Sc & Hc).
  apply create_new_Created in Hc as (? & Hi & ->). exists dir, c.
  split_and!; try done; [by rewrite <- E2|]. by rewrite <- E1.
Qed.

Lemma open_fails env name fs fs' :
  open_paste_file env name fs = (fs', None) -> inodes fs' = inodes fs /\ next_ino fs' = next_ino fs.
Proof.
  unfold open_paste_file. destruct (oe_dir env) as [dir|]; [|by intros [= <-]].
  destruct (sweep_keeps (oe_now env) dir (oe_seen env) fs) as (E1 & E2 & _).
  destruct (split_ext _) as [stem ext].
  destruct (try_names _ _ _ _ _ _ _ _ _ _) as [[[f' p'] fs1]|]; [done|]. by intros [= <-].
Qed.

(** ** The registries *)

(** What removing files and sending frames does not touch. *)
Definition same_uploads (s s' : PasteState) : Prop :=
  pending_pastes s' = pending_pastes s /\ inodes (fs s') = inodes (fs s) /\
  next_ino (fs s') = next_ino (fs s).

Lemma remove_files_same ps s :
  same_uploads s (remove_files ps s) /\ pending_groups (remove_files ps s) = pending_groups s /\
  typed (remove_files ps s) = typed s.
Proof.
  unfold remove_files, same_uploads. cbn. split; [|done]. split; [done|].
  generalize (fs s). induction ps as [|p ps IH]; intros f; [done|]. apply (IH (remove_file p f)).
Qed.

Definition upload_ok (s : PasteState) (p : PendingPaste) : Prop :=
  0 <= pp_written p <= pp_total_size p /\ pp_total_size p <= MAX_PASTE_TOTAL_BYTES /\
  (pp_file p < next_ino (fs s))%nat /\
  exists f, inodes (fs s) !! pp_file p = Some f /\ len (content f ++ pp_buf p) = pp_written p.

Record uploads_inv (s : PasteState) : Prop := {
  ui_ok : forall pid p, pending_pastes s !! pid = Some p -> upload_ok s p;
  ui_inj : forall i j p q, pending_pastes s !! i = Some p -> pending_pastes s !! j = Some q ->
             pp_file p = pp_file q -> i = j;
}.

Record groups_inv (maxg : nat) (s : PasteState) : Prop := {
  gi_size : (base.size (pending_groups s) <= maxg)%nat;
  gi_declared : forall g x, pending_groups s !! g = Some x ->
                  0 <= total_declared x <= MAX_PASTE_TOTAL_BYTES;
}.

Lemma same_uploads_inv s s' : same_uploads s s' -> uploads_inv s -> uploads_inv s'.
Proof.
  intros (E1 & E2 & E3) [Ok Inj]. split.
  - intros pid p. rewrite E1. intros H. destruct (Ok _ _ H) as (? & ? & ? & ?).
    unfold upload_ok. by rewrite E2, E3.
  - intros i j p q. rewrite E1. apply Inj.
Qed.

(** Fewer uploads are still fine. *)
Lemma delete_uploads_inv s s' pid :
  pending_pastes s' = delete pid (pending_pastes s) ->
  (forall i q, i <> pid -> pending_pastes s !! i = Some q -> inodes (fs s') !! pp_file q = inodes (fs s) !! pp_file q) ->
  next_ino (fs s') = next_ino (fs s) -> uploads_inv s -> uploads_inv s'.
Proof.
  intros E1 E2 E3 [Ok Inj]. split.
  - intros i p. rewrite E1. intros [N H]%lookup_delete_Some. destruct (Ok _ _ H) as (? & ? & ? & ?).
    unfold upload_ok. by rewrite (E2 i), E3.
  - intros i j p q. rewrite E1. intros [_ Hi]%lookup_delete_Some [_ Hj]%lookup_delete_Some.
    by apply Inj.
Qed.

Lemma delete_groups_inv maxg s s' gid :
  pending_groups s' = delete gid (pending_groups s) -> groups_inv maxg s -> groups_inv maxg s'.
Proof.
  intros E [Sz D]. split; rewrite E.
  - rewrite map_size_delete. destruct (pending_groups s !! gid); cbn; lia.
  - intros g x [_ H]%lookup_delete_Some. by eapply D.
Qed.

Lemma same_groups_inv maxg s s' :
  pending_groups s' = pending_groups s -> groups_inv maxg s -> groups_inv maxg s'.
Proof. intros E [Sz D]. by split; rewrite E. Qed.

(** ** The handlers preserve the invariants *)

Inductive PasteOp :=
| PBegin (env : OpenEnv) (paste_id total group_id gsize : Z) (name : list byte)
| PChunk (w : WriteEnd) (paste_id : Z) (bytes : list byte)
| PEnd (w : WriteEnd) (style : PasteStyle) (in_control : bool) (paste_id status : Z).

Section Invariant.
Variables (maxp maxg : nat) (sid : Z).

Definition apply_op (o : PasteOp) (s : PasteState) : PasteState :=
  match o with
  | PBegin env pid total gid gsize name => begin_paste maxp maxg sid env pid total gid gsize name s
  | PChunk w pid bytes => chunk_paste sid w pid bytes s
  | PEnd w style ctl pid status => end_paste sid w style ctl pid status s
  end.

(** The sizes a frame can carry. *)
Definition op_typed (o : PasteOp) : Prop :=
  match o with PBegin _ _ total _ _ _ => 0 <= total | _ => True end.

Definition paste_inv (s : PasteState) : Prop :=
  (base.size (pending_pastes s) <= maxp)%nat /\ uploads_inv s /\ groups_inv maxg s.

Lemma sat_add_le a b m : 0 <= a -> 0 <= b -> m < U64_MAX -> sat_add64 a b <= m -> 
  sat_add64 a b = a + b.
Proof. unfold sat_add64. lia. Qed.

Lemma max_total_small : MAX_PASTE_TOTAL_BYTES < U64_MAX.
Proof. done. Qed.

Lemma reject_same pid reason s : same_uploads s (send_paste_reject sid pid reason s).
Proof. by split_and!. Qed.

Lemma size_alter (f : PendingGroup -> PendingGroup) g (m : gmap Z PendingGroup) :
  base.size (alter f g m) = base.size m.
Proof. by rewrite <- !size_dom, dom_alter_L. Qed.

Lemma reserve_group_spec pid total gid gsize s :
  0 <= total -> groups_inv maxg s ->
  match reserve_group maxg total gid gsize s with
  | inr r => let s' := refused sid pid r in same_uploads s s' /\ groups_inv maxg s' /\ typed s' = typed s
  | inl s' => pending_pastes s' = pending_pastes s /\ fs s' = fs s /\ frames s' = frames s /\
              groups_inv maxg s' /\ total <= MAX_PASTE_TOTAL_BYTES
  end.
Proof.
  intros Ht G. pose proof G as [Sz D]. unfold reserve_group.
  destruct (pending_groups s !! gid) as [g|] eqn:Eg.
  - pose proof (D _ _ Eg) as Dg. destruct (_ >? _) eqn:C.
    + unfold refused. cbn [fst snd]. set (s1 := set_groups s (delete gid (pending_groups s))).
      destruct (remove_files_same (finished g) s1) as (U & Eg' & Ety).
      split; [exact U|]. split; [|exact Ety]. apply (delete_groups_inv _ s _ gid); [|done]. exact Eg'.
    + rewrite Z.gtb_ltb in C. bool_to_prop. pose proof max_total_small.
      pose proof (sat_add_le _ _ _ (proj1 Dg) Ht ltac:(eassumption) C) as E.
      split_and!; try done; [|lia]. split; cbn [set_groups pending_groups].
      * rewrite map_size_insert, Eg. done.
      * intros g' x [[<- <-]|[_ H']]%lookup_insert_Some; [cbn; lia|]. by eapply D.
  - case_bool_decide as Sg; [rewrite refused_at_once; split; [apply reject_same|by split]|].
    destruct (total >? _) eqn:C; [rewrite refused_at_once; split; [apply reject_same|by split]|]. rewrite Z.gtb_ltb in C. bool_to_prop.
    split_and!; try done. split; cbn [set_groups pending_groups].
    + rewrite map_size_insert, Eg. cbn. lia.
    + intros g' x [[<- <-]|[_ H']]%lookup_insert_Some; [cbn; lia|]. by eapply D.
Qed.

Lemma reject_inv pid reason s : paste_inv s -> paste_inv (send_paste_reject sid pid reason s).
Proof.
  intros (? & ? & ?). split; [done|]. split; [|by apply (same_groups_inv _ s)].
  by eapply same_uploads_inv; [apply reject_same|].
Qed.

Lemma begin_inv env pid total gid gsize name s :
  0 <= total -> paste_inv s ->
  paste_inv (begin_paste maxp maxg sid env pid total gid gsize name s).
Proof.
  intros Ht I. pose proof I as (Np & U & G). rewrite begin_paste_eq.
  case_bool_decide as C1; [by apply reject_inv|]. case_bool_decide as C2; [by apply reject_inv|].
  pose proof (reserve_group_spec pid total gid gsize s Ht G) as R. unfold registered.
  destruct (reserve_group _ _ _ _ _) as [s1|r].
  2: { destruct R as (S & G' & _). split; [by rewrite (proj1 S)|].
       split; [by eapply same_uploads_inv|done]. }
  destruct R as (Ep & Ef & _ & G1 & Hmax).
  assert (Fresh : pending_pastes s !! pid = None) by (by apply eq_None_not_Some).
  assert (U1 : uploads_inv s1) by (eapply same_uploads_inv; [|exact U]; unfold same_uploads; by rewrite Ep, Ef).
  destruct (open_paste_file env name (fs s1)) as [f [[ino path]|]] eqn:Eo.
  - apply open_spec in Eo as (dir & c & _ & _ & _ & _ & -> & ->).
    split; [|split].
    + cbn. rewrite map_size_insert, Ep, Fresh. cbn. lia.
    + destruct U1 as [Ok Inj]. split; cbn.
      * intros i p [[<- <-]|[Hi H]]%lookup_insert_Some.
        { split_and!; cbn; try lia. eexists. rewrite lookup_insert_eq. split; [done|done]. }
        destruct (Ok _ _ H) as (? & ? & ? & x & Hx & ?).
        split; [done|]. split; [done|]. split; [cbn; lia|].
        exists x. cbn. rewrite lookup_insert_ne by lia. done.
      * intros i j p q [[<- <-]|[Hi Hp]]%lookup_insert_Some [[<- <-]|[Hj Hq]]%lookup_insert_Some; cbn;
          try done; [|intros E|by apply Inj].
        { intros E. destruct (Ok _ _ Hq) as (_ & _ & ? & _). lia. }
        destruct (Ok _ _ Hp) as (_ & _ & ? & _). lia.
    + by apply (same_groups_inv _ s1).
  - apply open_fails in Eo as [E1 E2]. split; [cbn; by rewrite Ep|]. split.
    + eapply same_uploads_inv; [|exact U1]. by split_and!.
    + destruct G1 as [Sz D]. split; cbn.
      * by rewrite size_alter.
      * intros g x [(<- & y & Hy & ->)|[_ H]]%lookup_alter_Some; [|by eapply D].
        pose proof (D _ _ Hy). unfold sat_sub64. cbn. lia.
Qed.

(** A write in flight, and what it and the file hold together. *)
Lemma settle_inodes w p f i :
  inodes (settle w p f) !! i =
  if bool_decide (i = pp_file p)
  then (fun x => mk_file (mtime x) (is_file x) (content x ++ reaches w (pp_buf p))) <$> inodes f !! i
  else inodes f !! i.
Proof.
  unfold settle, write_bytes. cbn. case_bool_decide as E; [subst; apply lookup_alter_eq|by apply lookup_alter_ne].
Qed.
Lemma settle_other w p f i : i <> pp_file p -> inodes (settle w p f) !! i = inodes f !! i.
Proof. intros N. by rewrite settle_inodes, bool_decide_false. Qed.

(** The bytes of a write that is taken follow those of the one before it. *)
Lemma write_all_spec w bytes p f f' p' :
  write_all w bytes p f = (f', Some p') ->
  pp_file p' = pp_file p /\ pp_path p' = pp_path p /\ pp_total_size p' = pp_total_size p /\
  pp_written p' = pp_written p + len bytes /\ pp_group_id p' = pp_group_id p /\
  names f' = names f /\ next_ino f' = next_ino f /\
  (forall i, i <> pp_file p -> inodes f' !! i = inodes f !! i) /\
  (forall x, inodes f !! pp_file p = Some x -> exists x', inodes f' !! pp_file p = Some x' /\
     content x' ++ pp_buf p' = (content x ++ pp_buf p) ++ bytes).
Proof.
  unfold write_all. destruct bytes as [|b bytes].
  - intros [= <- <-]. cbn. rewrite len_nil, Z.add_0_r. split_and!; try done. intros x Hx. exists x. by rewrite app_nil_r.
  - destruct w; intros [= <- <-]. split_and!; try done; [by apply settle_other|]. intros x Hx.
    rewrite settle_inodes, bool_decide_true, Hx by done. cbn [fmap option_fmap option_map reaches]. eexists. by split.
Qed.
Lemma write_all_other w bytes p f i : i <> pp_file p -> inodes (write_all w bytes p f).1 !! i = inodes f !! i.
Proof. intros N. unfold write_all. destruct bytes; [done|]. by apply settle_other. Qed.
Lemma write_all_names w bytes p f : names (write_all w bytes p f).1 = names f /\ next_ino (write_all w bytes p f).1 = next_ino f.
Proof. by destruct bytes. Qed.

Lemma chunk_inv w pid bytes s : paste_inv s -> paste_inv (chunk_paste sid w pid bytes s).
Proof.
  intros I. pose proof I as (Np & U & G). rewrite chunk_paste_eq.
  destruct (pending_pastes s !! pid) as [p|] eqn:Ep; [|done].
  pose proof U as [Ok Inj]. pose proof (Ok _ _ Ep) as (Hw & Ht & Hi & x & Hx & Hc).
  assert (Cancel : forall reason f, next_ino f = next_ino (fs s) ->
    (forall i, i <> pp_file p -> inodes f !! i = inodes (fs s) !! i) -> paste_inv (cancelled sid pid p reason (set_fs s f))).
  { intros reason f En Ei. split; [|split].
    - cbn. rewrite map_size_delete, Ep. cbn. lia.
    - apply (delete_uploads_inv s _ pid); try done. intros i q N Hq. apply Ei. intros E. by apply N, (Inj i pid q p).
    - by apply (same_groups_inv _ s). }
  destruct (_ >? _) eqn:C.
  { specialize (Cancel PASTE_REJECT_SIZE_MISMATCH (fs s) eq_refl ltac:(done)). by destruct s. }
  pose proof (write_all_other w bytes p (fs s)) as Wo. pose proof (write_all_names w bytes p (fs s)) as [_ Wn].
  destruct (write_all w bytes p (fs s)) as [f [q|]] eqn:Ew; cbn [fst] in Wo, Wn; [|by apply Cancel].
  apply write_all_spec in Ew as (E1 & E2 & E3 & E4 & E5 & _ & _ & _ & E6).
  rewrite Z.gtb_ltb in C. bool_to_prop. pose proof max_total_small. pose proof (len_nonneg bytes).
  pose proof (sat_add_le (pp_written p) (len bytes) (pp_total_size p)) as E.
  split; [|split].
  - cbn. by rewrite map_size_insert, Ep.
  - split; cbn.
    + intros i r [[<- <-]|[Hn Hq]]%lookup_insert_Some.
      * destruct (E6 x Hx) as (x' & Hx' & Ex'). unfold upload_ok. cbn. rewrite E1, E3, E4, Wn.
        split_and!; try lia. exists x'. split; [done|]. rewrite Ex', len_app. lia.
      * destruct (Ok _ _ Hq) as (? & ? & ? & y & Hy & ?). unfold upload_ok. cbn. rewrite Wn.
        split_and!; try done; try lia. exists y. rewrite Wo; [done|]. intros F. apply Hn. by eapply Inj.
    + assert (F : forall i r, <[pid := q]> (pending_pastes s) !! i = Some r ->
        exists r', pending_pastes s !! i = Some r' /\ pp_file r' = pp_file r).
      { intros i r [[<- <-]|[_ Hq]]%lookup_insert_Some; eauto. }
      intros i j a b (a' & Ha & Ea)%F (b' & Hb & Eb)%F E'. eapply Inj; [done..|congruence].
  - by apply (same_groups_inv _ s).
Qed.

Lemma dropped_spec gid s :
  same_uploads s (dropped gid s) /\ typed (dropped gid s) = typed s /\
  pending_groups (dropped gid s) = delete gid (pending_groups s).
Proof.
  unfold dropped. destruct (pending_groups s !! gid) as [g|] eqn:E.
  - destruct (remove_files_same (finished g) (set_groups s (delete gid (pending_groups s)))) as (U & Eg & Et).
    split; [exact U|]. split; [exact Et|]. by rewrite Eg.
  - split; [done|]. split; [done|]. by rewrite delete_id.
Qed.

Lemma inject_spec style ctl paths s :
  same_uploads s (injected style ctl paths s) /\
  pending_groups (injected style ctl paths s) = pending_groups s /\
  typed (injected style ctl paths s)
    = typed s ++ (if ctl then [paste_text style paths] else []).
Proof.
  unfold injected. destruct ctl; cbn [negb]; [by split_and!|].
  rewrite app_nil_r. apply remove_files_same.
Qed.

Lemma staged_spec style ctl p s :
  same_uploads s (staged style ctl p s) /\ (groups_inv maxg s -> groups_inv maxg (staged style ctl p s)).
Proof.
  unfold staged. destruct (pending_groups s !! pp_group_id p) as [g|] eqn:Eg.
  - destruct (_ >=? _).
    + set (s1 := set_groups s _). destruct (inject_spec style ctl (finished g ++ [pp_path p]) s1) as (V & Vg & _).
      split; [exact V|]. intros G. eapply same_groups_inv; [exact Vg|]. by eapply (delete_groups_inv _ s).
    + split; [done|]. intros [Sz D]. split; cbn.
      * rewrite map_size_insert. by rewrite Eg.
      * intros g' x [[<- <-]|[_ H']]%lookup_insert_Some; [|by eapply D]. cbn. by eapply D.
  - destruct (inject_spec style ctl [pp_path p] s) as (V & Vg & _). split; [exact V|]. intros G. by apply (same_groups_inv _ s).
Qed.

(** What an end does to the registries, on every branch. *)
Lemma end_registries w style ctl pid status s :
  let s' := end_paste sid w style ctl pid status s in
  pending_pastes s' = delete pid (pending_pastes s) /\
  (forall i, (forall p, pending_pastes s !! pid = Some p -> i <> pp_file p) -> inodes (fs s') !! i = inodes (fs s) !! i) /\
  next_ino (fs s') = next_ino (fs s) /\
  (groups_inv maxg s -> groups_inv maxg s').
Proof.
  cbn zeta. rewrite end_paste_eq. destruct (pending_pastes s !! pid) as [p|] eqn:Ep.
  2: { split_and!; try done. by rewrite delete_id. }
  cbn zeta. set (s1 := set_pastes s (delete pid (pending_pastes s))).
  assert (Same : forall s2, pending_pastes s2 = delete pid (pending_pastes s) -> inodes (fs s2) = inodes (fs s) ->
    next_ino (fs s2) = next_ino (fs s) -> pending_groups s2 = pending_groups s ->
    let s' := dropped (pp_group_id p) s2 in
    pending_pastes s' = delete pid (pending_pastes s) /\
    (forall i, (forall q, Some p = Some q -> i <> pp_file q) -> inodes (fs s') !! i = inodes (fs s) !! i) /\
    next_ino (fs s') = next_ino (fs s) /\ (groups_inv maxg s -> groups_inv maxg s')).
  { intros s2 U1 U2 U3 Ug. destruct (dropped_spec (pp_group_id p) s2) as ((V1 & V2 & V3) & _ & Vg).
    cbn zeta. rewrite V1, V2, V3, U1, U2, U3. split_and!; try done.
    intros G. eapply delete_groups_inv; [exact Vg|]. by apply (same_groups_inv _ s). }
  destruct (status =? PASTE_STATUS_CANCEL); [by apply Same|]. destruct (negb _); [by apply Same|].
  destruct (staged_spec style ctl p (set_fs s1 (settle w p (fs s1)))) as ((V1 & V2 & V3) & Vg).
  rewrite V1, V2, V3. split_and!; try done.
  - intros i N. apply settle_other. by apply N.
  - intros G. apply Vg. by apply (same_groups_inv _ s).
Qed.

Lemma apply_op_inv o s : op_typed o -> paste_inv s -> paste_inv (apply_op o s).
Proof.
  intros T I. destruct o; cbn [apply_op op_typed] in *; [by apply begin_inv|by apply chunk_inv|].
  destruct I as (Np & U & G).
  destruct (end_registries w style in_control paste_id status s) as (E1 & E2 & E3 & HG).
  split; [|split].
  - rewrite E1, map_size_delete. destruct (pending_pastes s !! paste_id); cbn; lia.
  - apply (delete_uploads_inv s _ paste_id); try done. intros i q N Hq. apply E2. intros p Hp F.
    apply N. by apply (ui_inj _ U i paste_id q p).
  - auto.
Qed.
End Invariant.

(** ** Contents and groups *)

(** What has been taken so far for a pending paste: what its file holds, and
    the write in flight. *)
Definition stored (s : PasteState) (pid : Z) : option (list byte) :=
  p ← pending_pastes s !! pid; x ← inodes (fs s) !! pp_file p; Some (content x ++ pp_buf p).

(** The bytes an operation delivers to a paste. *)
Definition delivers (o : PasteOp) (pid : Z) : list byte :=
  match o with
  | PChunk Written pid' bytes => if bool_decide (pid' = pid) then bytes else []
  | _ => []
  end.

Lemma stored_same s s' pid : same_uploads s s' -> stored s' pid = stored s pid.
Proof. intros (E1 & E2 & _). unfold stored. by rewrite E1, E2. Qed.

(** A paste leaves; the files of the others are left alone. *)
Lemma stored_delete s s' pid pid' :
  uploads_inv s -> pending_pastes s' = delete pid' (pending_pastes s) ->
  (forall i, (forall p, pending_pastes s !! pid' = Some p -> i <> pp_file p) -> inodes (fs s') !! i = inodes (fs s) !! i) ->
  stored s' pid = if bool_decide (pid' = pid) then None else stored s pid.
Proof.
  intros [_ Inj] E1 E2. unfold stored. rewrite E1. case_bool_decide as E.
  - subst. by rewrite lookup_delete_eq.
  - rewrite lookup_delete_ne by done. destruct (pending_pastes s !! pid) as [q|] eqn:Eq; [|done]. cbn.
    rewrite E2; [done|]. intros p Hp F. apply E. by apply (Inj pid' pid p q).
Qed.

Lemma begin_stored maxp maxg sid env pid total gid gsize name s pid' c :
  0 <= total -> paste_inv maxp maxg s ->
  stored (begin_paste maxp maxg sid env pid total gid gsize name s) pid' = Some c ->
  stored s pid' = Some c \/ pid' = pid /\ stored s pid = None /\ c = [].
Proof.
  intros Ht (Np & U & G). rewrite begin_paste_eq.
  case_bool_decide as C1; [by rewrite (stored_same s) by apply reject_same; left|].
  case_bool_decide as C2; [by rewrite (stored_same s) by apply reject_same; left|].
  pose proof (reserve_group_spec maxg sid pid total gid gsize s Ht G) as R. unfold registered.
  destruct (reserve_group _ _ _ _ _) as [s1|r].
  2: { rewrite (stored_same s (refused sid pid r)) by apply R. by left. }
  destruct R as (Ep & Ef & _ & _).
  assert (Fresh : pending_pastes s !! pid = None) by (by apply eq_None_not_Some).
  destruct (open_paste_file env name (fs s1)) as [f [[ino path]|]] eqn:Eo.
  - apply open_spec in Eo as (dir & cn & _ & _ & _ & _ & -> & ->). rewrite Ef.
    unfold stored. cbn. rewrite Ep. destruct (decide (pid' = pid)) as [->|Hn].
    + rewrite lookup_insert_eq. cbn. rewrite lookup_insert_eq. intros [= <-]. right.
      by rewrite Fresh.
    + rewrite lookup_insert_ne by done. destruct (pending_pastes s !! pid') as [q|] eqn:Eq; [|done].
      cbn. destruct U as [Ok _]. destruct (Ok _ _ Eq) as (_ & _ & Hlt & _).
      rewrite lookup_insert_ne by lia. by left.
  - apply open_fails in Eo as [E1 E2]. intros H. left. rewrite <- H. unfold stored. cbn.
    by rewrite Ep, E1, Ef.
Qed.

Lemma chunk_stored maxp maxg sid w pid bytes s pid' c :
  paste_inv maxp maxg s -> stored (chunk_paste sid w pid bytes s) pid' = Some c ->
  exists c0, stored s pid' = Some c0 /\ c = c0 ++ delivers (PChunk w pid bytes) pid'.
Proof.
  intros (_ & U & _). pose proof U as [Ok Inj]. rewrite chunk_paste_eq.
  destruct (pending_pastes s !! pid) as [p|] eqn:Ep.
  2: { intros H. exists c. split; [done|]. destruct w; cbn; [|by rewrite app_nil_r].
       case_bool_decide as E; [|by rewrite app_nil_r]. subst. unfold stored in H. by rewrite Ep in H. }
  assert (Cancel : forall reason f, (forall i, i <> pp_file p -> inodes f !! i = inodes (fs s) !! i) ->
    stored (cancelled sid pid p reason (set_fs s f)) pid' = Some c ->
    exists c0, stored s pid' = Some c0 /\ c = c0 ++ delivers (PChunk w pid bytes) pid').
  { intros reason f Ei H. rewrite (stored_delete s _ pid' pid U) in H; [|done|].
    - case_bool_decide as E; [done|]. exists c. destruct w; cbn; rewrite ?bool_decide_false by done; by rewrite app_nil_r.
    - intros i N. apply Ei. by apply N. }
  destruct (_ >? _).
  { intros H. apply (Cancel PASTE_REJECT_SIZE_MISMATCH (fs s)); [done|]. by destruct s. }
  pose proof (write_all_other w bytes p (fs s)) as Wo.
  destruct (write_all w bytes p (fs s)) as [f [q|]] eqn:Ew; cbn [fst] in Wo; [|by apply Cancel].
  assert (D : delivers (PChunk w pid bytes) pid = bytes).
  { destruct w; cbn; [by rewrite bool_decide_true|]. unfold write_all in Ew. by destruct bytes. }
  apply write_all_spec in Ew as (E1 & _ & _ & _ & _ & _ & _ & _ & E6).
  destruct (decide (pid' = pid)) as [->|N]; [rewrite D|]; unfold stored; cbn.
  - rewrite lookup_insert_eq, Ep. cbn. rewrite E1. destruct (Ok _ _ Ep) as (_ & _ & _ & x & Hx & _).
    destruct (E6 x Hx) as (x' & -> & E). rewrite Hx. cbn. intros [= <-]. eauto.
  - rewrite lookup_insert_ne by done. intros E0. exists c. split.
    + rewrite <- E0. destruct (pending_pastes s !! pid') as [r|] eqn:Er; [|done]. cbn. rewrite Wo; [done|].
      intros F. apply N. by eapply Inj.
    + destruct w; cbn; rewrite ?bool_decide_false by done; by rewrite app_nil_r.
Qed.

Lemma end_ok_spec sid w style ctl pid s p :
  pending_pastes s !! pid = Some p -> pp_written p = pp_total_size p ->
  end_paste sid w style ctl pid PASTE_STATUS_OK s =
  staged style ctl p (set_fs (set_pastes s (delete pid (pending_pastes s))) (settle w p (fs s))).
Proof.
  intros Ep Ew. rewrite end_paste_eq, Ep. change (PASTE_STATUS_OK =? PASTE_STATUS_CANCEL) with false.
  by rewrite Ew, Z.eqb_refl.
Qed.

(** A pending paste whose bytes are all there. *)
Definition complete (gid : Z) (s : PasteState) (pid : Z) (path : Path) : Prop :=
  exists p, pending_pastes s !! pid = Some p /\ pp_path p = path /\ pp_group_id p = gid /\
            pp_written p = pp_total_size p.

Lemma complete_delete gid s s' pid pids paths :
  pending_pastes s' = delete pid (pending_pastes s) -> pid ∉ pids ->
  Forall2 (complete gid s) pids paths -> Forall2 (complete gid s') pids paths.
Proof.
  intros E Hn F. induction F as [|i q pids paths (p & Hp & Hr) _ IH]; [constructor|].
  apply not_elem_of_cons in Hn as [Hi Hn]. constructor; [|by apply IH].
  exists p. by rewrite E, lookup_delete_ne.
Qed.

(** Ending, in any order, the pastes that are missing from a group. *)
Lemma end_group sid style ctl gid g s ends paths :
  pending_groups s !! gid = Some g -> NoDup ends.*1 -> ends <> [] ->
  Forall2 (complete gid s) ends.*1 paths ->
  len (finished g) + len ends = group_size g -> u32 (group_size g) ->
  let s' := foldl (fun s '(pid, w) => end_paste sid w style ctl pid PASTE_STATUS_OK s) s ends in
  typed s' = typed s ++ (if ctl then [paste_text style (finished g ++ paths)] else []) /\
  pending_groups s' !! gid = None /\ frames s' = frames s /\
  (ctl = true -> names (fs s') = names (fs s)).
Proof.
  intros Eg Nd Hne F Hs Hu. revert s g paths Eg Nd Hne F Hs Hu.
  induction ends as [|[pid w] ends IH]; intros s g paths Eg Nd Hne F Hs Hu; [done|]. cbn [fmap list_fmap fst] in *.
  inversion F as [|? path ? paths' (p & Ep & <- & Eg' & Ew) F']; subst.
  inversion Nd as [|? ? Hnin Nd']; subst. cbn [foldl].
  rewrite (end_ok_spec sid w style ctl pid s p Ep Ew). set (s0 := set_fs _ _).
  unfold staged. change (pending_groups s0) with (pending_groups s). rewrite Eg. cbn zeta.
  set (done := finished g ++ [pp_path p]).
  assert (Ld : len done = len (finished g) + 1) by (unfold done; len_lia).
  pose proof (len_nonneg ends). pose proof (len_nonneg (finished g)). rewrite len_cons in Hs.
  rewrite as_u32_small by (unfold u32 in *; lia).
  destruct ends as [|[pid' w'] ends].
  - rewrite (proj2 (Z.geb_le _ _)) by (rewrite len_nil in Hs; lia). inversion F'; subst. cbn [foldl].
    set (s1 := set_groups _ _). destruct (inject_spec style ctl done s1) as (_ & Vg & Vt).
    split; [exact Vt|]. split; [rewrite Vg; cbn; by rewrite lookup_delete_eq|].
    unfold injected. by destruct ctl.
  - rewrite len_cons in Hs. pose proof (len_nonneg ends).
    assert (Hlt : (len done >=? group_size g) = false).
    { rewrite Z.geb_leb. apply Z.leb_gt. lia. }
    rewrite Hlt. set (s1 := set_groups _ _).
    destruct (IH s1 (mk_group (group_size g) done (total_declared g)) paths') as (Et & En & Ef & Es).
    + cbn. by rewrite lookup_insert_eq.
    + done.
    + done.
    + by apply (complete_delete _ s _ pid).
    + cbn. rewrite len_cons. lia.
    + done.
    + rewrite Et, Ef. cbn [finished]. unfold done. rewrite <- app_assoc. cbn [app].
      split; [done|]. split; [done|]. split; [done|]. intros Ec. by rewrite Es.
Qed.

(** ** Properties *)

(** A stream's task before its first frame. *)
Definition start (f : Fs) : PasteState := mk_state ∅ ∅ f [] [].

Definition run_ops (maxp maxg : nat) (sid : Z) (os : list PasteOp) (s : PasteState) : PasteState :=
  foldl (fun s o => apply_op maxp maxg sid o s) s os.

Lemma run_ops_inv maxp maxg sid os s :
  Forall op_typed os -> paste_inv maxp maxg s -> paste_inv maxp maxg (run_ops maxp maxg sid os s).
Proof.
  intros T. revert s. induction T as [|o os To _ IH]; intros s I; [done|].
  apply IH. by apply apply_op_inv.
Qed.

Lemma start_inv maxp maxg f : paste_inv maxp maxg (start f).
Proof.
  split; [cbn; rewrite map_size_empty; lia|]. split; split; cbn; try done. rewrite map_size_empty. lia.
Qed.

(** [C29] Resource bounds, after any sequence of paste frames with any outcome of
    the file operations: no more pastes and groups are registered than the
    limits allow, no paste has more bytes than it declared nor declared more
    than [MAX_PASTE_TOTAL_BYTES], its file and the write in flight hold exactly
    the bytes counted, and no group's declared total exceeds that cap. *)
Theorem paste_bounds maxp maxg sid os f :
  Forall op_typed os ->
  let s := run_ops maxp maxg sid os (start f) in
  (base.size (pending_pastes s) <= maxp)%nat /\ (base.size (pending_groups s) <= maxg)%nat /\
  (forall pid p, pending_pastes s !! pid = Some p ->
     pp_written p <= pp_total_size p <= MAX_PASTE_TOTAL_BYTES /\
     exists c, stored s pid = Some c /\ len c = pp_written p) /\
  (forall gid g, pending_groups s !! gid = Some g -> total_declared g <= MAX_PASTE_TOTAL_BYTES).
Proof.
  intros T s. destruct (run_ops_inv maxp maxg sid os _ T (start_inv maxp maxg f)) as (Np & [Ok _] & [Ng D]).
  split; [done|]. split; [done|]. split.
  - intros pid p Hp. destruct (Ok _ _ Hp) as (? & ? & _ & x & Hx & Hc). split; [lia|].
    exists (content x ++ pp_buf p). unfold stored. subst s. rewrite Hp. cbn. by rewrite Hx.
  - intros gid g Hg. destruct (D _ _ Hg). lia.
Qed.

Definition demo_env : OpenEnv := mk_open_env (Some (lit "/run/p")) [] (fun _ => false) 0 0.

Lemma paste_bounds_witness :
  let s := run_ops 2 2 7 [PBegin demo_env 1 3 5 1 (lit "a.txt"); PChunk Written 1 (lit "xy")] (start (mk_fs ∅ ∅ 0)) in
  (base.size (pending_pastes s) <= 2)%nat /\ stored s 1 = Some (lit "xy").
Proof.
  split; [|by vm_compute].
  refine (proj1 (paste_bounds 2 2 7
    [PBegin demo_env 1 3 5 1 (lit "a.txt"); PChunk Written 1 (lit "xy")] (mk_fs ∅ ∅ 0) _)).
  repeat constructor; cbn; lia.
Defined.

(** Uploads do not mix: in any reachable state, whatever frame comes next
    and however it ends, what is stored afterwards for a pending paste is
    what was stored before followed by exactly the bytes this frame delivers
    to that paste, or nothing when the frame has just begun it. *)
Lemma paste_contents_separate maxp maxg sid os f o pid c :
  Forall op_typed os -> op_typed o ->
  let s := run_ops maxp maxg sid os (start f) in
  stored (apply_op maxp maxg sid o s) pid = Some c ->
  (exists c0, stored s pid = Some c0 /\ c = c0 ++ delivers o pid) \/
  (exists env total gid gsize name, o = PBegin env pid total gid gsize name) /\
  stored s pid = None /\ c = [].
Proof.
  intros T To s H. pose proof (run_ops_inv maxp maxg sid os _ T (start_inv maxp maxg f)) as I.
  fold s in I. destruct o; cbn [apply_op op_typed] in *.
  - destruct (begin_stored _ _ _ _ _ _ _ _ _ _ _ _ To I H) as [Hs|(-> & Hs & ->)].
    + left. exists c. cbn. by rewrite app_nil_r.
    + right. eauto 10.
  - left. by eapply chunk_stored.
  - left. exists c. cbn. rewrite app_nil_r. split; [|done].
    destruct (end_registries maxg sid w style in_control paste_id status s) as (E1 & E2 & _). destruct I as (_ & U & _).
    rewrite (stored_delete s _ pid paste_id U E1 E2) in H. by case_bool_decide.
Qed.

Lemma paste_contents_separate_witness :
  let os := [PBegin demo_env 1 3 5 1 (lit "a.txt"); PBegin demo_env 2 9 6 1 (lit "a.txt")] in
  let o := PChunk Written 1 (lit "xy") in
  let s := run_ops 2 2 7 os (start (mk_fs ∅ ∅ 0)) in
  stored (apply_op 2 2 7 o s) 1 = Some (lit "xy") /\
  ((exists c0, stored s 1 = Some c0 /\ lit "xy" = c0 ++ delivers o 1) \/
   (exists env total gid gsize name, o = PBegin env 1 total gid gsize name) /\
   stored s 1 = None /\ lit "xy" = []).
Proof.
  split; [by vm_compute|].
  apply (paste_contents_separate 2 2 7
    [PBegin demo_env 1 3 5 1 (lit "a.txt"); PBegin demo_env 2 9 6 1 (lit "a.txt")]
    (mk_fs ∅ ∅ 0) (PChunk Written 1 (lit "xy")) 1 (lit "xy")).
  - repeat constructor; cbn; lia.
  - done.
  - by vm_compute.
Defined.

(** A group is typed once and whole: ending the last missing pastes of a
    group, in whatever order, types exactly one block with the paths in the
    order in which the pastes finished (the ones already staged first), and
    forgets the group; if the stream has lost control nothing is typed.  It is
    the same when a last write has failed: [flush]'s error is ignored. *)
Lemma paste_group_typed_once sid style in_control gid g s ends paths :
  pending_groups s !! gid = Some g -> NoDup ends.*1 -> ends <> [] ->
  Forall2 (complete gid s) ends.*1 paths ->
  len (finished g) + len ends = group_size g -> u32 (group_size g) ->
  let s' := foldl (fun s '(pid, w) => end_paste sid w style in_control pid PASTE_STATUS_OK s) s ends in
  typed s' = typed s ++ (if in_control then [paste_text style (finished g ++ paths)] else []) /\
  pending_groups s' !! gid = None /\ frames s' = frames s /\ (in_control = true -> names (fs s') = names (fs s)).
Proof. apply end_group. Qed.

Lemma paste_group_typed_once_witness :
  let s := run_ops 4 4 7
    [PBegin demo_env 1 2 5 2 (lit "a b.txt"); PBegin demo_env 2 1 5 2 (lit "../c"); PChunk Written 1 (lit "xy");
     PChunk Written 2 (lit "z")] (start (mk_fs ∅ ∅ 0)) in
  typed (foldl (fun s '(pid, w) => end_paste 7 w PlainStyle true pid PASTE_STATUS_OK s) s [(2, Written); (1, Failed 1)])
  = [lit "/run/p/c /run/p/a_b.txt "].
Proof.
  pose (s := run_ops 4 4 7
    [PBegin demo_env 1 2 5 2 (lit "a b.txt"); PBegin demo_env 2 1 5 2 (lit "../c"); PChunk Written 1 (lit "xy");
     PChunk Written 2 (lit "z")] (start (mk_fs ∅ ∅ 0))).
  refine (eq_trans (proj1 (paste_group_typed_once 7 PlainStyle true 5 (mk_group 2 [] 3) s [(2, Written); (1, Failed 1)]
    [lit "/run/p/c"; lit "/run/p/a_b.txt"] _ _ _ _ _ _)) _); try by vm_compute.
  - apply (bool_decide_unpack _). by vm_compute.
  - repeat constructor; (eexists; split; [by vm_compute|]; by vm_compute).
Defined.

(** [C34] A browser cannot choose where a paste goes or what it overwrites: a
    file that is opened is [dir/<name>] for a name of the safe alphabet that
    is one path component, not hidden and not a flag; the path did not exist,
    and every path that existed still names the same contents, except
    temporary files of this program that the sweep removed. *)
Theorem paste_file_is_safe env name fs fs' f p :
  open_paste_file env name fs = (fs', Some (f, p)) ->
  (exists dir c, oe_dir env = Some dir /\ p = join dir c /\
     forallb name_byte c = true /\ ("/"%byte ∉ c) /\
     exists b c', c = b :: c' /\ b <> "."%byte /\ b <> "-"%byte) /\
  names fs' !! p = Some f /\ f = next_ino fs /\
  (forall q i, names fs !! q = Some i ->
     q <> p /\ (names fs' !! q = Some i \/
                exists dir n, oe_dir env = Some dir /\ q = join dir (lit "term-paste-" ++ n)) \/
     exists dir n, oe_dir env = Some dir /\ q = join dir (lit "term-paste-" ++ n)) /\
  (forall i, i <> f -> inodes fs' !! i = inodes fs !! i).
Proof.
  intros H. apply open_spec in H as (dir & c & Ed & -> & [Sb Sh] & Hn & -> & ->).
  split; [|split; [|split; [|split]]]; cbn.
  - exists dir, c. split_and!; try done. rewrite forallb_forall in Sb. intros Hin.
    apply list_elem_of_In, Sb in Hin. by vm_compute in Hin.
  - by rewrite lookup_insert_eq.
  - done.
  - intros q i Hq.
    destruct (sweep_keeps (oe_now env) dir (oe_seen env) fs) as (_ & _ & Hs).
    destruct (Hs q) as [E|(E & n & -> & Et)].
    + left. assert (q <> join dir c) by (intros ->; congruence). split; [done|]. left.
      rewrite lookup_insert_ne by done. congruence.
    + right. exists dir, (drop 11 n). split; [done|].
      rewrite <- (take_drop 11 n) at 1. by rewrite Et.
  - intros i Hi. by rewrite lookup_insert_ne.
Qed.

Lemma paste_file_is_safe_witness :
  let fs := mk_fs {[ lit "/run/p/passwd" := 0%nat ]} {[ 0%nat := mk_file 0 true (lit "root") ]} 1 in
  exists fs', open_paste_file demo_env (lit "/etc/../etc/passwd") fs = (fs', Some (1%nat, lit "/run/p/passwd-1"))
  /\ names fs' !! lit "/run/p/passwd-1" = Some 1%nat.
Proof.
  pose (fs := mk_fs {[ lit "/run/p/passwd" := 0%nat ]} {[ 0%nat := mk_file 0 true (lit "root") ]} 1).
  eexists (open_paste_file demo_env (lit "/etc/../etc/passwd") fs).1. split; [by vm_compute|].
  refine (proj1 (proj2 (paste_file_is_safe demo_env (lit "/etc/../etc/passwd") fs _ 1%nat
    (lit "/run/p/passwd-1") _))). by vm_compute.
Defined.

(** Two failures of the group bookkeeping.  A begin whose file cannot be
    opened leaves its group registered, so that begins of new groups are
    refused although no paste is pending.  And a paste of a group that
    another paste's cancel has already dropped is typed on its own. *)
Lemma paste_group_leaks :
  (let broken := mk_open_env None [] (fun _ => false) 0 0 in
   let s := run_ops 8 1 7 [PBegin broken 1 10 5 1 (lit "a"); PBegin demo_env 2 10 6 1 (lit "b")]
              (start (mk_fs ∅ ∅ 0)) in
   pending_pastes s = ∅ /\
   frames s = [paste_reject 7 1 PASTE_REJECT_OPEN_FAILED; paste_reject 7 2 PASTE_REJECT_REGISTRY_FULL]) /\
  (let s := run_ops 8 8 7
     [PBegin demo_env 1 1 5 2 (lit "a"); PBegin demo_env 2 1 5 2 (lit "b"); PChunk Written 1 (lit "x");
      PChunk Written 2 (lit "y"); PEnd Written PlainStyle true 1 PASTE_STATUS_CANCEL; PEnd Written PlainStyle true 2 PASTE_STATUS_OK]
     (start (mk_fs ∅ ∅ 0)) in
   typed s = [lit "/run/p/b "]).
Proof. by vm_compute. Qed.

(** A last write that fails: the error of [flush] is only logged, and the path
    of a file that holds one byte of the two is typed.  An earlier one would
    have been found out by the next chunk. *)
Lemma failed_flush_is_typed :
  (let s := run_ops 8 8 7
     [PBegin demo_env 1 2 5 1 (lit "a"); PChunk Written 1 (lit "xy"); PEnd (Failed 1) PlainStyle true 1 PASTE_STATUS_OK]
     (start (mk_fs ∅ ∅ 0)) in
   typed s = [lit "/run/p/a "] /\ frames s = [] /\ content <$> inodes (fs s) !! 0%nat = Some (lit "x")) /\
  (let s := run_ops 8 8 7
     [PBegin demo_env 1 3 5 1 (lit "a"); PChunk Written 1 (lit "xy"); PChunk (Failed 1) 1 (lit "z")]
     (start (mk_fs ∅ ∅ 0)) in
   frames s = [paste_reject 7 1 PASTE_REJECT_WRITE_FAILED] /\ pending_pastes s = ∅ /\ names (fs s) = ∅).
Proof. by vm_compute. Qed.
