(* ===== verification/PasteDir.v ===== *)
(** * PasteDir: the directory of pasted files ([paste_root] and
    [ensure_paste_dir] in [agent/src/main.rs], on Unix)

    A file tree with symbolic links, the system calls the code makes on it
    ([lstat], [stat], [mkdir], [chmod]) and the standard library's
    [create_dir_all]; what they may refuse (permissions) is decided by the
    environment.  A path is the list of its components; it is absolute and has
    no [..], as the paths of [paste_root] are when [XDG_RUNTIME_DIR] is. *)

From Stdlib Require Import Strings.Byte.
From stdpp Require Import prelude strings list gmap.
From S2P Require Import Prelude Utf8 Std.

Abbreviation Name := (list byte).
Abbreviation Components := (list Name).

(** ** The tree *)

Inductive Node := NDir (mode : Z) | NLink (target : Components) | NOther.
Abbreviation Tree := (gmap Components Node).

(** Three octal digits. *)
Definition octal (a b c : Z) : Z := (a * 8 + b) * 8 + c.

Inductive FsError := NotFound | NotADirectory | TooManyLinks | AlreadyExists | Refused.

Record Permissions := { may_mkdir : Components -> bool; may_chmod : Components -> bool }.

(** Following a path from the directory [at_]; at most [links] symbolic links
    are followed. *)
Fixpoint resolve (links : nat) (t : Tree) : Components -> Components -> res FsError Components :=
  fix walk (at_ rest : Components) {struct rest} :=
    match rest with
    | [] => Ok at_
    | c :: rest =>
        match t !! (at_ ++ [c]) with
        | None => Err NotFound
        | Some (NDir _) => walk (at_ ++ [c]) rest
        | Some NOther => match rest with [] => Ok (at_ ++ [c]) | _ => Err NotADirectory end
        | Some (NLink target) =>
            match links with O => Err TooManyLinks | S k => resolve k t [] (target ++ rest) end
        end
    end.
Definition MAXSYMLINKS : nat := 40.
Definition lookup_path (t : Tree) (p : Components) : res FsError Components := resolve MAXSYMLINKS t [] p.

(** What a resolved path is; the root is a directory. *)
Definition node_at (t : Tree) (p : Components) : option Node := match p with [] => Some (NDir (octal 7 5 5)) | _ => t !! p end.
Definition dir_at (t : Tree) (p : Components) : bool := match node_at t p with Some (NDir _) => true | _ => false end.

(** [Path::is_dir] *)
Definition is_dir (t : Tree) (p : Components) : bool :=
  match lookup_path t p with Ok q => dir_at t q | _ => false end.

Definition parent (p : Components) : option Components := match p with [] => None | _ => Some (removelast p) end.

(** [std::fs::symlink_metadata]: the last component is not followed. *)
Definition symlink_metadata (t : Tree) (p : Components) : res FsError Node :=
  match parent p with
  | None => Ok (NDir (octal 7 5 5))
  | Some dir =>
      q ← lookup_path t dir;
      guard_err (negb (dir_at t q)) NotADirectory ;;
      ok_or NotFound (t !! (q ++ [List.last p []]))
  end.

(** [mkdir] *)
Definition mkdir (may : Permissions) (t : Tree) (p : Components) : Tree * res FsError unit :=
  match parent p with
  | None => (t, Err AlreadyExists)
  | Some dir =>
      match lookup_path t dir with
      | Ok q =>
          let at_ := q ++ [List.last p []] in
          if negb (dir_at t q) then (t, Err NotADirectory)
          else match t !! at_ with
          | Some _ => (t, Err AlreadyExists)
          | None => if may_mkdir may at_ then (<[at_ := NDir (octal 7 5 5)]> t, Ok tt) else (t, Err Refused)
          end
      | Err e => (t, Err e)
      | Panic => (t, Panic)
      end
  end.

(** [std::fs::create_dir_all]: try, make the parents when one is missing, try
    again; a directory that is there already is fine.  [n] is the number of
    components, which every turn shortens. *)
Definition there_or (t : Tree) (p : Components) (r : res FsError unit) : res FsError unit :=
  match r with Err e => if is_dir t p then Ok tt else Err e | _ => r end.
Fixpoint create_dir_all (n : nat) (may : Permissions) (t : Tree) (p : Components) : Tree * res FsError unit :=
  match mkdir may t p with
  | (t, Err NotFound) =>
      match n, parent p with
      | S n, Some dir =>
          match create_dir_all n may t dir with
          | (t, Ok _) => let '(t, r) := mkdir may t p in (t, there_or t p r)
          | (t, r) => (t, r)
          end
      | _, _ => (t, Err NotFound)
      end
  | (t, r) => (t, there_or t p r)
  end.

(** [set_permissions] follows links. *)
Definition set_permissions (may : Permissions) (mode : Z) (t : Tree) (p : Components) : Tree * res FsError unit :=
  match lookup_path t p with
  | Ok q =>
      if negb (may_chmod may q) then (t, Err Refused)
      else (match t !! q with Some (NDir _) => <[q := NDir mode]> t | _ => t end, Ok tt)
  | Err e => (t, Err e)
  | Panic => (t, Panic)
  end.

(** ** The code *)

(** [paste_root]: [XDG_RUNTIME_DIR], or [/tmp] and the effective user id. *)
Definition paste_root (xdg_runtime_dir : option Components) (euid : Z) : Components :=
  match xdg_runtime_dir with
  | Some rt => rt ++ [lit "term-agent"; lit "paste"]
  | None => [lit "tmp"; lit "term-agent-" ++ dec euid; lit "paste"]
  end.

Inductive DirError := ParentIsLink | ParentNotDir | CreateFailed (e : FsError) | ChmodFailed (e : FsError).

(** The check of the parent. *)
Definition check_parent (t : Tree) (dir : Components) : res DirError unit :=
  match parent dir with
  | None => Ok tt
  | Some p =>
      match symlink_metadata t p with
      | Ok (NLink _) => Err ParentIsLink
      | Ok NOther => Err ParentNotDir
      | _ => Ok tt
      end
  end.

(** [ensure_paste_dir], the sweep apart *)
Definition ensure_paste_dir (may : Permissions) (dir : Components) (t : Tree) : Tree * res DirError Components :=
  match check_parent t dir with
  | Ok _ =>
      match create_dir_all (length dir) may t dir with
      | (t, Ok _) =>
          match set_permissions may (octal 7 0 0) t dir with
          | (t, Ok _) => (t, Ok dir)
          | (t, Err e) => (t, Err (ChmodFailed e))
          | (t, Panic) => (t, Panic)
          end
      | (t, Err e) => (t, Err (CreateFailed e))
      | (t, Panic) => (t, Panic)
      end
  | Err e => (t, Err e)
  | Panic => (t, Panic)
  end.

(** ** Lemmas *)

Lemma resolve_cons k t at_ c rest :
  resolve k t at_ (c :: rest) =
  match t !! (at_ ++ [c]) with
  | None => Err NotFound
  | Some (NDir _) => resolve k t (at_ ++ [c]) rest
  | Some NOther => match rest with [] => Ok (at_ ++ [c]) | _ => Err NotADirectory end
  | Some (NLink target) => match k with O => Err TooManyLinks | S k => resolve k t [] (target ++ rest) end
  end.
Proof. by destruct k. Qed.
Lemma resolve_nil k t at_ : resolve k t at_ [] = Ok at_.
Proof. by destruct k. Qed.

Lemma snoc_ne_nil {A} (l : list A) x : l ++ [x] <> [].
Proof. by destruct l. Qed.

Lemma node_at_snoc t q c : node_at t (q ++ [c]) = t !! (q ++ [c]).
Proof. by destruct q. Qed.

(** One more component. *)
Lemma resolve_snoc k t at_ a q c m :
  resolve k t at_ a = Ok q -> dir_at t q = true -> t !! (q ++ [c]) = Some (NDir m) ->
  resolve k t at_ (a ++ [c]) = Ok (q ++ [c]).
Proof.
  revert a at_. induction k as [|k IHk]; intros a; induction a as [|b a IH]; intros at_;
    cbn [app]; rewrite ?resolve_nil, ?resolve_cons.
  1, 3: intros [= <-] _ ->; apply resolve_nil.
  all: destruct (t !! (at_ ++ [b])) as [[m'|target|]|] eqn:E; try done; intros R D L.
  - by apply IH.
  - destruct a; [|done]. injection R as <-. unfold dir_at in D. by rewrite node_at_snoc, E in D.
  - by apply IH.
  - rewrite app_assoc. by apply IHk.
  - destruct a; [|done]. injection R as <-. unfold dir_at in D. by rewrite node_at_snoc, E in D.
Qed.

(** Trees with the same links, where nothing has gone. *)
Definition node_le (x y : option Node) : Prop :=
  match x, y with
  | None, (None | Some (NDir _)) => True
  | Some (NDir _), Some (NDir _) => True
  | Some (NLink l), Some (NLink l') => l = l'
  | Some NOther, Some NOther => True
  | _, _ => False
  end.
Definition tree_le (t t' : Tree) : Prop := forall p, node_le (t !! p) (t' !! p).

#[export] Instance tree_le_preorder : PreOrder tree_le.
Proof.
  split.
  - intros t p. by destruct (t !! p) as [[]|].
  - intros t1 t2 t3 H1 H2 p. specialize (H1 p). specialize (H2 p).
    destruct (t1 !! p) as [[]|], (t2 !! p) as [[]|], (t3 !! p) as [[]|]; cbn in *; try done; by subst.
Qed.

Lemma tree_le_insert t p m : node_le (t !! p) (Some (NDir m)) -> tree_le t (<[p := NDir m]> t).
Proof.
  intros H x. destruct (decide (x = p)) as [->|N]; [by rewrite lookup_insert_eq|].
  rewrite lookup_insert_ne by done. by destruct (t !! x) as [[]|].
Qed.

Lemma resolve_mono k t t' at_ a q : tree_le t t' -> resolve k t at_ a = Ok q -> resolve k t' at_ a = Ok q.
Proof.
  intros L. revert a at_. induction k as [|k IHk]; intros a; induction a as [|b a IH]; intros at_;
    rewrite ?resolve_nil, ?resolve_cons; try done; specialize (L (at_ ++ [b]));
    destruct (t !! (at_ ++ [b])) as [[]|], (t' !! (at_ ++ [b])) as [[]|]; cbn in L; try done; try apply IH.
  subst. apply IHk.
Qed.

Lemma dir_at_mono t t' q : tree_le t t' -> dir_at t q = true -> dir_at t' q = true.
Proof.
  intros L. unfold dir_at. destruct q as [|c q]; [done|]. cbn [node_at]. specialize (L (c :: q)).
  by destruct (t !! (c :: q)) as [[]|], (t' !! (c :: q)) as [[]|].
Qed.

(** A path without links on it leads to itself. *)
Definition no_link (x : option Node) : Prop := match x with Some (NLink _) => False | _ => True end.
Lemma resolve_straight k t at_ a q :
  (forall b, b `prefix_of` a -> b <> [] -> no_link (t !! (at_ ++ b))) -> resolve k t at_ a = Ok q -> q = at_ ++ a.
Proof.
  revert at_. induction a as [|c a IH]; intros at_ N; rewrite ?resolve_nil, ?resolve_cons.
  { intros [= <-]. by rewrite app_nil_r. }
  assert (Nc : no_link (t !! (at_ ++ [c]))) by (apply N; [apply prefix_cons, prefix_nil|done]).
  replace (at_ ++ c :: a) with ((at_ ++ [c]) ++ a) by (by rewrite <- app_assoc).
  destruct (t !! (at_ ++ [c])) as [[]|]; try done.
  - apply IH. intros b Hb Nb. rewrite <- app_assoc. apply N; [by apply prefix_cons|done].
  - destruct a; [|done]. intros [= <-]. by rewrite app_nil_r.
Qed.

Lemma parent_snoc p dir : parent p = Some dir -> p = dir ++ [List.last p []].
Proof. destruct p as [|c p]; [done|]. intros [= <-]. by apply (app_removelast_last (l := c :: p)). Qed.

(** *** The system calls *)

Lemma mkdir_le may t p t' r : mkdir may t p = (t', r) -> tree_le t t'.
Proof.
  unfold mkdir. destruct (parent p) as [dir|]; [|by intros [= <- <-]].
  destruct (lookup_path t dir) as [q| |]; [|by intros [= <- <-]..].
  destruct (dir_at t q); cbn [negb]; [|by intros [= <- <-]].
  destruct (t !! _) eqn:E; [by intros [= <- <-]|]. destruct (may_mkdir may _); intros [= <- <-]; [|done].
  apply tree_le_insert. by rewrite E.
Qed.

Lemma mkdir_made may t p t' : mkdir may t p = (t', Ok tt) -> is_dir t' p = true.
Proof.
  unfold mkdir. destruct (parent p) as [dir|] eqn:Ep; [|done]. apply parent_snoc in Ep. revert Ep.
  generalize (List.last p []). intros c Ep. unfold is_dir, lookup_path in *. subst p.
  destruct (resolve _ t [] dir) as [q| |] eqn:Er; try done. destruct (dir_at t q) eqn:D; cbn [negb]; [|done].
  destruct (t !! (q ++ [c])) eqn:E; [done|]. destruct (may_mkdir may _); intros [= <-].
  assert (L : tree_le t (<[q ++ [c] := NDir (octal 7 5 5)]> t)) by (apply tree_le_insert; by rewrite E).
  erewrite resolve_snoc; [|by eapply resolve_mono|by eapply dir_at_mono|apply lookup_insert_eq].
  unfold dir_at. by rewrite node_at_snoc, lookup_insert_eq.
Qed.

Lemma there_or_made t p r : (r = Ok tt -> is_dir t p = true) -> there_or t p r = Ok tt -> is_dir t p = true.
Proof. unfold there_or. destruct r as [[]|e|]; [auto| |done]. by destruct (is_dir t p). Qed.

Lemma create_dir_all_spec n may t p t' r :
  create_dir_all n may t p = (t', r) -> tree_le t t' /\ (r = Ok tt -> is_dir t' p = true).
Proof.
  revert t p t' r. induction n as [|n IH]; intros t p t' r; cbn [create_dir_all];
    destruct (mkdir may t p) as [t1 r1] eqn:E1; pose proof (mkdir_le _ _ _ _ _ E1) as L1;
    assert (M1 : r1 = Ok tt -> is_dir t1 p = true) by (intros ->; by eapply mkdir_made).
  all: assert (Direct : (t1, there_or t1 p r1) = (t', r) -> tree_le t t' /\ (r = Ok tt -> is_dir t' p = true))
    by (intros [= <- <-]; split; [done|by apply there_or_made]).
  all: destruct r1 as [[]|[]|]; try exact Direct; try (by intros [= <- <-]).
  destruct (parent p) as [dir|]; [|by intros [= <- <-]].
  destruct (create_dir_all n may t1 dir) as [t2 r2] eqn:E2. apply IH in E2 as [L2 _].
  destruct r2 as [[]|e|]; [|by intros [= <- <-]; split; [etransitivity|]..].
  destruct (mkdir may t2 p) as [t3 r3] eqn:E3. intros [= <- <-].
  split; [etransitivity; [exact L1|]; etransitivity; [exact L2|by eapply mkdir_le]|].
  apply there_or_made. intros ->. by eapply mkdir_made.
Qed.

Lemma set_permissions_spec may mode t p t' r :
  set_permissions may mode t p = (t', r) ->
  tree_le t t' /\ (r = Ok tt -> is_dir t p = true ->
    exists q, lookup_path t' p = Ok q /\ dir_at t' q = true /\ (q <> [] -> t' !! q = Some (NDir mode))).
Proof.
  unfold set_permissions, is_dir, lookup_path. destruct (resolve _ t [] p) as [q| |] eqn:Er; [|by intros [= <- <-]..].
  destruct (may_chmod may q); cbn [negb]; [|by intros [= <- <-]]. intros [= <- <-].
  destruct (t !! q) as [[m|l|]|] eqn:Eq.
  1: { assert (L : tree_le t (<[q := NDir mode]> t)) by (apply tree_le_insert; by rewrite Eq).
       split; [done|]. intros _ D. exists q. split_and!; [by eapply resolve_mono|by eapply dir_at_mono|].
       intros _. apply lookup_insert_eq. }
  all: split; [done|]; intros _ D; exists q; split_and!; try done; intros Nq; unfold dir_at in D;
    destruct q; [done|]; cbn [node_at] in D; by rewrite Eq in D.
Qed.

(** ** Properties *)

(** What [ensure_paste_dir] does on every outcome: it never removes or
    replaces anything and never makes a link; a parent that is a link, or is
    not a directory, is refused before anything changes; when it succeeds its
    path leads to a directory of mode 0700; and that directory is the one the
    path spells when no link stands on it. *)
Lemma ensure_paste_dir_exact may dir t t' r :
  ensure_paste_dir may dir t = (t', r) ->
  tree_le t t' /\
  (is_ok (check_parent t dir) = false -> t' = t /\ is_ok r = false) /\
  (forall d, r = Ok d -> d = dir /\
     (exists q, lookup_path t' dir = Ok q /\ dir_at t' q = true /\ (q <> [] -> t' !! q = Some (NDir (octal 7 0 0)))) /\
     ((forall p, p `prefix_of` dir -> p <> [] -> no_link (t !! p)) -> lookup_path t' dir = Ok dir)).
Proof.
  unfold ensure_paste_dir. destruct (check_parent t dir) as [u|e|]; [|by intros [= <- <-]..].
  destruct (create_dir_all (length dir) may t dir) as [t1 r1] eqn:E1. apply create_dir_all_spec in E1 as [L1 D1].
  destruct r1 as [[]|e|]; [|by intros [= <- <-]..]. specialize (D1 eq_refl).
  destruct (set_permissions may _ t1 dir) as [t2 r2] eqn:E2. apply set_permissions_spec in E2 as [L2 D2].
  assert (L : tree_le t t2) by by etransitivity.
  destruct r2 as [[]|e|]; intros [= <- <-]; [|done..]. destruct (D2 eq_refl D1) as (q & Rq & Dq & Mq).
  split; [done|]. split; [done|]. intros d [= <-]. split; [done|]. split; [by exists q|].
  intros N. rewrite Rq. f_equal. apply (resolve_straight MAXSYMLINKS t2 [] dir); [|done].
  intros b Hb Nb. cbn. specialize (N b Hb Nb). specialize (L b). by destruct (t !! b) as [[]|], (t2 !! b) as [[]|].
Qed.

(** The check looks at the parent only.  A local user who makes the parent
    before the agent does, as a real directory of their own with a link
    called [paste] in it, passes it: the directory then used is the link's
    target, here the [.ssh] of the agent's user. *)
Definition planted : Tree :=
  {[ [lit "tmp"] := NDir (octal 7 7 7);
     [lit "tmp"; lit "term-agent-1000"] := NDir (octal 7 7 7);
     [lit "tmp"; lit "term-agent-1000"; lit "paste"] := NLink [lit "home"; lit "u"; lit ".ssh"];
     [lit "home"] := NDir (octal 7 5 5); [lit "home"; lit "u"] := NDir (octal 7 5 5);
     [lit "home"; lit "u"; lit ".ssh"] := NDir (octal 7 0 0) ]}.
Definition owns_home : Permissions := {|
  may_mkdir p := bool_decide (take 2 p = [lit "home"; lit "u"]);
  may_chmod p := bool_decide (take 2 p = [lit "home"; lit "u"]) |}.

Lemma planted_directory_redirects :
  let '(t', r) := ensure_paste_dir owns_home (paste_root None 1000) planted in
  r = Ok (paste_root None 1000) /\ lookup_path t' (paste_root None 1000) = Ok [lit "home"; lit "u"; lit ".ssh"].
Proof. by vm_compute. Qed.
