(* ===== verification/TermDl.v ===== *)
(** * TermDl: the [term-dl] command ([term-dl/src/main.rs])

    The file system is the environment: [stat] answers whether a path names a
    regular file (or fails), [canonicalize] gives the absolute path.  The
    model returns the bytes written to standard output and the exit code. *)

From Stdlib Require Import Strings.Byte.
From stdpp Require Import prelude strings list.
From S2P Require Import Prelude Frame.

Record FileSystem := {
  fs_stat : list byte -> option bool;
  fs_canonicalize : list byte -> option (list byte);
}.

Section TermDl.
Variable fs : FileSystem.

(** [prepare] *)
Definition prepare (raw : list byte) : option (list byte) :=
  match fs_stat fs raw with
  | Some true =>
      match fs_canonicalize fs raw with
      | Some abs =>
          if existsb (fun b => (byte_val b =? 7) || (byte_val b =? 27)) abs then None else Some abs
      | None => None
      end
  | _ => None
  end.

(** The five writes for one path. *)
Definition emit_osc (token abs : list byte) : list byte :=
  x1b :: lit "]5111;dl;" ++ token ++ lit ";" ++ abs ++ [x07].

(** The loop over the arguments; [failed] saturates at 255. *)
Fixpoint emit_all (token : list byte) (args : list (list byte)) (failed : Z) : list byte * Z :=
  match args with
  | [] => ([], failed)
  | raw :: args =>
      match prepare raw with
      | Some abs =>
          let '(out, failed) := emit_all token args failed in (emit_osc token abs ++ out, failed)
      | None => emit_all token args (Z.min (failed + 1) 255)
      end
  end.

(** [b.is_ascii_alphanumeric() || b == b'-' || b == b'_'] *)
Definition token_byte (b : byte) : bool := id_byte b.

(** [main]: arguments and [TERM_DL_TOKEN] to output and exit code ([usage]
    is the help text). *)
Definition main (usage : list byte) (args : list (list byte)) (token : option (list byte))
    : list byte * Z :=
  match args with
  | [] => ([], 64)
  | first :: _ =>
      if bool_decide (first = lit "-h") || bool_decide (first = lit "--help") then (usage, 0)
      else match token with
      | Some ((_ :: _) as t) =>
          if negb (forallb token_byte t) then ([], 78) else emit_all t args 0
      | _ => ([], 69)
      end
  end.
End TermDl.
