(* ===== verification/DownloadFacts.v ===== *)
(** * DownloadFacts: file downloads, from [term-dl] to the browser

    The token gate, the OSC that [term-dl] writes against the scanner and the
    parser of the agent, and the stream of download events. *)

From Stdlib Require Import Strings.Byte.
From stdpp Require Import prelude strings list.
From S2P Require Import Prelude Utf8 Frame FrameFacts Osc Std Session TermDl.

(** ** The token comparison *)

Lemma ct_eq_str_spec a b : ct_eq_str a b = true <-> a = b.
Proof.
  unfold ct_eq_str. case_bool_decide as E; cbn [negb].
  - rewrite Z.eqb_eq, ct_fold by done. naive_solver.
  - split; [done|]. intros ->. done.
Qed.

(** ** The payload of the download OSC *)

Lemma parse_dl_osc_print token path :
  ";"%byte ∉ token -> utf8_valid token = true -> utf8_valid path = true ->
  parse_dl_osc (lit "dl;" ++ token ++ lit ";" ++ path) = Some (token, path).
Proof.
  intros Hs Vt Vp. unfold parse_dl_osc.
  change (lit "dl;" ++ token ++ lit ";" ++ path) with (lit "dl" ++ ";"%byte :: token ++ ";"%byte :: path).
  rewrite position_app by compute_done.
  change (length (lit "dl")) with 2%nat. cbn [mbind option_bind].
  change (take 2 (lit "dl" ++ _)) with (lit "dl").
  change (drop 3 (lit "dl" ++ _)) with (token ++ ";"%byte :: path).
  rewrite bool_decide_true by done. cbn [negb].
  rewrite position_app by done. cbn [mbind option_bind].
  rewrite take_app_length, Vt. cbn [mbind option_bind].
  replace (S (length token)) with (length (token ++ [";"%byte])) by (rewrite length_app; cbn; lia).
  replace (token ++ ";"%byte :: path) with ((token ++ [";"%byte]) ++ path) by (by rewrite <- app_assoc).
  by rewrite drop_app_length, Vp.
Qed.

Lemma parse_dl_osc_inv payload token path :
  parse_dl_osc payload = Some (token, path) ->
  payload = lit "dl;" ++ token ++ lit ";" ++ path /\ (";"%byte ∉ token) /\
  utf8_valid token = true /\ utf8_valid path = true.
Proof.
  unfold parse_dl_osc. intros H.
  destruct (position _ payload) as [s1|] eqn:P1; [|done]. cbn [mbind option_bind] in H.
  case_bool_decide as E; [|done]. cbn [negb] in H.
  destruct (position _ (drop (S s1) payload)) as [s2|] eqn:P2; [|done]. cbn [mbind option_bind] in H.
  destruct (utf8_valid (take s2 _)) eqn:V1; [|done]. cbn [mbind option_bind] in H.
  destruct (utf8_valid (drop (S s2) _)) eqn:V2; [|done]. injection H as <- <-.
  apply position_Some in P1 as [E1 _]. apply position_Some in P2 as [E2 N].
  split; [|done]. rewrite E1 at 1. rewrite E. rewrite E2 at 1. done.
Qed.

(** ** The scanner on [term-dl]'s output *)

Lemma osc_private token path :
  before_semi (lit "5111;dl;" ++ token ++ lit ";" ++ path) = lit "5111".
Proof. done. Qed.

Lemma token_byte_plain b :
  token_byte b = true -> b <> BEL /\ b <> ESC /\ b <> ";"%byte /\ is_ascii b = true.
Proof.
  intros H. pose proof (id_byte_ascii b H).
  split_and!; [intros ->; by vm_compute in H..|done].
Qed.

Definition dl_payload (token abs : list byte) : list byte := lit "5111;dl;" ++ token ++ lit ";" ++ abs.

Definition plain_byte (b : byte) : bool := negb (bool_decide (b = BEL)) && negb (bool_decide (b = ESC)).

Lemma plain_of_token b : token_byte b = true -> plain_byte b = true.
Proof.
  intros H. destruct (token_byte_plain b H) as (? & ? & _). unfold plain_byte.
  by rewrite !bool_decide_false.
Qed.

Lemma forallb_impl {A} (p q : A -> bool) l :
  (forall a, p a = true -> q a = true) -> forallb p l = true -> forallb q l = true.
Proof. rewrite !forallb_forall. eauto. Qed.

Lemma prepare_plain fs raw abs :
  prepare fs raw = Some abs -> forallb plain_byte abs = true.
Proof.
  unfold prepare. destruct (fs_stat fs raw) as [[]|]; try done.
  destruct (fs_canonicalize fs raw) as [a|]; [|done].
  destruct (existsb _ a) eqn:E; [done|]. intros [= <-]. apply forallb_forall. intros b Hb.
  unfold plain_byte. rewrite !bool_decide_false; [done|..]; intros ->;
    apply not_true_iff_false in E; apply E, existsb_exists; eexists; (split; [exact Hb|done]).
Qed.

(** The paths whose sequence the scanner can hold. *)
Definition fits (token abs : list byte) : bool := len token + len abs + 9 <=? MAX_OSC_LEN.

(** What [term-dl] prints for a path, as a segment of the scanner's input. *)
Definition dl_segment (token abs : list byte) : segment :=
  if fits token abs then OscSeq (dl_payload token abs) Bel else LongOsc (dl_payload token abs) Bel.

Lemma plain_overlong p : forallb plain_byte p = true -> MAX_OSC_LEN < len p -> overlong false p.
Proof.
  induction p as [|b p IH] using rev_ind; intros Hp L; [done|].
  rewrite forallb_app in Hp. apply andb_true_iff in Hp as [Hp Hb]. cbn in Hb. rewrite andb_true_r in Hb.
  unfold plain_byte in Hb. bool_to_prop. rewrite len_app in L. change (len [b]) with 1 in L.
  destruct (decide (len p = MAX_OSC_LEN)) as [E|N]; [by apply ov_byte; [apply op_plain|..]|].
  apply ov_more; [apply IH; [done|lia]|done..].
Qed.

Lemma dl_segment_wf token abs :
  forallb token_byte token = true -> forallb plain_byte abs = true -> seg_wf (dl_segment token abs).
Proof.
  intros Ht Ha. assert (P : forallb plain_byte (dl_payload token abs) = true).
  { unfold dl_payload. rewrite !forallb_app, !andb_true_iff.
    split_and!; [done|by eapply forallb_impl; [apply plain_of_token|]|done|done]. }
  assert (L : len (dl_payload token abs) = len token + len abs + 9).
  { unfold dl_payload. rewrite !len_app. change (len (lit "5111;dl;")) with 8. change (len (lit ";")) with 1. lia. }
  unfold dl_segment, fits. destruct (Z.leb_spec (len token + len abs + 9) MAX_OSC_LEN).
  - split; [by apply op_plain|lia].
  - apply plain_overlong; [done|lia].
Qed.

Lemma emit_segment token abs : emit_osc token abs = seg_raw (dl_segment token abs).
Proof.
  assert (E : emit_osc token abs = introducer ++ dl_payload token abs ++ term_bytes Bel)
    by (unfold emit_osc, dl_payload; cbn [introducer term_bytes]; by rewrite <- !app_assoc).
  unfold dl_segment. by destruct (fits token abs).
Qed.

Lemma token_no_semi token : forallb token_byte token = true -> ";"%byte ∉ token.
Proof.
  rewrite forallb_forall. intros H Hin. apply list_elem_of_In in Hin.
  by destruct (token_byte_plain _ (H _ Hin)) as (_ & _ & ? & _).
Qed.

Lemma token_utf8 token : forallb token_byte token = true -> utf8_valid token = true.
Proof.
  intros H. apply ascii_utf8_valid. eapply forallb_impl; [|exact H].
  intros b Hb. by destruct (token_byte_plain b Hb) as (_ & _ & _ & ?).
Qed.

Lemma emit_all_out fs token args n :
  (emit_all fs token args n).1 = concat (map (emit_osc token) (omap (prepare fs) args)).
Proof.
  revert n. induction args as [|raw args IH]; intros n; [done|]. cbn [emit_all omap list_omap].
  destruct (prepare fs raw) as [abs|]; [|apply IH]. specialize (IH n).
  destruct (emit_all fs token args n). cbn in *. by rewrite IH.
Qed.

Lemma emit_all_code fs token args n : n <= 255 ->
  (emit_all fs token args n).2 = Z.min (n + len (List.filter (fun a => bool_decide (prepare fs a = None)) args)) 255.
Proof.
  revert n. induction args as [|raw args IH]; intros n Hn; cbn [emit_all List.filter snd]; [rewrite len_nil; lia|].
  destruct (prepare fs raw) as [abs|] eqn:E.
  - rewrite bool_decide_false by done. specialize (IH n Hn). by destruct (emit_all fs token args n).
  - rewrite bool_decide_true by done. rewrite IH by lia. rewrite len_cons.
    pose proof (len_nonneg (List.filter (fun a => bool_decide (prepare fs a = None)) args)). lia.
Qed.

(** What precedes a first semicolon. *)
Lemma app_inj_1_semi (a b c d : list byte) :
  ";"%byte ∉ a -> ";"%byte ∉ b -> a ++ lit ";" ++ c = b ++ lit ";" ++ d -> a = b /\ c = d.
Proof.
  revert b. induction a as [|x a IH]; intros [|y b] Ha Hb E; cbn in E; simplify_eq; try (by split); try set_solver.
  destruct (IH b) as [-> ->]; [set_solver..|done|done].
Qed.

(** ** The stream of download events *)

Definition total_len (chunks : list (list byte)) : Z := foldr (fun c n => len c + n) 0 chunks.

(** How a download whose chunks so far add up to [sent] may go on. *)
Inductive download_tail (id total sent : Z) : list DownloadEvent -> DlError + unit -> Prop :=
| dt_ok : sent = total -> download_tail id total sent [DE.End id DOWNLOAD_STATUS_OK] (inr tt)
| dt_err e : download_tail id total sent [] (inl e)
| dt_unheard : download_tail id total sent [] (inr tt).

(** A loop that ends here has sent [sent] bytes. *)
Lemma download_stop id total (listening : list bool) sent evs r reads :
  0 <= sent <= total -> download_tail id total sent evs r -> (evs = [] -> r <> inr tt) ->
  exists chunks rest tail, reads = map Some chunks ++ rest /\
    evs = map (DE.Chunk id) chunks ++ tail /\ sent + total_len chunks <= total /\
    download_tail id total (sent + total_len chunks) tail r /\
    (tail = [] -> r = inr tt -> false ∈ listening).
Proof.
  intros Hs T N. exists [], reads, evs. cbn. rewrite Z.add_0_r. split_and!; try done; [lia|].
  intros E1 E2. by destruct (N E1).
Qed.

Lemma download_finish id total sent evs r :
  (if negb (sent =? total) then ([], inl (Shrank total sent))
   else ([DE.End id DOWNLOAD_STATUS_OK], inr tt)) = (evs, r) ->
  download_tail id total sent evs r /\ (evs = [] -> r <> inr tt).
Proof. destruct (sent =? total) eqn:Q; intros [= <- <-]; bool_to_prop; by split; [constructor|]. Qed.

Lemma download_loop_shape id total reads listening sent evs r :
  0 <= sent <= total -> total <= MAX_PASTE_TOTAL_BYTES ->
  download_loop id total reads listening sent = (evs, r) ->
  exists chunks rest tail, reads = map Some chunks ++ rest /\
    evs = map (DE.Chunk id) chunks ++ tail /\ sent + total_len chunks <= total /\
    download_tail id total (sent + total_len chunks) tail r /\
    (tail = [] -> r = inr tt -> false ∈ listening).
Proof.
  intros Hs Ht. revert listening sent evs r Hs.
  induction reads as [|[[|b c]|] reads IH]; intros listening sent evs r Hs; cbn [download_loop].
  1, 2: intros E; apply download_finish in E as [? ?]; by apply download_stop.
  2: { intros [= <- <-]. by apply download_stop; [|constructor|]. }
  set (chunk := b :: c). pose proof (len_nonneg chunk).
  destruct (sat_add64 sent (len chunk) >? total) eqn:G.
  { intros [= <- <-]. by apply download_stop; [|constructor|]. }
  rewrite Z.gtb_ltb in G. bool_to_prop. unfold MAX_PASTE_TOTAL_BYTES in Ht.
  assert (Ea : sat_add64 sent (len chunk) = sent + len chunk).
  { unfold sat_add64, U64_MAX in *. lia. }
  rewrite Ea in *.
  destruct (match listening with [] => _ | _ => _ end) as [ok l'] eqn:El.
  destruct ok.
  - destruct (download_loop id total reads l' (sent + len chunk)) as [evs' r'] eqn:Er.
    intros [= <- <-]. apply IH in Er as (chunks & rest & tail & -> & -> & L & T & N); [|lia].
    exists (chunk :: chunks), rest, tail. cbn [map total_len foldr].
    fold (total_len chunks). rewrite Z.add_assoc. split_and!; try done.
    intros E1 E2. specialize (N E1 E2). destruct listening as [|? ?]; simplify_eq; [by apply not_elem_of_nil in N|].
    by apply list_elem_of_further.
  - intros [= <- <-]. exists [chunk], reads, []. cbn. rewrite Z.add_0_r. split_and!; try done.
    { constructor. } intros _ _. destruct listening; simplify_eq. apply list_elem_of_here.
Qed.

(** ** Properties *)

(** The token gate: a captured OSC payload starts a download of [path] exactly
    when it is [dl;<token>;<path>] with this session's own token; any other
    payload, in particular one with another token, starts nothing. *)
Theorem download_token_gate dl_token payload path :
  handle_osc dl_token payload = Some path
  <-> payload = lit "dl;" ++ dl_token ++ lit ";" ++ path /\ (";"%byte ∉ dl_token) /\
      utf8_valid dl_token = true /\ utf8_valid path = true.
Proof.
  unfold handle_osc. split.
  - intros H. destruct (parse_dl_osc payload) as [[t p]|] eqn:P; [|done].
    cbn [mbind option_bind] in H. destruct (ct_eq_str t dl_token) eqn:C; [|done].
    injection H as ->. apply ct_eq_str_spec in C as ->. by apply parse_dl_osc_inv.
  - intros (-> & ? & ? & ?). rewrite parse_dl_osc_print by done. cbn [mbind option_bind].
    by rewrite (proj2 (ct_eq_str_spec _ _)).
Qed.

(** What [term-dl] prints, fed to the session's reader: nothing is forwarded,
    and one OSC is captured per argument that passed local validation and that
    fits; the exit code counts, up to 255, the arguments that did not pass. *)
Lemma term_dl_fed fs usage first args token out code :
  first <> lit "-h" -> first <> lit "--help" ->
  token <> [] -> forallb token_byte token = true ->
  TermDl.main fs usage (first :: args) (Some token) = (out, code) ->
  feed new out = (new, ([], map (fun abs => lit "dl;" ++ token ++ lit ";" ++ abs)
                              (List.filter (fits token) (omap (prepare fs) (first :: args))))) /\
  code = Z.min (len (List.filter (fun a => bool_decide (prepare fs a = None)) (first :: args))) 255.
Proof.
  intros H1 H2 Ht Hb. unfold TermDl.main. rewrite !bool_decide_false by done. cbn [orb].
  destruct token as [|t0 token']; [done|]. rewrite Hb. cbn [negb].
  set (token := t0 :: token') in *. intros E. set (paths := omap (prepare fs) (first :: args)).
  pose proof (emit_all_out fs token (first :: args) 0) as Eo. rewrite E in Eo. cbn [fst] in Eo. fold paths in Eo.
  split; [|pose proof (emit_all_code fs token (first :: args) 0 ltac:(lia)) as Ec; by rewrite E in Ec].
  set (gs := map (dl_segment token) paths).
  assert (W : Forall seg_wf gs).
  { apply Forall_map, Forall_forall. intros abs Hin. apply list_elem_of_omap in Hin as (raw & _ & Hp).
    apply dl_segment_wf; [done|by eapply prepare_plain]. }
  assert (Er : out = segs_raw gs).
  { rewrite Eo. unfold segs_raw, gs. rewrite map_map. f_equal. apply map_ext. apply emit_segment. }
  assert (Eg : forall ps, let gs := map (dl_segment token) ps in
     concat (map (fun g => (seg_out g).1) gs) = [] /\
     concat (map (fun g => (seg_out g).2) gs) = map (fun abs => lit "dl;" ++ token ++ lit ";" ++ abs) (List.filter (fits token) ps)).
  { induction ps as [|abs ps [IH1 IH2]]; [done|]. cbn [map concat List.filter]. rewrite IH1, IH2.
    assert (Es : seg_out (dl_segment token abs) = ([], if fits token abs then [lit "dl;" ++ token ++ lit ";" ++ abs] else []))
      by (unfold dl_segment; by destruct (fits token abs)).
    rewrite Es. by destruct (fits token abs). }
  rewrite Er, feed_segs by done. unfold segs_out. destruct (Eg paths) as [E1 E2]. fold gs in E1, E2. by rewrite E1, E2.
Qed.

(** A printed payload passes the gate of its own token only, and only with a
    path that is UTF-8. *)
Lemma handle_osc_printed token other ps :
  forallb token_byte token = true ->
  omap (handle_osc other) (map (fun abs => lit "dl;" ++ token ++ lit ";" ++ abs) ps)
  = if bool_decide (other = token) then List.filter utf8_valid ps else [].
Proof.
  intros Hb. induction ps as [|abs ps IH]; [by case_bool_decide|]. cbn [map omap list_omap List.filter]. rewrite IH.
  assert (E : handle_osc other (lit "dl;" ++ token ++ lit ";" ++ abs)
    = if bool_decide (other = token) && utf8_valid abs then Some abs else None).
  { destruct (handle_osc other _) as [path|] eqn:E.
    - pose proof (proj1 (download_token_gate _ _ _) E) as (Ep & N & _ & V).
      apply (app_inv_head (lit "dl;")) in Ep.
      assert (Es : token = other /\ abs = path).
      { apply (app_inj_1_semi token other abs path); [by apply token_no_semi|done|exact Ep]. }
      destruct Es as [-> ->]. by rewrite bool_decide_true, V.
    - case_bool_decide as Eo; [|done]. subst other. cbn [andb]. destruct (utf8_valid abs) eqn:V; [|done].
      rewrite (proj2 (download_token_gate token _ abs)) in E; [done|]. split_and!; [done|by apply token_no_semi|by apply token_utf8|done]. }
  rewrite E. case_bool_decide; cbn [andb]; [|done]. by destruct (utf8_valid abs).
Qed.

(** A small file system: one directory, every other short name a file. *)
Definition demo_fs : FileSystem := {|
  fs_stat p := Some (negb (bool_decide (p = lit "dir")));
  fs_canonicalize p :=
    if (len p <=? 100) && utf8_valid p then Some (lit "/home/u/" ++ p) else None;
|}.

(** What a browser is sent for one download: either a lone cancelling end
    (nothing could be opened), or a begin frame, chunks that are the file's
    successive reads and never add up to more than the announced size, and
    an end: [OK] only when every announced byte was sent, [CANCEL] on any
    read error, growth or shrinking; without an end only when a send found no
    listener. *)
Lemma download_events id path f listening :
  (forall r t, fa_stat f = Some (r, t) -> 0 <= t) ->
  download_task id path f listening = [DE.End id DOWNLOAD_STATUS_CANCEL] \/
  exists total name chunks rest tail,
    fa_stat f = Some (true, total) /\ total <= MAX_PASTE_TOTAL_BYTES /\
    fa_reads f = map Some chunks ++ rest /\
    download_task id path f listening = DE.Begin id total name :: map (DE.Chunk id) chunks ++ tail /\
    total_len chunks <= total /\
    (tail = [DE.End id DOWNLOAD_STATUS_OK] /\ total_len chunks = total \/
     tail = [DE.End id DOWNLOAD_STATUS_CANCEL] \/
     tail = [] /\ false ∈ listening).
Proof.
  intros Hst. unfold download_task, stream_download.
  destruct (fa_open f); cbn [negb]; [|by left].
  destruct (fa_stat f) as [[[] total]|]; cbn [negb]; [|by left..].
  destruct (total >? MAX_PASTE_TOTAL_BYTES) eqn:G; [by left|].
  rewrite Z.gtb_ltb in G. bool_to_prop. right. pose proof (Hst true total eq_refl).
  set (name := default (lit "download") (file_name path)).
  destruct (match listening with [] => _ | _ => _ end) as [ok l'] eqn:El. destruct ok.
  - destruct (download_loop id total (fa_reads f) l' 0) as [evs r] eqn:Er.
    apply download_loop_shape in Er as (chunks & rest & tail & -> & -> & L & T & N); [|lia..].
    rewrite Z.add_0_l in *. destruct r as [e|[]].
    + exists total, name, chunks, rest, (tail ++ [DE.End id DOWNLOAD_STATUS_CANCEL]).
      split_and!; try done; [cbn [app]; by rewrite <- app_assoc|]. inversion T; subst. by right; left.
    + exists total, name, chunks, rest, tail. split_and!; try done.
      inversion T; subst; [by left|]. right. right. split; [done|].
      specialize (N eq_refl eq_refl). destruct listening; simplify_eq;
        [by apply not_elem_of_nil in N|by apply list_elem_of_further].
  - exists total, name, [], (fa_reads f), []. split_and!; try done. right. right. split; [done|].
    destruct listening; simplify_eq. apply list_elem_of_here.
Qed.

Lemma download_events_witness :
  let f := mk_file true (Some (true, 3)) [Some (lit "ab"); Some (lit "c"); Some []] in
  download_task 9 (lit "/tmp/x") f []
    = [DE.Begin 9 3 (lit "x"); DE.Chunk 9 (lit "ab"); DE.Chunk 9 (lit "c"); DE.End 9 DOWNLOAD_STATUS_OK]
  /\ (download_task 9 (lit "/tmp/x") f [] = [DE.End 9 DOWNLOAD_STATUS_CANCEL] \/
      exists total name chunks rest tail,
        fa_stat f = Some (true, total) /\ total <= MAX_PASTE_TOTAL_BYTES /\
        fa_reads f = map Some chunks ++ rest /\
        download_task 9 (lit "/tmp/x") f [] = DE.Begin 9 total name :: map (DE.Chunk 9) chunks ++ tail /\
        total_len chunks <= total /\
        (tail = [DE.End 9 DOWNLOAD_STATUS_OK] /\ total_len chunks = total \/
         tail = [DE.End 9 DOWNLOAD_STATUS_CANCEL] \/ tail = [] /\ (false ∈ ([] : list bool)))).
Proof.
  split; [by vm_compute|].
  apply (download_events 9 (lit "/tmp/x")
    (mk_file true (Some (true, 3)) [Some (lit "ab"); Some (lit "c"); Some []]) []).
  intros r t [= <- <-]. done.
Defined.
