(* ===== verification/Cbor.v ===== *)
(** * Cbor: the CBOR reader ([common/src/webauthn/cbor.rs])

    A cursor is the list of the bytes that are left; each reader returns its
    value and the cursor after it. *)

From Stdlib Require Import Strings.Byte.
From stdpp Require Import prelude strings list.
From S2P Require Import Prelude Utf8.

(** [enum CborError] *)
Inductive CborError :=
| Eof (need : Z)
| UnsupportedInfo (major info : Z)
| WrongMajor (expected got : Z)
| TooLarge (n cap : Z)
| CUtf8
| NestingTooDeep.

Definition MAX_STRING : Z := 64 * 1024.
Definition MAX_NESTING : Z := 6.
Definition MAJOR_UINT : Z := 0.
Definition MAJOR_NINT : Z := 1.
Definition MAJOR_BYTES : Z := 2.
Definition MAJOR_TEXT : Z := 3.
Definition MAJOR_ARRAY : Z := 4.
Definition MAJOR_MAP : Z := 5.

Abbreviation cbor_res A := (res CborError (A * list byte)).

(** [take] *)
Definition take_n (buf : list byte) (n : Z) : cbor_res (list byte) :=
  if len buf <? n then Err (Eof (n - len buf))
  else Ok (take (Z.to_nat n) buf, drop (Z.to_nat n) buf).

(** [peek_header] *)
Definition peek_header (buf : list byte) : res CborError (Z * Z) :=
  if bool_decide (buf = []) then Err (Eof 1)
  else b ← rd buf 0; Ok (Z.shiftr (byte_val b) 5, Z.land (byte_val b) 0x1f).

(** [read_head] *)
Definition read_head (buf : list byte) : cbor_res (Z * Z) :=
  '(major, info) ← peek_header buf;
  '(_, buf) ← take_n buf 1;
  if info <=? 23 then Ok ((major, info), buf)
  else if info =? 24 then '(b, buf) ← take_n buf 1; v ← rd b 0; Ok ((major, byte_val v), buf)
  else if info =? 25 then '(b, buf) ← take_n buf 2; v ← be_at 2 b 0; Ok ((major, v), buf)
  else if info =? 26 then '(b, buf) ← take_n buf 4; v ← be_at 4 b 0; Ok ((major, v), buf)
  else if info =? 27 then '(b, buf) ← take_n buf 8; v ← be_at 8 b 0; Ok ((major, v), buf)
  else Err (UnsupportedInfo major info).

(** [read_uint] *)
Definition read_uint (buf : list byte) : cbor_res Z :=
  '((m, v), buf) ← read_head buf;
  guard_err (negb (m =? MAJOR_UINT)) (WrongMajor MAJOR_UINT m) ;;
  Ok (v, buf).

Definition I64_MIN : Z := - 2 ^ 63.
Definition I64_MAX : Z := 2 ^ 63 - 1.
(** [i64::try_from] *)
Definition try_i64 (n : Z) : option Z :=
  if (I64_MIN <=? n) && (n <=? I64_MAX) then Some n else None.

(** [read_int] *)
Definition read_int (buf : list byte) : cbor_res Z :=
  '((m, v), buf) ← read_head buf;
  if m =? MAJOR_UINT then n ← ok_or (TooLarge v I64_MAX) (try_i64 v); Ok (n, buf)
  else if m =? MAJOR_NINT then n ← ok_or (TooLarge v I64_MAX) (try_i64 (-1 - v)); Ok (n, buf)
  else Err (WrongMajor MAJOR_UINT m).

(** [read_bytes] *)
Definition read_bytes (buf : list byte) : cbor_res (list byte) :=
  '((m, l), buf) ← read_head buf;
  guard_err (negb (m =? MAJOR_BYTES)) (WrongMajor MAJOR_BYTES m) ;;
  guard_err (l >? MAX_STRING) (TooLarge l MAX_STRING) ;;
  take_n buf l.

(** [read_text] *)
Definition read_text (buf : list byte) : cbor_res (list byte) :=
  '((m, l), buf) ← read_head buf;
  guard_err (negb (m =? MAJOR_TEXT)) (WrongMajor MAJOR_TEXT m) ;;
  guard_err (l >? MAX_STRING) (TooLarge l MAX_STRING) ;;
  '(raw, buf) ← take_n buf l;
  s ← from_utf8 CUtf8 raw;
  Ok (s, buf).

(** [read_map_header] *)
Definition read_map_header (buf : list byte) : cbor_res Z :=
  '((m, n), buf) ← read_head buf;
  guard_err (negb (m =? MAJOR_MAP)) (WrongMajor MAJOR_MAP m) ;;
  Ok (n, buf).

(** [for _ in 0..n { body }] with early exit on an error.  The count can be any
    64-bit number; [fuel] bounds the iterations that can succeed, and running
    out of it is reported as [Panic]. *)
Fixpoint for_n {E S} (fuel : nat) (n : Z) (body : S -> res E S) (s : S) : res E S :=
  if n <=? 0 then Ok s
  else match fuel with
       | O => Panic
       | S k => s ← body s; for_n k (n - 1) body s
       end.

(** [skip_value_depth]; [d] counts the levels left, so [d = MAX_NESTING + 1 -
    depth] and 0 is "too deep".  A value has at least one byte, hence the
    fuel. *)
Fixpoint skip_value_levels (d : nat) (buf : list byte) : res CborError (list byte) :=
  match d with
  | O => Err NestingTooDeep
  | S d =>
      '((major, l), buf) ← read_head buf;
      if (major =? MAJOR_UINT) || (major =? MAJOR_NINT) then Ok buf
      else if (major =? MAJOR_BYTES) || (major =? MAJOR_TEXT) then
        guard_err (l >? MAX_STRING) (TooLarge l MAX_STRING) ;;
        '(_, buf) ← take_n buf l; Ok buf
      else if major =? MAJOR_ARRAY then
        for_n (S (length buf)) l (skip_value_levels d) buf
      else if major =? MAJOR_MAP then
        for_n (S (length buf)) l
          (fun b => b ← skip_value_levels d b; skip_value_levels d b) buf
      else Err (UnsupportedInfo major 0)
  end.

(** [skip_value] *)
Definition skip_value (buf : list byte) : res CborError (list byte) :=
  skip_value_levels (Z.to_nat (MAX_NESTING + 1)) buf.
