(* ===== verification/CborFacts.v ===== *)
(** * CborFacts: what the CBOR reader accepts

    The grammar of the supported subset, and the proof that each reader
    consumes exactly one item of it. *)

From Stdlib Require Import Strings.Byte.
From stdpp Require Import prelude strings list.
From S2P Require Import Prelude Utf8 FrameFacts Cbor.

(** ** The grammar *)

(** [h] is a head with this major type and value; the value need not be
    written in the shortest form. *)
Inductive head : Z -> Z -> list byte -> Prop :=
| head_small m v : 0 <= m < 8 -> 0 <= v <= 23 -> head m v [byte_of (m * 32 + v)]
| head_ext m v k : 0 <= m < 8 -> (k <= 3)%nat -> 0 <= v < 256 ^ 2 ^ Z.of_nat k ->
    head m v (byte_of (m * 32 + 24 + Z.of_nat k) :: be_enc (2 ^ k) v).

(** [s] is [n] pieces of [P], one after the other. *)
Inductive reps (P : list byte -> Prop) : Z -> list byte -> Prop :=
| reps_nil : reps P 0 []
| reps_cons n i s : 0 <= n -> P i -> reps P n s -> reps P (1 + n) (i ++ s).

Definition pair_of (P : list byte -> Prop) (s : list byte) : Prop :=
  exists k v, s = k ++ v /\ P k /\ P v.

(** [i] is one value nested at most [d] levels deep. *)
Fixpoint item (d : nat) (i : list byte) : Prop :=
  match d with
  | O => False
  | S d =>
      exists m v h s, i = h ++ s /\ head m v h /\
        (((m = MAJOR_UINT \/ m = MAJOR_NINT) /\ s = []) \/
         ((m = MAJOR_BYTES \/ m = MAJOR_TEXT) /\ v <= MAX_STRING /\ len s = v) \/
         (m = MAJOR_ARRAY /\ reps (item d) v s) \/
         (m = MAJOR_MAP /\ reps (pair_of (item d)) v s))
  end.

(** ** Heads *)

Lemma take_n_Ok buf n a rest :
  0 <= n -> take_n buf n = Ok (a, rest) <-> buf = a ++ rest /\ len a = n.
Proof.
  intros Hn. unfold take_n. split.
  - destruct (len buf <? n) eqn:E; [done|]. intros [= <- <-]. bool_to_prop.
    rewrite take_drop. split; [done|]. unfold len in *. rewrite length_take. lia.
  - intros [-> L]. rewrite (proj2 (Z.ltb_ge _ _)) by (rewrite len_app; pose proof (len_nonneg rest); lia).
    unfold len in L. replace (Z.to_nat n) with (length a) by lia.
    by rewrite take_app_length, drop_app_length.
Qed.

Lemma byte_split b :
  let m := Z.shiftr (byte_val b) 5 in let i := Z.land (byte_val b) 0x1f in
  0 <= m < 8 /\ 0 <= i < 32 /\ byte_of (m * 32 + i) = b.
Proof.
  cbn zeta. pose proof (byte_val_range b).
  change 0x1f with (Z.ones 5). rewrite Z.land_ones, Z.shiftr_div_pow2 by lia.
  change (2 ^ 5) with 32.
  pose proof (Z.div_mod (byte_val b) 32 ltac:(lia)) as D.
  pose proof (Z.mod_pos_bound (byte_val b) 32 ltac:(lia)).
  assert (0 <= byte_val b / 32 < 8).
  { split; [apply Z.div_pos; lia|apply Z.div_lt_upper_bound; lia]. }
  split; [done|]. split; [done|]. rewrite Z.mul_comm, <- D. apply byte_of_val.
Qed.

Lemma byte_join m i :
  0 <= m < 8 -> 0 <= i < 32 ->
  Z.shiftr (byte_val (byte_of (m * 32 + i))) 5 = m /\ Z.land (byte_val (byte_of (m * 32 + i))) 0x1f = i.
Proof.
  intros. rewrite byte_val_of, Z.mod_small by lia.
  change 0x1f with (Z.ones 5). rewrite Z.land_ones, Z.shiftr_div_pow2 by lia.
  change (2 ^ 5) with 32. split.
  - rewrite Z.div_add_l by lia. rewrite Z.div_small; lia.
  - rewrite Z.add_comm, Z.mod_add by lia. apply Z.mod_small. lia.
Qed.

(** [read_head] with its cases on the additional information made uniform. *)
Definition ext_bytes (info : Z) : nat := Z.to_nat (2 ^ (info - 24)).

Lemma read_head_cons b buf :
  read_head (b :: buf) =
  let m := Z.shiftr (byte_val b) 5 in let i := Z.land (byte_val b) 0x1f in
  if i <=? 23 then Ok ((m, i), buf)
  else if i <=? 27 then '(e, buf) ← take_n buf (2 ^ (i - 24)); Ok ((m, be_dec e), buf)
  else Err (UnsupportedInfo m i).
Proof.
  unfold read_head, peek_header. rewrite bool_decide_false by done. rewrite rd_here.
  cbn [mbind res_bind]. cbn zeta.
  set (m := Z.shiftr _ _). set (i := Z.land _ _).
  assert (T : take_n (b :: buf) 1 = Ok ([b], buf)) by (apply take_n_Ok; done || lia).
  rewrite T. cbn [mbind res_bind]. destruct (byte_split b) as (_ & Hi & _). fold i in Hi.
  clearbody m i. clear T. destruct (i <=? 23) eqn:E1; [done|]. bool_to_prop.
  assert (Ext : forall n, (0 < n)%nat ->
    ('(e, bf) ← take_n buf (Z.of_nat n); v ← be_at n e 0; Ok ((m, v), bf)) =
    ('(e, bf) ← take_n buf (Z.of_nat n); Ok ((m, be_dec e), bf))).
  { intros n Hn. destruct (take_n buf (Z.of_nat n)) as [[e bf]| |] eqn:Et; [|done..].
    apply take_n_Ok in Et as [_ Le]; [|lia]. unfold len in Le. cbn [mbind res_bind].
    by rewrite be_at_spec, bool_decide_true, drop_0, take_ge by lia. }
  destruct (i =? 24) eqn:E2.
  { bool_to_prop. subst i. change (24 <=? 27) with true. change (2 ^ (24 - 24)) with 1.
    destruct (take_n buf 1) as [[e bf]| |] eqn:Et; [|done..]. cbn [mbind res_bind].
    apply take_n_Ok in Et as [_ Le]; [|lia]. destruct e as [|x [|? ?]]; [len_lia| |len_lia].
    rewrite rd_here. cbn [mbind res_bind]. rewrite be_dec_cons. unfold len. cbn. do 3 f_equal. lia. }
  destruct (i =? 25) eqn:E3; [bool_to_prop; subst i; apply (Ext 2%nat); lia|].
  destruct (i =? 26) eqn:E4; [bool_to_prop; subst i; apply (Ext 4%nat); lia|].
  destruct (i =? 27) eqn:E5; [bool_to_prop; subst i; apply (Ext 8%nat); lia|].
  rewrite (proj2 (Z.leb_gt i 27)) by (bool_to_prop; lia). done.
Qed.

Lemma head_nonempty m v h : head m v h -> (0 < length h)%nat.
Proof. destruct 1; cbn; lia. Qed.

Lemma head_value m v h : head m v h -> 0 <= v.
Proof. destruct 1; lia. Qed.

Lemma read_head_Ok buf m v rest :
  read_head buf = Ok ((m, v), rest) <-> exists h, buf = h ++ rest /\ head m v h.
Proof.
  split.
  - destruct buf as [|b buf]; [done|]. rewrite read_head_cons. cbn zeta.
    destruct (byte_split b) as (Hm & Hi & Hb). revert Hm Hi Hb.
    generalize (Z.shiftr (byte_val b) 5) (Z.land (byte_val b) 31). intros m' i Hm Hi Hb.
    destruct (i <=? 23) eqn:E1.
    { intros [= <- <- <-]. bool_to_prop. exists [b]. split; [done|]. rewrite <- Hb. apply head_small; lia. }
    destruct (i <=? 27) eqn:E2; [|done]. intros H. bool_to_prop.
    apply bind_Ok in H as ([e bf] & Ht & [= <- <- <-]).
    apply take_n_Ok in Ht as [-> Le]; [|apply Z.pow_nonneg; lia].
    exists (b :: e). split; [done|]. rewrite <- Hb.
    assert (Ei : i = 24 + Z.of_nat (Z.to_nat (i - 24))) by lia.
    assert (Ll : length e = (2 ^ Z.to_nat (i - 24))%nat).
    { apply Nat2Z.inj. rewrite Nat2Z.inj_pow. unfold len in Le. rewrite Le. f_equal. lia. }
    rewrite Ei, Z.add_assoc. rewrite <- (be_enc_dec e) at 2. rewrite Ll.
    apply head_ext; [done|lia|]. pose proof (be_dec_bound e) as B. rewrite Le in B.
    replace (Z.of_nat (Z.to_nat (i - 24))) with (i - 24) by lia. done.
  - intros (h & -> & H). destruct H as [m v Hm Hv|m v k Hm Hk Hv]; cbn [app];
      rewrite read_head_cons; cbn zeta.
    + destruct (byte_join m v Hm ltac:(lia)) as [-> ->].
      rewrite (proj2 (Z.leb_le _ _)) by lia. done.
    + rewrite <- Z.add_assoc. destruct (byte_join m (24 + Z.of_nat k) Hm ltac:(lia)) as [-> ->].
      rewrite (proj2 (Z.leb_gt _ 23)), (proj2 (Z.leb_le _ 27)) by lia.
      replace (24 + Z.of_nat k - 24) with (Z.of_nat k) by lia.
      assert (Hp : 0 <= 2 ^ Z.of_nat k) by (apply Z.pow_nonneg; lia).
      rewrite (proj2 (take_n_Ok _ _ (be_enc (2 ^ k) v) rest Hp)).
      * cbn [mbind res_bind]. rewrite be_dec_enc_small; [done|].
        rewrite Nat2Z.inj_pow. done.
      * split; [done|]. rewrite len_be_enc. by rewrite Nat2Z.inj_pow.
Qed.

Lemma take_n_no_panic buf n : take_n buf n <> Panic.
Proof. unfold take_n. by destruct (len buf <? n). Qed.

Lemma read_head_no_panic buf : read_head buf <> Panic.
Proof.
  destruct buf as [|b buf]; [done|]. rewrite read_head_cons. cbn zeta.
  destruct (_ <=? 23); [done|]. destruct (_ <=? 27); [|done].
  apply bind_no_panic; [apply take_n_no_panic|]. by intros [].
Qed.

(** ** Loops *)

(** A loop whose body shrinks what is left never runs out of fuel. *)
Lemma for_n_shrinking {E S} (mu : S -> nat) (body : S -> res E S) fuel n s :
  (forall s s', body s = Ok s' -> (mu s' < mu s)%nat) -> (forall s, body s <> Panic) ->
  (mu s < fuel)%nat -> for_n fuel n body s <> Panic.
Proof.
  intros Hd Hp. revert n s. induction fuel as [|k IH]; intros n s L; [lia|]. cbn [for_n].
  destruct (n <=? 0); [done|]. apply bind_no_panic; [apply Hp|]. intros s' Hs.
  apply Hd in Hs. apply IH. lia.
Qed.

Section Loop.
Context (body : list byte -> res CborError (list byte)) (P : list byte -> Prop).
Hypothesis body_Ok : forall b b', body b = Ok b' <-> exists i, b = i ++ b' /\ P i.
Hypothesis P_nonempty : forall i, P i -> (0 < length i)%nat.
Hypothesis body_no_panic : forall b, body b <> Panic.

Lemma for_n_no_panic fuel n b : (length b < fuel)%nat -> for_n fuel n body b <> Panic.
Proof.
  apply (for_n_shrinking length); [|apply body_no_panic]. intros c c' Hb.
  apply body_Ok in Hb as (i & -> & Hi). pose proof (P_nonempty i Hi). rewrite length_app. lia.
Qed.

Lemma for_n_Ok fuel n b b' :
  0 <= n -> (length b < fuel)%nat ->
  for_n fuel n body b = Ok b' <-> exists s, b = s ++ b' /\ reps P n s.
Proof.
  revert n b. induction fuel as [|k IH]; intros n b Hn L; [lia|]. cbn [for_n].
  destruct (n <=? 0) eqn:E; bool_to_prop.
  - assert (n = 0) as -> by lia. split.
    + intros [= ->]. exists []. split; [done|constructor].
    + intros (s & -> & H). inversion H; subst; [done|lia].
  - rewrite bind_Ok. split.
    + intros (b1 & Hb & Hf). apply body_Ok in Hb as (i & -> & Hi). pose proof (P_nonempty i Hi).
      apply IH in Hf as (s & -> & Hs); [|lia|rewrite length_app in L; lia].
      exists (i ++ s). rewrite app_assoc. split; [done|].
      replace n with (1 + (n - 1)) by lia. constructor; [lia|done..].
    + intros (s & -> & H). inversion H as [|n' i s' Hn' Hi Hs]; subst; [lia|].
      exists (s' ++ b'). rewrite <- app_assoc. split; [apply body_Ok; eauto|].
      pose proof (P_nonempty i Hi). apply IH.
      * lia.
      * rewrite !length_app in *. lia.
      * exists s'. split; [done|]. by replace (1 + n' - 1) with n' by lia.
Qed.
End Loop.

(** ** Skipping a value *)

Lemma item_nonempty d i : item d i -> (0 < length i)%nat.
Proof.
  destruct d; [done|]. intros (m & v & h & s & -> & H & _). apply head_nonempty in H.
  rewrite length_app. lia.
Qed.

Lemma pair_nonempty d i : pair_of (item d) i -> (0 < length i)%nat.
Proof. intros (k & v & -> & H & _). apply item_nonempty in H. rewrite length_app. lia. Qed.

Lemma pair_Ok d b b' :
  (forall b b', skip_value_levels d b = Ok b' <-> exists i, b = i ++ b' /\ item d i) ->
  (b ← skip_value_levels d b; skip_value_levels d b) = Ok b' <->
  exists i, b = i ++ b' /\ pair_of (item d) i.
Proof.
  intros IH. rewrite bind_Ok. split.
  - intros (b1 & H1 & H2). apply IH in H1 as (k & -> & Hk). apply IH in H2 as (v & -> & Hv).
    exists (k ++ v). rewrite app_assoc. split; [done|]. by exists k, v.
  - intros (i & -> & k & v & -> & Hk & Hv). exists (v ++ b'). rewrite <- app_assoc.
    split; apply IH; eauto.
Qed.

(** One level, from the levels below it. *)
Section Level.
Context (d : nat) (IHp : forall b, skip_value_levels d b <> Panic)
  (IHo : forall b b', skip_value_levels d b = Ok b' <-> exists i, b = i ++ b' /\ item d i).

Let pair_step := fun b => b ← skip_value_levels d b; skip_value_levels d b.

Lemma skip_level_no_panic b : skip_value_levels (S d) b <> Panic.
Proof.
  assert (Np : forall b, pair_step b <> Panic) by (intros c; by apply bind_no_panic).
  cbn [skip_value_levels]. apply bind_no_panic; [apply read_head_no_panic|].
  intros [[m l] buf] _. repeat case_match; try done.
  - apply bind_no_panic; [apply guard_err_no_panic|]. intros _ _.
    apply bind_no_panic; [apply take_n_no_panic|]. by intros [].
  - eapply (for_n_no_panic _ (item d)); eauto using item_nonempty.
  - eapply (for_n_no_panic _ (pair_of (item d))); eauto using pair_nonempty. intros b1 b2. by apply pair_Ok.
Qed.

Lemma skip_array v b b' : 0 <= v ->
  for_n (S (length b)) v (skip_value_levels d) b = Ok b' <-> exists s, b = s ++ b' /\ reps (item d) v s.
Proof. intros. apply for_n_Ok; [done|apply item_nonempty|done|lia]. Qed.
Lemma skip_map v b b' : 0 <= v ->
  for_n (S (length b)) v pair_step b = Ok b' <-> exists s, b = s ++ b' /\ reps (pair_of (item d)) v s.
Proof. intros. apply for_n_Ok; [intros; by apply pair_Ok|apply pair_nonempty|done|lia]. Qed.

Lemma skip_level_inv b b' : skip_value_levels (S d) b = Ok b' -> exists i, b = i ++ b' /\ item (S d) i.
Proof.
  cbn [skip_value_levels item]. rewrite bind_Ok.
  intros ([[m v] buf] & Hh & H). apply read_head_Ok in Hh as (h & -> & Hh).
  pose proof (head_value _ _ _ Hh) as Hv.
  destruct ((m =? MAJOR_UINT) || (m =? MAJOR_NINT)) eqn:E1.
  { injection H as <-. exists h. split; [done|]. exists m, v, h, []. rewrite app_nil_r.
    split; [done|]. split; [done|]. left. split; [|done]. rewrite orb_true_iff, !Z.eqb_eq in E1. done. }
  destruct ((m =? MAJOR_BYTES) || (m =? MAJOR_TEXT)) eqn:E2.
  { inv_res. rewrite Z.gtb_ltb in *. bool_to_prop.
    match goal with H : take_n _ _ = Ok _ |- _ => apply take_n_Ok in H as [-> Hl]; [|done] end.
    rewrite app_assoc. eexists. split; [done|]. exists m, v, h, l.
    split; [done|]. split; [done|]. right. left. rewrite orb_true_iff, !Z.eqb_eq in E2. done. }
  destruct (m =? MAJOR_ARRAY) eqn:E3.
  { bool_to_prop. apply skip_array in H as (s & -> & Hs); [|done].
    exists (h ++ s). rewrite app_assoc. split; [done|]. exists m, v, h, s.
    split; [done|]. split; [done|]. right. right. by left. }
  destruct (m =? MAJOR_MAP) eqn:E4; [|done]. bool_to_prop.
  apply skip_map in H as (s & -> & Hs); [|done].
  exists (h ++ s). rewrite app_assoc. split; [done|]. exists m, v, h, s.
  split; [done|]. split; [done|]. right. right. by right.
Qed.

Lemma skip_level_item b' : forall b, (exists i, b = i ++ b' /\ item (S d) i) -> skip_value_levels (S d) b = Ok b'.
Proof.
  intros b. cbn [skip_value_levels item]. rewrite bind_Ok.
  intros (i & -> & m & v & h & s & -> & Hh & C). exists ((m, v), s ++ b').
  rewrite <- app_assoc. split; [apply read_head_Ok; eauto|].
  pose proof (head_value _ _ _ Hh) as Hv.
  destruct C as [[[->| ->] ->]|[([->| ->] & Hm & Hl)|[[-> Hr]|[-> Hr]]]]; cbn; try done.
  1, 2: rewrite Z.gtb_ltb, (proj2 (Z.ltb_ge _ _)) by lia; cbn [guard_err mbind res_bind];
    rewrite (proj2 (take_n_Ok (s ++ b') v s b' Hv)) by done; done.
  - apply skip_array; eauto.
  - apply skip_map; eauto.
Qed.
End Level.

Lemma skip_no_panic_Ok d :
  (forall b, skip_value_levels d b <> Panic) /\
  (forall b b', skip_value_levels d b = Ok b' <-> exists i, b = i ++ b' /\ item d i).
Proof.
  induction d as [|d [IHp IHo]].
  { split; [done|]. intros b b'. split; [done|]. by intros (i & _ & []). }
  split; [apply (skip_level_no_panic d IHp IHo)|].
  intros b b'. split; [by apply skip_level_inv|by apply skip_level_item].
Qed.

(** ** The other readers *)

(** A reader's success consumes at least a byte of what is left. *)
Definition shrinks {A} (f : list byte -> cbor_res A) : Prop :=
  forall b a b', f b = Ok (a, b') -> (length b' < length b)%nat.

Lemma read_head_shrinks : shrinks read_head.
Proof.
  intros b [m v] b' H. apply read_head_Ok in H as (h & -> & Hh). apply head_nonempty in Hh.
  rewrite length_app. lia.
Qed.

Lemma read_int_shrinks : shrinks read_int.
Proof.
  intros b v b' H. unfold read_int in H. apply bind_Ok in H as ([[m n] buf] & Hh & H).
  apply read_head_shrinks in Hh. destruct (m =? MAJOR_UINT); [|destruct (m =? MAJOR_NINT); [|done]];
    by inv_res.
Qed.

Lemma take_n_le b n a b' : take_n b n = Ok (a, b') -> (length b' <= length b)%nat.
Proof.
  unfold take_n. destruct (len b <? n); [done|]. intros [= <- <-]. rewrite length_drop. lia.
Qed.

Lemma read_bytes_shrinks : shrinks read_bytes.
Proof.
  intros b v b' H. unfold read_bytes in H. apply bind_Ok in H as ([[m n] buf] & Hh & H).
  apply read_head_shrinks in Hh. inv_res.
  match goal with H : take_n _ _ = Ok _ |- _ => apply take_n_le in H end. lia.
Qed.

Lemma read_text_shrinks : shrinks read_text.
Proof.
  intros b v b' H. unfold read_text in H. apply bind_Ok in H as ([[m n] buf] & Hh & H).
  apply read_head_shrinks in Hh. inv_res.
  match goal with H : take_n _ _ = Ok _ |- _ => apply take_n_le in H end. lia.
Qed.

Lemma skip_value_Ok b b' :
  skip_value b = Ok b' <-> exists i, b = i ++ b' /\ item (Z.to_nat (MAX_NESTING + 1)) i.
Proof. apply skip_no_panic_Ok. Qed.

Lemma skip_value_no_panic b : skip_value b <> Panic.
Proof. apply skip_no_panic_Ok. Qed.

Lemma skip_value_shrinks b b' : skip_value b = Ok b' -> (length b' < length b)%nat.
Proof.
  intros (i & -> & Hi)%skip_value_Ok. apply item_nonempty in Hi. rewrite length_app. lia.
Qed.

Lemma read_int_no_panic b : read_int b <> Panic.
Proof.
  unfold read_int. apply bind_no_panic; [apply read_head_no_panic|]. intros [[m n] buf] _.
  destruct (m =? MAJOR_UINT); [|destruct (m =? MAJOR_NINT); [|done]];
    apply bind_no_panic; (apply ok_or_no_panic || done).
Qed.

Lemma read_bytes_no_panic b : read_bytes b <> Panic.
Proof.
  unfold read_bytes. apply bind_no_panic; [apply read_head_no_panic|]. intros [[m n] buf] _.
  apply bind_no_panic; [apply guard_err_no_panic|]. intros _ _.
  apply bind_no_panic; [apply guard_err_no_panic|]. intros _ _. apply take_n_no_panic.
Qed.

Lemma read_text_no_panic b : read_text b <> Panic.
Proof.
  unfold read_text. apply bind_no_panic; [apply read_head_no_panic|]. intros [[m n] buf] _.
  apply bind_no_panic; [apply guard_err_no_panic|]. intros _ _.
  apply bind_no_panic; [apply guard_err_no_panic|]. intros _ _.
  apply bind_no_panic; [apply take_n_no_panic|]. intros [raw r] _.
  apply bind_no_panic; [apply from_utf8_no_panic|done].
Qed.

Lemma read_map_header_no_panic b : read_map_header b <> Panic.
Proof.
  unfold read_map_header. apply bind_no_panic; [apply read_head_no_panic|]. intros [[m n] buf] _.
  apply bind_no_panic; [apply guard_err_no_panic|done].
Qed.

(** Reading back a head written in the one- or multi-byte form. *)
Lemma read_head_small m v rest :
  0 <= m < 8 -> 0 <= v <= 23 -> read_head (byte_of (m * 32 + v) :: rest) = Ok ((m, v), rest).
Proof. intros. apply read_head_Ok. exists [byte_of (m * 32 + v)]. split; [done|]. by constructor. Qed.

(** ** Properties *)

(** Skipping consumes exactly one data item: it succeeds with the rest [b']
    if and only if the input is one well-formed item of the supported
    subset, nested at most [MAX_NESTING] levels and with strings of at most
    [MAX_STRING] bytes, followed by [b'].  It always terminates with a result
    or an error, however large the counts in the input are: no panic, and
    the loops never outrun the bytes left. *)
Lemma skip_value_exactly_one_item b b' :
  (skip_value b = Ok b' <-> exists i, b = i ++ b' /\ item (Z.to_nat (MAX_NESTING + 1)) i) /\
  skip_value b <> Panic.
Proof. split; apply skip_no_panic_Ok. Qed.
