(* ===== verification/Webauthn.v ===== *)
(** * Webauthn: passkeys ([common/src/webauthn/])

    COSE keys, authenticator data, client data and the two verification
    procedures.  Base64, JSON, SHA-256 and ECDSA are libraries: they are the
    parameters of the record [Crypto]. *)

From Stdlib Require Import Strings.Byte.
From stdpp Require Import prelude strings list.
From S2P Require Import Prelude Utf8 Cbor.

(** ** COSE keys ([cose.rs]) *)

Inductive CoseError :=
| CoseCbor (e : CborError)
| UnsupportedAlg (n : Z)
| UnsupportedCurve (n : Z)
| UnsupportedKty (n : Z)
| CoseMissingField (f : list byte)
| BadCoordLen (f : list byte) (n : Z).

Definition SEC1_UNCOMPRESSED_LEN : Z := 65.
Definition ES256_ALG : Z := -7.
Definition P256_CRV : Z := 1.
Definition EC2_KTY : Z := 2.

(** The five variables the loop of [decode_es256] fills. *)
Record CoseFields := mk_cose {
  c_kty : option Z; c_alg : option Z; c_crv : option Z;
  c_x : option (list byte); c_y : option (list byte);
}.
Definition no_fields : CoseFields := mk_cose None None None None None.

(** One iteration: a label and its value. *)
Definition cose_entry (st : CoseFields * list byte) : res CborError (CoseFields * list byte) :=
  let '(f, buf) := st in
  '(key, buf) ← read_int buf;
  if key =? 1 then '(v, buf) ← read_int buf;
    Ok (mk_cose (Some v) (c_alg f) (c_crv f) (c_x f) (c_y f), buf)
  else if key =? 3 then '(v, buf) ← read_int buf;
    Ok (mk_cose (c_kty f) (Some v) (c_crv f) (c_x f) (c_y f), buf)
  else if key =? -1 then '(v, buf) ← read_int buf;
    Ok (mk_cose (c_kty f) (c_alg f) (Some v) (c_x f) (c_y f), buf)
  else if key =? -2 then '(v, buf) ← read_bytes buf;
    Ok (mk_cose (c_kty f) (c_alg f) (c_crv f) (Some v) (c_y f), buf)
  else if key =? -3 then '(v, buf) ← read_bytes buf;
    Ok (mk_cose (c_kty f) (c_alg f) (c_crv f) (c_x f) (Some v), buf)
  else buf ← skip_value buf; Ok (f, buf).

(** The checks after the loop. *)
Definition cose_check (f : CoseFields) : res CoseError (list byte) :=
  kty ← ok_or (CoseMissingField (lit "kty")) (c_kty f);
  guard_err (negb (kty =? EC2_KTY)) (UnsupportedKty kty) ;;
  match c_alg f with
  | Some a => guard_err (negb (a =? ES256_ALG)) (UnsupportedAlg a)
  | None => Ok tt
  end ;;
  crv ← ok_or (CoseMissingField (lit "crv")) (c_crv f);
  guard_err (negb (crv =? P256_CRV)) (UnsupportedCurve crv) ;;
  x ← ok_or (CoseMissingField (lit "x")) (c_x f);
  y ← ok_or (CoseMissingField (lit "y")) (c_y f);
  guard_err (negb (len x =? 32)) (BadCoordLen (lit "x") (len x)) ;;
  guard_err (negb (len y =? 32)) (BadCoordLen (lit "y") (len y)) ;;
  Ok (x04 :: x ++ y).

(** [decode_es256] *)
Definition decode_es256 (bytes : list byte) : res CoseError (list byte) :=
  '(n, buf) ← map_err CoseCbor (read_map_header bytes);
  '(f, _) ← map_err CoseCbor (for_n (S (length buf)) n cose_entry (no_fields, buf));
  cose_check f.

(** ** Authenticator data ([authdata.rs]) *)

Inductive AuthDataError :=
| TooShort (l : Z)
| MissingAttestedCredData
| CredIdTooLong (n : Z)
| AdCose (e : CoseError)
| AdCbor (e : CborError).

Definition FLAG_UP : Z := 1.
Definition FLAG_AT : Z := 64.
Definition AD_HEADER_LEN : Z := 37.

(** [struct AuthDataPrefix] *)
Record AuthDataPrefix := mk_prefix { rp_id_hash : list byte; flags : Z; sign_count : Z }.

Definition user_present (p : AuthDataPrefix) : bool := negb (Z.land (flags p) FLAG_UP =? 0).
Definition attested_cred_data (p : AuthDataPrefix) : bool := negb (Z.land (flags p) FLAG_AT =? 0).

(** [struct AttestedCredentialData] *)
Record AttestedCredentialData := mk_attested {
  prefix : AuthDataPrefix;
  aaguid : list byte;
  credential_id : list byte;
  credential_public_key : list byte;
}.

(** [parse_prefix] *)
Definition parse_prefix (data : list byte) : res AuthDataError AuthDataPrefix :=
  guard_err (len data <? AD_HEADER_LEN) (TooShort (len data)) ;;
  h ← slice data 0 32;
  fl ← rd data 32;
  n ← be_at 4 data 33;
  Ok (mk_prefix h (byte_val fl) n).

(** [parse_attested] *)
Definition parse_attested (data : list byte) : res AuthDataError AttestedCredentialData :=
  p ← parse_prefix data;
  guard_err (negb (attested_cred_data p)) MissingAttestedCredData ;;
  buf ← slice_from data (Z.to_nat AD_HEADER_LEN);
  guard_err (len buf <? 16 + 2) (TooShort (len data)) ;;
  guid ← slice buf 0 16;
  cred_id_len ← be_at 2 buf 16;
  guard_err (cred_id_len >? 1023) (CredIdTooLong cred_id_len) ;;
  buf ← slice_from buf 18;
  guard_err (len buf <? cred_id_len) (TooShort (len data)) ;;
  cred_id ← slice buf 0 (Z.to_nat cred_id_len);
  buf ← slice_from buf (Z.to_nat cred_id_len);
  key ← map_err AdCose (decode_es256 buf);
  map_err AdCbor (skip_value buf) ;;
  Ok (mk_attested p guid cred_id key).

(** ** Client data ([client_data.rs]) *)

Inductive ClientDataError :=
| Json
| NotObject
| CdMissingField (f : list byte)
| NotString (f : list byte)
| CdWrongType (expected got : list byte)
| ChallengeMismatch
| OriginMismatch (expected got : list byte).

Definition TYPE_CREATE : list byte := lit "webauthn.create".
Definition TYPE_GET : list byte := lit "webauthn.get".

(** What the code asks of a JSON text: is it JSON, is it an object, and for a
    field whether it is there and whether it is a string. *)
Inductive JsonView := NotJson | NotAnObject | Object (get : list byte -> option (option (list byte))).

(** The libraries. *)
Record Crypto := {
  b64_encode : list byte -> list byte;
  b64_decode : list byte -> option (list byte);
  json_view : list byte -> JsonView;
  sha256 : list byte -> list byte;
  key_of_sec1 : list byte -> option Z;          (** [VerifyingKey::from_sec1_bytes] *)
  sig_of_der : list byte -> option Z;           (** [Signature::from_der] *)
  ecdsa_verify : Z -> list byte -> Z -> bool;   (** [verifying_key.verify(msg, sig)] *)
}.

(** [constant_time_eq] *)
Definition constant_time_eq (a b : list byte) : bool :=
  if negb (bool_decide (length a = length b)) then false
  else foldl (fun diff '(x, y) => Z.lor diff (Z.lxor (byte_val x) (byte_val y))) 0 (zip a b) =? 0.

Section Webauthn.
Variable lib : Crypto.

(** [obj.get(f).ok_or(MissingField(f))?.as_str().ok_or(NotString(f))?] *)
Definition string_field (get : list byte -> option (option (list byte))) (f : list byte)
    : res ClientDataError (list byte) :=
  v ← ok_or (CdMissingField f) (get f);
  ok_or (NotString f) v.

(** [validate] *)
Definition validate (client_data expected_type expected_challenge_b64u expected_origin : list byte)
    : res ClientDataError unit :=
  match json_view lib client_data with
  | NotJson => Err Json
  | NotAnObject => Err NotObject
  | Object get =>
      ty ← string_field get (lit "type");
      guard_err (negb (bool_decide (ty = expected_type)))
        (CdWrongType (if bool_decide (expected_type = TYPE_CREATE) then lit "webauthn.create"
                      else lit "webauthn.get") ty) ;;
      chal ← string_field get (lit "challenge");
      guard_err (negb (constant_time_eq chal expected_challenge_b64u)) ChallengeMismatch ;;
      origin ← string_field get (lit "origin");
      guard_err (negb (bool_decide (origin = expected_origin))) (OriginMismatch expected_origin origin)
  end.

(** ** Registration and authentication ([mod.rs]) *)

Inductive WebauthnError :=
| WBase64 (field : list byte)
| WWrongType (ty : list byte)
| AttestationObject
| WCbor (e : CborError)
| WAuthData (e : AuthDataError)
| WClientData (e : ClientDataError)
| RpIdHashMismatch
| UserPresenceNotSet
| SignatureInvalid
| UnknownCredential
| SignCountRegression (got stored : Z)
| InvalidStoredPubkey.

(** [b64u] *)
Definition b64u (s field : list byte) : res WebauthnError (list byte) :=
  ok_or (WBase64 field) (b64_decode lib s).

(** [check_rp_id_hash] *)
Definition check_rp_id_hash (got rp_id : list byte) : res WebauthnError unit :=
  let expected := sha256 lib rp_id in
  let diff := foldl (fun diff '(a, b) => Z.lor diff (Z.lxor (byte_val a) (byte_val b))) 0
                (zip got expected) in
  guard_err (negb (diff =? 0)) RpIdHashMismatch.

(** [extract_auth_data]: one iteration of its loop, and the whole. *)
Definition att_entry (st : option (list byte) * list byte)
    : res CborError (option (list byte) * list byte) :=
  let '(ad, buf) := st in
  '(key, buf) ← read_text buf;
  if bool_decide (key = lit "authData") then '(v, buf) ← read_bytes buf; Ok (Some v, buf)
  else buf ← skip_value buf; Ok (ad, buf).
Definition extract_auth_data (att_obj : list byte) : res WebauthnError (list byte) :=
  '(n, buf) ← map_err WCbor (read_map_header att_obj);
  '(ad, _) ← map_err WCbor (for_n (S (length buf)) n att_entry (None, buf));
  ok_or AttestationObject ad.

(** [struct RegistrationResponse] with its inner struct: the members
    [finish_register] reads ([id] and [raw_id] are never looked at). *)
Record RegistrationResponse := mk_registration {
  reg_ty : list byte; reg_client_data_json : list byte; reg_attestation_object : list byte;
}.
(** [struct RegisteredCredential] *)
Record RegisteredCredential := mk_registered {
  rc_credential_id : list byte; rc_public_key : list byte; rc_sign_count : Z;
}.

(** [finish_register] *)
Definition finish_register (r : RegistrationResponse) (challenge rp_id origin : list byte)
    : res WebauthnError RegisteredCredential :=
  guard_err (negb (bool_decide (reg_ty r = lit "public-key"))) (WWrongType (reg_ty r)) ;;
  client_data ← b64u (reg_client_data_json r) (lit "clientDataJSON");
  map_err WClientData (validate client_data TYPE_CREATE (b64_encode lib challenge) origin) ;;
  att ← b64u (reg_attestation_object r) (lit "attestationObject");
  auth_data ← extract_auth_data att;
  parsed ← map_err WAuthData (parse_attested auth_data);
  check_rp_id_hash (rp_id_hash (prefix parsed)) rp_id ;;
  guard_err (negb (user_present (prefix parsed))) UserPresenceNotSet ;;
  Ok (mk_registered (credential_id parsed) (credential_public_key parsed) (sign_count (prefix parsed))).

(** [struct AuthenticationResponse] with its inner struct: the members
    [finish_authenticate] reads ([id] and [user_handle] are never looked at). *)
Record AuthenticationResponse := mk_authentication {
  au_ty : list byte; au_raw_id : list byte; au_client_data_json : list byte;
  au_authenticator_data : list byte; au_signature : list byte;
}.
(** [struct StoredCredentialView] *)
Record StoredCredentialView := mk_stored { sc_public_key : list byte; sc_sign_count : Z }.
(** [struct AuthenticatedCredential] *)
Record AuthenticatedCredential := mk_authenticated {
  ac_credential_id : list byte; ac_new_sign_count : Z; ac_sign_count_advanced : bool;
}.

(** [finish_authenticate] *)
Definition finish_authenticate (r : AuthenticationResponse) (challenge rp_id origin : list byte)
    (find_credential : list byte -> option StoredCredentialView)
    : res WebauthnError AuthenticatedCredential :=
  guard_err (negb (bool_decide (au_ty r = lit "public-key"))) (WWrongType (au_ty r)) ;;
  raw_id ← b64u (au_raw_id r) (lit "rawId");
  client_data ← b64u (au_client_data_json r) (lit "clientDataJSON");
  map_err WClientData (validate client_data TYPE_GET (b64_encode lib challenge) origin) ;;
  auth_data ← b64u (au_authenticator_data r) (lit "authenticatorData");
  signature ← b64u (au_signature r) (lit "signature");
  p ← map_err WAuthData (parse_prefix auth_data);
  check_rp_id_hash (rp_id_hash p) rp_id ;;
  guard_err (negb (user_present p)) UserPresenceNotSet ;;
  stored ← ok_or UnknownCredential (find_credential raw_id);
  let msg := auth_data ++ sha256 lib client_data in
  key ← ok_or InvalidStoredPubkey (key_of_sec1 lib (sc_public_key stored));
  sig ← ok_or SignatureInvalid (sig_of_der lib signature);
  guard_err (negb (ecdsa_verify lib key msg sig)) SignatureInvalid ;;
  let advanced := sign_count p >? sc_sign_count stored in
  guard_err (negb advanced && negb (sign_count p =? 0))
    (SignCountRegression (sign_count p) (sc_sign_count stored)) ;;
  Ok (mk_authenticated raw_id (sign_count p) advanced).
End Webauthn.
