(* ===== verification/WebauthnFacts.v ===== *)
(** * WebauthnFacts: what registration and authentication accept *)

From Stdlib Require Import Strings.Byte.
From stdpp Require Import prelude strings list.
From S2P Require Import Prelude Utf8 Std FrameFacts Cbor CborFacts Webauthn.

Lemma map_err_Ok {E F A} (f : E -> F) (m : res E A) a : map_err f m = Ok a <-> m = Ok a.
Proof. destruct m; cbn; naive_solver. Qed.

Lemma map_err_no_panic {E F A} (f : E -> F) (m : res E A) : m <> Panic -> map_err f m <> Panic.
Proof. by destruct m. Qed.

(** ** COSE keys *)

Lemma cose_entry_shrinks f b f' b' :
  cose_entry (f, b) = Ok (f', b') -> (length b' < length b)%nat.
Proof.
  unfold cose_entry. intros H. apply bind_Ok in H as ([key b1] & Hk & H).
  apply read_int_shrinks in Hk.
  repeat match type of H with (if ?c then _ else _) = _ => destruct c end; inv_res;
    repeat match goal with
    | H : read_int _ = Ok _ |- _ => apply read_int_shrinks in H
    | H : read_bytes _ = Ok _ |- _ => apply read_bytes_shrinks in H
    | H : skip_value _ = Ok _ |- _ => apply skip_value_shrinks in H
    end; lia.
Qed.

Lemma cose_entry_no_panic st : cose_entry st <> Panic.
Proof.
  destruct st as [f b]. unfold cose_entry. apply bind_no_panic; [apply read_int_no_panic|].
  intros [key b1] _. repeat case_match;
    (apply bind_no_panic; [first [apply read_int_no_panic|apply read_bytes_no_panic|apply skip_value_no_panic]|]);
    first [by intros [] | done].
Qed.

Lemma cose_check_no_panic f : cose_check f <> Panic.
Proof.
  unfold cose_check. repeat first [apply ok_or_no_panic | apply guard_err_no_panic
    | apply bind_no_panic; [|intros ? ?] | case_match | done].
Qed.

Lemma decode_es256_no_panic b : decode_es256 b <> Panic.
Proof.
  unfold decode_es256. apply bind_no_panic; [apply map_err_no_panic, read_map_header_no_panic|].
  intros [n buf] _. apply bind_no_panic; [|intros [f r] _; apply cose_check_no_panic].
  apply map_err_no_panic, (for_n_shrinking (fun st => length st.2)).
  - intros [f b1] [f' b2] H. by apply cose_entry_shrinks in H.
  - apply cose_entry_no_panic.
  - cbn. lia.
Qed.

Lemma cose_check_Ok f key :
  cose_check f = Ok key <->
  exists x y, key = x04 :: x ++ y /\ c_x f = Some x /\ c_y f = Some y /\ len x = 32 /\ len y = 32 /\
    c_kty f = Some EC2_KTY /\ c_crv f = Some P256_CRV /\ (c_alg f = None \/ c_alg f = Some ES256_ALG).
Proof.
  unfold cose_check. split.
  - intros H. destruct (c_alg f) as [a|]; inv_res; bool_to_prop; subst; eauto 12.
  - intros (x & y & -> & -> & -> & Lx & Ly & -> & -> & Ha). cbn [ok_or mbind res_bind].
    destruct Ha as [-> | ->]; cbn; by rewrite Lx, Ly.
Qed.

(** The key an authenticator sends, with its labels in canonical order. *)
Definition cose_key (x y : list byte) : list byte :=
  [byte_of 0xa5; byte_of 1; byte_of 2; byte_of 3; byte_of 0x26; byte_of 0x20; byte_of 1; byte_of 0x21;
   byte_of 0x58; byte_of 32] ++ x ++ [byte_of 0x22; byte_of 0x58; byte_of 32] ++ y.

Lemma for_n_more {E S} (body : S -> res E S) k k' n s r :
  for_n k n body s = Ok r -> (k <= k')%nat -> for_n k' n body s = Ok r.
Proof.
  revert k' n s. induction k as [|k IH]; intros [|k'] n s; cbn [for_n]; try lia; try done.
  - by destruct (n <=? 0).
  - destruct (n <=? 0); [done|]. rewrite !bind_Ok. intros (s' & Hs & H) L. exists s'.
    split; [done|]. apply IH; [done|lia].
Qed.

Lemma for_n_turn {E S} n n' k (body : S -> res E S) s :
  0 < n -> n' = n - 1 -> for_n (Datatypes.S k) n body s = body s ≫= for_n k n' body.
Proof. intros H ->. cbn [for_n]. by rewrite (proj2 (Z.leb_gt n 0)). Qed.

Lemma read_int_pos v rest : 0 <= v <= 23 -> read_int (byte_of v :: rest) = Ok (v, rest).
Proof.
  intros H. unfold read_int. change (byte_of v) with (byte_of (0 * 32 + v)). rewrite (read_head_small 0 v rest) by lia.
  cbn [mbind res_bind].
  change (0 =? MAJOR_UINT) with true. unfold try_i64, I64_MIN, I64_MAX.
  rewrite !(proj2 (Z.leb_le _ _)) by lia. done.
Qed.

Lemma read_int_neg v rest : 0 <= v <= 23 -> read_int (byte_of (32 + v) :: rest) = Ok (-1 - v, rest).
Proof.
  intros H. unfold read_int. change (byte_of (32 + v)) with (byte_of (1 * 32 + v)). rewrite (read_head_small 1 v rest) by lia.
  cbn [mbind res_bind].
  change (1 =? MAJOR_UINT) with false. change (1 =? MAJOR_NINT) with true.
  unfold try_i64, I64_MIN, I64_MAX. rewrite !(proj2 (Z.leb_le _ _)) by lia. done.
Qed.

Lemma head_byte_1 m n : 0 <= m < 8 -> 0 <= n < 256 -> head m n [byte_of (m * 32 + 24); byte_of n].
Proof.
  intros Hm Hn. pose proof (head_ext m n 0 Hm ltac:(lia) ltac:(cbn; lia)) as H. cbn in H.
  rewrite Z.add_0_r, Z.div_1_r in H. done.
Qed.

Lemma read_bytes_32 x rest :
  len x = 32 -> read_bytes (byte_of 0x58 :: byte_of 32 :: x ++ rest) = Ok (x, rest).
Proof.
  intros L. unfold read_bytes.
  rewrite (proj2 (read_head_Ok _ 2 32 (x ++ rest)))
    by (exists [byte_of 0x58; byte_of 32]; split; [done|by apply (head_byte_1 2)]).
  cbn [mbind res_bind guard_err negb Z.eqb MAJOR_BYTES Pos.eqb Z.gtb Z.compare MAX_STRING].
  by apply take_n_Ok.
Qed.

(** One label of the canonical key. *)
Lemma cose_entry_small key v f rest b1 b2 :
  read_int (b1 :: b2 :: rest) = Ok (key, b2 :: rest) -> read_int (b2 :: rest) = Ok (v, rest) ->
  cose_entry (f, b1 :: b2 :: rest) =
  if key =? 1 then Ok (mk_cose (Some v) (c_alg f) (c_crv f) (c_x f) (c_y f), rest)
  else if key =? 3 then Ok (mk_cose (c_kty f) (Some v) (c_crv f) (c_x f) (c_y f), rest)
  else if key =? -1 then Ok (mk_cose (c_kty f) (c_alg f) (Some v) (c_x f) (c_y f), rest)
  else cose_entry (f, b1 :: b2 :: rest).
Proof.
  intros H1 H2. unfold cose_entry at 1. rewrite H1. cbn [mbind res_bind].
  destruct (key =? 1) eqn:E1; [by rewrite H2|]. destruct (key =? 3) eqn:E2; [by rewrite H2|].
  destruct (key =? -1) eqn:E3; [by rewrite H2|].
  unfold cose_entry. rewrite H1. cbn [mbind res_bind]. by rewrite E1, E2, E3.
Qed.

Lemma cose_entry_x f x rest :
  len x = 32 -> cose_entry (f, byte_of 0x21 :: byte_of 0x58 :: byte_of 32 :: x ++ rest)
                = Ok (mk_cose (c_kty f) (c_alg f) (c_crv f) (Some x) (c_y f), rest).
Proof.
  intros L. unfold cose_entry. change (byte_of 0x21) with (byte_of (32 + 1)).
  rewrite read_int_neg by lia. cbn [mbind res_bind]. change (-1 - 1) with (-2). cbn [Z.eqb Pos.eqb].
  by rewrite read_bytes_32.
Qed.

Lemma cose_entry_y f y rest :
  len y = 32 -> cose_entry (f, byte_of 0x22 :: byte_of 0x58 :: byte_of 32 :: y ++ rest)
                = Ok (mk_cose (c_kty f) (c_alg f) (c_crv f) (c_x f) (Some y), rest).
Proof.
  intros L. unfold cose_entry. change (byte_of 0x22) with (byte_of (32 + 2)).
  rewrite read_int_neg by lia. cbn [mbind res_bind]. change (-1 - 2) with (-3). cbn [Z.eqb Pos.eqb].
  by rewrite read_bytes_32.
Qed.

Lemma decode_cose_key x y rest :
  len x = 32 -> len y = 32 -> decode_es256 (cose_key x y ++ rest) = Ok (x04 :: x ++ y).
Proof.
  intros Lx Ly. unfold cose_key, decode_es256. rewrite <- !app_assoc. cbn [app].
  unfold read_map_header.
  change (byte_of 0xa5) with (byte_of (5 * 32 + 5)). rewrite (read_head_small 5 5) by lia. cbn [mbind res_bind map_err].
  change (5 =? MAJOR_MAP) with true. cbn [negb guard_err mbind res_bind map_err].
  set (buf := byte_of 1 :: _).
  assert (L : (6 <= S (length buf))%nat) by (unfold buf; cbn; lia).
  enough (H : for_n 6 5 cose_entry (no_fields, buf)
      = Ok (mk_cose (Some 2) (Some (-7)) (Some 1) (Some x) (Some y), rest)).
  { rewrite (for_n_more _ _ _ _ _ _ H L). cbn [map_err mbind res_bind].
    apply cose_check_Ok. exists x, y. split_and!; try done. by right. }
  unfold buf. clear L buf. unfold no_fields.
  rewrite (for_n_turn 5 4), (cose_entry_small 1 2) by first [lia|apply read_int_pos; lia].
  cbn [Z.eqb Pos.eqb mbind res_bind c_kty c_alg c_crv c_x c_y].
  rewrite (for_n_turn 4 3), (cose_entry_small 3 (-7))
    by first [lia|apply read_int_pos; lia|apply (read_int_neg 6); lia].
  cbn [Z.eqb Pos.eqb mbind res_bind c_kty c_alg c_crv c_x c_y].
  rewrite (for_n_turn 3 2), (cose_entry_small (-1) 1)
    by first [lia|apply read_int_pos; lia|apply (read_int_neg 0); lia].
  cbn [Z.eqb Pos.eqb mbind res_bind c_kty c_alg c_crv c_x c_y].
  rewrite (for_n_turn 2 1), cose_entry_x by done. cbn [mbind res_bind c_kty c_alg c_crv c_x c_y].
  rewrite (for_n_turn 1 0), cose_entry_y by done. done.
Qed.

Lemma item_small d m v b :
  b = byte_of (m * 32 + v) -> m = MAJOR_UINT \/ m = MAJOR_NINT -> 0 <= v <= 23 -> item (S d) [b].
Proof.
  intros -> Hm Hv. exists m, v, [byte_of (m * 32 + v)], []. split; [done|].
  split; [apply head_small; [destruct Hm as [-> | ->]; done|done]|]. by left.
Qed.

Lemma item_bytes_32 d x : len x = 32 -> item (S d) (byte_of 0x58 :: byte_of 32 :: x).
Proof.
  intros L. exists MAJOR_BYTES, 32, [byte_of 0x58; byte_of 32], x. split; [done|].
  split; [by apply (head_byte_1 2)|]. right. left. split; [by left|]. unfold MAX_STRING. lia.
Qed.

Lemma skip_cose_key x y rest :
  len x = 32 -> len y = 32 -> skip_value (cose_key x y ++ rest) = Ok rest.
Proof.
  intros Lx Ly. apply skip_value_Ok. exists (cose_key x y). split; [done|].
  change (Z.to_nat (MAX_NESTING + 1)) with 7%nat.
  assert (P : forall k v, item 6 k -> item 6 v -> pair_of (item 6) (k ++ v)) by (intros k v; by exists k, v).
  exists MAJOR_MAP, 5, [byte_of 0xa5],
    (([byte_of 1] ++ [byte_of 2]) ++ ([byte_of 3] ++ [byte_of 0x26]) ++ ([byte_of 0x20] ++ [byte_of 1]) ++
     ([byte_of 0x21] ++ byte_of 0x58 :: byte_of 32 :: x) ++
     ([byte_of 0x22] ++ byte_of 0x58 :: byte_of 32 :: y) ++ []).
  split; [unfold cose_key; by rewrite app_nil_r, <- !app_assoc|].
  split; [by apply (head_small 5 5)|]. right. right. right. split; [done|].
  change 5 with (1 + (1 + (1 + (1 + (1 + 0))))).
  repeat (apply reps_cons; [lia|apply P|]); try apply reps_nil; try (by apply item_bytes_32).
  - by apply (item_small 5 0 1); [|left|].
  - by apply (item_small 5 0 2); [|left|].
  - by apply (item_small 5 0 3); [|left|].
  - by apply (item_small 5 1 6); [|right|].
  - by apply (item_small 5 1 0); [|right|].
  - by apply (item_small 5 0 1); [|left|].
  - by apply (item_small 5 1 1); [|right|].
  - by apply (item_small 5 1 2); [|right|].
Qed.

(** ** Authenticator data *)

Definition prefix_bytes (p : AuthDataPrefix) : list byte :=
  rp_id_hash p ++ byte_of (flags p) :: be_enc 4 (sign_count p).

Definition prefix_wf (p : AuthDataPrefix) : Prop :=
  len (rp_id_hash p) = 32 /\ u8 (flags p) /\ u32 (sign_count p).

Lemma slice_split {E A} (l s : list A) n :
  slice (E:=E) l 0 n = Ok s -> exists rest, l = s ++ rest /\ length s = n.
Proof.
  intros [? ->]%slice_Ok. exists (drop n l). rewrite Nat.sub_0_r, drop_0, take_drop, length_take.
  split; [done|lia].
Qed.

Lemma prefix_len p : prefix_wf p -> length (prefix_bytes p) = 37%nat.
Proof. intros (L & _). unfold prefix_bytes. autorewrite with term_len. unfold len in L. lia. Qed.

Lemma parse_prefix_Ok d p :
  parse_prefix d = Ok p <-> prefix_wf p /\ exists rest, d = prefix_bytes p ++ rest.
Proof.
  unfold parse_prefix, AD_HEADER_LEN. split.
  - intros H. inv_res. bool_to_prop.
    match goal with H : slice _ _ _ = Ok _ |- _ => apply slice_split in H as (r & -> & Lh) end.
    match goal with H : rd _ _ = Ok _ |- _ => rewrite rd_skip in H by lia; rewrite Lh in H;
      apply rd_split in H as (r' & ->) end.
    match goal with H : be_at _ _ _ = Ok _ |- _ => rewrite be_at_skip in H by lia; rewrite Lh in H;
      change (33 - 32)%nat with 1%nat in H; rewrite be_at_cons in H by lia;
      apply be_at_split in H as (r2 & -> & ?); [|lia] end.
    split; [split; [unfold len; cbn; lia|split; [apply byte_u8|done]]|]. exists r2.
    unfold prefix_bytes. cbn [rp_id_hash flags sign_count]. rewrite byte_of_val. by rewrite <- app_assoc.
  - intros (W & rest & ->). pose proof (prefix_len p W) as L37. destruct W as (L & Hf & Hn).
    rewrite guard_pass by (bool_goal; rewrite len_app; unfold len in *; lia). cbn [mbind res_bind].
    unfold prefix_bytes. rewrite <- app_assoc. unfold len in L.
    rewrite slice_prefix by lia. cbn [mbind res_bind].
    rewrite rd_skip by lia. replace (32 - length (rp_id_hash p))%nat with 0%nat by lia.
    cbn [app]. rewrite rd_here. cbn [mbind res_bind].
    rewrite be_at_skip by lia. replace (33 - length (rp_id_hash p))%nat with 1%nat by lia.
    rewrite be_at_cons, be_at_here by (lia || auto with term). cbn [mbind res_bind].
    rewrite byte_val_of_small by done. by destruct p.
Qed.

Lemma parse_prefix_no_panic d : parse_prefix d <> Panic.
Proof. unfold parse_prefix, AD_HEADER_LEN. no_panic. Qed.

Definition attested_bytes (a : AttestedCredentialData) (rest : list byte) : list byte :=
  prefix_bytes (prefix a) ++ aaguid a ++ be_enc 2 (len (credential_id a)) ++ credential_id a ++ rest.

Lemma parse_attested_Ok d a :
  parse_attested d = Ok a <->
  prefix_wf (prefix a) /\ attested_cred_data (prefix a) = true /\ len (aaguid a) = 16 /\
  len (credential_id a) <= 1023 /\
  exists rest after, d = attested_bytes a rest /\
    decode_es256 rest = Ok (credential_public_key a) /\ skip_value rest = Ok after.
Proof.
  unfold parse_attested. change (Z.to_nat AD_HEADER_LEN) with 37%nat. split.
  - intros H. apply bind_Ok in H as (p & Hp & H). apply parse_prefix_Ok in Hp as (W & r & ->).
    pose proof (prefix_len p W) as L37. apply bind_Ok in H as ([] & Hat & H).
    apply guard_err_Ok in Hat. bool_to_prop.
    rewrite slice_from_skip in H by lia. rewrite L37, Nat.sub_diag, slice_from_0 in H.
    cbn [mbind res_bind] in H. apply bind_Ok in H as ([] & Hs & H). apply bind_Ok in H as (g & Hg & H).
    apply slice_split in Hg as (r1 & -> & Lg). apply bind_Ok in H as (n & Hn & H).
    rewrite be_at_skip in Hn by lia. rewrite Lg in Hn. apply be_at_split in Hn as (r2 & -> & Bn); [|lia].
    inv_res. rewrite ?Z.gtb_ltb in *. bool_to_prop.
    repeat match goal with H : slice_from (g ++ _) _ = Ok _ |- _ =>
      rewrite slice_from_skip in H by lia; rewrite Lg in H;
      rewrite slice_from_skip in H by (rewrite length_be_enc; lia); rewrite length_be_enc in H;
      change (18 - 16 - 2)%nat with 0%nat in H; rewrite slice_from_0 in H; injection H as <- end.
    match goal with H : slice r2 _ _ = Ok _ |- _ => apply slice_split in H as (r3 & -> & Lc) end.
    match goal with H : slice_from (_ ++ r3) _ = Ok _ |- _ => rewrite slice_from_skip in H by lia;
      rewrite Lc, Nat.sub_diag, slice_from_0 in H; injection H as <- end.
    repeat match goal with H : map_err _ _ = Ok _ |- _ => apply map_err_Ok in H end.
    cbn [prefix aaguid credential_id credential_public_key].
    split; [done|]. split; [done|]. split; [unfold len; lia|].
    match goal with |- len ?c <= _ /\ _ => assert (Ec : len c = n) by (unfold len; lia) end.
    split; [lia|]. eexists _, _. split; [|done].
    unfold attested_bytes. cbn [prefix aaguid credential_id]. by rewrite Ec.
  - intros (W & At & Lg & Lc & rest & after & -> & Hk & Hs). pose proof (prefix_len _ W) as L37.
    unfold attested_bytes. set (c := credential_id a) in *. set (g := aaguid a) in *.
    pose proof (len_nonneg c).
    rewrite (proj2 (parse_prefix_Ok _ (prefix a))) by (split; [done|by eexists]). cbn [mbind res_bind].
    rewrite At. cbn [negb guard_err mbind res_bind].
    rewrite slice_from_skip by lia. rewrite L37, Nat.sub_diag, slice_from_0. cbn [mbind res_bind].
    rewrite guard_pass by (bool_goal; unfold len in *; autorewrite with term_len; lia). cbn [mbind res_bind].
    unfold len in Lg. rewrite slice_prefix by lia. cbn [mbind res_bind].
    rewrite be_at_skip by lia. replace (16 - length g)%nat with 0%nat by lia.
    rewrite be_at_here by (cbn; lia). cbn [mbind res_bind].
    rewrite guard_pass by (bool_goal; lia). cbn [mbind res_bind].
    rewrite slice_from_skip by lia. rewrite slice_from_skip by (rewrite length_be_enc; lia).
    rewrite length_be_enc. replace (18 - length g - 2)%nat with 0%nat by lia.
    rewrite slice_from_0. cbn [mbind res_bind].
    rewrite guard_pass by (bool_goal; unfold len in *; autorewrite with term_len; lia). cbn [mbind res_bind].
    unfold len in *. rewrite Nat2Z.id. rewrite slice_prefix by done. cbn [mbind res_bind].
    rewrite slice_from_skip by lia. rewrite Nat.sub_diag, slice_from_0. cbn [mbind res_bind].
    rewrite Hk, Hs. cbn. by destruct a.
Qed.

Lemma parse_attested_no_panic d : parse_attested d <> Panic.
Proof.
  unfold parse_attested. change (Z.to_nat AD_HEADER_LEN) with 37%nat.
  apply bind_no_panic; [apply parse_prefix_no_panic|]. intros p Hp.
  unfold parse_prefix, AD_HEADER_LEN in Hp. apply bind_Ok in Hp as ([] & Hl & _).
  apply guard_err_Ok in Hl. bool_to_prop.
  apply bind_no_panic; [apply guard_err_no_panic|]. intros _ _.
  apply bind_no_panic; [apply slice_from_no_panic; unfold len in *; lia|]. intros buf Hb.
  apply slice_from_Ok in Hb as [_ Hb].
  apply bind_no_panic; [apply guard_err_no_panic|]. intros [] Hg. apply guard_err_Ok in Hg.
  bool_to_prop. unfold len in *.
  apply bind_no_panic; [apply slice_no_panic; lia|]. intros g _.
  apply bind_no_panic; [apply be_at_no_panic; lia|]. intros n Hn.
  apply be_at_Ok in Hn as (_ & _ & Bn); [|lia].
  apply bind_no_panic; [apply guard_err_no_panic|]. intros _ _.
  apply bind_no_panic; [apply slice_from_no_panic; lia|]. intros b2 _.
  apply bind_no_panic; [apply guard_err_no_panic|]. intros [] Hc. apply guard_err_Ok in Hc. bool_to_prop.
  apply bind_no_panic; [apply slice_no_panic; unfold len in *; lia|]. intros c _.
  apply bind_no_panic; [apply slice_from_no_panic; unfold len in *; lia|]. intros b3 _.
  apply bind_no_panic; [apply map_err_no_panic, decode_es256_no_panic|]. intros k _.
  apply bind_no_panic; [apply map_err_no_panic, skip_value_no_panic|]. done.
Qed.

(** ** Attestation objects *)

Lemma att_entry_shrinks ad b ad' b' :
  att_entry (ad, b) = Ok (ad', b') -> (length b' < length b)%nat.
Proof.
  unfold att_entry. intros H. apply bind_Ok in H as ([key b1] & Hk & H).
  apply read_text_shrinks in Hk. case_bool_decide; inv_res;
    repeat match goal with
    | H : read_bytes _ = Ok _ |- _ => apply read_bytes_shrinks in H
    | H : skip_value _ = Ok _ |- _ => apply skip_value_shrinks in H
    end; lia.
Qed.

Lemma att_entry_no_panic st : att_entry st <> Panic.
Proof.
  destruct st as [ad b]. unfold att_entry. apply bind_no_panic; [apply read_text_no_panic|].
  intros [key b1] _. case_bool_decide;
    (apply bind_no_panic; [first [apply read_bytes_no_panic|apply skip_value_no_panic]|]);
    first [by intros [] | done].
Qed.

Lemma extract_auth_data_no_panic b : extract_auth_data b <> Panic.
Proof.
  unfold extract_auth_data. apply bind_no_panic; [apply map_err_no_panic, read_map_header_no_panic|].
  intros [n buf] _. apply bind_no_panic; [|intros [ad r] _; apply ok_or_no_panic].
  apply map_err_no_panic, (for_n_shrinking (fun st => length st.2)).
  - intros [f b1] [f' b2] H. by apply att_entry_shrinks in H.
  - apply att_entry_no_panic.
  - cbn. lia.
Qed.

(** What an authenticator sends: [{"fmt": "none", "attStmt": {}, "authData": ad}]. *)
Definition att_text (s : list byte) : list byte := byte_of (96 + len s) :: s.
Definition att_object (ad : list byte) : list byte :=
  byte_of 0xa3 :: att_text (lit "fmt") ++ att_text (lit "none") ++
  att_text (lit "attStmt") ++ byte_of 0xa0 :: att_text (lit "authData") ++
  byte_of 0x59 :: be_enc 2 (len ad) ++ ad.

Lemma read_text_small s rest :
  len s <= 23 -> utf8_valid s = true -> read_text (att_text s ++ rest) = Ok (s, rest).
Proof.
  intros L U. pose proof (len_nonneg s). unfold read_text, att_text. cbn [app].
  change 96 with (3 * 32). rewrite read_head_small by lia.
  cbn [mbind res_bind]. change (3 =? MAJOR_TEXT) with true. cbn [negb guard_err mbind res_bind].
  rewrite guard_pass by (unfold MAX_STRING; rewrite Z.gtb_ltb; bool_goal; lia). cbn [mbind res_bind].
  rewrite (proj2 (take_n_Ok (s ++ rest) (len s) s rest ltac:(lia))) by done. cbn [mbind res_bind].
  by rewrite from_utf8_valid.
Qed.

Lemma read_bytes_16 x rest :
  len x <= 65535 -> read_bytes (byte_of 0x59 :: be_enc 2 (len x) ++ x ++ rest) = Ok (x, rest).
Proof.
  intros L. pose proof (len_nonneg x). unfold read_bytes.
  rewrite (proj2 (read_head_Ok _ 2 (len x) (x ++ rest)))
    by (exists (byte_of 0x59 :: be_enc 2 (len x)); split; [done|];
        apply (head_ext 2 (len x) 1); cbn; lia).
  cbn [mbind res_bind]. change (2 =? MAJOR_BYTES) with true. cbn [negb guard_err mbind res_bind].
  rewrite guard_pass by (unfold MAX_STRING; rewrite Z.gtb_ltb; bool_goal; lia). cbn [mbind res_bind].
  by apply take_n_Ok.
Qed.

Lemma skip_empty_map rest : skip_value (byte_of 0xa0 :: rest) = Ok rest.
Proof.
  apply skip_value_Ok. exists [byte_of 0xa0]. split; [done|].
  exists MAJOR_MAP, 0, [byte_of 0xa0], []. split; [done|]. split; [by apply (head_small 5 0)|].
  right. right. right. split; [done|]. constructor.
Qed.

Lemma skip_text s rest : len s <= 23 -> skip_value (att_text s ++ rest) = Ok rest.
Proof.
  intros L. pose proof (len_nonneg s). apply skip_value_Ok. exists (att_text s). split; [done|].
  exists MAJOR_TEXT, (len s), [byte_of (96 + len s)], s. split; [done|].
  split; [apply (head_small 3); lia|]. right. left. split; [by right|].
  split; [unfold MAX_STRING; lia|done].
Qed.

(** One skipped entry of the attestation object. *)
Lemma att_entry_other key ad rest after :
  len key <= 23 -> utf8_valid key = true -> key <> lit "authData" -> skip_value rest = Ok after ->
  att_entry (ad, att_text key ++ rest) = Ok (ad, after).
Proof.
  intros L U K H. unfold att_entry. rewrite read_text_small by done. cbn [mbind res_bind].
  rewrite bool_decide_false by done. by rewrite H.
Qed.

Lemma att_entry_data o ad rest :
  len ad <= 65535 ->
  att_entry (o, att_text (lit "authData") ++ byte_of 0x59 :: be_enc 2 (len ad) ++ ad ++ rest) = Ok (Some ad, rest).
Proof.
  intros L. unfold att_entry. rewrite read_text_small by (vm_compute; congruence). cbn [mbind res_bind].
  rewrite bool_decide_true by done. by rewrite read_bytes_16.
Qed.

Lemma extract_att_object ad rest :
  len ad <= 65535 -> extract_auth_data (att_object ad ++ rest) = Ok ad.
Proof.
  intros L. unfold att_object, extract_auth_data, read_map_header.
  repeat (rewrite <- app_assoc || cbn [app]).
  change (byte_of 0xa3) with (byte_of (5 * 32 + 3)). rewrite (read_head_small 5 3) by lia.
  cbn [mbind res_bind map_err]. change (5 =? MAJOR_MAP) with true.
  cbn [negb guard_err mbind res_bind map_err].
  set (buf := att_text (lit "fmt") ++ _).
  assert (Lb : (4 <= S (length buf))%nat) by (unfold buf; cbn; lia).
  enough (H : for_n 4 3 att_entry (None, buf) = Ok (Some ad, rest)).
  { rewrite (for_n_more _ _ _ _ _ _ H Lb). done. }
  unfold buf. clear Lb buf.
  rewrite (for_n_turn 3 2) by lia.
  rewrite (att_entry_other (lit "fmt") _ _ (att_text (lit "attStmt") ++
    byte_of 0xa0 :: att_text (lit "authData") ++ byte_of 0x59 :: be_enc 2 (len ad) ++ ad ++ rest))
    by (first [by apply skip_text | vm_compute; congruence]).
  cbn [mbind res_bind].
  rewrite (for_n_turn 2 1) by lia.
  rewrite (att_entry_other (lit "attStmt") _ _ (att_text (lit "authData") ++
     byte_of 0x59 :: be_enc 2 (len ad) ++ ad ++ rest))
    by (first [apply skip_empty_map | vm_compute; congruence]).
  cbn [mbind res_bind]. rewrite (for_n_turn 1 0) by lia.
  by rewrite att_entry_data.
Qed.

(** ** The ceremonies *)

Lemma constant_time_eq_spec a b : constant_time_eq a b = true <-> a = b.
Proof.
  unfold constant_time_eq. case_bool_decide as L; cbn [negb].
  - rewrite Z.eqb_eq, ct_fold by done. naive_solver.
  - split; [done|]. by intros ->.
Qed.

Lemma string_field_Ok get f v : string_field get f = Ok v <-> get f = Some (Some v).
Proof. unfold string_field. destruct (get f) as [[w|]|]; cbn; naive_solver. Qed.

Lemma guard_dec_Ok {E} (P : Prop) `{Decision P} (e : E) :
  guard_err (negb (bool_decide P)) e = Ok tt <-> P.
Proof. case_bool_decide; cbn; naive_solver. Qed.

Section Ceremonies.
Context (lib : Crypto).
Hypothesis sha256_len : forall m, len (sha256 lib m) = 32.

(** The client data is a JSON object with these three members. *)
Definition client_data_ok (cd ty challenge origin : list byte) : Prop :=
  exists get, json_view lib cd = Object get /\
    get (lit "type") = Some (Some ty) /\
    get (lit "challenge") = Some (Some (b64_encode lib challenge)) /\
    get (lit "origin") = Some (Some origin).

Lemma validate_Ok cd ty challenge origin :
  validate lib cd ty (b64_encode lib challenge) origin = Ok tt <->
  client_data_ok cd ty challenge origin.
Proof.
  unfold validate, client_data_ok. destruct (json_view lib cd) as [| |get]; [naive_solver..|].
  rewrite bind_Ok. setoid_rewrite string_field_Ok. split.
  - intros (t & Ht & H). apply bind_Ok in H as ([] & Hg & H). apply guard_dec_Ok in Hg. subst t.
    apply bind_Ok in H as (c & Hc & H). apply string_field_Ok in Hc.
    apply bind_Ok in H as ([] & Hg & H). apply guard_err_Ok in Hg. apply negb_false_iff in Hg.
    apply constant_time_eq_spec in Hg. subst c.
    apply bind_Ok in H as (o & Ho & H). apply string_field_Ok in Ho. apply guard_dec_Ok in H. subst o.
    by exists get.
  - intros (g & [= <-] & Ht & Hc & Ho). exists ty. split; [done|]. rewrite bool_decide_true by done.
    cbn [negb guard_err mbind res_bind]. rewrite (proj2 (string_field_Ok _ _ _) Hc). cbn [mbind res_bind].
    rewrite (proj2 (constant_time_eq_spec _ _)) by done. cbn [negb guard_err mbind res_bind].
    rewrite (proj2 (string_field_Ok _ _ _) Ho). cbn [mbind res_bind]. by apply guard_dec_Ok.
Qed.

Lemma check_rp_Ok got rp :
  len got = 32 -> check_rp_id_hash lib got rp = Ok tt <-> got = sha256 lib rp.
Proof.
  intros L. unfold check_rp_id_hash. rewrite guard_err_Ok, negb_false_iff, Z.eqb_eq, ct_fold.
  - naive_solver.
  - pose proof (sha256_len rp). unfold len in *. lia.
Qed.

Lemma b64u_Ok s f v : b64u lib s f = Ok v <-> b64_decode lib s = Some v.
Proof. unfold b64u. destruct (b64_decode lib s); cbn; naive_solver. Qed.

(** What makes an assertion acceptable. *)
Definition assertion_ok (r : AuthenticationResponse) (challenge rp_id origin : list byte)
    (find_credential : list byte -> option StoredCredentialView) (a : AuthenticatedCredential) : Prop :=
  exists cd ad sig_bytes p rest stored key sig,
    au_ty r = lit "public-key" /\
    b64_decode lib (au_raw_id r) = Some (ac_credential_id a) /\
    b64_decode lib (au_client_data_json r) = Some cd /\
    b64_decode lib (au_authenticator_data r) = Some ad /\
    b64_decode lib (au_signature r) = Some sig_bytes /\
    client_data_ok cd TYPE_GET challenge origin /\
    ad = prefix_bytes p ++ rest /\ prefix_wf p /\
    rp_id_hash p = sha256 lib rp_id /\ user_present p = true /\
    find_credential (ac_credential_id a) = Some stored /\
    key_of_sec1 lib (sc_public_key stored) = Some key /\
    sig_of_der lib sig_bytes = Some sig /\
    ecdsa_verify lib key (ad ++ sha256 lib cd) sig = true /\
    (sign_count p > sc_sign_count stored \/ sign_count p = 0) /\
    ac_new_sign_count a = sign_count p /\
    ac_sign_count_advanced a = (sign_count p >? sc_sign_count stored).

(** What makes a registration acceptable. *)
Definition registration_ok (r : RegistrationResponse) (challenge rp_id origin : list byte)
    (c : RegisteredCredential) : Prop :=
  exists cd att ad a,
    reg_ty r = lit "public-key" /\
    b64_decode lib (reg_client_data_json r) = Some cd /\
    b64_decode lib (reg_attestation_object r) = Some att /\
    client_data_ok cd TYPE_CREATE challenge origin /\
    extract_auth_data att = Ok ad /\ parse_attested ad = Ok a /\
    rp_id_hash (prefix a) = sha256 lib rp_id /\ user_present (prefix a) = true /\
    c = mk_registered (credential_id a) (credential_public_key a) (sign_count (prefix a)).

Lemma finish_register_accepts r challenge rp_id origin c :
  finish_register lib r challenge rp_id origin = Ok c <-> registration_ok r challenge rp_id origin c.
Proof.
  unfold finish_register, registration_ok. split.
  - intros H. apply bind_Ok in H as ([] & Ht & H). apply guard_dec_Ok in Ht.
    apply bind_Ok in H as (cd & Hcd & H). apply b64u_Ok in Hcd.
    apply bind_Ok in H as ([] & Hv & H). apply map_err_Ok, validate_Ok in Hv.
    apply bind_Ok in H as (att & Hatt & H). apply b64u_Ok in Hatt.
    apply bind_Ok in H as (ad & Had & H). apply bind_Ok in H as (a & Ha & H). apply map_err_Ok in Ha.
    apply bind_Ok in H as ([] & Hr & H).
    apply check_rp_Ok in Hr; [|by apply parse_attested_Ok in Ha as ((L & _) & _)].
    apply bind_Ok in H as ([] & Hu & [= <-]). apply guard_err_Ok, negb_false_iff in Hu.
    by exists cd, att, ad, a.
  - intros (cd & att & ad & a & -> & Hcd & Hatt & Hv & Had & Ha & Hr & Hu & ->).
    rewrite bool_decide_true by done. cbn [negb guard_err mbind res_bind].
    rewrite (proj2 (b64u_Ok _ _ _) Hcd). cbn [mbind res_bind].
    rewrite (proj2 (validate_Ok _ _ _ _) Hv). cbn [map_err mbind res_bind].
    rewrite (proj2 (b64u_Ok _ _ _) Hatt). cbn [mbind res_bind]. rewrite Had. cbn [mbind res_bind].
    rewrite Ha. cbn [map_err mbind res_bind].
    rewrite (proj2 (check_rp_Ok _ _ ltac:(apply parse_attested_Ok in Ha as ((L & _) & _); done)) Hr).
    cbn [mbind res_bind]. by rewrite Hu.
Qed.

(** Whatever a client sends, no index is out of range and no loop outruns its
    input. *)
Lemma validate_no_panic cd ty ch o : map_err WClientData (validate lib cd ty ch o) <> Panic.
Proof. apply map_err_no_panic. unfold validate, string_field. case_match; try done. no_panic. Qed.

Lemma finish_register_no_panic r challenge rp_id origin : finish_register lib r challenge rp_id origin <> Panic.
Proof.
  unfold finish_register, b64u, check_rp_id_hash.
  repeat first [apply validate_no_panic | apply ok_or_no_panic | apply guard_err_no_panic
    | apply extract_auth_data_no_panic | apply map_err_no_panic, parse_attested_no_panic
    | apply bind_no_panic; [|intros ? ?] | done].
Qed.

Lemma finish_authenticate_no_panic r challenge rp_id origin find :
  finish_authenticate lib r challenge rp_id origin find <> Panic.
Proof.
  unfold finish_authenticate, b64u, check_rp_id_hash.
  repeat first [apply validate_no_panic | apply ok_or_no_panic | apply guard_err_no_panic
    | apply map_err_no_panic, parse_prefix_no_panic | apply bind_no_panic; [|intros ? ?] | done].
Qed.

(** Registration accepts a response if and only if: its type is
    "public-key"; its client data is a JSON object of type "webauthn.create"
    with this challenge and this origin; its attestation object contains
    authenticator data that parses, was made for this relying party and has
    the user-present flag.  What is stored is the credential id, the public
    key and the counter of that authenticator data.  Any other response is an
    error, never a panic. *)
Lemma finish_register_exact r challenge rp_id origin c :
  (finish_register lib r challenge rp_id origin = Ok c <-> registration_ok r challenge rp_id origin c) /\
  finish_register lib r challenge rp_id origin <> Panic.
Proof. split; [apply finish_register_accepts|apply finish_register_no_panic]. Qed.

Lemma finish_authenticate_accepts r challenge rp_id origin find a :
  finish_authenticate lib r challenge rp_id origin find = Ok a <->
  assertion_ok r challenge rp_id origin find a.
Proof.
  unfold finish_authenticate, assertion_ok. split.
  - intros H. apply bind_Ok in H as ([] & Ht & H). apply guard_dec_Ok in Ht.
    apply bind_Ok in H as (id & Hid & H). apply b64u_Ok in Hid.
    apply bind_Ok in H as (cd & Hcd & H). apply b64u_Ok in Hcd.
    apply bind_Ok in H as ([] & Hv & H). apply map_err_Ok, validate_Ok in Hv.
    apply bind_Ok in H as (ad & Had & H). apply b64u_Ok in Had.
    apply bind_Ok in H as (sb & Hsb & H). apply b64u_Ok in Hsb.
    apply bind_Ok in H as (p & Hp & H). apply map_err_Ok, parse_prefix_Ok in Hp as (W & rest & E).
    apply bind_Ok in H as ([] & Hr & H). apply check_rp_Ok in Hr; [|apply W].
    apply bind_Ok in H as ([] & Hu & H). apply guard_err_Ok, negb_false_iff in Hu.
    apply bind_Ok in H as (st & Hst & H). apply ok_or_Ok in Hst.
    apply bind_Ok in H as (key & Hk & H). apply ok_or_Ok in Hk.
    apply bind_Ok in H as (sg & Hs & H). apply ok_or_Ok in Hs.
    apply bind_Ok in H as ([] & Hver & H). apply guard_err_Ok, negb_false_iff in Hver.
    apply bind_Ok in H as ([] & Hc & [= <-]). apply guard_err_Ok in Hc.
    exists cd, ad, sb, p, rest, st, key, sg. split_and!; try done.
    destruct (sign_count p >? sc_sign_count st) eqn:E1; [left; rewrite Z.gtb_ltb in E1; bool_to_prop; lia|].
    right. cbn in Hc. bool_to_prop. done.
  - intros (cd & ad & sb & p & rest & st & key & sg & -> & Hid & Hcd & Had & Hsb & Hv & E & W & Hr & Hu &
      Hst & Hk & Hs & Hver & Hc & En & Ea). destruct a as [id n adv]. cbn in *. subst n adv.
    rewrite bool_decide_true by done. cbn [negb guard_err mbind res_bind].
    rewrite (proj2 (b64u_Ok _ _ _) Hid). cbn [mbind res_bind].
    rewrite (proj2 (b64u_Ok _ _ _) Hcd). cbn [mbind res_bind].
    rewrite (proj2 (validate_Ok _ _ _ _) Hv). cbn [map_err mbind res_bind].
    rewrite (proj2 (b64u_Ok _ _ _) Had). cbn [mbind res_bind].
    rewrite (proj2 (b64u_Ok _ _ _) Hsb). cbn [mbind res_bind].
    rewrite (proj2 (parse_prefix_Ok _ p)) by (split; [done|by exists rest]). cbn [map_err mbind res_bind].
    rewrite (proj2 (check_rp_Ok _ _ (proj1 W)) Hr). cbn [mbind res_bind]. rewrite Hu, Hst.
    cbn [negb guard_err ok_or mbind res_bind]. rewrite Hk, Hs. cbn [ok_or mbind res_bind]. rewrite Hver.
    cbn [negb guard_err mbind res_bind].
    rewrite guard_pass; [done|]. destruct Hc as [Hc| ->]; [|apply andb_false_r].
    rewrite Z.gtb_ltb, (proj2 (Z.ltb_lt _ _)) by lia. done.
Qed.

(** [C9] Authentication accepts an assertion if and only if: its type is
    "public-key"; its client data is a JSON object of type "webauthn.get"
    with this challenge and this origin; its authenticator data was made for
    this relying party and has the user-present flag; its credential is
    stored; its signature over authenticator data and client data hash
    verifies under the stored key; and its counter is above the stored one,
    or is 0.  In particular an assertion with counter 0 passes even when the
    stored counter is positive.  Any other response is an error, never a
    panic. *)
Theorem finish_authenticate_exact r challenge rp_id origin find a :
  (finish_authenticate lib r challenge rp_id origin find = Ok a <->
   assertion_ok r challenge rp_id origin find a) /\
  finish_authenticate lib r challenge rp_id origin find <> Panic.
Proof. split; [apply finish_authenticate_accepts|apply finish_authenticate_no_panic]. Qed.

(** An assertion that was accepted with a positive counter is not accepted
    again once the counter it carried has been stored for its credential: the
    same response is refused whatever challenge, relying party and origin
    it is checked against, and however often the store moved on. *)
Lemma replay_refused r challenge rp_id origin find a :
  finish_authenticate lib r challenge rp_id origin find = Ok a ->
  0 < ac_new_sign_count a ->
  forall challenge' rp_id' origin' find' stored' a',
    find' (ac_credential_id a) = Some stored' ->
    ac_new_sign_count a <= sc_sign_count stored' ->
    finish_authenticate lib r challenge' rp_id' origin' find' <> Ok a'.
Proof.
  intros H Hpos ch' rp' o' find' st' a' Hf Hle H'.
  apply finish_authenticate_accepts in H as
    (cd & ad & sb & p & rest & st & key & sg & _ & Hid & _ & Had & _ & _ & E & W & _ & _ & _ & _ & _ & _ & _ & En & _).
  apply finish_authenticate_accepts in H' as
    (cd' & ad' & sb' & p' & rest' & st2 & key' & sg' & _ & Hid' & _ & Had' & _ & _ & E' & W' & _ & _ & Hst & _ & _ & _ & Hc & _).
  assert (ad' = ad) as -> by congruence. rewrite Hid in Hid'. injection Hid' as Eid. rewrite <- Eid in Hst.
  assert (Ok p = Ok p' :> res AuthDataError _) as [= <-].
  { rewrite <- (proj2 (parse_prefix_Ok ad p)) by eauto. by apply parse_prefix_Ok; eauto. }
  rewrite Hf in Hst. injection Hst as <-. lia.
Qed.

(** ** An honest authenticator *)

Section Honest.
Variables (x y cred_id guid rp_id : list byte) (count : Z).

Definition honest_attested : AttestedCredentialData :=
  mk_attested (mk_prefix (sha256 lib rp_id) (FLAG_UP + FLAG_AT) count) guid cred_id (x04 :: x ++ y).

(** Its answer to a registration, and to a login with counter [n]. *)
Definition honest_registration (cd : list byte) : RegistrationResponse :=
  mk_registration (lit "public-key") (b64_encode lib cd)
    (b64_encode lib (att_object (attested_bytes honest_attested (cose_key x y)))).
Definition honest_auth_data (n : Z) : list byte :=
  prefix_bytes (mk_prefix (sha256 lib rp_id) FLAG_UP n).
Definition honest_assertion (cd sig_bytes : list byte) (n : Z) : AuthenticationResponse :=
  mk_authentication (lit "public-key") (b64_encode lib cred_id) (b64_encode lib cd)
    (b64_encode lib (honest_auth_data n)) (b64_encode lib sig_bytes).

(** Looking up the one registered credential. *)
Definition find_registered (c : RegisteredCredential) (id : list byte) : option StoredCredentialView :=
  if bool_decide (id = rc_credential_id c) then Some (mk_stored (rc_public_key c) (rc_sign_count c)) else None.

Lemma honest_parses :
  len x = 32 -> len y = 32 -> len guid = 16 -> len cred_id <= 1023 -> u32 count ->
  parse_attested (attested_bytes honest_attested (cose_key x y)) = Ok honest_attested.
Proof.
  intros Lx Ly Lg Lc Hn. apply parse_attested_Ok.
  split; [split; [apply sha256_len|split; [by vm_compute|done]]|]. split; [done|]. split; [done|]. split; [done|].
  exists (cose_key x y), []. split; [done|]. rewrite <- (app_nil_r (cose_key x y)).
  split; [by apply decode_cose_key|by apply skip_cose_key].
Qed.

Lemma honest_short :
  len x = 32 -> len y = 32 -> len guid = 16 -> len cred_id <= 1023 -> u32 count ->
  len (attested_bytes honest_attested (cose_key x y)) <= 65535.
Proof.
  intros Lx Ly Lg Lc Hn. unfold attested_bytes, cose_key. cbn [prefix aaguid credential_id honest_attested].
  pose proof (prefix_len (mk_prefix (sha256 lib rp_id) (FLAG_UP + FLAG_AT) count)
    ltac:(split; [apply sha256_len|split; [by vm_compute|done]])) as L37.
  unfold len in *. rewrite !length_app, L37, length_be_enc. cbn. rewrite ?length_app. cbn. lia.
Qed.
End Honest.
(** A passkey that was registered logs in: the registration answer of an
    honest ES256 authenticator is accepted, yields its credential id, its
    SEC1 key and its counter, and with that credential stored its assertion
    is accepted when its signature verifies under the registered key and its
    counter moved on (or it has no counter). *)
Lemma registered_key_logs_in x y cred_id guid rp_id origin challenge0 challenge1 cd0 cd1 sig_bytes key sig c0 c1 :
  (forall b, b64_decode lib (b64_encode lib b) = Some b) ->
  len x = 32 -> len y = 32 -> len guid = 16 -> len cred_id <= 1023 -> u32 c0 -> u32 c1 ->
  client_data_ok cd0 TYPE_CREATE challenge0 origin -> client_data_ok cd1 TYPE_GET challenge1 origin ->
  key_of_sec1 lib (x04 :: x ++ y) = Some key -> sig_of_der lib sig_bytes = Some sig ->
  ecdsa_verify lib key (honest_auth_data rp_id c1 ++ sha256 lib cd1) sig = true ->
  c1 > c0 \/ c1 = 0 ->
  exists c, finish_register lib (honest_registration x y cred_id guid rp_id c0 cd0) challenge0 rp_id origin = Ok c /\
    c = mk_registered cred_id (x04 :: x ++ y) c0 /\
    finish_authenticate lib (honest_assertion cred_id rp_id cd1 sig_bytes c1) challenge1 rp_id origin (find_registered c)
    = Ok (mk_authenticated cred_id c1 (c1 >? c0)).
Proof.
  intros Hb Lx Ly Lg Lc H0 H1 Hcd0 Hcd1 Hk Hs Hv Hc.
  exists (mk_registered cred_id (x04 :: x ++ y) c0). split_and!; [|done|].
  - apply finish_register_accepts.
    pose proof (honest_short x y cred_id guid rp_id c0 Lx Ly Lg Lc H0) as Hsh.
    exists cd0, (att_object (attested_bytes (honest_attested x y cred_id guid rp_id c0) (cose_key x y))).
    eexists _, (honest_attested x y cred_id guid rp_id c0). cbn [honest_registration reg_ty reg_client_data_json reg_attestation_object].
    split_and!; try done.
    + rewrite <- (app_nil_r (att_object _)). by apply extract_att_object.
    + by apply honest_parses.
  - apply finish_authenticate_accepts.
    exists cd1, (honest_auth_data rp_id c1), sig_bytes, (mk_prefix (sha256 lib rp_id) FLAG_UP c1), [],
      (mk_stored (x04 :: x ++ y) c0), key, sig.
    cbn [honest_assertion au_ty au_raw_id au_client_data_json au_authenticator_data au_signature ac_credential_id].
    split_and!; try done.
    + by rewrite app_nil_r.
    + split; [apply sha256_len|by split].
    + unfold find_registered. by rewrite bool_decide_true.
Qed.
End Ceremonies.

(** A COSE key is accepted only as an uncompressed P-256 point, 65 bytes
    starting with 04; the canonical encoding of a point (x, y) is accepted
    as exactly that point whatever follows it; and no input makes the decoder
    panic. *)
Lemma cose_keys_decode x y rest :
  len x = 32 -> len y = 32 ->
  decode_es256 (cose_key x y ++ rest) = Ok (x04 :: x ++ y) /\
  (forall b key, decode_es256 b = Ok key -> len key = SEC1_UNCOMPRESSED_LEN /\ exists p, key = x04 :: p) /\
  (forall b, decode_es256 b <> Panic).
Proof.
  intros Lx Ly. split; [by apply decode_cose_key|]. split; [|apply decode_es256_no_panic].
  intros b key H. unfold decode_es256 in H. apply bind_Ok in H as ([n buf] & _ & H).
  apply bind_Ok in H as ([f r] & _ & H). apply cose_check_Ok in H as (u & v & -> & _ & _ & Lu & Lv & _).
  split; [|by eexists]. unfold len, SEC1_UNCOMPRESSED_LEN in *. cbn. rewrite length_app. lia.
Qed.

(** Authenticator data is parsed exactly: the result is [a] if and only if
    the input is the prefix of [a] with the attested-data flag set, its 16
    byte AAGUID, its credential id of at most 1023 bytes with its length,
    and a COSE key that decodes to the key of [a]; anything else is an error,
    never a panic. *)
Lemma parse_attested_exact d a :
  (parse_attested d = Ok a <->
   prefix_wf (prefix a) /\ attested_cred_data (prefix a) = true /\ len (aaguid a) = 16 /\
   len (credential_id a) <= 1023 /\
   exists rest after, d = attested_bytes a rest /\
     decode_es256 rest = Ok (credential_public_key a) /\ skip_value rest = Ok after) /\
  parse_attested d <> Panic.
Proof. split; [apply parse_attested_Ok|apply parse_attested_no_panic]. Qed.

(** ** Witnesses *)

(** A library in which base64 is the identity, the JSON text is its own
    "type" member, a hash is 32 zero bytes and a signature is its own text. *)
Definition toy : Crypto := {|
  b64_encode b := b;
  b64_decode b := Some b;
  json_view cd := Object (fun f =>
    if bool_decide (f = lit "type") then Some (Some cd)
    else if bool_decide (f = lit "challenge") then Some (Some (lit "c"))
    else if bool_decide (f = lit "origin") then Some (Some (lit "https://h")) else None);
  sha256 _ := replicate 32 x00;
  key_of_sec1 k := Some (len k);
  sig_of_der s := Some (len s);
  ecdsa_verify k m s := (k =? 65) && (s =? 3);
|}.
Definition toy_x : list byte := replicate 32 x01.

Lemma toy_client_data ty : client_data_ok toy ty ty (lit "c") (lit "https://h").
Proof. eexists. split; [reflexivity|]. by split_and!. Qed.

Lemma finish_register_exact_witness :
  exists r c, finish_register toy r (lit "c") (lit "h") (lit "https://h") = Ok c /\
    registration_ok toy r (lit "c") (lit "h") (lit "https://h") c.
Proof.
  exists (honest_registration toy toy_x toy_x (lit "id") (replicate 16 x00) (lit "h") 7 TYPE_CREATE),
    (mk_registered (lit "id") (x04 :: toy_x ++ toy_x) 7).
  assert (E : finish_register toy (honest_registration toy toy_x toy_x (lit "id") (replicate 16 x00) (lit "h") 7 TYPE_CREATE)
     (lit "c") (lit "h") (lit "https://h") = Ok (mk_registered (lit "id") (x04 :: toy_x ++ toy_x) 7)) by (vm_compute; reflexivity).
  split; [exact E|]. exact (proj1 (proj1 (finish_register_exact toy ltac:(intros; reflexivity) _ _ _ _ _)) E).
Defined.

Definition toy_find (n : Z) (id : list byte) : option StoredCredentialView :=
  if bool_decide (id = lit "id") then Some (mk_stored (x04 :: toy_x ++ toy_x) n) else None.
Definition toy_login (n : Z) : AuthenticationResponse :=
  honest_assertion toy (lit "id") (lit "h") TYPE_GET (lit "sig") n.

Lemma finish_authenticate_exact_witness :
  finish_authenticate toy (toy_login 0) (lit "c") (lit "h") (lit "https://h") (toy_find 7)
    = Ok (mk_authenticated (lit "id") 0 false) /\
  assertion_ok toy (toy_login 0) (lit "c") (lit "h") (lit "https://h") (toy_find 7)
    (mk_authenticated (lit "id") 0 false).
Proof.
  assert (E : finish_authenticate toy (toy_login 0) (lit "c") (lit "h") (lit "https://h") (toy_find 7)
    = Ok (mk_authenticated (lit "id") 0 false)) by (vm_compute; reflexivity).
  split; [exact E|]. exact (proj1 (proj1 (finish_authenticate_exact toy ltac:(intros; reflexivity) _ _ _ _ _ _)) E).
Defined.

Lemma replay_refused_witness :
  finish_authenticate toy (toy_login 8) (lit "c") (lit "h") (lit "https://h") (toy_find 8)
    <> Ok (mk_authenticated (lit "id") 8 true).
Proof.
  apply (replay_refused toy ltac:(intros; reflexivity) (toy_login 8) (lit "c") (lit "h") (lit "https://h") (toy_find 7)
    (mk_authenticated (lit "id") 8 true)) with (stored' := mk_stored (x04 :: toy_x ++ toy_x) 8).
  - vm_compute. reflexivity.
  - cbn. lia.
  - vm_compute. reflexivity.
  - cbn. lia.
Defined.

Lemma registered_key_logs_in_witness :
  exists c, finish_register toy (honest_registration toy toy_x toy_x (lit "id") (replicate 16 x00) (lit "h") 7 TYPE_CREATE)
      (lit "c") (lit "h") (lit "https://h") = Ok c /\
    c = mk_registered (lit "id") (x04 :: toy_x ++ toy_x) 7 /\
    finish_authenticate toy (toy_login 8) (lit "c") (lit "h") (lit "https://h") (find_registered c)
    = Ok (mk_authenticated (lit "id") 8 true).
Proof.
  apply (registered_key_logs_in toy ltac:(intros; reflexivity) toy_x toy_x (lit "id") (replicate 16 x00) (lit "h")
    (lit "https://h") (lit "c") (lit "c") TYPE_CREATE TYPE_GET (lit "sig") 65 3 7 8);
    try reflexivity; try (vm_compute; split; congruence); try (vm_compute; congruence).
  - apply (toy_client_data TYPE_CREATE).
  - apply (toy_client_data TYPE_GET).
  - left. lia.
Defined.

Lemma cose_keys_decode_witness : decode_es256 (cose_key toy_x toy_x) = Ok (x04 :: toy_x ++ toy_x).
Proof.
  pose proof (proj1 (cose_keys_decode toy_x toy_x [] ltac:(reflexivity) ltac:(reflexivity))) as H.
  rewrite app_nil_r in H. exact H.
Defined.
