(* ===== verification/Auth.v ===== *)
(** * Auth: bearer tokens and the checks at the hub's edge ([hub/src/auth.rs],
    [state.rs], [edge.rs], [listener_mode.rs])

    Every clock read is an argument; times are nanoseconds since the epoch. *)

From Stdlib Require Import Strings.Byte Sorting.Sorted.
From stdpp Require Import prelude strings list gmap.
From S2P Require Import Prelude Utf8 Std.

Definition SESSION_TTL : Z := 12 * 60 * 60 * 1000000000.

(** ** Tokens *)

(** [gc]: keep what expires after [now]. *)
Definition gc {V} (now : Z) (expiry : V -> Z) (m : gmap (list byte) V) : gmap (list byte) V :=
  filter (fun kv => now < expiry kv.2) m.

(** [struct Session]: when a token expires. *)
Abbreviation Sessions := (gmap (list byte) Z).

(** [store_token]: the clock is read for the expiry and again by [gc]. *)
Definition store_token (now now_gc : Z) (token : list byte) (s : Sessions) : Sessions * Z :=
  let expires_at := now + SESSION_TTL in
  (<[token := expires_at]> (gc now_gc id s), expires_at).

(** [validate_token] *)
Definition validate_token (now_gc now : Z) (token : list byte) (s : Sessions) : Sessions * bool :=
  let s := gc now_gc id s in
  (s, match s !! token with Some e => now <? e | None => false end).

(** [drop_token] *)
Definition drop_token (token : list byte) (s : Sessions) : Sessions := delete token s.

(** [ttl_secs] *)
Definition ttl_secs (expires_at now : Z) : Z := Z.max (expires_at - now) 0 / 1000000000.

(** ** Headers *)

(** [HeaderMap]: the lower-case names with, for each value, what [to_str]
    returns. *)
Abbreviation Headers := (list (list byte * option (list byte))).

Definition get_all (name : list byte) (h : Headers) : list (option (list byte)) :=
  (List.filter (fun kv => bool_decide (kv.1 = name)) h).*2.
Definition get (name : list byte) (h : Headers) : option (option (list byte)) := head (get_all name h).

(** [get(name).and_then(|v| v.to_str().ok())] *)
Definition get_str (name : list byte) (h : Headers) : option (list byte) := mjoin (get name h).

(** [HeaderMap::insert]: the only value of its name from then on. *)
Definition insert_header {A} (name : list byte) (v : A) (h : list (list byte * A)) : list (list byte * A) :=
  List.filter (fun kv => negb (bool_decide (kv.1 = name))) h ++ [(name, v)].

(** [str::strip_prefix] *)
Fixpoint strip_prefix (p s : list byte) : option (list byte) :=
  match p, s with
  | [], _ => Some s
  | a :: p, b :: s => if bool_decide (a = b) then strip_prefix p s else None
  | _ :: _, [] => None
  end.
Definition starts_with (p s : list byte) : bool := match strip_prefix p s with Some _ => true | None => false end.

(** [str::trim] *)
Fixpoint trim_left (fuel : nat) (s : list byte) : list byte :=
  match fuel, ws_len s with
  | O, _ | _, O => s
  | S k, n => trim_left k (drop n s)
  end.
(** The whitespace at the end is the shortest suffix chain of whitespace
    characters: drop one last character while it is whitespace. *)
Definition ends_ws (s : list byte) : nat :=
  let at_end n := bool_decide (n <= length s)%nat && bool_decide (ws_len (drop (length s - n) s) = n) in
  if at_end 1%nat then 1%nat else if at_end 2%nat then 2%nat else if at_end 3%nat then 3%nat else O.
Fixpoint trim_right (fuel : nat) (s : list byte) : list byte :=
  match fuel, ends_ws s with
  | O, _ | _, O => s
  | S k, n => trim_right k (take (length s - n) s)
  end.
Definition trim (s : list byte) : list byte := trim_right (length s) (trim_left (length s) s).

(** [struct ListenerMode] *)
Record ListenerMode := mk_mode { no_auth : bool; mode_origin : list byte }.

(** [check_origin] *)
Definition check_origin (h : Headers) (expected_origin : list byte) : bool :=
  match get_str (lit "origin") h with
  | Some o => bool_decide (o = expected_origin)
  | None => false
  end.

(** [token_from_ws_protocol]: the token and the subprotocol to echo. *)
Definition token_from_ws_protocol (h : Headers) : option (list byte * list byte) :=
  let raws := map trim (flat_map (split_on ",") (omap id (get_all (lit "sec-websocket-protocol") h))) in
  raw ← List.find (starts_with (lit "bearer.")) raws;
  token ← strip_prefix (lit "bearer.") raw;
  Some (token, raw).

(** [Bearer::from_request_parts]: the token of the request, or 401. *)
Inductive Rejection := MissingBearer | InvalidBearer.
Definition bearer (mode : option ListenerMode) (h : Headers) (now_gc now : Z) (s : Sessions)
    : Sessions * (Rejection + list byte) :=
  if match mode with Some m => no_auth m | None => false end then (s, inr [])
  else
    match (v ← get_str (lit "authorization") h; strip_prefix (lit "Bearer ") v) with
    | None => (s, inl MissingBearer)
    | Some token =>
        let '(s, ok) := validate_token now_gc now token s in
        (s, if ok then inr token else inl InvalidBearer)
    end.

(** [edge::middleware]: does the request reach the routes? *)
Definition edge_allows (origin : list byte) (h : Headers) : bool :=
  match get (lit "origin") h with
  | None => true
  | Some o => bool_decide (o = Some origin)
  end.

(** ** Facts about headers *)

Lemma insert_header_same {A} name (v : A) h :
  (List.filter (fun kv => bool_decide (kv.1 = name)) (insert_header name v h)).*2 = [v].
Proof.
  unfold insert_header. rewrite List.filter_app, fmap_app. cbn. rewrite bool_decide_true by done. cbn.
  induction h as [|kv h IH]; [done|]. cbn. case_bool_decide; cbn; [done|]. by rewrite bool_decide_false.
Qed.
Lemma insert_header_other {A} name name' (v : A) h :
  name' <> name ->
  List.filter (fun kv => bool_decide (kv.1 = name)) (insert_header name' v h)
  = List.filter (fun kv => bool_decide (kv.1 = name)) h.
Proof.
  intros Hne. unfold insert_header. rewrite List.filter_app. cbn. rewrite bool_decide_false by done. rewrite app_nil_r.
  induction h as [|kv h IH]; [done|]. cbn. destruct (decide (kv.1 = name')) as [E|E].
  - rewrite (bool_decide_true (kv.1 = name')) by done. cbn. rewrite bool_decide_false by congruence. done.
  - rewrite (bool_decide_false (kv.1 = name')) by done. cbn. by rewrite IH.
Qed.

(** ** Facts about tokens *)

Lemma gc_lookup {V} now (expiry : V -> Z) m k v :
  gc now expiry m !! k = Some v <-> m !! k = Some v /\ now < expiry v.
Proof. unfold gc. by rewrite map_lookup_filter_Some. Qed.

(** What happens to tokens, with the clock reads of each operation. *)
Inductive TokenOp :=
| TStore (now now_gc : Z) (token : list byte)
| TValidate (now_gc now : Z) (token : list byte)
| TDrop (token : list byte).

Definition clock_reads (o : TokenOp) : list Z :=
  match o with TStore a b _ | TValidate a b _ => [a; b] | TDrop _ => [] end.
Definition token_step (s : Sessions) (o : TokenOp) : Sessions :=
  match o with
  | TStore a b t => (store_token a b t s).1
  | TValidate a b t => (validate_token a b t s).1
  | TDrop t => drop_token t s
  end.

(** When the token was last stored, unless it was dropped since. *)
Definition stored_at (token : list byte) (ops : list TokenOp) : option Z :=
  foldl (fun r o =>
    match o with
    | TStore a _ t => if bool_decide (t = token) then Some a else r
    | TDrop t => if bool_decide (t = token) then None else r
    | TValidate _ _ _ => r
    end) None ops.

(** The sessions are the stored tokens, less some that have expired by the
    latest clock read [now]. *)
Definition sessions_ok (ops : list TokenOp) (s : Sessions) : Prop :=
  forall token, match s !! token with
    | Some e => exists t, stored_at token ops = Some t /\ e = t + SESSION_TTL
    | None => forall t, stored_at token ops = Some t ->
        exists now, now ∈ flat_map clock_reads ops /\ t + SESSION_TTL <= now
    end.

Lemma stored_at_app token a b :
  stored_at token (a ++ [b]) =
  match b with
  | TStore x _ t => if bool_decide (t = token) then Some x else stored_at token a
  | TDrop t => if bool_decide (t = token) then None else stored_at token a
  | TValidate _ _ _ => stored_at token a
  end.
Proof. unfold stored_at. rewrite foldl_app. by destruct b. Qed.

Lemma sessions_gc ops s o now :
  now ∈ clock_reads o -> sessions_ok ops s ->
  forall token, match gc now id s !! token with
    | Some e => exists t, stored_at token ops = Some t /\ e = t + SESSION_TTL
    | None => forall t, stored_at token ops = Some t ->
        exists now, now ∈ flat_map clock_reads (ops ++ [o]) /\ t + SESSION_TTL <= now
    end.
Proof.
  intros Hn K token. specialize (K token). rewrite flat_map_app. cbn. rewrite app_nil_r.
  destruct (gc now id s !! token) as [e|] eqn:E.
  - apply gc_lookup in E as [E _]. by rewrite E in K.
  - intros t Ht. destruct (s !! token) as [e|] eqn:Es.
    + destruct K as (t' & Ht' & ->). rewrite Ht in Ht'. injection Ht' as <-. exists now.
      split; [apply elem_of_app; by right|]. destruct (Z.le_gt_cases (t + SESSION_TTL) now); [done|].
      assert (gc now id s !! token = Some (t + SESSION_TTL)) by (apply gc_lookup; split; [done|cbn; lia]). congruence.
    + destruct (K t Ht) as (n & Hin & Hle). exists n. split; [apply elem_of_app; by left|done].
Qed.

Lemma sessions_step ops s o : sessions_ok ops s -> sessions_ok (ops ++ [o]) (token_step s o).
Proof.
  intros K token. rewrite stored_at_app. destruct o as [a b t|a b t|t]; cbn [token_step].
  - pose proof (sessions_gc ops s (TStore a b t) b ltac:(set_solver) K token) as G. unfold store_token. cbn [fst].
    case_bool_decide as E; [subst; rewrite lookup_insert_eq; eauto|]. by rewrite lookup_insert_ne.
  - exact (sessions_gc ops s (TValidate a b t) a ltac:(set_solver) K token).
  - unfold drop_token. case_bool_decide as E; [subst; by rewrite lookup_delete_eq|].
    rewrite lookup_delete_ne by done. specialize (K token). destruct (s !! token); [done|].
    intros x Hx. destruct (K x Hx) as (n & Hin & Hle). exists n. split; [|done].
    rewrite flat_map_app. apply elem_of_app. by left.
Qed.

Lemma sessions_run ops : sessions_ok ops (foldl token_step ∅ ops).
Proof.
  induction ops as [|o ops IH] using rev_ind; [intros token; cbn; by rewrite lookup_empty|].
  rewrite foldl_app. by apply sessions_step.
Qed.

(** [C32] With a clock that does not go back, a token is accepted if and only if
    it was issued less than twelve hours ago and not dropped since: whatever
    other tokens are issued, checked and dropped in between, expiry sweeps
    never remove a live token and no unknown or expired token is ever
    accepted. *)
Theorem token_valid_iff ops now_gc now token :
  StronglySorted Z.le (flat_map clock_reads ops ++ [now_gc; now]) ->
  (validate_token now_gc now token (foldl token_step ∅ ops)).2 = true <->
  exists t, stored_at token ops = Some t /\ now < t + SESSION_TTL.
Proof.
  intros Hs. pose proof (sessions_run ops token) as K. unfold validate_token. cbn [snd].
  set (s := foldl token_step ∅ ops) in *.
  assert (Hle : forall x, x ∈ flat_map clock_reads ops -> x <= now).
  { intros x Hx. apply list_elem_of_split in Hx as (l1 & l2 & E). rewrite E, <- app_assoc in Hs.
    clear E K. induction l1 as [|y l1 IH].
    - apply Sorted.StronglySorted_inv in Hs as [_ Hall]. rewrite Forall_forall in Hall. apply Hall. set_solver.
    - apply Sorted.StronglySorted_inv in Hs as [Hs _]. by apply IH. }
  assert (Hgn : now_gc <= now).
  { clear -Hs. induction (flat_map clock_reads ops) as [|y l IH].
    - cbn in Hs. apply Sorted.StronglySorted_inv in Hs as [_ Hall]. rewrite Forall_forall in Hall. apply Hall. set_solver.
    - apply Sorted.StronglySorted_inv in Hs as [Hs _]. by apply IH. }
  split.
  - destruct (gc now_gc id s !! token) as [e|] eqn:E; [|done]. apply gc_lookup in E as [E _]. rewrite E in K.
    destruct K as (t & Ht & ->). rewrite Z.ltb_lt. eauto.
  - intros (t & Ht & Hlt). destruct (s !! token) as [e|] eqn:E.
    + destruct K as (t' & Ht' & ->). rewrite Ht in Ht'. injection Ht' as <-.
      assert (Eg : gc now_gc id s !! token = Some (t + SESSION_TTL)) by (apply gc_lookup; split; [done|cbn; lia]).
      rewrite Eg. by apply Z.ltb_lt.
    + destruct (K t Ht) as (n & Hin & Hx). apply Hle in Hin. lia.
Qed.

Lemma token_valid_iff_witness :
  (validate_token 20 21 (lit "t") (foldl token_step ∅ [TStore 5 6 (lit "t"); TDrop (lit "u"); TValidate 7 8 (lit "t")])).2 = true.
Proof.
  apply (token_valid_iff [TStore 5 6 (lit "t"); TDrop (lit "u"); TValidate 7 8 (lit "t")] 20 21 (lit "t")).
  - cbn. repeat constructor; lia.
  - exists 5. split; [reflexivity|vm_compute; reflexivity].
Defined.
