(* ===== verification/Login.v ===== *)
(** * Login: stored credentials and the login ceremony
    ([common/src/creds.rs], [hub/src/webauthn_routes.rs], [hub/src/state.rs])

    The credential file is read and replaced as a whole; JSON and base64 are
    libraries.  [login_finish] takes the lock of the pending logins, reads the
    file, verifies, updates the file and issues a token, in that order; other
    requests can run in between, so each part is an operation of its own. *)

From Stdlib Require Import Strings.Byte.
From stdpp Require Import prelude strings list gmap.
From S2P Require Import Prelude Utf8 Std Cbor CborFacts Webauthn WebauthnFacts Auth.

(** ** Credentials ([creds.rs]) *)

(** [struct StoredCredential] *)
Record StoredCredential := mk_cred {
  label : list byte;
  added_at : list byte;
  credential_id_b64 : list byte;
  credential_public_key_b64 : list byte;
  cred_sign_count : Z;
}.

(** [struct CredentialStore] *)
Abbreviation CredentialStore := (list StoredCredential).

(** [enum StoreError] *)
Inductive StoreError := SIo | SParse | SBase64 | WrongPubkeyLen (n : Z).

(** The credential file: absent, some bytes, or unreadable. *)
Inductive CredFile := NoFile | File (bytes : list byte) | Unreadable.

(** The libraries: base64 without padding, standard alphabet, and the JSON of
    the store. *)
Record StoreLib := {
  std_encode : list byte -> list byte;
  std_decode : list byte -> option (list byte);
  store_of_json : list byte -> option CredentialStore;
  json_of_store : CredentialStore -> list byte;
}.

Section Login.
Variables (lib : Crypto) (slib : StoreLib) (rp_id origin : list byte).

(** [StoredCredential::credential_id] *)
Definition cred_id (c : StoredCredential) : res StoreError (list byte) :=
  ok_or SBase64 (std_decode slib (credential_id_b64 c)).

(** [StoredCredential::credential_public_key] *)
Definition cred_public_key (c : StoredCredential) : res StoreError (list byte) :=
  v ← ok_or SBase64 (std_decode slib (credential_public_key_b64 c));
  guard_err (negb (len v =? SEC1_UNCOMPRESSED_LEN)) (WrongPubkeyLen (len v)) ;;
  Ok v.

(** [CredentialStore::load] *)
Definition load (f : CredFile) : res StoreError CredentialStore :=
  match f with
  | File bytes => ok_or SParse (store_of_json slib bytes)
  | NoFile => Ok []
  | Unreadable => Err SIo
  end.

(** [CredentialStore::save_atomic]: writing the temporary file or renaming it
    may fail, which leaves the old file. *)
Definition save_atomic (io_ok : bool) (s : CredentialStore) (f : CredFile) : CredFile * res StoreError unit :=
  if io_ok then (File (json_of_store slib s), Ok tt) else (f, Err SIo).

(** [CredentialStore::find_by_id] *)
Definition find_by_id (id : list byte) (s : CredentialStore) : option StoredCredential :=
  List.find (fun c => bool_decide (credential_id_b64 c = std_encode slib id)) s.

(** Assigning to the counter of what [find_by_id_mut] returns. *)
Fixpoint set_sign_count (id : list byte) (n : Z) (s : CredentialStore) : CredentialStore :=
  match s with
  | [] => []
  | c :: s =>
      if bool_decide (credential_id_b64 c = std_encode slib id)
      then mk_cred (label c) (added_at c) (credential_id_b64 c) (credential_public_key_b64 c) n :: s
      else c :: set_sign_count id n s
  end.

(** ** The hub's state ([state.rs]) *)

Definition PENDING_LOGIN_TTL : Z := 5 * 60 * 1000000000.
Definition MAX_PENDING_LOGINS : nat := 1024.

(** [struct PendingLogin] *)
Record PendingLogin := mk_pending {
  challenge : list byte; allowed_ids : list (list byte); pending_expires_at : Z;
}.

(** The part of [AppStateInner] logins use, with the credential file. *)
Record HubState := mk_hub {
  pending_logins : gmap (list byte) PendingLogin;
  sessions : Sessions;
  cred_file : CredFile;
}.

(** The errors of the two routes, with their status codes. *)
Inductive LoginError :=
| LoadFailed (e : StoreError)          (** 500 *)
| BadStoredId (e : StoreError)         (** 500 *)
| NoCredentials                        (** 412 *)
| TooManyLogins                        (** 503 *)
| UnknownNonce                         (** 401 *)
| AuthFailed (e : WebauthnError).      (** 401 *)

(** ** [login_start] *)

(** The loop that decodes the ids of all credentials. *)
Fixpoint decode_ids (s : CredentialStore) : res LoginError (list (list byte)) :=
  match s with
  | [] => Ok []
  | c :: s =>
      i ← map_err BadStoredId (cred_id c);
      rest ← decode_ids s;
      Ok (i :: rest)
  end.

(** [login_start]: [chal] and [nonce] are the random values drawn; the clock
    is read by [gc] and for the expiry. *)
Definition login_start (chal nonce : list byte) (now_gc now : Z) (st : HubState)
    : HubState * res LoginError (list (list byte)) :=
  match (store ← map_err LoadFailed (load (cred_file st));
         guard_err (bool_decide (store = [])) NoCredentials ;;
         decode_ids store) with
  | Ok allowed =>
      let pending := gc now_gc pending_expires_at (pending_logins st) in
      if bool_decide (MAX_PENDING_LOGINS <= base.size pending)%nat
      then (mk_hub pending (sessions st) (cred_file st), Err TooManyLogins)
      else (mk_hub (<[nonce := mk_pending chal allowed (now + PENDING_LOGIN_TTL)]> pending)
              (sessions st) (cred_file st), Ok allowed)
  | Err e => (st, Err e)
  | Panic => (st, Panic)
  end.

(** ** [login_finish] *)

(** The first part: the pending login is taken out, whatever comes next. *)
Definition take_pending (nonce : list byte) (now_gc : Z) (st : HubState) : HubState * option PendingLogin :=
  let pending := gc now_gc pending_expires_at (pending_logins st) in
  (mk_hub (delete nonce pending) (sessions st) (cred_file st), pending !! nonce).

(** The closure [lookup]. *)
Definition lookup_allowed (p : PendingLogin) (store : CredentialStore) (id : list byte)
    : option StoredCredentialView :=
  if bool_decide (id ∈ allowed_ids p) then
    c ← find_by_id id store;
    match cred_public_key c with
    | Ok pk => Some (mk_stored pk (cred_sign_count c))
    | _ => None
    end
  else None.

(** The second part: the file is read and the assertion verified. *)
Definition verify_login (p : PendingLogin) (r : AuthenticationResponse) (f : CredFile)
    : res LoginError AuthenticatedCredential :=
  store ← map_err LoadFailed (load f);
  map_err AuthFailed (finish_authenticate lib r (challenge p) rp_id origin (lookup_allowed p store)).

(** [persist_counter_update], under the file lock; [lock_ok] says whether the
    lock was obtained. *)
Definition persist_counter_update (lock_ok io_ok : bool) (id : list byte) (new_sign_count : Z) (f : CredFile)
    : CredFile * res StoreError unit :=
  if negb lock_ok then (f, Err SIo)
  else
    match load f with
    | Ok store =>
        match find_by_id id store with
        | Some c =>
            if new_sign_count >? cred_sign_count c
            then save_atomic io_ok (set_sign_count id new_sign_count store) f
            else (f, Ok tt)
        | None => (f, Ok tt)
        end
    | Err e => (f, Err e)
    | Panic => (f, Panic)
    end.

(** What happens between the parts of one [login_finish]: other requests. *)
Abbreviation Between := (HubState -> HubState).

(** [login_finish]; [token] is the random token drawn at the end.  A failed
    counter update is only logged. *)
Definition login_finish (nonce token : list byte) (r : AuthenticationResponse)
    (now_gc now now_gc' : Z) (lock_ok io_ok : bool) (b1 b2 b3 : Between) (st : HubState)
    : HubState * res LoginError (list byte * Z) :=
  let '(st, pending) := take_pending nonce now_gc st in
  match pending with
  | None => (st, Err UnknownNonce)
  | Some p =>
      let st := b1 st in
      match verify_login p r (cred_file st) with
      | Ok auth =>
          let st := b2 st in
          let f := if ac_sign_count_advanced auth
                   then (persist_counter_update lock_ok io_ok (ac_credential_id auth) (ac_new_sign_count auth) (cred_file st)).1
                   else cred_file st in
          let st := b3 (mk_hub (pending_logins st) (sessions st) f) in
          let '(ss, expires_at) := store_token now now_gc' token (sessions st) in
          (mk_hub (pending_logins st) ss (cred_file st), Ok (token, expires_at))
      | Err e => (st, Err e)
      | Panic => (st, Panic)
      end
  end.

(** ** Facts *)

Hypothesis sha256_len : forall m, len (sha256 lib m) = 32.
Hypothesis json_roundtrip : forall s, store_of_json slib (json_of_store slib s) = Some s.

(** The counter stored for a credential. *)
Definition counter (id : list byte) (f : CredFile) : option Z :=
  match load f with Ok s => cred_sign_count <$> find_by_id id s | _ => None end.

Lemma find_set_same id n s :
  find_by_id id (set_sign_count id n s) =
  (fun c => mk_cred (label c) (added_at c) (credential_id_b64 c) (credential_public_key_b64 c) n) <$> find_by_id id s.
Proof.
  unfold find_by_id. induction s as [|c s IH]; [done|]. cbn [set_sign_count List.find].
  destruct (bool_decide (credential_id_b64 c = std_encode slib id)) eqn:E; cbn [List.find credential_id_b64]; by rewrite E.
Qed.

Lemma find_set_other id id' n s :
  std_encode slib id' <> std_encode slib id -> find_by_id id' (set_sign_count id n s) = find_by_id id' s.
Proof.
  intros Hne. unfold find_by_id. induction s as [|c s IH]; [done|]. cbn [set_sign_count].
  case_bool_decide as E; cbn [List.find credential_id_b64].
  - rewrite E, !bool_decide_false by congruence. done.
  - by rewrite IH.
Qed.

(** The file after an update: the same, or the counter raised. *)
Lemma persist_cases lock_ok io_ok id n f :
  (persist_counter_update lock_ok io_ok id n f).1 = f \/
  exists s c, load f = Ok s /\ find_by_id id s = Some c /\ n > cred_sign_count c /\
    (persist_counter_update lock_ok io_ok id n f).1 = File (json_of_store slib (set_sign_count id n s)).
Proof.
  unfold persist_counter_update, save_atomic. destruct lock_ok; [|by left]. cbn [negb].
  destruct (load f) as [s|e|]; [|by left..]. destruct (find_by_id id s) as [c|] eqn:E; [|by left].
  rewrite Z.gtb_ltb. destruct (Z.ltb_spec (cred_sign_count c) n); [|by left].
  destruct io_ok; [|by left]. right. exists s, c. split_and!; try done. lia.
Qed.

(** Recording a login's counter never lowers a stored counter and never
    touches another credential or another field, whatever fails; and when
    nothing fails the stored counter is at least the new one afterwards. *)
Lemma counters_never_go_back lock_ok io_ok id n f :
  (forall id' k, counter id' f = Some k ->
     exists k', counter id' (persist_counter_update lock_ok io_ok id n f).1 = Some k' /\ k <= k' /\
       (std_encode slib id' <> std_encode slib id -> k' = k)) /\
  (forall k, counter id f = Some k -> lock_ok = true -> io_ok = true ->
     exists k', counter id (persist_counter_update lock_ok io_ok id n f).1 = Some k' /\ k' = Z.max k n).
Proof.
  split.
  - intros id' k Hk. destruct (persist_cases lock_ok io_ok id n f) as [-> |(s & c & Hl & Hc & Hn & ->)].
    { exists k. split; [done|]. by split. }
    unfold counter in *. rewrite Hl in Hk. cbn [load]. rewrite json_roundtrip. cbn [ok_or].
    destruct (decide (std_encode slib id' = std_encode slib id)) as [E|Hne].
    + assert (Ef : forall l, find_by_id id' l = find_by_id id l) by (intros l; unfold find_by_id; by rewrite E).
      rewrite Ef in *. rewrite Hc in Hk. injection Hk as <-. rewrite find_set_same, Hc. exists n.
      split; [done|]. split; [lia|done].
    + rewrite find_set_other by done. exists k. split; [done|]. by split.
  - intros k Hk -> ->. unfold counter in *. unfold persist_counter_update, save_atomic. cbn [negb].
    destruct (load f) as [s|e|] eqn:El; [|done..]. destruct (find_by_id id s) as [c|] eqn:Ec; [|done]. injection Hk as <-.
    rewrite Z.gtb_ltb. destruct (Z.ltb_spec (cred_sign_count c) n); cbn [fst load].
    + rewrite json_roundtrip. cbn [ok_or]. rewrite find_set_same, Ec. exists n. split; [done|lia].
    + rewrite El, Ec. exists (cred_sign_count c). split; [done|lia].
Qed.

(** [C10] A login succeeds only on a pending login that was started and has not
    expired, with an assertion that passes every check of the ceremony
    against the challenge of that pending login, by a credential that was on
    offer when it started and still is in the file; the token it returns is
    then valid for twelve hours.  Whatever the outcome, and whatever other
    requests do meanwhile (short of starting a login with the same nonce),
    the nonce is used up. *)
Theorem login_finish_sound nonce token r now_gc now now_gc' lock_ok io_ok b1 b2 b3 st :
  (forall b s, b ∈ [b1; b2; b3] -> pending_logins s !! nonce = None -> pending_logins (b s) !! nonce = None) ->
  let '(st', res) := login_finish nonce token r now_gc now now_gc' lock_ok io_ok b1 b2 b3 st in
  pending_logins st' !! nonce = None /\
  (forall t e, res = Ok (t, e) ->
     t = token /\ e = now + SESSION_TTL /\ sessions st' !! token = Some e /\
     exists p a store c,
       pending_logins st !! nonce = Some p /\ now_gc < pending_expires_at p /\
       load (cred_file (b1 (take_pending nonce now_gc st).1)) = Ok store /\
       assertion_ok lib r (challenge p) rp_id origin (lookup_allowed p store) a /\
       ac_credential_id a ∈ allowed_ids p /\ find_by_id (ac_credential_id a) store = Some c).
Proof.
  clear json_roundtrip. intros Hb. unfold login_finish, take_pending.
  set (pending := gc now_gc pending_expires_at (pending_logins st)).
  set (st1 := mk_hub (delete nonce pending) (sessions st) (cred_file st)).
  assert (N1 : pending_logins st1 !! nonce = None) by (cbn; by rewrite lookup_delete_eq).
  destruct (pending !! nonce) as [p|] eqn:Ep; [|split; [done|by intros]].
  assert (N2 : pending_logins (b1 st1) !! nonce = None) by (apply Hb; [set_solver|done]).
  destruct (verify_login p r (cred_file (b1 st1))) as [a|e|] eqn:Ev; [|split; [done|by intros]..].
  assert (N3 : pending_logins (b2 (b1 st1)) !! nonce = None) by (apply Hb; [set_solver|done]).
  match goal with |- context [b3 ?s] => assert (N4 : pending_logins (b3 s) !! nonce = None)
    by (apply Hb; [set_solver|done]); set (st3 := b3 s) in * end.
  unfold store_token. split; [done|]. intros t e [= <- <-]. cbn [sessions]. rewrite lookup_insert_eq.
  split_and!; try done. apply gc_lookup in Ep as [Ep Hexp].
  unfold verify_login in Ev. apply bind_Ok in Ev as (store & Hl & Ev). apply map_err_Ok in Hl. apply map_err_Ok in Ev.
  apply finish_authenticate_accepts in Ev; [|done].
  assert (F : exists v, lookup_allowed p store (ac_credential_id a) = Some v)
    by (destruct Ev as (? & ? & ? & ? & ? & v & ? & ? & _ & _ & _ & _ & _ & _ & _ & _ & _ & _ & Hf & _); eauto).
  destruct F as [v F]. unfold lookup_allowed in F. case_bool_decide as Hal; [|done].
  destruct (find_by_id (ac_credential_id a) store) as [c|] eqn:Hc; [|done].
  exists p, a, store, c. done.
Qed.

(** The pending logins never outgrow their cap. *)
Lemma login_start_cap chal nonce now_gc now st :
  (base.size (pending_logins st) <= MAX_PENDING_LOGINS)%nat ->
  (base.size (pending_logins (login_start chal nonce now_gc now st).1) <= MAX_PENDING_LOGINS)%nat.
Proof.
  intros L. unfold login_start. destruct (_ ≫= _) as [allowed|e|]; [|done..].
  case_bool_decide as Hs; cbn [fst pending_logins].
  - etrans; [|apply L]. unfold gc. apply map_size_filter.
  - rewrite map_size_insert. destruct (_ !! nonce); cbn; lia.
Qed.
End Login.

(** ** Witnesses *)

(** A store format: the cells of a canonical numbering as bits. *)
#[export] Instance cred_eq_dec : EqDecision StoredCredential.
Proof. solve_decision. Defined.
#[export] Program Instance cred_countable : Countable StoredCredential :=
  inj_countable' (fun c => (label c, added_at c, credential_id_b64 c, credential_public_key_b64 c, cred_sign_count c))
    (fun '(a, b, c, d, e) => mk_cred a b c d e) _.
Next Obligation. by intros []. Qed.

Fixpoint bits (p : positive) : list byte :=
  match p with xH => [] | xO p => x00 :: bits p | xI p => x01 :: bits p end.
Fixpoint of_bits (l : list byte) : positive :=
  match l with
  | [] => xH
  | b :: l => if bool_decide (b = x00) then xO (of_bits l) else xI (of_bits l)
  end.
Lemma of_bits_bits p : of_bits (bits p) = p.
Proof. induction p as [p IH|p IH|]; cbn; by rewrite ?IH. Qed.

Definition toy_store : StoreLib := {|
  std_encode b := b;
  std_decode b := Some b;
  store_of_json b := decode (of_bits b);
  json_of_store s := bits (encode s);
|}.
Lemma toy_store_roundtrip s : store_of_json toy_store (json_of_store toy_store s) = Some s.
Proof. cbn. by rewrite of_bits_bits, decode_encode. Qed.

Definition toy_cred (n : Z) : StoredCredential :=
  mk_cred (lit "key") (lit "today") (lit "id") (x04 :: toy_x ++ toy_x) n.
Definition toy_file : CredFile := File (json_of_store toy_store [toy_cred 7]).
Definition toy_hub : HubState :=
  mk_hub {[lit "nonce" := mk_pending (lit "c") [lit "id"] 100]} ∅ toy_file.

Lemma counters_never_go_back_witness :
  counter toy_store (lit "id") toy_file = Some 7 /\
  exists k', counter toy_store (lit "id") (persist_counter_update toy_store true true (lit "id") 8 toy_file).1 = Some k' /\ k' = 8.
Proof.
  assert (E : counter toy_store (lit "id") toy_file = Some 7).
  { unfold counter, toy_file. cbn [load]. rewrite toy_store_roundtrip. reflexivity. }
  split; [exact E|].
  exact (proj2 (counters_never_go_back toy_store toy_store_roundtrip true true (lit "id") 8 toy_file) 7 E eq_refl eq_refl).
Defined.

Lemma login_finish_sound_witness :
  let '(st', res) := login_finish toy toy_store (lit "h") (lit "https://h") (lit "nonce") (lit "tok") (toy_login 8)
     50 51 52 true true (fun s => s) (fun s => s) (fun s => s) toy_hub in
  res = Ok (lit "tok", 51 + SESSION_TTL) /\ pending_logins st' !! lit "nonce" = None.
Proof.
  pose proof (login_finish_sound toy toy_store (lit "h") (lit "https://h") ltac:(intros; reflexivity)
    (lit "nonce") (lit "tok") (toy_login 8) 50 51 52 true true (fun s => s) (fun s => s) (fun s => s) toy_hub) as W.
  assert (B : forall (b : HubState -> HubState) s, b ∈ [(fun s : HubState => s); (fun s => s); (fun s => s)] ->
    pending_logins s !! lit "nonce" = None -> pending_logins (b s) !! lit "nonce" = None).
  { intros b s Hb Hn. rewrite !elem_of_cons, elem_of_nil in Hb. destruct Hb as [->|[->|[->|[]]]]; exact Hn. }
  specialize (W B).
  destruct (login_finish toy toy_store (lit "h") (lit "https://h") (lit "nonce") (lit "tok") (toy_login 8)
     50 51 52 true true (fun s => s) (fun s => s) (fun s => s) toy_hub) as [st' res] eqn:E.
  destruct W as [W _]. split; [|exact W].
  change res with (snd (st', res)). rewrite <- E. vm_compute. reflexivity.
Defined.
