(* ===== verification/Wire.v ===== *)
(** * Wire: one direction of a connection, from the writer queue to the reader

    Any tasks put frames into the writer's two halves, the writer task moves
    one message after the other to an ordered connection, and the reader at
    its other end decodes them.  The two ends of a connection between hub and
    agent are two instances ([EndToEnd]).  A connection that breaks is a run in
    which the reader takes no further turn. *)

From Stdlib Require Import Strings.Byte.
From stdpp Require Import prelude strings list gmap.
From S2P Require Import Prelude Tokio Prio Frame FrameFacts Transport.

(** What the other end decodes of a frame, and the frames it takes as what
    they are. *)
Definition decoded (m : list byte) : option Frame :=
  match frame_from_ws_payload m with Ok (f, _) => Some f | _ => None end.
Definition readable (f : Frame) : Prop :=
  exists f', decoded (encode f) = Some f' /\ stream_id f' = stream_id f /\ ty f' = ty f.

Definition data_bytes (b : Body) : list byte := match b with Bd.Data d => d | _ => [] end.

(** The terminal data in a list of frames, and the frames of one stream. *)
Definition shown (fs : list Frame) : list byte := concat (map (fun f => data_bytes (body f)) fs).
Definition on_stream (sid : Z) (fs : list Frame) : list Frame := List.filter (fun f => stream_id f =? sid) fs.

Lemma shown_app a b : shown (a ++ b) = shown a ++ shown b.
Proof. unfold shown. by rewrite map_app, concat_app. Qed.
Lemma on_stream_app sid a b : on_stream sid (a ++ b) = on_stream sid a ++ on_stream sid b.
Proof. apply List.filter_app. Qed.

Lemma shown_on_stream_prefix sid a b : a `prefix_of` b -> shown (on_stream sid a) `prefix_of` shown (on_stream sid b).
Proof. intros [c ->]. rewrite on_stream_app, shown_app. by apply prefix_app_r. Qed.

(** Data arrives as it is. *)
Lemma decoded_data f f' : decoded (encode f) = Some f' -> ty f' = ty f -> data_bytes (body f') = data_bytes (body f).
Proof.
  unfold decoded. destruct (frame_from_ws_payload (encode f)) as [[g n]| |] eqn:E; [|done..]. intros [= ->] T.
  apply ws_payload_inv in E as (_ & E & _).
  assert (P : payload (body f) = payload (body f')).
  { apply (f_equal (drop 9)) in E. unfold encode in E. cbn in E. exact E. }
  destruct f as [s b], f' as [s' b']. destruct b; destruct b'; try done; cbn in T; by repeat case_match.
Qed.

Lemma shown_decoded sid fs :
  Forall readable fs -> shown (on_stream sid (omap (fun f => decoded (encode f)) fs)) = shown (on_stream sid fs).
Proof.
  induction 1 as [|f fs (f' & E & Es & Et) _ IH]; [done|]. cbn [omap list_omap]. rewrite E.
  unfold on_stream in *. cbn [List.filter]. rewrite Es. destruct (stream_id f =? sid); [|done].
  unfold shown in *. cbn [map concat]. by rewrite IH, (decoded_data f f').
Qed.

(** A frame that arrives as it was sent. *)
Definition faithful (f : Frame) : Prop := decoded (encode f) = Some f.

Lemma wf_faithful f : wf_frame f -> faithful f.
Proof. intros W. unfold faithful, decoded. by rewrite ws_payload_encode. Qed.

Lemma on_stream_decoded sid fs :
  Forall readable fs -> Forall faithful (on_stream sid fs) ->
  on_stream sid (omap (fun f => decoded (encode f)) fs) = on_stream sid fs.
Proof.
  induction 1 as [|f fs (f' & E & Es & _) _ IH]; intros F; [done|]. cbn [omap list_omap]. rewrite E.
  unfold on_stream in *. cbn [List.filter] in *. rewrite Es. destruct (stream_id f =? sid); [|by apply IH].
  apply Forall_cons in F as [Ff F]. rewrite (IH F). unfold faithful in Ff. congruence.
Qed.

Section Wire.
Context {Ch Sem : Type} `{MpscLaws (Z * list byte) Ch} `{SemaphoreLaws Sem}.
Variable half_of : FrameType -> Half.

(** The frames that travel in one half. *)
Definition on_half (h : Half) (fs : list Frame) : list Frame := List.filter (fun f => same_half (half_of (ty f)) h) fs.

(** What is behind the reader, and what else happens there. *)
Context {Peer Other : Type} (deliver : Frame -> Z -> Peer -> Peer) (other : Other -> Peer -> Peer).

Inductive WireEvent := WSend (f : Frame) | WWriter | WReader | WOther (o : Other).

(** The queue with its history, how many messages the reader has taken, the
    frames the writer accepted and those the reader decoded. *)
Record Wire := mk_wire {
  queue : @History Ch Sem;
  taken_count : nat;
  put_frames : list Frame;
  got_frames : list Frame;
  peer : Peer;
  broken : bool;
}.

Definition wire_step (w : Wire) (e : WireEvent) : Wire :=
  match e with
  | WSend f =>
      let h := half_of (ty f) in
      let t := run_op (queue w) (OSend h (encode f)) in
      let ok := Prio.open (half h (chan (queue w))) && match (bytes_send (encode f) (half h (chan (queue w)))).2 with SendOk => true | _ => false end in
      mk_wire t (taken_count w) (if ok then put_frames w ++ [f] else put_frames w) (got_frames w) (peer w) (broken w)
  | WWriter => mk_wire (run_op (queue w) ORecv) (taken_count w) (put_frames w) (got_frames w) (peer w) (broken w)
  | WReader =>
      if broken w then w
      else
        match received (queue w) !! taken_count w with
        | None => w
        | Some (_, m) =>
            match frame_from_ws_payload m with
            | Ok (f, n) => mk_wire (queue w) (S (taken_count w)) (put_frames w) (got_frames w ++ [f]) (deliver f n (peer w)) false
            | _ => mk_wire (queue w) (taken_count w) (put_frames w) (got_frames w) (peer w) true
            end
        end
  | WOther o => mk_wire (queue w) (taken_count w) (put_frames w) (got_frames w) (other o (peer w)) (broken w)
  end.
Definition wire_run (cap_hi cap_lo : Z) (p : Peer) (es : list WireEvent) : Wire :=
  foldl wire_step (mk_wire (mk_history (prio_channel cap_hi cap_lo) [] []) 0 [] [] p false) es.

(** ** The invariant *)

Definition tagged (f : Frame) : Half * list byte := (half_of (ty f), encode f).
Definition dec_tagged (m : Half * list byte) : option Frame := decoded m.2.

Record wire_ok (cap_hi cap_lo : Z) (w : Wire) : Prop := {
  w_queue : history_ok cap_hi cap_lo (queue w);
  w_put : accepted (queue w) = tagged <$> put_frames w;
  w_count : (taken_count w <= length (received (queue w)))%nat;
  w_got : got_frames w = omap dec_tagged (take (taken_count w) (received (queue w)));
  w_unbroken : Forall readable (put_frames w) -> broken w = false;
}.

Lemma of_half_tagged h fs : of_half h (tagged <$> fs) = encode <$> on_half h fs.
Proof.
  induction fs as [|f fs IH]; [done|]. unfold of_half, on_half in *. cbn [fmap list_fmap omap list_omap List.filter tagged].
  rewrite IH. by destruct (half_of (ty f)), h.
Qed.

(** A message the writer moved is a frame it was given. *)
Lemma received_frame ch cl w h m :
  wire_ok ch cl w -> (h, m) ∈ received (queue w) -> exists f, f ∈ put_frames w /\ half_of (ty f) = h /\ m = encode f.
Proof.
  intros [Kq Kp _ _ _] Hm. pose proof (h_order _ _ _ Kq h) as O. rewrite Kp, of_half_tagged in O.
  assert (Hin : m ∈ encode <$> on_half h (put_frames w)).
  { rewrite O. apply elem_of_app. left. unfold of_half. apply list_elem_of_omap. exists (h, m). split; [done|]. by destruct h. }
  apply list_elem_of_fmap in Hin as (f & -> & Hf). unfold on_half in Hf. apply list_elem_of_In, List.filter_In in Hf as [Hf E].
  apply list_elem_of_In in Hf. exists f. split; [done|]. split; [|done]. by destruct (half_of (ty f)), h.
Qed.

Lemma wire_step_ok ch cl w e : wire_ok ch cl w -> wire_ok ch cl (wire_step w e).
Proof.
  intros K. pose proof K as [Kq Kp Kc Kg Kb]. destruct e as [f| | |o]; cbn [wire_step].
  - split; cbn [queue put_frames got_frames taken_count broken].
    + by apply run_send_ok.
    + cbn [run_op]. destruct (Prio.open _); [|done]. destruct (bytes_send _ _) as [b []]; cbn; rewrite ?Kp; try done.
      by rewrite fmap_app.
    + cbn [run_op]. destruct (Prio.open _); [|done]. by destruct (bytes_send _ _) as [b r].
    + rewrite Kg. cbn [run_op]. destruct (Prio.open _); [|done]. by destruct (bytes_send _ _) as [b r].
    + intros F. apply Kb. destruct (_ && _); [|done]. by apply Forall_app in F as [F _].
  - assert (R : exists l, received (run_op (queue w) ORecv) = received (queue w) ++ l
                  /\ accepted (run_op (queue w) ORecv) = accepted (queue w)).
    { cbn [run_op]. destruct (prio_recv _ _) as [p' [|m|]]; cbn; [by exists []; rewrite app_nil_r|by eexists|by exists []; rewrite app_nil_r]. }
    destruct R as (l & R & A). split; cbn [queue put_frames got_frames taken_count broken]; [by apply run_recv_ok|by rewrite A|..|done].
    + rewrite R, length_app. lia.
    + by rewrite R, take_app_le.
  - destruct (broken w) eqn:Eb; [done|]. destruct (received (queue w) !! taken_count w) as [[h m]|] eqn:Em; [|done].
    assert (L : (S (taken_count w) <= length (received (queue w)))%nat) by (apply lookup_lt_Some in Em; lia).
    assert (U : Forall readable (put_frames w) -> exists f, decoded m = Some f).
    { intros F. apply list_elem_of_lookup_2, (received_frame ch cl w h m K) in Em as (f & Hf & _ & ->).
      rewrite Forall_forall in F. destruct (F f Hf) as (f' & E & _). by exists f'. }
    unfold decoded in U. destruct (frame_from_ws_payload m) as [[f n]| |] eqn:Ef.
    + split; cbn [queue put_frames got_frames taken_count broken]; try done.
      rewrite (take_S_r _ _ _ Em), omap_app, Kg. cbn. unfold dec_tagged, decoded. cbn. by rewrite Ef.
    + split; cbn [queue put_frames got_frames taken_count broken]; try done. intros F. by destruct (U F).
    + split; cbn [queue put_frames got_frames taken_count broken]; try done. intros F. by destruct (U F).
  - by split.
Qed.

Lemma wire_run_ok ch cl p es : 0 <= ch -> 0 <= cl -> wire_ok ch cl (wire_run ch cl p es).
Proof.
  intros Ph Pl. unfold wire_run. assert (K : wire_ok ch cl (mk_wire (mk_history (prio_channel ch cl) [] []) 0 [] [] p false)).
  { split; try done. apply (history_holds ch cl [] Ph Pl). }
  revert K. generalize (mk_wire (mk_history (prio_channel ch cl) [] []) 0 [] [] p false).
  induction es as [|e es IH]; intros w K; [done|]. apply IH, wire_step_ok, K.
Qed.

(** What is behind the reader sees the decoded frames, in order. *)
Lemma wire_run_peer (P : Peer -> list Frame -> Prop) ch cl p es :
  P p [] -> (forall q fs f n, P q fs -> P (deliver f n q) (fs ++ [f])) -> (forall q fs o, P q fs -> P (other o q) fs) ->
  let w := wire_run ch cl p es in P (peer w) (got_frames w).
Proof.
  intros P0 Pd Po. unfold wire_run.
  assert (G : forall w, P (peer w) (got_frames w) -> P (peer (foldl wire_step w es)) (got_frames (foldl wire_step w es))); [|by apply G].
  induction es as [|e es IH]; intros w K; [done|]. cbn [foldl]. apply IH. destruct e; cbn [wire_step peer got_frames]; [done|done| |by apply Po].
  destruct (broken w); [done|]. destruct (received _ !! _) as [[h m]|]; [|done].
  destruct (frame_from_ws_payload m) as [[f n]| |]; [by apply Pd|done..].
Qed.

(** ** First in, first out in each half *)

Lemma omap_prefix {A B} (f : A -> option B) a b : a `prefix_of` b -> omap f a `prefix_of` omap f b.
Proof. intros [c ->]. rewrite omap_app. by apply prefix_app_r. Qed.
Lemma on_half_prefix h a b : a `prefix_of` b -> on_half h a `prefix_of` on_half h b.
Proof. intros [c ->]. unfold on_half. rewrite List.filter_app. by apply prefix_app_r. Qed.

Lemma got_decodes ch cl w h :
  wire_ok ch cl w -> Forall readable (put_frames w) ->
  on_half h (got_frames w) = omap decoded (of_half h (take (taken_count w) (received (queue w)))) /\
  omap (fun f => decoded (encode f)) (on_half h (put_frames w)) = omap decoded (of_half h (accepted (queue w))).
Proof.
  intros K F. pose proof K as [Kq Kp _ Kg _].
  assert (E : forall l, (forall x, x ∈ l -> x ∈ received (queue w)) -> on_half h (omap dec_tagged l) = omap decoded (of_half h l)).
  { induction l as [|[k m] l IH]; intros Hl; [done|]. unfold on_half, of_half in *. cbn [omap list_omap]. unfold dec_tagged at 1. cbn [snd].
    destruct (received_frame ch cl w k m K (Hl _ (list_elem_of_here _ _))) as (f & Hf & Ek & ->).
    rewrite Forall_forall in F. destruct (F f Hf) as (f' & Ed & _ & Et). rewrite Ed. cbn [List.filter]. rewrite Et, Ek, IH
      by (intros x Hx; apply Hl; by constructor).
    destruct k, h; cbn [omap list_omap same_half]; by rewrite ?Ed. }
  rewrite Kg, E by (intros x Hx; by apply (subseteq_take _ _ x Hx)). split; [done|]. rewrite Kp, of_half_tagged.
  induction (on_half h (put_frames w)) as [|f fs IH]; cbn [fmap list_fmap omap list_omap]; [done|by rewrite IH].
Qed.

Lemma got_fifo ch cl w h :
  wire_ok ch cl w -> Forall readable (put_frames w) ->
  on_half h (got_frames w) `prefix_of` omap (fun f => decoded (encode f)) (on_half h (put_frames w)).
Proof.
  intros K F. destruct (got_decodes ch cl w h K F) as [-> ->]. apply omap_prefix. rewrite (h_order _ _ _ (w_queue _ _ _ K) h).
  assert (D : of_half h (received (queue w)) = of_half h (take (taken_count w) (received (queue w))) ++ of_half h (drop (taken_count w) (received (queue w))))
    by (by rewrite <- of_half_app, take_drop).
  rewrite D, <- app_assoc. by apply prefix_app_r.
Qed.

(** Once nothing is in flight, all of it. *)
Definition all_arrived (w : Wire) : Prop :=
  held (hi (chan (queue w))) = [] /\ held (lo (chan (queue w))) = [] /\ taken_count w = length (received (queue w)).

Lemma got_all ch cl w h :
  wire_ok ch cl w -> Forall readable (put_frames w) -> all_arrived w ->
  on_half h (got_frames w) = omap (fun f => decoded (encode f)) (on_half h (put_frames w)).
Proof.
  intros K F (Eh & El & En). destruct (got_decodes ch cl w h K F) as [-> ->]. rewrite (h_order _ _ _ (w_queue _ _ _ K) h), En, firstn_all.
  f_equal. destruct h; cbn [half]; by rewrite ?Eh, ?El, app_nil_r.
Qed.

(** So the terminal data of a stream arrives in order and without a gap: what
    has arrived is the beginning of what was put in. *)
Lemma shown_half h sid fs : half_of Ty.Data = h -> shown (on_stream sid (on_half h fs)) = shown (on_stream sid fs).
Proof.
  intros Hh. induction fs as [|f fs IH]; [done|]. unfold on_half, on_stream, shown in *. cbn [List.filter].
  destruct (same_half (half_of (ty f)) h) eqn:S; cbn [List.filter]; destruct (stream_id f =? sid); cbn [map concat]; rewrite ?IH; try done.
  destruct f as [s b]. destruct b; cbn [ty body] in *; try done. rewrite Hh in S. by destruct h.
Qed.
Lemma readable_half h fs : Forall readable fs -> Forall readable (on_half h fs).
Proof.
  unfold on_half. rewrite !Forall_forall. intros F f Hf. apply F. apply list_elem_of_In, List.filter_In in Hf as [Hf _].
  by apply list_elem_of_In.
Qed.

Lemma shown_arrives ch cl w sid :
  wire_ok ch cl w -> Forall readable (put_frames w) ->
  shown (on_stream sid (got_frames w)) `prefix_of` shown (on_stream sid (put_frames w)) /\
  (all_arrived w -> shown (on_stream sid (got_frames w)) = shown (on_stream sid (put_frames w))).
Proof.
  intros K F. set (h := half_of Ty.Data). rewrite <- (shown_half h sid (got_frames w)), <- (shown_half h sid (put_frames w)) by done.
  rewrite <- (shown_decoded sid (on_half h (put_frames w))) by (by apply readable_half). split.
  - by apply shown_on_stream_prefix, (got_fifo ch cl).
  - intros A. by rewrite (got_all ch cl).
Qed.

(** Frames that arrive as they were sent arrive in order, without a gap, in
    their half. *)
Lemma on_stream_prefix sid a b : a `prefix_of` b -> on_stream sid a `prefix_of` on_stream sid b.
Proof. intros [c ->]. rewrite on_stream_app. by apply prefix_app_r. Qed.

Lemma stream_arrives ch cl w sid h :
  wire_ok ch cl w -> Forall readable (put_frames w) -> Forall faithful (on_stream sid (on_half h (put_frames w))) ->
  on_stream sid (on_half h (got_frames w)) `prefix_of` on_stream sid (on_half h (put_frames w)) /\
  (all_arrived w -> on_stream sid (on_half h (got_frames w)) = on_stream sid (on_half h (put_frames w))).
Proof.
  intros K F Ff. rewrite <- (on_stream_decoded sid (on_half h (put_frames w))) by (done || by apply readable_half). split.
  - by apply on_stream_prefix, (got_fifo ch cl).
  - intros A. by rewrite (got_all ch cl).
Qed.
End Wire.
