(* ===== verification/Link.v ===== *)
(** * Link: the hub's side of one agent connection ([hub/src/agent_link.rs])

    One connection carries any number of streams, one per browser tab, and a
    request/response channel on stream 0.  Tasks share the link: an operation
    here is the part of a task between two points where it can be suspended,
    and a send that has to wait for room is polled again.  Channels, permits
    and one-shots are tokio's ([Tokio], [Prio]). *)

From Stdlib Require Import Strings.Byte.
From stdpp Require Import prelude strings list gmap.
From S2P Require Import Prelude Tokio Prio Frame.

Definition HUB_WRITER_HI_BYTES : Z := 4 * 1024 * 1024.
Definition HUB_WRITER_LO_BYTES : Z := 16 * 1024 * 1024.
Definition STREAM_CHAN_CAP : nat := 64.
Definition MAX_STREAMS_PER_AGENT : nat := 256.

Abbreviation Ref := nat.

Section Link.
Context {WCh Sem BCh : Type} `{Mpsc (Z * list byte) WCh} `{Semaphore Sem} `{Mpsc Body BCh}.

(** [struct AgentLink].  The channels of the streams live in [chans]: the
    registry [streams] owns the sender of one, its proxy owns the receiver.
    [pending_rpcs] maps a request id to the call that waits; [replies] is what
    the one-shots have been given. *)
Record AgentLink := mk_link {
  writer : Prio (Bytes WCh Sem);
  next_stream_id : Z;
  streams : gmap Z Ref;
  chans : gmap Ref BCh;
  next_ref : Ref;
  next_request_id : Z;
  pending_rpcs : gmap Z Ref;
  replies : gmap Ref Body;
  bytes_in : Z; bytes_out : Z; frames_in : Z; frames_out : Z;
}.

(** The link [handle_connection] creates once the hello was accepted. *)
Definition new_link (hello_bytes_in : Z) : AgentLink :=
  mk_link (prio_channel HUB_WRITER_HI_BYTES HUB_WRITER_LO_BYTES) 1 ∅ ∅ O 1 ∅ ∅
    (as_u64 hello_bytes_in) 0 1 0.

Definition set_writer (w : Prio (Bytes WCh Sem)) (l : AgentLink) : AgentLink :=
  mk_link w (next_stream_id l) (streams l) (chans l) (next_ref l) (next_request_id l)
    (pending_rpcs l) (replies l) (bytes_in l) (bytes_out l) (frames_in l) (frames_out l).
Definition set_streams (ss : gmap Z Ref) (cs : gmap Ref BCh) (l : AgentLink) : AgentLink :=
  mk_link (writer l) (next_stream_id l) ss cs (next_ref l) (next_request_id l)
    (pending_rpcs l) (replies l) (bytes_in l) (bytes_out l) (frames_in l) (frames_out l).
Definition set_rpcs (ps : gmap Z Ref) (rs : gmap Ref Body) (l : AgentLink) : AgentLink :=
  mk_link (writer l) (next_stream_id l) (streams l) (chans l) (next_ref l) (next_request_id l)
    ps rs (bytes_in l) (bytes_out l) (frames_in l) (frames_out l).
Definition count_out (n : Z) (l : AgentLink) : AgentLink :=
  mk_link (writer l) (next_stream_id l) (streams l) (chans l) (next_ref l) (next_request_id l)
    (pending_rpcs l) (replies l) (bytes_in l) (as_u64 (bytes_out l + n)) (frames_in l) (as_u64 (frames_out l + 1)).
Definition count_in (n : Z) (l : AgentLink) : AgentLink :=
  mk_link (writer l) (next_stream_id l) (streams l) (chans l) (next_ref l) (next_request_id l)
    (pending_rpcs l) (replies l) (as_u64 (bytes_in l + n)) (bytes_out l) (as_u64 (frames_in l + 1)) (frames_out l).

(** Which half of the writer queue a frame goes through. *)
Definition writer_half (t : FrameType) : Half :=
  match t with
  | Ty.PasteBegin | Ty.PasteChunk | Ty.PasteEnd => Lo
  | _ => Hi
  end.

(** [AgentLink::send_frame], one poll *)
Definition send_frame (f : Frame) (l : AgentLink) : AgentLink * SendPoll :=
  let h := writer_half (ty f) in
  let encoded := encode f in
  let '(b, r) := bytes_send encoded (half h (writer l)) in
  let l := set_writer (set_half h b (writer l)) l in
  match r with
  | SendOk => (count_out (len encoded) l, SendOk)
  | _ => (l, r)
  end.

(** Removing a stream from the registry drops its sender. *)
Definition drop_stream (sid : Z) (l : AgentLink) : AgentLink :=
  match streams l !! sid with
  | None => l
  | Some r => set_streams (delete sid (streams l)) (alter ch_drop_tx r (chans l)) l
  end.

(** The loop of [open_stream] that picks an id: the counter wraps around and
    0 is skipped, so it takes at most two turns. *)
Definition next_id (n : Z) : Z * Z :=
  if n =? 0 then let n := as_u32 (n + 1) in (n, as_u32 (n + 1)) else (n, as_u32 (n + 1)).

(** [AgentLink::open_stream]: the stream's id and its channel.  Inserting under
    an id that is taken drops the sender that was there. *)
Definition open_stream (l : AgentLink) : AgentLink * (Z * Ref) :=
  let '(id, next) := next_id (next_stream_id l) in
  let r := next_ref l in
  let l := drop_stream id l in
  (mk_link (writer l) next (<[id := r]> (streams l)) (<[r := ch_new (Some STREAM_CHAN_CAP)]> (chans l)) (S r)
     (next_request_id l) (pending_rpcs l) (replies l) (bytes_in l) (bytes_out l) (frames_in l) (frames_out l),
   (id, r)).

(** [AgentLink::stream_count] *)
Definition stream_count (l : AgentLink) : nat := base.size (streams l).

(** [StreamSink::send], one poll *)
Definition sink_send (sid : Z) (body : Body) (l : AgentLink) : AgentLink * SendPoll :=
  send_frame (mk_frame sid body) l.

(** [StreamSource::recv], one poll *)
Definition source_recv (r : Ref) (l : AgentLink) : AgentLink * RecvPoll Body :=
  match chans l !! r with
  | None => (l, GotNone)
  | Some c =>
      let '(c, p) := item_recv c in (set_streams (streams l) (<[r := c]> (chans l)) l, p)
  end.

(** Dropping both halves of a stream: the receiver goes at once; the task that
    [StreamGuard::drop] spawns then removes the stream and sends [Close]. *)
Definition drop_source (r : Ref) (l : AgentLink) : AgentLink :=
  set_streams (streams l) (alter ch_drop_rx r (chans l)) l.
Definition guard_remove (sid : Z) (l : AgentLink) : AgentLink := drop_stream sid l.
Definition guard_close (sid : Z) (l : AgentLink) : AgentLink * SendPoll := send_frame (close sid) l.

(** ** Requests *)

Inductive RpcError := WriterClosed | AgentDropped | NoAnswer | UnexpectedResponse.

(** [rpc] up to the point where it waits for the answer; [who] is the caller's
    one-shot. *)
Definition rpc_start (who : Ref) (build : Z -> Frame) (l : AgentLink) : AgentLink * (Z * SendPoll) :=
  let id := next_request_id l in
  let l := mk_link (writer l) (next_stream_id l) (streams l) (chans l) (next_ref l) (as_u32 (id + 1))
             (<[id := who]> (pending_rpcs l)) (replies l) (bytes_in l) (bytes_out l) (frames_in l) (frames_out l) in
  let '(l, r) := send_frame (build id) l in
  match r with
  | SendErr _ => (set_rpcs (delete id (pending_rpcs l)) (replies l) l, (id, r))
  | _ => (l, (id, r))
  end.

(** The end of the wait: an answer, or the deadline (or the one-shot dropped). *)
Definition rpc_finish (who : Ref) (id : Z) (timed_out : bool) (l : AgentLink)
    : AgentLink * (RpcError + Body) :=
  match replies l !! who with
  | Some b => (l, inr b)
  | None =>
      (set_rpcs (delete id (pending_rpcs l)) (replies l) l,
       inl (if timed_out then NoAnswer else AgentDropped))
  end.

(** [kill_session] on the answer *)
Definition kill_session_result (b : Body) : RpcError + bool :=
  match b with
  | Bd.KillSessionAck _ status => inr (status =? KILL_STATUS_OK)
  | _ => inl UnexpectedResponse
  end.

(** ** The reader loop *)

(** What one turn of the reader loop ends in: the next turn, a wait for room in
    the writer queue, or the end of the connection. *)
Inductive ReadTurn := Next | AwaitWriter | Bail (why : list byte).

(** An answer of the agent, to the call that waits for it. *)
Definition deliver_reply (request_id : Z) (b : Body) (l : AgentLink) : AgentLink :=
  match pending_rpcs l !! request_id with
  | Some who => set_rpcs (delete request_id (pending_rpcs l)) (<[who := b]> (replies l)) l
  | None => l
  end.

(** A frame for a stream: never waits; a stream whose channel is full, or
    whose receiver is gone, is dropped. *)
Definition deliver_body (sid : Z) (b : Body) (l : AgentLink) : AgentLink :=
  match streams l !! sid with
  | None => l
  | Some r =>
      match chans l !! r with
      | None => l
      | Some c =>
          let '(c, sent) := ch_send b c in
          let l := set_streams (streams l) (<[r := c]> (chans l)) l in
          match sent with Sent => l | _ => drop_stream sid l end
      end
  end.

(** One turn of the loop in [handle_connection], on a frame of [n] bytes. *)
Definition reader_turn (f : Frame) (n : Z) (l : AgentLink) : AgentLink * ReadTurn :=
  let l := count_in n l in
  if stream_id f =? 0 then
    match body f with
    | Bd.Ping p =>
        let '(l, r) := send_frame (pong p) l in
        (l, match r with Sending => AwaitWriter | _ => Next end)
    | Bd.Pong _ => (l, Next)
    | Bd.Hello _ => (l, Bail (lit "hello after registration"))
    | Bd.SessionList id _ | Bd.KillSessionAck id _ => (deliver_reply id (body f) l, Next)
    | _ => (l, Bail (lit "unexpected control frame"))
    end
  else (deliver_body (stream_id f) (body f) l, Next).

(** The teardown of the streams when the connection ends. *)
Definition clear_streams (l : AgentLink) : AgentLink :=
  set_streams ∅ (foldr (fun r cs => alter ch_drop_tx r cs) (chans l) (map_to_list (streams l)).*2) l.
End Link.
Arguments AgentLink : clear implicits.

(** ** The registry of agents *)

(** [AppState.agents]: one link per machine.  Installing a link returns the
    one it replaces, which is told to close. *)
Abbreviation Agents := (gmap (list byte) Ref).

Definition install_link (machine_id : list byte) (link : Ref) (agents : Agents) : Agents * option Ref :=
  (<[machine_id := link]> agents, agents !! machine_id).

(** The teardown removes the entry only while it is still its own
    ([Arc::ptr_eq]). *)
Definition uninstall_link (machine_id : list byte) (link : Ref) (agents : Agents) : Agents :=
  match agents !! machine_id with
  | Some cur => if bool_decide (cur = link) then delete machine_id agents else agents
  | None => agents
  end.
