(* ===== verification/LinkFacts.v ===== *)
(** * LinkFacts: routing on the hub's agent connections *)

From Stdlib Require Import Strings.Byte.
From stdpp Require Import prelude strings list gmap.
From S2P Require Import Prelude Tokio Prio Frame FrameFacts Link.

Section LinkFacts.
Context {WCh Sem BCh : Type} `{MpscLaws (Z * list byte) WCh} `{SemaphoreLaws Sem} `{MpscLaws Body BCh}.
Abbreviation LinkT := (AgentLink WCh Sem BCh).

(** ** What the writer leaves alone *)

(** Two links that differ in their writer and counters only. *)
Record same_routes (l l' : LinkT) : Prop := {
  sr_id : next_stream_id l' = next_stream_id l;
  sr_streams : streams l' = streams l;
  sr_chans : chans l' = chans l;
  sr_ref : next_ref l' = next_ref l;
}.
Record same_rpcs (l l' : LinkT) : Prop := {
  sp_pending : pending_rpcs l' = pending_rpcs l;
  sp_replies : replies l' = replies l;
}.

Lemma send_frame_same f l : same_routes l (send_frame f l).1 /\ same_rpcs l (send_frame f l).1.
Proof. unfold send_frame. destruct (bytes_send _ _) as [b r]. by destruct r. Qed.

Lemma rpc_start_routes who build l : same_routes l (rpc_start who build l).1.
Proof.
  unfold rpc_start. match goal with |- context [send_frame ?f ?m] =>
    pose proof (send_frame_same f m) as [[Hi Hs Hc Hr] _]; destruct (send_frame f m) as [l' r] end.
  by destruct r.
Qed.

Lemma drop_stream_rpcs sid l : same_rpcs l (drop_stream sid l).
Proof. unfold drop_stream. by destruct (streams l !! sid). Qed.

Lemma drop_stream_writer sid (l : LinkT) :
  writer (drop_stream sid l) = writer l /\ next_stream_id (drop_stream sid l) = next_stream_id l.
Proof. unfold drop_stream. by destruct (streams l !! sid). Qed.

Lemma deliver_body_writer sid b (l : LinkT) :
  writer (deliver_body sid b l) = writer l /\ next_stream_id (deliver_body sid b l) = next_stream_id l.
Proof.
  unfold deliver_body. destruct (streams l !! sid) as [r|]; [|done]. destruct (chans l !! r) as [c|]; [|done].
  destruct (ch_send b c) as [c' []]; [done|..];
    by match goal with |- context [drop_stream sid ?m] => destruct (drop_stream_writer sid m) as [-> ->] end.
Qed.

Lemma deliver_body_rpcs sid b l : same_rpcs l (deliver_body sid b l).
Proof.
  unfold deliver_body. destruct (streams l !! sid) as [r|]; [|done]. destruct (chans l !! r) as [c|]; [|done].
  destruct (ch_send b c) as [c' s].
  match goal with |- context [drop_stream sid ?m] => pose proof (drop_stream_rpcs sid m) as [E1 E2] end.
  destruct s; [done|by split; rewrite ?E1, ?E2..].
Qed.

(** ** Histories of a link *)

(** What tasks do to a link.  The order is arbitrary, and so are the stream
    ids the tasks of dropped streams name. *)
Inductive LinkEvent :=
| LOpen
| LFrame (f : Frame) (n : Z)
| LRecv (r : Ref)
| LDropSource (r : Ref)
| LGuardRemove (sid : Z)
| LGuardClose (sid : Z)
| LSend (sid : Z) (b : Body)
| LRpcStart (who : Ref) (build : Z -> Frame)
| LRpcFinish (who : Ref) (id : Z) (timed_out : bool)
| LClear.

(** The link with its history: the bodies the reader took for data streams,
    what each stream's proxy was handed, when each stream was opened and under
    which id, and the request id of each call. *)
Record World := mk_world {
  link : LinkT;
  log : list (Z * Body);
  taken : list (Ref * Body);
  born : gmap Ref (Z * nat);
  started : gmap Ref Z;
}.

Definition with_link (w : World) (l : LinkT) : World := mk_world l (log w) (taken w) (born w) (started w).

Definition link_step (w : World) (e : LinkEvent) : World :=
  let l := link w in
  match e with
  | LOpen =>
      let '(l, (sid, r)) := open_stream l in
      mk_world l (log w) (taken w) (<[r := (sid, length (log w))]> (born w)) (started w)
  | LFrame f n =>
      mk_world (reader_turn f n l).1
        (if stream_id f =? 0 then log w else log w ++ [(stream_id f, body f)]) (taken w) (born w) (started w)
  | LRecv r =>
      let '(l, p) := source_recv r l in
      mk_world l (log w) (match p with Got b => taken w ++ [(r, b)] | _ => taken w end) (born w) (started w)
  | LDropSource r => with_link w (drop_source r l)
  | LGuardRemove sid => with_link w (guard_remove sid l)
  | LGuardClose sid => with_link w (guard_close sid l).1
  | LSend sid b => with_link w (sink_send sid b l).1
  | LRpcStart who build =>
      match started w !! who with
      | Some _ => w
      | None =>
          let '(l, (id, _)) := rpc_start who build l in
          mk_world l (log w) (taken w) (born w) (<[who := id]> (started w))
      end
  | LRpcFinish who id t => with_link w (rpc_finish who id t l).1
  | LClear => with_link w (clear_streams l)
  end.
Definition link_run (hello : Z) (es : list LinkEvent) : World :=
  foldl link_step (mk_world (new_link hello) [] [] ∅ ∅) es.

(** The bodies for one stream id in a log, and those one proxy was handed. *)
Definition addressed (sid : Z) (l : list (Z * Body)) : list Body :=
  omap (fun '(s, b) => if s =? sid then Some b else None) l.
Definition taken_of (r : Ref) (l : list (Ref * Body)) : list Body :=
  omap (fun '(q, b) => if bool_decide (q = r) then Some b else None) l.

Lemma addressed_app sid a b : addressed sid (a ++ b) = addressed sid a ++ addressed sid b.
Proof. apply omap_app. Qed.
Lemma taken_app r a b : taken_of r (a ++ b) = taken_of r a ++ taken_of r b.
Proof. apply omap_app. Qed.

(** ** The routing invariant *)

(** The state of the stream [r]: what its proxy was handed, followed by what
    is queued for it, is a prefix of what was addressed to it; all of it while
    both its ends are there. *)
Record stream_ok (w : World) (r : Ref) (sid : Z) (k : nat) : Prop := {
  st_ref : (r < next_ref (link w))%nat;
  st_born : (k <= length (log w))%nat;
  st_chan : exists c, chans (link w) !! r = Some c /\
    ch_cap (view c) = Some STREAM_CHAN_CAP /\ (length (ch_items (view c)) <= STREAM_CHAN_CAP)%nat /\
    let got := taken_of r (taken w) ++ ch_items (view c) in
    let sent := addressed sid (drop k (log w)) in
    got `prefix_of` sent /\
    (streams (link w) !! sid = Some r -> ch_rx (view c) = true -> got = sent);
}.

Record routes_ok (w : World) : Prop := {
  ro_streams : forall r sid k, born w !! r = Some (sid, k) -> stream_ok w r sid k;
  ro_born : forall sid r, streams (link w) !! sid = Some r -> exists k, born w !! r = Some (sid, k);
  ro_fresh : forall r, (next_ref (link w) <= r)%nat -> born w !! r = None /\ taken_of r (taken w) = [] /\ chans (link w) !! r = None;
}.

Lemma routes_same w l :
  same_routes (link w) l -> routes_ok w -> routes_ok (with_link w l).
Proof.
  intros [Ei Es Ec Er] [Ks Kb Kf]. split; cbn [link log taken born with_link].
  - intros r sid k Hb. destruct (Ks r sid k Hb) as [S1 S2 S3]. split; cbn; [by rewrite Er|done|].
    by rewrite Ec, Es.
  - by rewrite Es.
  - by rewrite Er, Ec.
Qed.

(** Taking streams out of the registry, and closing ends, keeps every prefix. *)
Lemma routes_shrink w l :
  next_ref l = next_ref (link w) ->
  (forall sid r, streams l !! sid = Some r -> streams (link w) !! sid = Some r) ->
  (forall r c, chans (link w) !! r = Some c -> exists c', chans l !! r = Some c' /\
     ch_cap (view c') = ch_cap (view c) /\
     (ch_items (view c') = ch_items (view c) /\ ch_rx (view c') = ch_rx (view c) \/
      ch_items (view c') = [] /\ ch_rx (view c') = false)) ->
  (forall r, chans (link w) !! r = None -> chans l !! r = None) ->
  routes_ok w -> routes_ok (with_link w l).
Proof.
  intros Er Es Ec En [Ks Kb Kf]. split; cbn [link log taken born with_link].
  - intros r sid k Hb. destruct (Ks r sid k Hb) as [S1 S2 (c & Hc & Hcap & Hlen & Hp & Ha)].
    destruct (Ec r c Hc) as (c' & Hc' & Hcap' & C). split; cbn; [by rewrite Er|done|].
    exists c'. rewrite Hcap'. split; [done|]. split; [done|]. destruct C as [[-> ->]|[-> ->]].
    + split; [done|]. split; [done|]. intros Hs. apply Ha. by apply Es.
    + split; [cbn; lia|]. split; [|done]. rewrite app_nil_r. etrans; [|apply Hp]. by apply prefix_app_r.
  - intros sid r Hs. apply Kb, Es, Hs.
  - intros r Hr. rewrite Er in Hr. destruct (Kf r Hr) as (E1 & E2 & E3). auto.
Qed.

Lemma drop_stream_shrinks sid (l : LinkT) :
  next_ref (drop_stream sid l) = next_ref l /\ next_stream_id (drop_stream sid l) = next_stream_id l /\
  (forall s r, streams (drop_stream sid l) !! s = Some r -> streams l !! s = Some r /\ s <> sid) /\
  (forall r c, chans l !! r = Some c -> exists c', chans (drop_stream sid l) !! r = Some c' /\
     ch_cap (view c') = ch_cap (view c) /\ ch_items (view c') = ch_items (view c) /\ ch_rx (view c') = ch_rx (view c)) /\
  (forall r, chans l !! r = None -> chans (drop_stream sid l) !! r = None).
Proof.
  unfold drop_stream. destruct (streams l !! sid) as [q|] eqn:E.
  - split; [done|]. split; [done|]. cbn. split_and!.
    + intros s r Hs. apply lookup_delete_Some in Hs as [? ?]. done.
    + intros r c Hc. destruct (decide (q = r)) as [->|Hne].
      * rewrite lookup_alter_eq, Hc. cbn. eexists. split; [done|]. by rewrite view_drop_tx.
      * rewrite lookup_alter_ne by done. eauto.
    + intros r Hr. destruct (decide (q = r)) as [->|Hne]; [by rewrite lookup_alter_eq, Hr|by rewrite lookup_alter_ne].
  - split_and!; try done; [|eauto 10]. intros s r Hs. split; [done|]. congruence.
Qed.

Lemma routes_drop w sid : routes_ok w -> routes_ok (with_link w (drop_stream sid (link w))).
Proof.
  destruct (drop_stream_shrinks sid (link w)) as (Er & _ & Es & Ec & En). apply routes_shrink; [done| | |done].
  - intros s r Hs. by apply Es in Hs as [? _].
  - intros r c Hc. destruct (Ec r c Hc) as (c' & ? & ? & ? & ?). eauto 10.
Qed.

Lemma routes_open w : routes_ok w -> routes_ok (link_step w LOpen).
Proof.
  intros K. cbn [link_step]. unfold open_stream. destruct (next_id (next_stream_id (link w))) as [sid next].
  pose proof (routes_drop w sid K) as [Ks Kb Kf]. cbn [link log taken born with_link] in *.
  destruct (drop_stream_shrinks sid (link w)) as (Er & _ & Es & _). rewrite Er in *.
  set (l := drop_stream sid (link w)) in *. set (r0 := next_ref (link w)) in *.
  destruct (Kf r0 ltac:(lia)) as (Hb0 & Ht0 & _).
  split; cbn [link log taken born streams chans next_ref].
  - intros r s k Hb. destruct (decide (r = r0)) as [->|Hne].
    + rewrite lookup_insert_eq in Hb. injection Hb as <- <-. split; cbn [link log taken chans streams next_ref]; [lia|done|].
      eexists. rewrite lookup_insert_eq. split; [done|]. rewrite view_new. cbn [ch_cap ch_items ch_rx].
      split; [done|]. split; [unfold STREAM_CHAN_CAP; cbn; lia|]. by rewrite Ht0, drop_all.
    + rewrite lookup_insert_ne in Hb by done. destruct (Ks r s k Hb) as [S1 S2 (c & Hc & Hcap & Hlen & Hp & Ha)].
      cbn [with_link link log taken chans streams next_ref] in *. rewrite Er in S1.
      split; cbn [link log taken chans streams next_ref]; [lia|done|]. exists c. rewrite lookup_insert_ne by done. split_and!; try done.
      intros Hs. apply Ha. destruct (decide (s = sid)) as [->|]; [|by rewrite lookup_insert_ne in Hs].
      rewrite lookup_insert_eq in Hs. congruence.
  - intros s r Hs. destruct (decide (s = sid)) as [->|Hne].
    + rewrite lookup_insert_eq in Hs. injection Hs as <-. rewrite lookup_insert_eq. eauto.
    + rewrite lookup_insert_ne in Hs by done. destruct (Kb s r Hs) as [k Hk]. exists k.
      rewrite lookup_insert_ne; [done|]. intros <-. congruence.
  - intros r Hr. destruct (Kf r ltac:(lia)) as (E1 & E2 & E3). rewrite !lookup_insert_ne by lia. done.
Qed.

(** What delivering a body to a registered stream does. *)
Lemma deliver_body_cases sid b (l : LinkT) r c :
  streams l !! sid = Some r -> chans l !! r = Some c ->
  exists c', chans (deliver_body sid b l) !! r = Some c' /\
    (forall q, q <> r -> chans (deliver_body sid b l) !! q = chans l !! q) /\
    next_ref (deliver_body sid b l) = next_ref l /\ next_stream_id (deliver_body sid b l) = next_stream_id l /\
    ch_cap (view c') = ch_cap (view c) /\ ch_rx (view c') = ch_rx (view c) /\
    (if ch_rx (view c) && has_room (view c)
     then streams (deliver_body sid b l) = streams l /\ ch_items (view c') = ch_items (view c) ++ [b]
     else streams (deliver_body sid b l) = delete sid (streams l) /\ ch_items (view c') = ch_items (view c)).
Proof.
  intros Hs Hc. unfold deliver_body. rewrite Hs, Hc. pose proof (view_send b c) as V. cbn zeta in V.
  destruct (ch_send b c) as [c' s].
  assert (D : forall v, v = view c' -> exists c2,
      chans (drop_stream sid (set_streams (streams l) (<[r := c']> (chans l)) l)) !! r = Some c2 /\
      (forall q, q <> r -> chans (drop_stream sid (set_streams (streams l) (<[r := c']> (chans l)) l)) !! q = chans l !! q) /\
      next_ref (drop_stream sid (set_streams (streams l) (<[r := c']> (chans l)) l)) = next_ref l /\
      next_stream_id (drop_stream sid (set_streams (streams l) (<[r := c']> (chans l)) l)) = next_stream_id l /\
      view c2 = mk_view (ch_cap v) (ch_items v) false (ch_rx v) /\
      streams (drop_stream sid (set_streams (streams l) (<[r := c']> (chans l)) l)) = delete sid (streams l)).
  { intros v ->. unfold drop_stream. cbn [streams set_streams chans]. rewrite Hs. cbn [streams set_streams chans next_ref next_stream_id].
    exists (ch_drop_tx c'). rewrite lookup_alter_eq, lookup_insert_eq. split; [done|]. split_and!; try done; [|by rewrite view_drop_tx].
    intros q Hq. by rewrite lookup_alter_ne, lookup_insert_ne by done. }
  destruct (ch_rx (view c)) eqn:Rx; cbn [negb andb] in *; [destruct (has_room (view c)) eqn:Rm|];
    injection V as Ev ->.
  - exists c'. cbn [chans set_streams next_ref next_stream_id streams]. rewrite lookup_insert_eq. split; [done|].
    split; [intros q Hq; by rewrite lookup_insert_ne by done|]. by rewrite Ev.
  - destruct (D _ eq_refl) as (c2 & H1' & H2' & H3' & H4' & E2 & Es). exists c2.
    rewrite E2, Ev. cbn. by rewrite Rx.
  - destruct (D _ eq_refl) as (c2 & H1' & H2' & H3' & H4' & E2 & Es). exists c2.
    rewrite E2, Ev. cbn. by rewrite Rx.
Qed.

Lemma addressed_snoc sid s b l k :
  (k <= length l)%nat ->
  addressed sid (drop k (l ++ [(s, b)])) = addressed sid (drop k l) ++ (if s =? sid then [b] else []).
Proof.
  intros L. rewrite drop_app_le, addressed_app by done. f_equal. cbn. by destruct (s =? sid).
Qed.

Lemma taken_snoc r q b l : taken_of r (l ++ [(q, b)]) = taken_of r l ++ (if bool_decide (q = r) then [b] else []).
Proof. rewrite taken_app. f_equal. cbn. by case_bool_decide. Qed.

(** A frame of a stream is logged and delivered. *)
Lemma routes_deliver w sid b :
  routes_ok w ->
  routes_ok (mk_world (deliver_body sid b (link w)) (log w ++ [(sid, b)]) (taken w) (born w) (started w)).
Proof.
  intros [Ks Kb Kf].
  assert (Old : forall l r s k, next_ref l = next_ref (link w) -> born w !! r = Some (s, k) ->
     chans l !! r = chans (link w) !! r -> (streams l !! s = Some r -> s <> sid /\ streams (link w) !! s = Some r) ->
     stream_ok (mk_world l (log w ++ [(sid, b)]) (taken w) (born w) (started w)) r s k).
  { intros l r s k Er Hb Ec Es. destruct (Ks r s k Hb) as [S1 S2 (c & Hc & Hcap & Hlen & Hp & Ha)].
    split; cbn [link log taken]; [by rewrite Er|rewrite length_app; lia|]. exists c. rewrite Ec.
    split; [done|]. split; [done|]. split; [done|]. rewrite addressed_snoc by done. split.
    - etrans; [apply Hp|]. by apply prefix_app_r.
    - intros Hs Hrx. destruct (Es Hs) as [Hne Hs']. rewrite (proj2 (Z.eqb_neq sid s)) by done.
      rewrite app_nil_r. by apply Ha. }
  destruct (streams (link w) !! sid) as [r0|] eqn:Hs0.
  - destruct (Kb sid r0 Hs0) as [k0 Hb0]. destruct (Ks r0 sid k0 Hb0) as [S1 S2 (c & Hc & Hcap & Hlen & Hp & Ha)].
    destruct (deliver_body_cases sid b (link w) r0 c Hs0 Hc) as (c' & Hc' & Hother & Er & _ & Ecap & Erx & C).
    assert (Hsub : forall s r, streams (deliver_body sid b (link w)) !! s = Some r -> streams (link w) !! s = Some r).
    { destruct (ch_rx (view c) && has_room (view c)); destruct C as [-> _]; [done|].
      intros s r Hs. by apply lookup_delete_Some in Hs as [_ Hs]. }
    split; cbn [link log taken born].
    + intros r s k Hb. destruct (decide (r = r0)) as [->|Hne].
      * rewrite Hb0 in Hb. injection Hb as <- <-.
        split; cbn [link log taken]; [by rewrite Er|rewrite length_app; lia|]. exists c'.
        split; [done|]. rewrite Ecap, addressed_snoc, Z.eqb_refl by done. split; [done|].
        destruct (ch_rx (view c) && has_room (view c)) eqn:Rm; destruct C as [Cs Ci].
        -- apply andb_true_iff in Rm as [Rx Rm]. rewrite Ci, app_assoc, Ha by done. split; [|done].
           unfold has_room in Rm. rewrite Hcap in Rm. apply bool_decide_eq_true in Rm.
           rewrite length_app. cbn. lia.
        -- rewrite Ci. split; [done|]. split; [etrans; [apply Hp|]; by apply prefix_app_r|].
           rewrite Cs, lookup_delete_eq. done.
      * apply Old; [done|done|by apply Hother|]. intros Hs. apply Hsub in Hs. split; [|done]. congruence.
    + intros s r Hs. apply Hsub in Hs. by apply Kb.
    + intros r Hr. rewrite Er in Hr. rewrite Hother by (intros ->; lia). by apply Kf.
  - assert (E : deliver_body sid b (link w) = link w) by (unfold deliver_body; by rewrite Hs0). rewrite E.
    split; cbn [link log taken born]; [|done|done]. intros r s k Hb. apply Old; try done.
    intros Hs. split; [congruence|done].
Qed.

Lemma count_in_same n l : same_routes l (count_in n l) /\ same_rpcs l (count_in n l).
Proof. done. Qed.

Lemma same_routes_trans a b c : same_routes a b -> same_routes b c -> same_routes a c.
Proof. intros [? ? ? ?] [? ? ? ?]. split; congruence. Qed.

Lemma deliver_reply_routes id b l : same_routes l (deliver_reply id b l).
Proof. unfold deliver_reply. by destruct (pending_rpcs l !! id). Qed.

(** A frame on stream 0 leaves the streams alone. *)
Lemma reader_turn_control f n l : stream_id f = 0 -> same_routes l (reader_turn f n l).1.
Proof.
  intros E. unfold reader_turn. rewrite E. cbn [Z.eqb].
  eapply same_routes_trans; [apply (count_in_same n l)|].
  destruct (body f); try done; try apply deliver_reply_routes.
  match goal with |- context [send_frame ?g ?m] => pose proof (send_frame_same g m) as [Hs _]; by destruct (send_frame g m) end.
Qed.

Lemma routes_frame w f n : routes_ok w -> routes_ok (link_step w (LFrame f n)).
Proof.
  intros K. cbn [link_step]. destruct (Z.eqb_spec (stream_id f) 0) as [E|E].
  - apply (routes_same w); [by apply reader_turn_control|done].
  - unfold reader_turn. rewrite (proj2 (Z.eqb_neq _ _)) by done. cbn [fst].
    apply (routes_deliver (with_link w (count_in n (link w)))). apply routes_same; [by apply count_in_same|done].
Qed.

Lemma routes_recv w r : routes_ok w -> routes_ok (link_step w (LRecv r)).
Proof.
  intros K. cbn [link_step]. unfold source_recv.
  destruct (chans (link w) !! r) as [c|] eqn:Hc; [|by apply (routes_same w (link w))].
  destruct K as [Ks Kb Kf]. unfold item_recv. pose proof (view_recv c) as V. cbn zeta in V. destruct (ch_recv c) as [c' p].
  assert (Keep : forall t, (forall q, q <> r -> taken_of q t = taken_of q (taken w)) ->
    ch_cap (view c') = ch_cap (view c) -> ch_rx (view c') = ch_rx (view c) ->
    taken_of r t ++ ch_items (view c') = taken_of r (taken w) ++ ch_items (view c) ->
    (length (ch_items (view c')) <= length (ch_items (view c)))%nat ->
    routes_ok (mk_world (set_streams (streams (link w)) (<[r:=c']> (chans (link w))) (link w)) (log w) t (born w) (started w))).
  { intros t Ht Ecap Erx Eg El. split; cbn [link log taken born streams chans next_ref set_streams].
    - intros q s k Hb. destruct (Ks q s k Hb) as [S1 S2 (d & Hd & Hcap & Hlen & Hp & Ha)].
      split; cbn [link log taken streams chans next_ref set_streams]; [done|done|].
      destruct (decide (q = r)) as [->|Hne].
      + rewrite Hc in Hd. injection Hd as <-. exists c'. rewrite lookup_insert_eq.
        split; [done|]. rewrite Ecap, Erx, Eg. split; [done|]. split; [lia|done].
      + exists d. rewrite lookup_insert_ne by done. rewrite Ht by done. done.
    - apply Kb.
    - intros q Hq. destruct (Kf q Hq) as (E1 & E2 & E3).
      assert (q <> r) as Hne by congruence. rewrite lookup_insert_ne by done. by rewrite Ht. }
  destruct (ch_items (view c)) as [|b bs] eqn:Hi; injection V as Ev Ep; cbn in Keep.
  - assert (E : match (if ch_tx (view c) then Waiting else @GotNone Body) with Got b => taken w ++ [(r, b)] | _ => taken w end = taken w)
      by (by destruct (ch_tx (view c))).
    specialize (Keep (taken w) ltac:(done)). rewrite Ev, Hi in Keep.
    destruct (ch_tx (view c)); subst p; by apply Keep.
  - subst p. apply Keep; rewrite ?Ev; cbn; try done.
    + intros q Hq. rewrite taken_snoc, bool_decide_false by done. apply app_nil_r.
    + by rewrite taken_snoc, bool_decide_true, <- app_assoc by done.
    + lia.
Qed.

Lemma routes_drop_source w r : routes_ok w -> routes_ok (link_step w (LDropSource r)).
Proof.
  apply routes_shrink; cbn [drop_source set_streams streams chans next_ref]; [done|done| |].
  - intros q c Hc. destruct (decide (r = q)) as [->|Hne].
    + rewrite lookup_alter_eq, Hc. eexists. split; [done|]. rewrite view_drop_rx. cbn. auto.
    + rewrite lookup_alter_ne by done. eauto 10.
  - intros q Hq. destruct (decide (r = q)) as [->|Hne]; [by rewrite lookup_alter_eq, Hq|by rewrite lookup_alter_ne].
Qed.

(** Dropping any number of senders changes no channel's content. *)
Lemma drop_senders rs (cs : gmap Ref BCh) :
  let cs' := foldr (fun r cs => alter ch_drop_tx r cs) cs rs in
  (forall q c, cs !! q = Some c -> exists c', cs' !! q = Some c' /\ ch_cap (view c') = ch_cap (view c) /\
     ch_items (view c') = ch_items (view c) /\ ch_rx (view c') = ch_rx (view c)) /\
  (forall q, cs !! q = None -> cs' !! q = None).
Proof.
  cbn zeta. induction rs as [|r rs [IH1 IH2]]; [split; eauto|]. cbn [foldr]. split.
  - intros q c Hc. destruct (IH1 q c Hc) as (c' & Hc' & E1 & E2 & E3).
    destruct (decide (r = q)) as [->|Hne].
    + rewrite lookup_alter_eq, Hc'. eexists. split; [done|]. by rewrite view_drop_tx.
    + rewrite lookup_alter_ne by done. eauto.
  - intros q Hq. destruct (decide (r = q)) as [->|Hne]; [by rewrite lookup_alter_eq, IH2|by rewrite lookup_alter_ne, IH2].
Qed.

Lemma routes_clear w : routes_ok w -> routes_ok (link_step w LClear).
Proof.
  destruct (drop_senders (map_to_list (streams (link w))).*2 (chans (link w))) as [D1 D2].
  apply routes_shrink; cbn [clear_streams set_streams streams chans next_ref]; [done| | |done].
  - intros sid r Hr. by rewrite lookup_empty in Hr.
  - intros r c Hc. destruct (D1 r c Hc) as (c' & ? & ? & ? & ?). eauto 10.
Qed.

Lemma rpc_finish_routes who id t l : same_routes l (rpc_finish who id t l).1.
Proof. unfold rpc_finish. by destruct (replies l !! who). Qed.

Lemma routes_started w ss :
  routes_ok w -> routes_ok (mk_world (link w) (log w) (taken w) (born w) ss).
Proof.
  intros [Ks Kb Kf]. split; [|done|done]. intros r sid k Hb. by destruct (Ks r sid k Hb).
Qed.

Lemma routes_step w e : routes_ok w -> routes_ok (link_step w e).
Proof.
  intros K. destruct e as [|f n|r|r|sid|sid|sid b|who build|who id t|].
  - by apply routes_open.
  - by apply routes_frame.
  - by apply routes_recv.
  - by apply routes_drop_source.
  - by apply routes_drop.
  - apply routes_same; [apply send_frame_same|done].
  - apply routes_same; [apply send_frame_same|done].
  - cbn [link_step]. destruct (started w !! who); [done|].
    pose proof (rpc_start_routes who build (link w)) as S. destruct (rpc_start who build (link w)) as [l [id r]].
    apply (routes_started (with_link w l)). by apply routes_same.
  - apply routes_same; [apply rpc_finish_routes|done].
  - by apply routes_clear.
Qed.

Lemma routes_init n : routes_ok (mk_world (new_link n) [] [] ∅ ∅).
Proof. by split. Qed.

Lemma routes_run n es : routes_ok (link_run n es).
Proof. unfold link_run. apply (fold_inv routes_ok); [intros; by apply routes_step|apply routes_init]. Qed.

(** ** Stream ids *)

Definition is_open (e : LinkEvent) : bool := match e with LOpen => true | _ => false end.
Definition opens (es : list LinkEvent) : Z := len (List.filter is_open es).

(** With [n] streams opened so far the next id is [n + 1], and the ids given
    out are [1] to [n], each to one stream. *)
Record ids_ok (n : Z) (w : World) : Prop := {
  io_next : next_stream_id (link w) = as_u32 (n + 1);
  io_range : forall r sid k, born w !! r = Some (sid, k) -> 0 < sid <= n;
  io_unique : forall r r' sid k k', born w !! r = Some (sid, k) -> born w !! r' = Some (sid, k') -> r = r';
}.

Lemma next_stream_id_step w e :
  is_open e = false -> next_stream_id (link (link_step w e)) = next_stream_id (link w) /\ born (link_step w e) = born w.
Proof.
  destruct e as [|f n|r|r|sid|sid|sid b|who build|who id t|]; cbn [is_open]; [done| | | | | | | | |]; intros _; cbn [link_step].
  - split; [|done]. cbn [link]. destruct (Z.eqb_spec (stream_id f) 0) as [E|E].
    + by destruct (reader_turn_control f n (link w) E).
    + unfold reader_turn. rewrite (proj2 (Z.eqb_neq _ _)) by done. cbn [fst].
      apply (deliver_body_writer (stream_id f) (body f) (count_in n (link w))).
  - unfold source_recv. destruct (chans (link w) !! r); [|done]. by destruct (item_recv _).
  - done.
  - split; [|done]. apply drop_stream_writer.
  - split; [|done]. apply send_frame_same.
  - split; [|done]. apply send_frame_same.
  - destruct (started w !! who); [done|]. pose proof (rpc_start_routes who build (link w)) as [S _ _ _].
    by destruct (rpc_start who build (link w)) as [l [id r]].
  - split; [|done]. apply rpc_finish_routes.
  - done.
Qed.

Lemma ids_step m w e :
  0 <= m -> m + (if is_open e then 1 else 0) <= U32_MAX ->
  ids_ok m w -> routes_ok w -> ids_ok (m + if is_open e then 1 else 0) (link_step w e).
Proof.
  intros Hm Hle [Kn Kr Ku] Kro. destruct (is_open e) eqn:E.
  - destruct e; try done. cbn [link_step]. unfold open_stream.
    assert (En : next_id (next_stream_id (link w)) = (m + 1, as_u32 (m + 1 + 1))).
    { rewrite Kn. unfold U32_MAX in Hle. rewrite as_u32_small by (unfold u32; lia). unfold next_id.
      by rewrite (proj2 (Z.eqb_neq _ _)) by lia. }
    rewrite En.
    assert (Hf : born w !! next_ref (link w) = None) by (by apply Kro).
    split; cbn [link born next_stream_id]; [done| |].
    + intros r s k Hb. apply lookup_insert_Some in Hb as [[_ [= <- _]]|[_ Hb]]; [lia|]. apply Kr in Hb. lia.
    + intros r r' s k k' Hb Hb'. apply lookup_insert_Some in Hb as [[<- [= <- _]]|[_ Hb]];
        apply lookup_insert_Some in Hb' as [[<- E']|[_ Hb']]; try done.
      * apply Kr in Hb'. lia.
      * injection E' as <- _. apply Kr in Hb. lia.
      * by eapply Ku.
  - destruct (next_stream_id_step w e E) as [E1 E2]. rewrite Z.add_0_r. split; [by rewrite E1| |]; by rewrite E2.
Qed.

Lemma ids_run n es : opens es <= U32_MAX -> ids_ok (opens es) (link_run n es).
Proof.
  induction es as [|e es IH] using rev_ind; intros L.
  { split; [done| |]; intros *; cbn; by rewrite lookup_empty. }
  assert (E : opens (es ++ [e]) = opens es + if is_open e then 1 else 0).
  { unfold opens. rewrite List.filter_app, len_app. cbn. by destruct (is_open e). }
  rewrite E in *. unfold link_run. rewrite foldl_app. cbn [foldl].
  pose proof (len_nonneg (List.filter is_open es)).
  apply ids_step; [done|done| |apply routes_run]. apply IH. unfold opens in *. destruct (is_open e); lia.
Qed.

(** ** Requests *)

(** The request an answer is for. *)
Definition reply_id (b : Body) : option Z :=
  match b with Bd.SessionList id _ | Bd.KillSessionAck id _ => Some id | _ => None end.

Record rpcs_ok (w : World) : Prop := {
  rp_pending : forall id who, pending_rpcs (link w) !! id = Some who -> started w !! who = Some id;
  rp_replies : forall who b, replies (link w) !! who = Some b ->
    exists id, started w !! who = Some id /\ reply_id b = Some id;
}.

Lemma rpcs_same w l : same_rpcs (link w) l -> rpcs_ok w -> rpcs_ok (with_link w l).
Proof. intros [Ep Er] [Kp Kr]. split; cbn [link started with_link]; [by rewrite Ep|by rewrite Er]. Qed.

Lemma rpcs_reply w id b :
  reply_id b = Some id -> rpcs_ok w -> rpcs_ok (with_link w (deliver_reply id b (link w))).
Proof.
  intros Hb [Kp Kr]. unfold deliver_reply. destruct (pending_rpcs (link w) !! id) as [who|] eqn:E; [|by split].
  split; cbn [link started with_link pending_rpcs replies set_rpcs].
  - intros id' who' Hp. apply lookup_delete_Some in Hp as [_ Hp]. by apply Kp.
  - intros who' b' Hr. apply lookup_insert_Some in Hr as [[<- <-]|[_ Hr]]; [|by apply Kr].
    exists id. split; [by apply Kp|done].
Qed.

Lemma reader_turn_rpcs w f n :
  rpcs_ok w -> rpcs_ok (with_link w (reader_turn f n (link w)).1).
Proof.
  intros K. assert (Kc : rpcs_ok (with_link w (count_in n (link w)))) by (by apply rpcs_same).
  unfold reader_turn. destruct (stream_id f =? 0).
  - destruct (body f) eqn:Hb; try done.
    + match goal with |- context [send_frame ?g ?m] => pose proof (send_frame_same g m) as [_ S];
        destruct (send_frame g m) as [l r] end.
      by apply (rpcs_same (with_link w (count_in n (link w)))).
    + by apply (rpcs_reply (with_link w (count_in n (link w)))).
    + by apply (rpcs_reply (with_link w (count_in n (link w)))).
  - apply (rpcs_same (with_link w (count_in n (link w)))); [apply deliver_body_rpcs|done].
Qed.

Lemma rpcs_start w who build :
  rpcs_ok w -> rpcs_ok (link_step w (LRpcStart who build)).
Proof.
  intros [Kp Kr]. cbn [link_step]. destruct (started w !! who) as [id0|] eqn:Hs; [by split|].
  unfold rpc_start. match goal with |- context [send_frame ?g ?m] => pose proof (send_frame_same g m) as [_ [Sp Sr]];
    destruct (send_frame g m) as [l r] end. cbn [pending_rpcs replies fst] in Sp, Sr.
  assert (Rep : forall x b, replies (link w) !! x = Some b -> exists id,
     <[who := next_request_id (link w)]> (started w) !! x = Some id /\ reply_id b = Some id).
  { intros x b Hx. destruct (Kr x b Hx) as (id & Hi & Hb). exists id. rewrite lookup_insert_ne; [done|]. congruence. }
  assert (Pen : forall id x, <[next_request_id (link w) := who]> (pending_rpcs (link w)) !! id = Some x ->
     <[who := next_request_id (link w)]> (started w) !! x = Some id).
  { intros id x Hx. apply lookup_insert_Some in Hx as [[<- <-]|[_ Hx]]; [by rewrite lookup_insert_eq|].
    apply Kp in Hx. rewrite lookup_insert_ne; [done|]. congruence. }
  destruct r; split; cbn [link started pending_rpcs replies set_rpcs]; rewrite ?Sp, ?Sr; try done.
  intros id x Hx. apply lookup_delete_Some in Hx as [_ Hx]. by apply Pen.
Qed.

Lemma rpcs_step w e : rpcs_ok w -> rpcs_ok (link_step w e).
Proof.
  intros K. destruct e as [|f n|r|r|sid|sid|sid b|who build|who id t|]; cbn [link_step].
  - unfold open_stream. destruct (next_id _) as [sid next]. destruct (drop_stream_rpcs sid (link w)) as [E1 E2].
    destruct K as [Kp Kr]. split; cbn [link started pending_rpcs replies]; [by rewrite E1|by rewrite E2].
  - by destruct (reader_turn_rpcs w f n K).
  - unfold source_recv. destruct (chans (link w) !! r); [|by destruct K].
    destruct (item_recv _) as [c p]. by destruct K.
  - by apply rpcs_same.
  - apply rpcs_same; [apply drop_stream_rpcs|done].
  - apply rpcs_same; [apply send_frame_same|done].
  - apply rpcs_same; [apply send_frame_same|done].
  - by apply rpcs_start.
  - unfold rpc_finish. destruct (replies (link w) !! who) eqn:E; [by apply rpcs_same|].
    destruct K as [Kp Kr]. split; cbn [link started with_link pending_rpcs replies set_rpcs fst]; [|done].
    intros id' x Hx. apply lookup_delete_Some in Hx as [_ Hx]. by apply Kp.
  - by apply rpcs_same.
Qed.

Lemma rpcs_run n es : rpcs_ok (link_run n es).
Proof. unfold link_run. apply (fold_inv rpcs_ok); [intros; by apply rpcs_step|]. by split. Qed.

(** ** Properties *)

(** [C8] Whatever the tasks of a connection do, and in whatever order: each
    browser stream is handed a gap-free prefix of the frames the agent
    addressed to it since it was opened, in order; nothing is missing, even
    from what is still queued, while the stream is registered and its proxy
    alive; and at most 64 frames are ever queued for it. *)
Theorem stream_gets_gap_free_prefix n es r sid k :
  let w := link_run n es in
  born w !! r = Some (sid, k) ->
  exists c, chans (link w) !! r = Some c /\ (length (ch_items (view c)) <= 64)%nat /\
    let sent := addressed sid (drop k (log w)) in
    taken_of r (taken w) `prefix_of` sent /\
    (streams (link w) !! sid = Some r -> ch_rx (view c) = true ->
     taken_of r (taken w) ++ ch_items (view c) = sent).
Proof.
  cbn zeta. intros Hb. destruct (ro_streams _ (routes_run n es) r sid k Hb) as [_ _ (c & Hc & _ & Hl & Hp & Ha)].
  exists c. split; [done|]. split; [done|]. split; [|done]. etrans; [|apply Hp]. by apply prefix_app_r.
Qed.

(** A frame for a browser stream never makes the reader of the
    connection wait: the turn ends, the writer queue and every other stream
    are untouched; the frame is queued when the stream has room and a
    receiver, and otherwise only that stream is dropped. *)
Lemma slow_stream_isolated f n (l : LinkT) r c :
  stream_id f <> 0 -> streams l !! stream_id f = Some r -> chans l !! r = Some c ->
  let '(l', turn) := reader_turn f n l in
  turn = Next /\ writer l' = writer l /\ pending_rpcs l' = pending_rpcs l /\
  (forall s, s <> stream_id f -> streams l' !! s = streams l !! s) /\
  (forall q, q <> r -> chans l' !! q = chans l !! q) /\
  exists c', chans l' !! r = Some c' /\
    if ch_rx (view c) && has_room (view c)
    then streams l' = streams l /\ ch_items (view c') = ch_items (view c) ++ [body f]
    else streams l' !! stream_id f = None /\ ch_items (view c') = ch_items (view c).
Proof.
  intros Hf Hs Hc. unfold reader_turn. rewrite (proj2 (Z.eqb_neq _ _)) by done.
  destruct (deliver_body_cases (stream_id f) (body f) (count_in n l) r c Hs Hc) as (c' & Hc' & Ho & _ & _ & _ & _ & C).
  destruct (deliver_body_rpcs (stream_id f) (body f) (count_in n l)) as [Ep _].
  split; [done|]. split.
  { apply (deliver_body_writer (stream_id f) (body f) (count_in n l)). }
  split; [done|]. split; [|split; [done|]].
  - intros s Hne. destruct (_ && _); destruct C as [-> _]; [done|]. by rewrite lookup_delete_ne.
  - exists c'. split; [done|]. destruct (_ && _); destruct C as [-> Ci]; [done|]. by rewrite lookup_delete_eq.
Qed.

(** Among the first 2^32 - 1 streams of a connection no two have the same
    id and none has id 0, so a frame of the agent can only reach the stream
    it names; and a waiting request is only ever answered by a response that
    carries its own request id. *)
Lemma ids_and_requests_match n es :
  opens es <= U32_MAX ->
  let w := link_run n es in
  (forall r sid k, born w !! r = Some (sid, k) -> 0 < sid <= U32_MAX) /\
  (forall r r' sid k k', born w !! r = Some (sid, k) -> born w !! r' = Some (sid, k') -> r = r') /\
  (forall who b, replies (link w) !! who = Some b ->
     exists id, started w !! who = Some id /\ reply_id b = Some id).
Proof.
  intros L. cbn zeta. destruct (ids_run n es L) as [_ Kr Ku]. split; [|split; [done|]].
  - intros r sid k Hb. apply Kr in Hb. lia.
  - apply (rp_replies _ (rpcs_run n es)).
Qed.
End LinkFacts.

(** ** The registry of agents *)

Inductive AgentEvent := Install (m : list byte) (r : Ref) | Uninstall (m : list byte) (r : Ref).
#[export] Instance AgentEvent_eq_dec : EqDecision AgentEvent.
Proof. solve_decision. Defined.

Definition agent_step (a : Agents) (e : AgentEvent) : Agents :=
  match e with
  | Install m r => (install_link m r a).1
  | Uninstall m r => uninstall_link m r a
  end.
Definition installs (m : list byte) (e : AgentEvent) : bool :=
  match e with Install m' _ => bool_decide (m' = m) | _ => false end.

(** After a machine's latest connection was installed, the registry names
    exactly that connection until its own teardown, whatever teardowns of
    older connections and whatever other machines do in between; after its
    own teardown it names none. *)
Lemma latest_link_wins m r before after :
  Forall (fun e => installs m e = false) after ->
  foldl agent_step ∅ (before ++ Install m r :: after) !! m =
  if bool_decide (Uninstall m r ∈ after) then None else Some r.
Proof.
  rewrite foldl_app. cbn [foldl agent_step]. generalize (foldl agent_step ∅ before). intros a Ha.
  assert (G : forall b, b !! m = Some r -> foldl agent_step b after !! m =
     (if bool_decide (Uninstall m r ∈ after) then None else Some r)).
  { assert (N : forall l b, Forall (fun e => installs m e = false) l -> b !! m = None -> foldl agent_step b l !! m = None).
    { induction l as [|e l IH]; intros b Hl Hb; [done|]. apply Forall_cons in Hl as [He Hl]. cbn [foldl]. apply IH; [done|].
      destruct e as [m' r'|m' r']; cbn in *.
      - apply bool_decide_eq_false in He. by rewrite lookup_insert_ne.
      - unfold uninstall_link. destruct (b !! m') as [q|] eqn:E; [|done]. case_bool_decide; [|done].
        destruct (decide (m' = m)) as [->|]; [congruence|by rewrite lookup_delete_ne]. }
    induction after as [|e l IH]; intros b Hb; [done|]. apply Forall_cons in Ha as [He Hl]. cbn [foldl].
    destruct (decide (e = Uninstall m r)) as [->|Hne].
    - rewrite bool_decide_true by constructor. apply N; [done|]. cbn. unfold uninstall_link.
      rewrite Hb, bool_decide_true by done. by rewrite lookup_delete_eq.
    - rewrite IH; [|done|].
      + rewrite (bool_decide_ext (Uninstall m r ∈ l) (Uninstall m r ∈ e :: l)); [done|].
        rewrite elem_of_cons. naive_solver.
      + destruct e as [m' r'|m' r']; cbn in *.
        * apply bool_decide_eq_false in He. by rewrite lookup_insert_ne.
        * unfold uninstall_link. destruct (b !! m') as [q|] eqn:E; [|done].
          destruct (decide (q = r')) as [->|]; [rewrite bool_decide_true by done|by rewrite bool_decide_false by done].
          destruct (decide (m' = m)) as [->|]; [congruence|by rewrite lookup_delete_ne]. }
  apply G. cbn. by rewrite lookup_insert_eq.
Qed.

(** ** Witnesses *)

Abbreviation sample_run := (link_run (WCh:=ChanView (Z * list byte)) (Sem:=Z) (BCh:=ChanView Body) 20).
Definition sample_link_events : list LinkEvent :=
  [LOpen; LOpen; LFrame (data 1 (lit "a")) 10; LFrame (data 2 (lit "b")) 10; LFrame (data 1 (lit "c")) 10;
   LRecv 0; LRpcStart 7 list_sessions; LFrame (session_list 1 (lit "{}")) 19].
Definition sample_chan : ChanView Body := mk_view (Some 64%nat) [Bd.Data (lit "c")] true true.

Lemma sample_chan_is : chans (link (sample_run sample_link_events)) !! 0%nat = Some sample_chan.
Proof. vm_compute. reflexivity. Qed.

Lemma stream_gets_gap_free_prefix_witness :
  taken_of 0 (taken (sample_run sample_link_events)) = [Bd.Data (lit "a")] /\
  taken_of 0 (taken (sample_run sample_link_events)) ++ [Bd.Data (lit "c")]
  = addressed 1 (log (sample_run sample_link_events)).
Proof.
  split; [vm_compute; reflexivity|].
  assert (E0 : born (sample_run sample_link_events) !! 0%nat = Some (1, 0%nat)) by (vm_compute; reflexivity).
  assert (E1 : streams (link (sample_run sample_link_events)) !! 1 = Some 0%nat) by (vm_compute; reflexivity).
  destruct (stream_gets_gap_free_prefix 20 sample_link_events 0%nat 1 0%nat E0) as (c & Hc & _ & _ & Ha).
  rewrite sample_chan_is in Hc. injection Hc as <-. rewrite drop_0 in Ha.
  cbn [view view_mpsc_laws sample_chan ch_items ch_rx] in Ha. exact (Ha E1 eq_refl).
Defined.

Lemma slow_stream_isolated_witness :
  let l := link (sample_run sample_link_events) in
  let l' := (reader_turn (data 1 (lit "d")) 10 l).1 in
  (reader_turn (data 1 (lit "d")) 10 l).2 = Next /\ writer l' = writer l.
Proof.
  cbn zeta.
  assert (E1 : streams (link (sample_run sample_link_events)) !! stream_id (data 1 (lit "d")) = Some 0%nat)
    by (vm_compute; reflexivity).
  assert (E2 : stream_id (data 1 (lit "d")) <> 0) by discriminate.
  pose proof (slow_stream_isolated (data 1 (lit "d")) 10 (link (sample_run sample_link_events)) 0%nat sample_chan
    E2 E1 sample_chan_is) as W.
  destruct (reader_turn (data 1 (lit "d")) 10 (link (sample_run sample_link_events))) as [l' t].
  destruct W as (W1 & W2 & _). split; [exact W1|exact W2].
Defined.

Lemma ids_and_requests_match_witness :
  replies (link (sample_run sample_link_events)) !! 7%nat = Some (Bd.SessionList 1 (lit "{}")) /\
  exists id, started (sample_run sample_link_events) !! 7%nat = Some id /\ id = 1.
Proof.
  assert (E : replies (link (sample_run sample_link_events)) !! 7%nat = Some (Bd.SessionList 1 (lit "{}")))
    by (vm_compute; reflexivity).
  split; [exact E|].
  assert (L : opens sample_link_events <= U32_MAX) by (vm_compute; discriminate).
  destruct (ids_and_requests_match 20 sample_link_events L) as (_ & _ & W).
  destruct (W _ _ E) as (id & Hs & Hid). exists id.
  split; [exact Hs|]. cbn in Hid. congruence.
Defined.

Lemma latest_link_wins_witness :
  foldl agent_step ∅ [Install (lit "alpha") 1%nat; Install (lit "alpha") 2%nat; Uninstall (lit "alpha") 1%nat] !! lit "alpha"
  = Some 2%nat.
Proof.
  apply (latest_link_wins (lit "alpha") 2 [Install (lit "alpha") 1%nat] [Uninstall (lit "alpha") 1%nat]).
  constructor; [reflexivity|constructor].
Defined.
