(* ===== verification/Proxy.v ===== *)
(** * Proxy: one browser tab on one stream ([hub/src/proxy.rs])

    The checks of the WebSocket upgrade, and the re-framing between the
    browser's stream id 0 and the id of its stream on the agent's
    connection. *)

From Stdlib Require Import Strings.Byte.
From stdpp Require Import prelude strings list gmap.
From S2P Require Import Prelude Frame FrameFacts Transport Auth Link.

(** ** The upgrade *)

Inductive UpgradeError :=
| BadOrigin                (** 403 *)
| MissingSubprotocol       (** 401 *)
| BadToken                 (** 401 *)
| AgentNotConnected        (** 503 *)
| StreamLimitReached.      (** 503 *)

(** [term_ws]: the link to open a stream on and the subprotocol to echo.
    [count] is [stream_count] of a link. *)
Definition term_ws (machine_id : list byte) (mode : ListenerMode) (h : Headers) (now_gc now : Z)
    (agents : Agents) (count : Ref -> nat) (s : Sessions)
    : Sessions * (UpgradeError + (Ref * option (list byte))) :=
  if negb (check_origin h (mode_origin mode)) then (s, inl BadOrigin)
  else
    let '(s, subprotocol) :=
      if no_auth mode then (s, inr (snd <$> token_from_ws_protocol h))
      else
        match token_from_ws_protocol h with
        | None => (s, inl MissingSubprotocol)
        | Some (token, sp) =>
            let '(s, ok) := validate_token now_gc now token s in
            (s, if ok then inr (Some sp) else inl BadToken)
        end in
    match subprotocol with
    | inl e => (s, inl e)
    | inr sp =>
        match agents !! machine_id with
        | None => (s, inl AgentNotConnected)
        | Some link =>
            if bool_decide (MAX_STREAMS_PER_AGENT <= count link)%nat then (s, inl StreamLimitReached)
            else (s, inr (link, sp))
        end
    end.

(** ** The browser's messages *)

Inductive WsMessage := WsBinary (data : list byte) | WsClose | WsPing | WsPong | WsText | WsError | WsEnd.

(** What the loop does with a message: forward a body, go on, or stop. *)
Inductive ProxyTurn := Forward (b : Body) | GoOn | Stop.

(** One turn of [ws_to_stream] in [run_proxy]. *)
Definition browser_message (stream : Z) (m : WsMessage) : res FrameError ProxyTurn :=
  match m with
  | WsBinary d =>
      if len d <? HEADER_LEN then Ok Stop
      else
        '(in_stream, ty_byte, l) ← header_fields d;
        if negb (in_stream =? 0) then Ok Stop
        else
          match validate_header stream ty_byte l with
          | Err _ => Ok Stop
          | Panic => Panic
          | Ok (ty, l) =>
              if negb (len d =? HEADER_LEN + l) then Ok Stop
              else
                p ← slice_from d (Z.to_nat HEADER_LEN);
                match from_payload stream ty p with
                | Ok f => Ok (Forward (body f))
                | Err _ => Ok Stop
                | Panic => Panic
                end
          end
  | WsClose | WsText | WsError | WsEnd => Ok Stop
  | WsPing | WsPong => Ok GoOn
  end.

(** [ws_to_stream]: what goes to the agent, while its link takes it. *)
Fixpoint ws_to_stream (stream : Z) (ms : list WsMessage) : list Frame :=
  match ms with
  | [] => []
  | m :: ms =>
      match browser_message stream m with
      | Ok (Forward b) => mk_frame stream b :: ws_to_stream stream ms
      | Ok GoOn => ws_to_stream stream ms
      | _ => []
      end
  end.

(** [stream_to_ws]: the message for one body of the agent. *)
Definition stream_to_ws (b : Body) : WsMessage := WsBinary (encode (mk_frame 0 b)).

(** The cap on one WebSocket message, the browser's and the agent's
    ([WS_MAX_BYTES] in [proxy.rs], [AGENT_WS_MAX_BYTES] in [agent_ws.rs]); a
    longer message is an error of the WebSocket library. *)
Definition WS_MAX_BYTES : Z := HEADER_LEN + MAX_PASTE_CHUNK_LEN + 1024.
Definition AGENT_WS_MAX_BYTES : Z := HEADER_LEN + MAX_PASTE_CHUNK_LEN + 1024.

(** ** Facts *)

(** The caps cut off nothing: every frame either side may send is shorter. *)
Lemma ws_caps_fit f : wf_frame f -> len (encode f) <= WS_MAX_BYTES /\ len (encode f) <= AGENT_WS_MAX_BYTES.
Proof.
  intros W. pose proof (payload_bound f (wf_legal f W)). unfold WS_MAX_BYTES, AGENT_WS_MAX_BYTES, HEADER_LEN.
  pose proof (length_header f). unfold len in *. lia.
Qed.

Lemma ty_body f sid : ty (mk_frame sid (body f)) = ty f.
Proof. by destruct f. Qed.

(** The bytes of a frame whose stream id has been replaced. *)
Lemma encode_sid f sid :
  encode (mk_frame sid (body f))
  = be_enc 4 sid ++ byte_of (type_byte (ty f)) :: be_enc 4 (as_u32 (len (payload (body f)))) ++ payload (body f).
Proof. unfold encode. cbn [stream_id body]. by rewrite ty_body. Qed.

Lemma header_fields_sid f sid rest :
  u32 sid -> wf_frame f ->
  header_fields (encode (mk_frame sid (body f)) ++ rest) = Ok (sid, type_byte (ty f), len (payload (body f))).
Proof.
  intros Hs []. pose proof (payload_small f wf_legal). rewrite encode_sid, as_u32_small by done.
  rewrite <- app_assoc. cbn [app]. rewrite <- app_assoc. unfold header_fields. read_back.
  rewrite rd_here. cbn [mbind res_bind]. rewrite be_at_cons by lia. read_back. by rewrite byte_val_type_byte.
Qed.

Lemma browser_forward stream d b :
  u32 stream ->
  browser_message stream (WsBinary d) = Ok (Forward b) <->
  wf_frame (mk_frame stream b) /\ d = encode (mk_frame 0 b).
Proof.
  intros Hs. unfold browser_message. split.
  - destruct (len d <? HEADER_LEN) eqn:E; [done|]. bool_to_prop. unfold HEADER_LEN in E.
    intros H. apply bind_Ok in H as ([[sin tb] l] & Hh & H).
    rewrite <- (take_drop 9 d), header_fields_app in Hh by (unfold len in E; rewrite length_take; lia).
    apply header_fields_inv in Hh as (_ & Hl & Ed); [|unfold len in E; rewrite length_take; lia].
    destruct (Z.eqb_spec sin 0) as [->|]; [|done]. cbn [negb] in H.
    destruct (validate_header stream tb l) as [[t l']| |] eqn:Hv; [|done..].
    apply validate_header_Ok in Hv as (-> & -> & Hc & Hlen); [|unfold u32 in Hl; lia].
    destruct (negb (len d =? HEADER_LEN + l)) eqn:En; [done|]. bool_to_prop. unfold HEADER_LEN in En.
    change (Z.to_nat HEADER_LEN) with 9%nat in H.
    apply bind_Ok in H as (p & Hp & H). apply slice_from_Ok in Hp as [_ ->].
    assert (Lp : len (drop 9 d) = l) by (unfold len in *; rewrite length_drop; lia).
    destruct (from_payload stream t (drop 9 d)) as [f| |] eqn:Hf; [|done..]. injection H as <-.
    rewrite <- Lp in Hlen. apply decode_iff in Hf as (W & <- & <- & Ep); [|done..].
    split; [by destruct f|]. rewrite <- (take_drop 9 d), Ed, encode_sid, Ep, Lp, as_u32_small by done.
    by rewrite <- ?app_assoc.
  - intros [W ->]. pose proof (header_fields_sid (mk_frame stream b) 0 [] ltac:(by unfold u32) W) as Hh.
    rewrite app_nil_r in Hh. cbn [body] in Hh. pose proof (length_header (mk_frame 0 b)) as L. cbn [body] in L.
    rewrite (proj2 (Z.ltb_ge _ _)) by (unfold HEADER_LEN, len; lia). rewrite Hh. cbn [mbind res_bind negb Z.eqb].
    pose proof (header_accepts _ W) as Hv. cbn [stream_id body] in Hv. rewrite Hv.
    replace (len (encode (mk_frame 0 b)) =? HEADER_LEN + len (payload b)) with true
      by (symmetry; apply Z.eqb_eq; unfold HEADER_LEN, len; lia).
    cbn [negb]. change (Z.to_nat HEADER_LEN) with 9%nat. rewrite slice_from_ok by lia. cbn [mbind res_bind].
    replace (drop 9 (encode (mk_frame 0 b))) with (payload b) by done.
    pose proof (from_payload_payload (mk_frame stream b)) as Hf. cbn [body stream_id] in Hf.
    rewrite Hf by apply W. done.
Qed.

Lemma browser_message_no_panic stream m : browser_message stream m <> Panic.
Proof.
  destruct m as [d| | | | | |]; try done. unfold browser_message.
  destruct (len d <? HEADER_LEN) eqn:E; [done|]. bool_to_prop. unfold HEADER_LEN, len in E.
  apply bind_no_panic; [apply header_fields_no_panic; lia|]. intros [[s t] l] _.
  destruct (negb (s =? 0)); [done|]. pose proof (validate_header_no_panic stream t l).
  destruct (validate_header stream t l) as [[t' l']| |]; [|done..]. destruct (negb _); [done|].
  change (Z.to_nat HEADER_LEN) with 9%nat. rewrite slice_from_ok by lia. cbn [mbind res_bind].
  pose proof (body_dec_no_panic stream t' (drop 9 d)). by destruct (from_payload _ _ _).
Qed.

(** ** Properties *)

(** A terminal WebSocket is opened if and only if the request carries the
    listener's own origin; carries, on a listener with authentication, a
    bearer subprotocol with a token that is stored and has not expired; names
    a connected machine; and that machine's link has fewer than 256 streams.
    The subprotocol echoed is the one the browser sent. *)
Lemma terminal_opens_iff machine_id mode h now_gc now agents count s link sp :
  (term_ws machine_id mode h now_gc now agents count s).2 = inr (link, sp) <->
  check_origin h (mode_origin mode) = true /\
  (if no_auth mode then sp = snd <$> token_from_ws_protocol h
   else exists token raw e, token_from_ws_protocol h = Some (token, raw) /\ sp = Some raw /\
        s !! token = Some e /\ now_gc < e /\ now < e) /\
  agents !! machine_id = Some link /\ (count link < MAX_STREAMS_PER_AGENT)%nat.
Proof.
  unfold term_ws. destruct (check_origin h (mode_origin mode)); [|naive_solver]. cbn [negb].
  assert (G : forall s' sp', (match agents !! machine_id with
      | None => (s', inl AgentNotConnected)
      | Some link => if bool_decide (MAX_STREAMS_PER_AGENT <= count link)%nat then (s', inl StreamLimitReached)
          else (s', inr (link, sp')) end : Sessions * (UpgradeError + (Ref * option (list byte)))).2 = inr (link, sp) <->
     sp = sp' /\ agents !! machine_id = Some link /\ (count link < MAX_STREAMS_PER_AGENT)%nat).
  { intros s' sp'. destruct (agents !! machine_id) as [l|]; [|naive_solver].
    case_bool_decide; cbn; [|naive_solver lia]. split; [done|]. intros (_ & [= ->] & ?). lia. }
  destruct (no_auth mode); [rewrite G; naive_solver|].
  destruct (token_from_ws_protocol h) as [[token raw]|]; [|naive_solver].
  unfold validate_token. destruct (gc now_gc id s !! token) as [e|] eqn:E.
  - apply gc_lookup in E as [E1 E2]. cbn in E2. destruct (Z.ltb_spec now e).
    + rewrite G. naive_solver.
    + split; [done|]. intros (_ & (t & w & e' & [= <- <-] & _ & He & _ & ?) & _). rewrite E1 in He.
      injection He as <-. lia.
  - split; [done|]. intros (_ & (t & w & e' & [= <- <-] & _ & He & ? & _) & _).
    assert (gc now_gc id s !! token = Some e') by (apply gc_lookup; done). congruence.
Qed.

(** [C6] A browser's message reaches the agent if and only if it is, byte for byte,
    the encoding of a well-formed frame with stream id 0 in place of its
    stream's: what the agent then decodes is that frame on that stream.  So a
    browser can neither name another stream nor speak on the control stream;
    any other message ends its session, and none crashes the hub. *)
Theorem browser_speaks_only_its_stream stream m b :
  u32 stream -> stream <> 0 ->
  (browser_message stream m = Ok (Forward b) <->
   m = WsBinary (encode (mk_frame 0 b)) /\ wf_frame (mk_frame stream b)) /\
  (browser_message stream m = Ok (Forward b) ->
   frame_from_ws_payload (encode (mk_frame stream b)) = Ok (mk_frame stream b, len (encode (mk_frame stream b))) /\
   is_control_type (ty (mk_frame stream b)) = false) /\
  browser_message stream m <> Panic.
Proof.
  intros Hs H0. assert (F : browser_message stream m = Ok (Forward b) <->
    m = WsBinary (encode (mk_frame 0 b)) /\ wf_frame (mk_frame stream b)).
  { destruct m as [d| | | | | |]; [rewrite browser_forward by done; naive_solver|naive_solver..]. }
  split; [done|]. split; [|apply browser_message_no_panic]. intros [_ W]%F.
  split; [by apply ws_payload_encode|]. destruct W as [_ Wc _ _]. rewrite <- Wc. by apply Z.eqb_neq.
Qed.

(** ** Witnesses *)

Lemma browser_speaks_only_its_stream_witness :
  browser_message 5 (WsBinary (encode (data 0 (lit "ls")))) = Ok (Forward (Bd.Data (lit "ls"))) /\
  wf_frame (data 5 (lit "ls")).
Proof.
  assert (E : browser_message 5 (WsBinary (encode (data 0 (lit "ls")))) = Ok (Forward (Bd.Data (lit "ls"))))
    by (vm_compute; reflexivity).
  split; [exact E|].
  exact (proj2 (proj1 (proj1 (browser_speaks_only_its_stream 5 _ (Bd.Data (lit "ls"))
    ltac:(split; [discriminate|reflexivity]) ltac:(discriminate))) E)).
Defined.
