(* ===== verification/AgentAuth.v ===== *)
(** * AgentAuth: which agents the hub lets in ([common/src/agent_pki/],
    [common/src/issued_certs.rs], [hub/src/client_verifier.rs],
    [hub/src/agent_ws.rs], and the agent's side in [agent/src/wsdial.rs])

    An agent proves who it is with a certificate, either in the TLS handshake
    or, behind a perimeter that ends TLS, with two headers of the WebSocket
    upgrade.  X.509, base64, hashing and ECDSA are libraries. *)

From Stdlib Require Import Strings.Byte.
From stdpp Require Import prelude strings list gmap.
From S2P Require Import Prelude Utf8 Std Frame Cbor Webauthn Auth.

(** ** Constants and encodings ([agent_pki/mod.rs]) *)

Definition WS_AUTH_DOMAIN : list byte := lit "term-agent-ws-auth".
Definition MACHINE_URN_PREFIX : list byte := lit "urn:term-agent:".
Definition MAX_AGENT_CERT_HEADER_BYTES : Z := 8 * 1024.
Definition MAX_AGENT_AUTH_HEADER_BYTES : Z := 512.
Definition WS_AUTH_SKEW_SECS : Z := 300.
Definition WS_AUTH_NONCE_LEN : Z := 16.
Definition HEADER_AGENT_CERT : list byte := lit "x-agent-cert".
Definition HEADER_AGENT_AUTH : list byte := lit "x-agent-auth".
Definition WS_REPLAY_TTL_SECS : Z := 2 * WS_AUTH_SKEW_SECS.

(** [machine_urn] *)
Definition machine_urn (machine_id : list byte) : list byte := MACHINE_URN_PREFIX ++ machine_id.

(** ** Certificates, as the code sees them *)

Inductive GeneralName := Uri (u : list byte) | OtherName.

(** A certificate's subject alternative names ([None]: it does not parse;
    [Some None]: no such extension) and its public key: algorithm, curve
    parameter, key bytes. *)
Record PkiLib := {
  crypto : Crypto;
  std_b64_decode : list byte -> option (list byte);
  x509_san : list byte -> option (option (list GeneralName));
  x509_spki : list byte -> option (list byte * option (list byte) * list byte);
  sig_of_slice : list byte -> option Z;
  chains_to_ca : Z -> list (list byte) -> list byte -> bool;   (** webpki, at a time in seconds, with intermediates *)
}.

(** [struct IssuedCertEntry] (what the hub reads of it) *)
Record IssuedCertEntry := mk_issued {
  machine_id : list byte; fingerprint : list byte; serial_hex : list byte; not_after_unix : Z;
}.
Abbreviation IssuedCertStore := (list IssuedCertEntry).

(** [IssuedCertStore::find_by_fingerprint] *)
Definition find_by_fingerprint (fp : list byte) (s : IssuedCertStore) : option IssuedCertEntry :=
  List.find (fun c => bool_decide (fingerprint c = fp)) s.

(** [IssuedCertStore::remove_where]: what is left, and how many went. *)
Definition remove_where (f : IssuedCertEntry -> bool) (s : IssuedCertStore) : IssuedCertStore * nat :=
  let left := List.filter (fun c => negb (f c)) s in (left, (length s - length left)%nat).

(** [validate_machine_id] *)
Definition validate_machine_id (id : list byte) : bool :=
  negb ((len id =? 0) || (len id >? 32)) && forallb id_byte id.

(** [str::parse::<u64>] *)
Definition parse_u64 (s : list byte) : option Z :=
  let digits := match s with b :: rest => if bool_decide (b = byte_of 43) then rest else s | [] => [] end in
  match digits with
  | [] => None
  | _ =>
      foldl (fun acc b =>
        a ← acc;
        if in_range 48 57 (byte_val b) then
          let n := a * 10 + (byte_val b - 48) in if n <=? U64_MAX then Some n else None
        else None) (Some 0) digits
  end.

(** [splitn(3, '.')] *)
Definition splitn3 (s : list byte) : list (list byte) :=
  match position "." s with
  | None => [s]
  | Some i =>
      let rest := drop (S i) s in
      take i s :: match position "." rest with
                  | None => [rest]
                  | Some j => [take j rest; drop (S j) rest]
                  end
  end.

(** [AppState.ws_replay]: when each (fingerprint, nonce) was first seen. *)
Abbreviation ReplayCache := (gmap (list byte * list byte) Z).

Section AgentAuth.
Variable lib : PkiLib.
Let enc := b64_encode (crypto lib).
Let dec64 := b64_decode (crypto lib).

(** [cert_fingerprint] *)
Definition cert_fingerprint (cert : list byte) : list byte := enc (sha256 (crypto lib) cert).

(** [ws_auth_payload] *)
Definition ws_auth_payload (host : list byte) (unix_secs : Z) (nonce : list byte) : list byte :=
  WS_AUTH_DOMAIN ++ byte_of 10 :: host ++ byte_of 10 :: dec unix_secs ++ byte_of 10 :: enc nonce.

(** [check_ws_auth_timestamp] *)
Definition check_ws_auth_timestamp (now_unix ts : Z) : bool := Z.abs (ts - now_unix) <=? WS_AUTH_SKEW_SECS.

(** [parse_ws_auth_header] *)
Inductive HeaderError := MissingNonce | MissingSignature | BadTimestamp | BadNonce | NonceLength (n : Z) | BadSignatureText.
Definition parse_ws_auth_header (value : list byte) : res HeaderError (Z * list byte * list byte) :=
  match splitn3 value with
  | [ts; nonce; sig] =>
      ts ← ok_or BadTimestamp (parse_u64 ts);
      nonce ← ok_or BadNonce (dec64 nonce);
      guard_err (negb (len nonce =? WS_AUTH_NONCE_LEN)) (NonceLength (len nonce)) ;;
      sig ← ok_or BadSignatureText (dec64 sig);
      Ok (ts, nonce, sig)
  | [_; _] => Err MissingSignature
  | _ => Err MissingNonce
  end.

(** [extract_machine_id_from_san] *)
Definition urn_ids (names : list GeneralName) : list (list byte) :=
  omap (fun g => match g with Uri u => strip_prefix MACHINE_URN_PREFIX u | OtherName => None end) names.
Definition extract_machine_id_from_san (cert : list byte) : option (list byte) :=
  names ← mjoin (x509_san lib cert);
  match urn_ids names with
  | [id] => if validate_machine_id id then Some id else None
  | _ => None
  end.

(** [extract_spki_uncompressed_p256] *)
Definition extract_spki_uncompressed_p256 (cert : list byte) : option (list byte) :=
  '(oid, params, key) ← x509_spki lib cert;
  if negb (bool_decide (oid = lit "1.2.840.10045.2.1")) then None
  else
    params ← params;
    if negb (bool_decide (params = map byte_of [0x2a; 0x86; 0x48; 0xce; 0x3d; 0x03; 0x01; 0x07])) then None
    else if negb (len key =? 65) || negb (bool_decide (head key = Some x04)) then None
    else Some key.

(** [verify_p256_signature] *)
Definition verify_p256_signature (cert payload sig : list byte) : bool :=
  match (spki ← extract_spki_uncompressed_p256 cert;
         vk ← key_of_sec1 (crypto lib) spki;
         sg ← sig_of_slice lib sig;
         Some (ecdsa_verify (crypto lib) vk payload sg)) with
  | Some ok => ok
  | None => false
  end.

(** ** The TLS path ([client_verifier.rs]) *)

Inductive TlsRejection := ChainInvalid | NotAllowed | SanInvalid | SanDiffers | EntryExpired.

(** [AgentClientVerifier::verify_client_cert]: the chain at [now] seconds, the
    allow list, the machine id. *)
Definition verify_client_cert (cert : list byte) (intermediates : list (list byte)) (now : Z) (store : IssuedCertStore)
    : TlsRejection + list byte :=
  if negb (chains_to_ca lib now intermediates cert) then inl ChainInvalid
  else
    match find_by_fingerprint (cert_fingerprint cert) store with
    | None => inl NotAllowed
    | Some entry =>
        match extract_machine_id_from_san cert with
        | None => inl SanInvalid
        | Some san_id =>
            if negb (bool_decide (san_id = machine_id entry)) then inl SanDiffers
            else if (not_after_unix entry >? 0) && (now >? not_after_unix entry) then inl EntryExpired
            else inr san_id
        end
    end.

(** [peer_machine_id], on the certificates of an accepted handshake *)
Definition peer_machine_id (peer_certificates : option (list (list byte))) : option (list byte) :=
  certs ← peer_certificates;
  leaf ← head certs;
  extract_machine_id_from_san leaf.

(** One connection of [run_acceptor]: the handshake with the verifier, then
    the machine id the connection is handled under. *)
Definition accept_raw (certs : list (list byte)) (now : Z) (store : IssuedCertStore) : option (list byte) :=
  match certs with
  | [] => None
  | leaf :: intermediates =>
      match verify_client_cert leaf intermediates now store with
      | inl _ => None
      | inr _ => peer_machine_id (Some certs)
      end
  end.

(** ** The upgrade path ([agent_ws.rs]) *)

Inductive UpgradeRejection :=
| MissingCert | CertNotAscii | CertTooLong (n : Z)
| MissingAuth | AuthNotAscii | AuthTooLong (n : Z)
| BadCertText | BadChain | NotIssued | BadSan | SanMismatch
| BadHeader (e : HeaderError) | StaleTimestamp | MissingHost | BadSignature | Replayed.

(** One header: present, a string, trimmed, not too long. *)
Definition bounded_header (name : list byte) (h : Headers) (cap : Z)
    (missing not_ascii : UpgradeRejection) (too_long : Z -> UpgradeRejection) : res UpgradeRejection (list byte) :=
  v ← ok_or missing (Auth.get name h);
  s ← ok_or not_ascii v;
  let s := trim s in
  guard_err (len s >? cap) (too_long (len s)) ;;
  Ok s.

(** [authenticate_ws_upgrade] up to the replay cache: the entry, the
    fingerprint and the nonce.  [now_chain] and [now] are its reads of the
    system clock in seconds. *)
Definition check_upgrade (h : Headers) (now_chain now : Z) (store : IssuedCertStore)
    : res UpgradeRejection (IssuedCertEntry * list byte * list byte) :=
  cert_b64 ← bounded_header HEADER_AGENT_CERT h MAX_AGENT_CERT_HEADER_BYTES MissingCert CertNotAscii CertTooLong;
  auth_header ← bounded_header HEADER_AGENT_AUTH h MAX_AGENT_AUTH_HEADER_BYTES MissingAuth AuthNotAscii AuthTooLong;
  cert ← ok_or BadCertText (match dec64 cert_b64 with Some c => Some c | None => std_b64_decode lib cert_b64 end);
  guard_err (negb (chains_to_ca lib now_chain [] cert)) BadChain ;;
  let fp := cert_fingerprint cert in
  entry ← ok_or NotIssued (find_by_fingerprint fp store);
  san_id ← ok_or BadSan (extract_machine_id_from_san cert);
  guard_err (negb (bool_decide (san_id = machine_id entry))) SanMismatch ;;
  '(ts, nonce, sig) ← map_err BadHeader (parse_ws_auth_header auth_header);
  guard_err (negb (check_ws_auth_timestamp now ts)) StaleTimestamp ;;
  host ← ok_or MissingHost (get_str (lit "host") h);
  guard_err (negb (verify_p256_signature cert (ws_auth_payload host ts nonce) sig)) BadSignature ;;
  Ok (entry, fp, nonce).

(** [authenticate_ws_upgrade]; [instant] is the monotonic clock, in
    nanoseconds. *)
Definition authenticate_ws_upgrade (h : Headers) (now_chain now instant : Z) (store : IssuedCertStore)
    (cache : ReplayCache) : ReplayCache * res UpgradeRejection (list byte) :=
  match check_upgrade h now_chain now store with
  | Ok (entry, fp, nonce) =>
      match cache !! (fp, nonce) with
      | Some _ => (cache, Err Replayed)
      | None => (<[(fp, nonce) := instant]> cache, Ok (machine_id entry))
      end
  | Err e => (cache, Err e)
  | Panic => (cache, Panic)
  end.

(** [gc_ws_replay] in [state.rs].  [min_instant] is the earliest instant the
    platform can represent: where the subtraction fails the cutoff is the
    present. *)
Definition gc_ws_replay (min_instant instant : Z) (cache : ReplayCache) : ReplayCache :=
  let c := instant - WS_REPLAY_TTL_SECS * 1000000000 in
  let cutoff := if min_instant <=? c then c else instant in
  filter (fun kv => cutoff <= kv.2) cache.

(** ** The agent's side ([wsdial.rs]) *)

(** [agent_auth_headers]: [sign] is the agent's key. *)
Definition agent_auth_headers (cert nonce host : list byte) (now : Z) (sign : list byte -> list byte)
    : list byte * list byte :=
  (enc cert, dec now ++ "."%byte :: enc nonce ++ "."%byte :: enc (sign (ws_auth_payload host now nonce))).
End AgentAuth.
