(* ===== verification/AgentAuthFacts.v ===== *)
(** * AgentAuthFacts: who gets in, and what cannot be replayed *)

From Stdlib Require Import Strings.Byte.
From stdpp Require Import prelude strings list gmap.
From S2P Require Import Prelude Utf8 Std Frame Cbor CborFacts Webauthn WebauthnFacts Auth AgentAuth.

(** ** Text *)

(** A visible ASCII character: no whitespace, so trimming leaves it alone. *)
Definition visible (b : byte) : Prop := 33 <= byte_val b <= 126.

Lemma ws_len_visible s : Forall visible s -> ws_len s = 0%nat.
Proof.
  destruct s as [|b s]; [done|]. intros [[H1 H2] _]%Forall_cons. unfold ws_len, in_range.
  repeat match goal with |- context [byte_val b =? ?k] => rewrite (proj2 (Z.eqb_neq (byte_val b) k)) by lia end.
  rewrite (proj2 (Z.leb_gt (byte_val b) 13)) by lia. rewrite andb_false_r. cbn. by destruct s as [|? [|? ?]].
Qed.

Lemma trim_visible s : Forall visible s -> trim s = s.
Proof.
  intros V. unfold trim.
  assert (L : trim_left (length s) s = s).
  { pose proof (ws_len_visible s V) as W. destruct (length s); cbn [trim_left]; by rewrite ?W. }
  rewrite L. assert (E : ends_ws s = 0%nat).
  { unfold ends_ws. assert (D : forall n, ws_len (drop n s) = 0%nat) by (intros n; by apply ws_len_visible, Forall_drop).
    rewrite !D. by rewrite !andb_false_r. }
  destruct (length s); cbn [trim_right]; by rewrite ?E.
Qed.

Definition digit (b : byte) : Prop := 48 <= byte_val b <= 57.

Lemma dec_digits_digit k n : 0 <= n -> Forall digit (dec_digits k n).
Proof.
  revert n. induction k as [|k IH]; intros n Hn; [constructor|]. cbn [dec_digits]. apply Forall_app. split.
  - destruct (n <? 10); [constructor|]. apply IH. apply Z.div_pos; lia.
  - constructor; [|constructor]. pose proof (Z.mod_pos_bound n 10 ltac:(lia)). unfold digit.
    rewrite byte_val_of, Z.mod_small by lia. lia.
Qed.

Lemma dec_digits_nonempty k n : dec_digits (S k) n <> [].
Proof. cbn [dec_digits]. by destruct (if n <? 10 then [] else dec_digits k (n / 10)). Qed.

(** Reading a decimal number back. *)
Definition digit_step (acc : option Z) (b : byte) : option Z :=
  a ← acc;
  if in_range 48 57 (byte_val b) then
    let n := a * 10 + (byte_val b - 48) in if n <=? U64_MAX then Some n else None
  else None.

Lemma parse_dec_digits k n :
  0 <= n < 10 ^ Z.of_nat k -> n <= U64_MAX -> foldl digit_step (Some 0) (dec_digits k n) = Some n.
Proof.
  revert n. induction k as [|k IH]; intros n Hn Hm; [cbn in *; f_equal; lia|]. cbn [dec_digits]. rewrite foldl_app.
  pose proof (Z.mod_pos_bound n 10 ltac:(lia)). pose proof (Z.div_mod n 10 ltac:(lia)).
  assert (0 <= n / 10) by (apply Z.div_pos; lia).
  assert (E : foldl digit_step (Some 0) (if n <? 10 then [] else dec_digits k (n / 10)) = Some (n / 10)).
  { destruct (Z.ltb_spec n 10); [cbn; f_equal; symmetry; apply Z.div_small; lia|]. apply IH; [|lia]. split; [done|].
    apply Z.div_lt_upper_bound; [lia|]. rewrite Nat2Z.inj_succ, Z.pow_succ_r in Hn by lia. lia. }
  rewrite E. cbn [foldl]. unfold digit_step. cbn [mbind option_bind]. unfold in_range.
  rewrite byte_val_of, Z.mod_small by lia. rewrite !(proj2 (Z.leb_le _ _)) by lia. cbn [andb].
  f_equal. lia.
Qed.

Lemma parse_u64_dec n : u64 n -> parse_u64 (dec n) = Some n.
Proof.
  intros Hn. unfold parse_u64, dec. pose proof (dec_digits_digit 20 n ltac:(unfold u64 in Hn; lia)) as D.
  pose proof (dec_digits_nonempty 19 n) as N.
  pose proof (parse_dec_digits 20 n ltac:(unfold u64 in Hn; cbn; lia) ltac:(unfold u64, U64_MAX in *; lia)) as P.
  destruct (dec_digits 20 n) as [|b l]; [done|]. apply Forall_cons in D as [Db _].
  rewrite bool_decide_false; [exact P|]. intros ->. unfold digit in Db. vm_compute in Db. destruct Db as [Db _]. by apply Db.
Qed.

Lemma digit_visible l : Forall digit l -> Forall visible l.
Proof. intros H. eapply Forall_impl; [exact H|]. unfold digit, visible. lia. Qed.

Lemma digit_no_dot l : Forall digit l -> "."%byte ∉ l.
Proof. intros H Hin. rewrite Forall_forall in H. apply H in Hin. unfold digit in Hin. cbn in Hin. lia. Qed.

Lemma drop_S_mid {A} (x : A) a b : drop (S (length a)) (a ++ x :: b) = b.
Proof. induction a as [|y a IH]; [done|exact IH]. Qed.

Lemma splitn3_three a b c :
  "."%byte ∉ a -> "."%byte ∉ b -> splitn3 (a ++ "."%byte :: b ++ "."%byte :: c) = [a; b; c].
Proof.
  intros Ha Hb. unfold splitn3. rewrite position_app by done.
  by rewrite take_app_length, drop_S_mid, position_app, take_app_length, drop_S_mid by done.
Qed.

(** ** Who gets in *)

Section Facts.
Variable lib : PkiLib.

(** The machine id of the certificate is valid and unique in it. *)
Lemma san_Some cert id :
  extract_machine_id_from_san lib cert = Some id <->
  exists names, x509_san lib cert = Some (Some names) /\ urn_ids names = [id] /\ validate_machine_id id = true.
Proof.
  unfold extract_machine_id_from_san. destruct (x509_san lib cert) as [[names|]|]; cbn;
    [|split; [done|]; by intros (? & [=] & _)..].
  destruct (urn_ids names) as [|i [|? ?]] eqn:E;
    [split; [done|]; intros (ns & [= <-] & Hu & _); congruence| |split; [done|]; intros (ns & [= <-] & Hu & _); congruence].
  destruct (validate_machine_id i) eqn:V; split.
  - intros [= <-]. by exists names.
  - intros (ns & [= <-] & Hu & _). rewrite E in Hu. by injection Hu as ->.
  - done.
  - intros (ns & [= <-] & Hu & Hv). rewrite E in Hu. injection Hu as ->. congruence.
Qed.

(** What both paths ask of a certificate. *)
Definition cert_allowed (cert : list byte) (store : IssuedCertStore) (entry : IssuedCertEntry) : Prop :=
  find_by_fingerprint (cert_fingerprint lib cert) store = Some entry /\
  extract_machine_id_from_san lib cert = Some (machine_id entry).

Lemma verify_client_cert_iff cert chain now store id :
  verify_client_cert lib cert chain now store = inr id <->
  chains_to_ca lib now chain cert = true /\ exists entry, cert_allowed cert store entry /\ id = machine_id entry /\
    (not_after_unix entry <= 0 \/ now <= not_after_unix entry).
Proof.
  unfold verify_client_cert, cert_allowed. destruct (chains_to_ca lib now chain cert); [|naive_solver]. cbn [negb].
  destruct (find_by_fingerprint _ store) as [entry|]; [|naive_solver].
  destruct (extract_machine_id_from_san lib cert) as [san|]; [|naive_solver].
  case_bool_decide as E; cbn [negb]; [subst san|naive_solver].
  rewrite !Z.gtb_ltb.
  assert (G : not_after_unix entry <= 0 \/ now <= not_after_unix entry ->
    (inr (machine_id entry) : TlsRejection + list byte) = inr id <->
    true = true /\ exists e, (Some entry = Some e /\ Some (machine_id entry) = Some (machine_id e)) /\
      id = machine_id e /\ (not_after_unix e <= 0 \/ now <= not_after_unix e)).
  { intros Hx. split; [intros [= <-]; eauto 10|]. by intros (_ & e & ([= <-] & _) & -> & _). }
  destruct (Z.ltb_spec 0 (not_after_unix entry)); destruct (Z.ltb_spec (not_after_unix entry) now); cbn [andb];
    [|apply G; lia..].
  split; [done|]. intros (_ & e & ([= <-] & _) & _ & Hx). lia.
Qed.

Lemma bounded_header_Ok name h cap m a t s :
  bounded_header name h cap m a t = Ok s <->
  exists v, Auth.get name h = Some (Some v) /\ s = trim v /\ len s <= cap.
Proof.
  unfold bounded_header. destruct (Auth.get name h) as [[v|]|]; cbn; [|naive_solver..].
  rewrite Z.gtb_ltb. destruct (Z.ltb_spec cap (len (trim v))); cbn; split.
  - done.
  - intros (? & [= <-] & -> & ?). lia.
  - intros [= <-]. eauto.
  - by intros (? & [= <-] & -> & ?).
Qed.

Lemma parse_header_Ok v ts nonce sig :
  parse_ws_auth_header lib v = Ok (ts, nonce, sig) <->
  exists a b c, splitn3 v = [a; b; c] /\ parse_u64 a = Some ts /\ b64_decode (crypto lib) b = Some nonce /\
    len nonce = WS_AUTH_NONCE_LEN /\ b64_decode (crypto lib) c = Some sig.
Proof.
  unfold parse_ws_auth_header. split.
  - intros H. destruct (splitn3 v) as [|a [|b [|c [|? ?]]]]; try done. exists a, b, c. split; [done|].
    apply bind_Ok in H as (x & Hx & H). apply ok_or_Ok in Hx. apply bind_Ok in H as (n & Hn & H). apply ok_or_Ok in Hn.
    apply bind_Ok in H as ([] & Hl & H). apply guard_err_Ok, negb_false_iff, Z.eqb_eq in Hl.
    apply bind_Ok in H as (s & Hs & [= <- <- <-]). by apply ok_or_Ok in Hs.
  - intros (a & b & c & -> & Ha & Hb & Hl & Hc). rewrite Ha. cbn [ok_or mbind res_bind]. rewrite Hb.
    cbn [ok_or mbind res_bind]. rewrite (proj2 (Z.eqb_eq _ _)) by done. cbn [negb guard_err mbind res_bind]. by rewrite Hc.
Qed.

(** What an upgrade shows before its signature is checked. *)
Definition upgrade_shows (h : Headers) (now_chain now : Z) (store : IssuedCertStore) (entry : IssuedCertEntry)
    (cert nonce sig host : list byte) (ts : Z) : Prop :=
  exists cert_hdr auth_hdr,
    Auth.get HEADER_AGENT_CERT h = Some (Some cert_hdr) /\ len (trim cert_hdr) <= MAX_AGENT_CERT_HEADER_BYTES /\
    Auth.get HEADER_AGENT_AUTH h = Some (Some auth_hdr) /\ len (trim auth_hdr) <= MAX_AGENT_AUTH_HEADER_BYTES /\
    (match b64_decode (crypto lib) (trim cert_hdr) with Some c => Some c | None => std_b64_decode lib (trim cert_hdr) end)
      = Some cert /\
    chains_to_ca lib now_chain [] cert = true /\ cert_allowed cert store entry /\
    parse_ws_auth_header lib (trim auth_hdr) = Ok (ts, nonce, sig) /\
    Z.abs (ts - now) <= WS_AUTH_SKEW_SECS /\ get_str (lit "host") h = Some host.

Lemma check_upgrade_shows h now_chain now store entry cert nonce sig host ts :
  upgrade_shows h now_chain now store entry cert nonce sig host ts ->
  check_upgrade lib h now_chain now store =
  if verify_p256_signature lib cert (ws_auth_payload lib host ts nonce) sig
  then Ok (entry, cert_fingerprint lib cert, nonce) else Err BadSignature.
Proof.
  intros (cv & av & H1 & L1 & H2 & L2 & Hc & Hch & [He Hs] & Hp & Ht & Hh). unfold check_upgrade.
  rewrite (proj2 (bounded_header_Ok _ _ _ _ _ _ _)) by eauto. cbn [mbind res_bind].
  rewrite (proj2 (bounded_header_Ok _ _ _ _ _ _ _)) by eauto. cbn [mbind res_bind].
  rewrite Hc. cbn [ok_or mbind res_bind]. rewrite Hch. cbn [negb guard_err mbind res_bind].
  rewrite He. cbn [ok_or mbind res_bind]. rewrite Hs. cbn [ok_or mbind res_bind].
  rewrite bool_decide_true by done. cbn [negb guard_err mbind res_bind]. rewrite Hp. cbn [map_err mbind res_bind].
  unfold check_ws_auth_timestamp. rewrite (proj2 (Z.leb_le _ _)) by done. cbn [negb guard_err mbind res_bind].
  rewrite Hh. cbn [ok_or mbind res_bind]. by destruct (verify_p256_signature _ _ _ _).
Qed.

(** What an upgrade has to show, the replay cache apart. *)
Definition upgrade_ok (h : Headers) (now_chain now : Z) (store : IssuedCertStore)
    (entry : IssuedCertEntry) (fp nonce : list byte) : Prop :=
  exists cert_hdr auth_hdr cert ts sig host,
    Auth.get HEADER_AGENT_CERT h = Some (Some cert_hdr) /\ len (trim cert_hdr) <= MAX_AGENT_CERT_HEADER_BYTES /\
    Auth.get HEADER_AGENT_AUTH h = Some (Some auth_hdr) /\ len (trim auth_hdr) <= MAX_AGENT_AUTH_HEADER_BYTES /\
    (match b64_decode (crypto lib) (trim cert_hdr) with Some c => Some c | None => std_b64_decode lib (trim cert_hdr) end)
      = Some cert /\
    chains_to_ca lib now_chain [] cert = true /\
    cert_allowed cert store entry /\ fp = cert_fingerprint lib cert /\
    parse_ws_auth_header lib (trim auth_hdr) = Ok (ts, nonce, sig) /\
    Z.abs (ts - now) <= WS_AUTH_SKEW_SECS /\
    get_str (lit "host") h = Some host /\
    verify_p256_signature lib cert (ws_auth_payload lib host ts nonce) sig = true.

Lemma check_upgrade_Ok h now_chain now store entry fp nonce :
  check_upgrade lib h now_chain now store = Ok (entry, fp, nonce) <->
  upgrade_ok h now_chain now store entry fp nonce.
Proof.
  unfold check_upgrade, upgrade_ok, cert_allowed. split.
  - intros H. apply bind_Ok in H as (cb & H1 & H). apply bounded_header_Ok in H1 as (cv & H1 & -> & L1).
    apply bind_Ok in H as (ab & H2 & H). apply bounded_header_Ok in H2 as (av & H2 & -> & L2).
    apply bind_Ok in H as (cert & Hc & H). apply ok_or_Ok in Hc.
    apply bind_Ok in H as ([] & Hch & H). apply guard_err_Ok, negb_false_iff in Hch.
    apply bind_Ok in H as (e & He & H). apply ok_or_Ok in He.
    apply bind_Ok in H as (san & Hs & H). apply ok_or_Ok in Hs.
    apply bind_Ok in H as ([] & Hm & H). apply guard_dec_Ok in Hm. subst san.
    apply bind_Ok in H as ([[ts n] sig] & Hp & H). apply map_err_Ok in Hp.
    apply bind_Ok in H as ([] & Ht & H). apply guard_err_Ok, negb_false_iff, Z.leb_le in Ht.
    apply bind_Ok in H as (host & Hh & H). apply ok_or_Ok in Hh.
    apply bind_Ok in H as ([] & Hv & [= <- <- <-]). apply guard_err_Ok, negb_false_iff in Hv.
    exists cv, av, cert, ts, sig, host. done.
  - intros (cv & av & cert & ts & sig & host & H1 & L1 & H2 & L2 & Hc & Hch & Ha & -> & Hp & Ht & Hh & Hv).
    fold (check_upgrade lib h now_chain now store).
    rewrite (check_upgrade_shows h now_chain now store entry cert nonce sig host ts) by (exists cv, av; done). by rewrite Hv.
Qed.
(** A raw connection is handled under the machine id its certificate was
    verified for, never under another one. *)
Lemma accept_raw_exact certs now store id :
  accept_raw lib certs now store = Some id <->
  exists leaf rest, certs = leaf :: rest /\ verify_client_cert lib leaf rest now store = inr id.
Proof.
  unfold accept_raw, verify_client_cert. split.
  - intros H. destruct certs as [|leaf rest]; [done|]. exists leaf, rest. split; [done|]. cbn in H.
    destruct (chains_to_ca lib now rest leaf); cbn [negb] in *; [|done]. destruct (find_by_fingerprint _ _) as [entry|]; [|done].
    destruct (extract_machine_id_from_san lib leaf) as [san|]; [|done]. case_bool_decide; cbn [negb] in *; [|done].
    destruct (_ && _); [done|]. by simplify_eq.
  - intros (leaf & rest & -> & H). cbn.
    destruct (chains_to_ca lib now rest leaf); cbn [negb] in *; [|done]. destruct (find_by_fingerprint _ _) as [entry|]; [|done].
    destruct (extract_machine_id_from_san lib leaf) as [san|]; [|done]. case_bool_decide; cbn [negb] in *; [|done].
    destruct (_ && _); [done|]. by simplify_eq.
Qed.

(** ** Histories of the replay cache *)

Inductive CacheEvent :=
| EvUpgrade (h : Headers) (now_chain now instant : Z) (store : IssuedCertStore)
| EvGc (instant : Z).

Definition cache_step (min_instant : Z) (c : ReplayCache) (e : CacheEvent) : ReplayCache :=
  match e with
  | EvUpgrade h now_chain now instant store => (authenticate_ws_upgrade lib h now_chain now instant store c).1
  | EvGc instant => gc_ws_replay min_instant instant c
  end.

(** The sweep runs at instants from which ten minutes can be subtracted and
    that are at most ten minutes after [t0]. *)
Definition sweeps_within (min_instant t0 : Z) (e : CacheEvent) : Prop :=
  match e with
  | EvGc i => min_instant <= i - WS_REPLAY_TTL_SECS * 1000000000 /\ i <= t0 + WS_REPLAY_TTL_SECS * 1000000000
  | EvUpgrade _ _ _ _ _ => True
  end.

Lemma cache_keeps min_instant t0 k es c :
  c !! k = Some t0 -> Forall (sweeps_within min_instant t0) es ->
  foldl (cache_step min_instant) c es !! k = Some t0.
Proof.
  revert c. induction es as [|e es IH]; intros c Hc Hes; [done|]. apply Forall_cons in Hes as [He Hes].
  cbn [foldl]. apply IH; [|done]. destruct e as [h nc n i st|i]; cbn [cache_step].
  - unfold authenticate_ws_upgrade. destruct (check_upgrade lib h nc n st) as [[[e fp] nonce]|e|]; [|done..].
    destruct (c !! (fp, nonce)) as [t|] eqn:E; [done|]. cbn [fst].
    rewrite lookup_insert_ne; [done|]. intros <-. congruence.
  - unfold gc_ws_replay. destruct He as [H1 H2]. rewrite (proj2 (Z.leb_le _ _)) by done.
    apply map_lookup_filter_Some. split; [done|]. cbn. lia.
Qed.

(** ** Properties *)

(** [C11] A WebSocket upgrade is accepted, with the machine id of the allow-list
    entry, if and only if: both headers are present, ASCII and short enough;
    the certificate decodes, chains to the agent CA, has its fingerprint on
    the list and names the listed machine; the timestamp is within five
    minutes; the signature over this host, timestamp and nonce verifies under
    the certificate's key; and this nonce was not seen from this certificate. *)
Theorem upgrade_accepted_iff h now_chain now instant store cache id :
  (authenticate_ws_upgrade lib h now_chain now instant store cache).2 = Ok id <->
  exists entry fp nonce, upgrade_ok h now_chain now store entry fp nonce /\
    cache !! (fp, nonce) = None /\ id = machine_id entry.
Proof.
  unfold authenticate_ws_upgrade. setoid_rewrite <- check_upgrade_Ok.
  destruct (check_upgrade lib h now_chain now store) as [[[e fp] nonce]|e|].
  - destruct (cache !! (fp, nonce)) eqn:E; cbn [snd].
    + split; [done|]. intros (? & ? & ? & [= <- <- <-] & Hn & _). congruence.
    + split; [intros [= <-]; eauto 10|]. by intros (? & ? & ? & [= <- <- <-] & _ & ->).
  - split; [done|]. by intros (? & ? & ? & ? & _).
  - split; [done|]. by intros (? & ? & ? & ? & _).
Qed.

(** [C31] After an upgrade was accepted, no upgrade that carries the same
    certificate and nonce is accepted while sweeps run at most ten minutes
    after it, whatever other upgrades happen; and a header can only pass the
    timestamp check at two times at most ten minutes (of whole seconds)
    apart. *)
Theorem accepted_upgrade_not_replayed min_instant h nc0 n0 t0 store0 cache entry fp nonce es h' nc1 n1 t1 store1 :
  upgrade_ok h nc0 n0 store0 entry fp nonce ->
  (authenticate_ws_upgrade lib h nc0 n0 t0 store0 cache).2 = Ok (machine_id entry) ->
  Forall (sweeps_within min_instant t0) es ->
  (forall entry', upgrade_ok h' nc1 n1 store1 entry' fp nonce ->
    (authenticate_ws_upgrade lib h' nc1 n1 t1 store1
      (foldl (cache_step min_instant) (authenticate_ws_upgrade lib h nc0 n0 t0 store0 cache).1 es)).2
    = Err Replayed) /\
  (forall entry' fp' nonce', Auth.get HEADER_AGENT_AUTH h' = Auth.get HEADER_AGENT_AUTH h ->
    upgrade_ok h' nc1 n1 store1 entry' fp' nonce' -> Z.abs (n1 - n0) <= WS_REPLAY_TTL_SECS).
Proof.
  intros H0 Hacc Hes. split.
  - intros e' H1. unfold authenticate_ws_upgrade in *. rewrite (proj2 (check_upgrade_Ok _ _ _ _ _ _ _) H0) in *.
    destruct (cache !! (fp, nonce)) eqn:E; [done|]. cbn [fst].
    rewrite (proj2 (check_upgrade_Ok _ _ _ _ _ _ _) H1).
    rewrite (cache_keeps min_instant t0 (fp, nonce)); [done| |done]. by rewrite lookup_insert_eq.
  - intros e' fp' nonce' Hh (? & av & ? & ts & ? & ? & _ & _ & Ha & _ & _ & _ & _ & _ & Hp & Ht & _).
    destruct H0 as (? & av0 & ? & ts0 & ? & ? & _ & _ & Ha0 & _ & _ & _ & _ & _ & Hp0 & Ht0 & _).
    assert (av = av0) as -> by congruence. rewrite Hp in Hp0. injection Hp0 as <- _ _.
    unfold WS_REPLAY_TTL_SECS, WS_AUTH_SKEW_SECS in *. lia.
Qed.

(** On both paths, the identity of an accepted agent is a valid machine id
    that its certificate and the allow list agree on; and once the entries
    with a certificate's fingerprint have been removed from the list, neither
    path accepts that certificate any more. *)
Lemma identity_is_listed_and_revocable cert store :
  (forall chain now id, verify_client_cert lib cert chain now store = inr id ->
     validate_machine_id id = true /\ exists e, e ∈ store /\ machine_id e = id /\ fingerprint e = cert_fingerprint lib cert) /\
  (forall h nc now t cache id, (authenticate_ws_upgrade lib h nc now t store cache).2 = Ok id ->
     validate_machine_id id = true /\ exists e, e ∈ store /\ machine_id e = id) /\
  (forall f, (forall e, fingerprint e = cert_fingerprint lib cert -> f e = true) ->
     (forall chain now id, verify_client_cert lib cert chain now (remove_where f store).1 <> inr id) /\
     (forall h nc now entry fp nonce, upgrade_ok h nc now (remove_where f store).1 entry fp nonce ->
        fp <> cert_fingerprint lib cert)).
Proof.
  assert (F : forall c st e, cert_allowed c st e ->
    validate_machine_id (machine_id e) = true /\ e ∈ st /\ fingerprint e = cert_fingerprint lib c).
  { intros c st e [Hf Hs]. apply san_Some in Hs as (_ & _ & _ & Hv). apply List.find_some in Hf as [Hin Hb].
    apply bool_decide_eq_true in Hb. split; [done|]. split; [by apply list_elem_of_In|done]. }
  split; [|split].
  - intros chain now id H. apply verify_client_cert_iff in H as (_ & e & Ha & -> & _). apply F in Ha as (? & ? & ?). eauto.
  - intros h nc now t cache id H. unfold authenticate_ws_upgrade in H.
    destruct (check_upgrade lib h nc now store) as [[[e fp] nonce]|e|] eqn:E; [|done..].
    apply check_upgrade_Ok in E as (? & ? & c & ? & ? & ? & _ & _ & _ & _ & _ & _ & Ha & _).
    destruct (cache !! (fp, nonce)); [done|]. injection H as <-. apply F in Ha as (? & ? & _). eauto.
  - intros f Hf.
    assert (N : forall c e, cert_allowed c (remove_where f store).1 e -> cert_fingerprint lib c <> cert_fingerprint lib cert).
    { intros c e Ha E. apply F in Ha as (_ & Hin & Hfp). cbn in Hin. apply list_elem_of_In, List.filter_In in Hin as [_ Hn].
      rewrite Hf in Hn by congruence. done. }
    split.
    + intros chain now id H. apply verify_client_cert_iff in H as (_ & e & Ha & _). by apply N in Ha.
    + intros h nc now e fp nonce (? & ? & c & ? & ? & ? & _ & _ & _ & _ & _ & _ & Ha & -> & _). by apply N in Ha.
Qed.

(** The headers an agent builds for a host, on any request that carries them. *)
Lemma honest_upgrade_shows h cert nonce host sign now hub_chain hub_now store entry at_host :
  (forall b, b64_decode (crypto lib) (b64_encode (crypto lib) b) = Some b) ->
  (forall b, Forall visible (b64_encode (crypto lib) b) /\ "."%byte ∉ b64_encode (crypto lib) b) ->
  let '(cert_header, auth_header) := agent_auth_headers lib cert nonce host now sign in
  Auth.get HEADER_AGENT_CERT h = Some (Some cert_header) -> Auth.get HEADER_AGENT_AUTH h = Some (Some auth_header) ->
  get_str (lit "host") h = Some at_host ->
  len cert_header <= MAX_AGENT_CERT_HEADER_BYTES -> len auth_header <= MAX_AGENT_AUTH_HEADER_BYTES ->
  len nonce = WS_AUTH_NONCE_LEN -> u64 now -> Z.abs (now - hub_now) <= WS_AUTH_SKEW_SECS ->
  chains_to_ca lib hub_chain [] cert = true -> cert_allowed cert store entry ->
  upgrade_shows h hub_chain hub_now store entry cert nonce (sign (ws_auth_payload lib host now nonce)) at_host now.
Proof.
  intros Hrt Hvis. unfold agent_auth_headers. intros Gc Ga Gh Lc La Ln Hn Ht Hch Hal.
  pose proof (dec_digits_digit 20 now ltac:(unfold u64 in Hn; lia)) as D.
  set (sig := sign _) in *. set (e := b64_encode (crypto lib)) in *.
  exists (e cert), (dec now ++ "."%byte :: e nonce ++ "."%byte :: e sig).
  assert (Vd : visible "."%byte) by (vm_compute; by split).
  rewrite (trim_visible (e cert)) by apply Hvis.
  rewrite (trim_visible (dec now ++ _)) by (rewrite !Forall_app, !Forall_cons, Forall_app, !Forall_cons;
    split_and!; try apply Hvis; try done; by apply digit_visible).
  split_and!; try done; [by rewrite Hrt|].
  apply parse_header_Ok. exists (dec now), (e nonce), (e sig).
  split; [apply splitn3_three; [by apply digit_no_dot|apply Hvis]|].
  split; [by apply parse_u64_dec|]. by split_and!.
Qed.

(** What a listed agent sends, the hub accepts: with a fresh nonce, a
    signature that verifies under its certificate and clocks at most five
    minutes apart, the headers an agent builds for a host are accepted by the
    hub that is reached under that host, and the agent gets the machine id of
    its entry. *)
Lemma honest_agent_accepted cert nonce host sign now hub_chain hub_now instant store cache entry :
  (forall b, b64_decode (crypto lib) (b64_encode (crypto lib) b) = Some b) ->
  (forall b, Forall visible (b64_encode (crypto lib) b) /\ "."%byte ∉ b64_encode (crypto lib) b) ->
  let '(cert_header, auth_header) := agent_auth_headers lib cert nonce host now sign in
  len cert_header <= MAX_AGENT_CERT_HEADER_BYTES -> len auth_header <= MAX_AGENT_AUTH_HEADER_BYTES ->
  len nonce = WS_AUTH_NONCE_LEN -> u64 now -> Z.abs (now - hub_now) <= WS_AUTH_SKEW_SECS ->
  chains_to_ca lib hub_chain [] cert = true -> cert_allowed cert store entry ->
  verify_p256_signature lib cert (ws_auth_payload lib host now nonce) (sign (ws_auth_payload lib host now nonce)) = true ->
  cache !! (cert_fingerprint lib cert, nonce) = None ->
  (authenticate_ws_upgrade lib
     [(lit "host", Some host); (HEADER_AGENT_CERT, Some cert_header); (HEADER_AGENT_AUTH, Some auth_header)]
     hub_chain hub_now instant store cache).2 = Ok (machine_id entry).
Proof.
  intros Hrt Hvis. unfold agent_auth_headers. intros Lc La Ln Hn Ht Hch Hal Hv Hc.
  unfold authenticate_ws_upgrade.
  rewrite (check_upgrade_shows _ _ _ _ entry cert nonce _ host now) by (by apply (honest_upgrade_shows _ cert nonce host sign now)).
  by rewrite Hv, Hc.
Qed.
End Facts.

(** ** Witnesses *)

(** Hexadecimal stands in for base64. *)
Definition hex_bytes (l : list byte) : list byte :=
  flat_map (fun b => [hex_digit (byte_val b / 16); hex_digit (byte_val b mod 16)]) l.
Definition unhex_digit (b : byte) : option Z :=
  if in_range 48 57 (byte_val b) then Some (byte_val b - 48)
  else if in_range 97 102 (byte_val b) then Some (byte_val b - 87) else None.
Fixpoint unhex_bytes (l : list byte) : option (list byte) :=
  match l with
  | [] => Some []
  | a :: b :: l =>
      x ← unhex_digit a; y ← unhex_digit b; rest ← unhex_bytes l;
      Some (byte_of (16 * x + y) :: rest)
  | _ => None
  end.

Lemma unhex_hex l : unhex_bytes (hex_bytes l) = Some l.
Proof.
  induction l as [|b l IH]; [done|]. cbn [hex_bytes flat_map app unhex_bytes]. fold (hex_bytes l). rewrite IH.
  by destruct b.
Qed.

Lemma hex_visible l : Forall visible (hex_bytes l) /\ "."%byte ∉ hex_bytes l.
Proof.
  assert (P : forall b, (visible (hex_digit (byte_val b / 16)) /\ hex_digit (byte_val b / 16) <> "."%byte) /\
     (visible (hex_digit (byte_val b mod 16)) /\ hex_digit (byte_val b mod 16) <> "."%byte)).
  { intros b. unfold visible. destruct b; vm_compute; split; split; congruence || (split; congruence). }
  induction l as [|b l [IH1 IH2]]; [split; [constructor|set_solver]|].
  cbn [hex_bytes flat_map app]. fold (hex_bytes l). destruct (P b) as [[? ?] [? ?]]. split; [by rewrite !Forall_cons|].
  set_solver.
Qed.

Definition toy_pki : PkiLib := {|
  crypto := {| b64_encode := hex_bytes; b64_decode := unhex_bytes; json_view := json_view toy; sha256 := sha256 toy;
               key_of_sec1 := key_of_sec1 toy; sig_of_der := sig_of_der toy; ecdsa_verify := ecdsa_verify toy |};
  std_b64_decode _ := None;
  x509_san _ := Some (Some [OtherName; Uri (lit "urn:term-agent:alpha")]);
  x509_spki _ := Some (lit "1.2.840.10045.2.1", Some (map byte_of [0x2a; 0x86; 0x48; 0xce; 0x3d; 0x03; 0x01; 0x07]),
                       x04 :: replicate 64 x01);
  sig_of_slice s := Some (len s);
  chains_to_ca _ _ _ := true;
|}.
Definition toy_entry : IssuedCertEntry :=
  mk_issued (lit "alpha") (hex_bytes (replicate 32 x00)) (lit "01") 0.
Definition toy_nonce : list byte := replicate 16 x07.
Definition toy_sign (m : list byte) : list byte := lit "sig".
Definition toy_headers (ts : Z) : Headers :=
  let '(c, a) := agent_auth_headers toy_pki (lit "cert") toy_nonce (lit "hub") ts toy_sign in
  [(lit "host", Some (lit "hub")); (HEADER_AGENT_CERT, Some c); (HEADER_AGENT_AUTH, Some a)].

Lemma honest_agent_accepted_witness :
  (authenticate_ws_upgrade toy_pki (toy_headers 1000) 1 900 5 [toy_entry] ∅).2 = Ok (lit "alpha").
Proof.
  apply (honest_agent_accepted toy_pki (lit "cert") toy_nonce (lit "hub") toy_sign 1000 1 900 5 [toy_entry] ∅ toy_entry
    unhex_hex hex_visible); try (vm_compute; reflexivity); try (vm_compute; discriminate).
  - split; [vm_compute; discriminate|vm_compute; reflexivity].
  - split; vm_compute; reflexivity.
Defined.

Lemma toy_upgrade_ok ts nc now :
  ts = 300 -> Z.abs (ts - now) <= 300 ->
  upgrade_ok toy_pki (toy_headers ts) nc now [toy_entry] toy_entry (hex_bytes (replicate 32 x00)) toy_nonce.
Proof.
  intros -> Hn. exists (hex_bytes (lit "cert")), (agent_auth_headers toy_pki (lit "cert") toy_nonce (lit "hub") 300 toy_sign).2,
    (lit "cert"), 300, (lit "sig"), (lit "hub").
  split_and!; try done; try (vm_compute; reflexivity); try (vm_compute; discriminate).
Qed.

Lemma accepted_upgrade_not_replayed_witness :
  (authenticate_ws_upgrade toy_pki (toy_headers 300) 0 600 600000000000 [toy_entry]
    (gc_ws_replay 0 600000000000 (authenticate_ws_upgrade toy_pki (toy_headers 300) 0 0 0 [toy_entry] ∅).1)).2 = Err Replayed.
Proof.
  assert (E : (authenticate_ws_upgrade toy_pki (toy_headers 300) 0 0 0 [toy_entry] ∅).2 = Ok (machine_id toy_entry))
    by (vm_compute; reflexivity).
  assert (S : Forall (sweeps_within 0 0) [EvGc 600000000000]).
  { constructor; [|constructor]. split; vm_compute; discriminate. }
  pose proof (accepted_upgrade_not_replayed toy_pki 0 (toy_headers 300) 0 0 0 [toy_entry] ∅ toy_entry _ toy_nonce
    [EvGc 600000000000] (toy_headers 300) 0 600 600000000000 [toy_entry]
    (toy_upgrade_ok 300 0 0 eq_refl ltac:(lia)) E S) as [W _].
  exact (W toy_entry (toy_upgrade_ok 300 0 600 eq_refl ltac:(lia))).
Defined.

Lemma upgrade_accepted_iff_witness :
  exists entry fp nonce, upgrade_ok toy_pki (toy_headers 300) 0 0 [toy_entry] entry fp nonce /\
    (∅ : ReplayCache) !! (fp, nonce) = None /\ lit "alpha" = machine_id entry.
Proof.
  apply (upgrade_accepted_iff toy_pki (toy_headers 300) 0 0 0 [toy_entry] ∅ (lit "alpha")). vm_compute. reflexivity.
Defined.

(** ** Where the replay cache forgets too early *)

(** A timestamp five minutes ahead passes the check for 601 seconds, counted in
    whole seconds, but is remembered for 600: a sweep in the last half second
    lets the same headers in again. *)
Lemma replay_in_the_last_second :
  let '(c0, r0) := authenticate_ws_upgrade toy_pki (toy_headers 300) 0 0 0 [toy_entry] ∅ in
  let c1 := gc_ws_replay 0 600500000000 c0 in
  r0 = Ok (lit "alpha") /\
  (authenticate_ws_upgrade toy_pki (toy_headers 300) 0 600 600600000000 [toy_entry] c1).2 = Ok (lit "alpha").
Proof. vm_compute. by split. Qed.

(** Where ten minutes cannot be subtracted from the clock, for instance in the
    first ten minutes after boot of a platform whose instants start at boot,
    every sweep empties the cache. *)
Lemma early_sweep_forgets :
  let '(c0, r0) := authenticate_ws_upgrade toy_pki (toy_headers 300) 0 300 50000000000 [toy_entry] ∅ in
  let c1 := gc_ws_replay 0 60000000000 c0 in
  r0 = Ok (lit "alpha") /\
  (authenticate_ws_upgrade toy_pki (toy_headers 300) 0 311 61000000000 [toy_entry] c1).2 = Ok (lit "alpha").
Proof. vm_compute. by split. Qed.
