(* ===== verification/Agent.v ===== *)
(** * Agent: one connection of the agent to the hub ([agent/src/main.rs])

    The reader of the connection ([run_session]), its registry of streams, the
    routing of frames through the two halves of the writer queue, the tasks it
    spawns for requests on stream 0, the limits of [agent.toml] and the
    reconnect loop.  The task of one stream is in [StreamTask]. *)

From Stdlib Require Import Strings.Byte.
From stdpp Require Import prelude strings list gmap.
From S2P Require Import Prelude Tokio Prio Frame Session Manager.

(** ** Constants *)

Definition WRITE_HI_BYTES : Z := 4 * 1024 * 1024.
Definition WRITE_LO_BYTES : Z := 16 * 1024 * 1024.
Definition STREAM_HI_CAP : nat := 64.
Definition STREAM_LO_CAP : nat := 16.
(** Durations are in milliseconds. *)
Definition RECONNECT_INITIAL : Z := 1000.
Definition RECONNECT_MAX : Z := 60000.
Definition HEALTHY_SESSION : Z := 30000.
Definition RECONNECT_CLEAN : Z := 250.
Definition DEFAULT_MAX_PENDING_PASTES : nat := 32.
Definition DEFAULT_MAX_PENDING_GROUPS : nat := 32.
Definition DEFAULT_MAX_SESSIONS : nat := 64.
Definition DEFAULT_SCROLLBACK_CAP_BYTES : Z := 8 * 1024 * 1024.
Definition DEFAULT_IDLE_TTL : Z := 24 * 60 * 60.

(** ** Limits *)

(** [struct ConfigLimits] *)
Record ConfigLimits := mk_config_limits {
  cl_scrollback_cap_bytes : option Z;
  cl_idle_ttl_secs : option Z;
  cl_max_pending_pastes_per_stream : option nat;
  cl_max_pending_groups_per_stream : option nat;
  cl_max_sessions : option nat;
}.

(** [struct Limits]; the time to live in seconds. *)
Record AgentLimits := mk_agent_limits {
  al_scrollback_cap_bytes : Z;
  al_idle_ttl : Z;
  al_max_pending_pastes_per_stream : nat;
  al_max_pending_groups_per_stream : nat;
  al_max_sessions : nat;
}.

(** [Limits::default] *)
Definition default_limits : AgentLimits :=
  mk_agent_limits DEFAULT_SCROLLBACK_CAP_BYTES DEFAULT_IDLE_TTL DEFAULT_MAX_PENDING_PASTES
    DEFAULT_MAX_PENDING_GROUPS DEFAULT_MAX_SESSIONS.

(** [ConfigLimits::resolve] *)
Definition resolve (c : ConfigLimits) : AgentLimits :=
  let d := default_limits in
  mk_agent_limits (default (al_scrollback_cap_bytes d) (cl_scrollback_cap_bytes c))
    (default (al_idle_ttl d) (cl_idle_ttl_secs c))
    (default (al_max_pending_pastes_per_stream d) (cl_max_pending_pastes_per_stream c))
    (default (al_max_pending_groups_per_stream d) (cl_max_pending_groups_per_stream c))
    (default (al_max_sessions d) (cl_max_sessions c)).

(** ** The reconnect loop *)

(** How one [run_once] ended: cleanly or with an error, and how long it
    lasted. *)
Record Attempt := mk_attempt { at_ok : bool; at_lasted : Z }.

(** One iteration of the loop of [main]: the time it sleeps and the backoff
    afterwards. *)
Definition reconnect (backoff : Z) (a : Attempt) : Z * Z :=
  if at_ok a && (HEALTHY_SESSION <=? at_lasted a) then (RECONNECT_CLEAN, RECONNECT_INITIAL)
  else (backoff, Z.min (backoff * 2) RECONNECT_MAX).

(** The loop over the attempts so far: the sleeps, and the backoff. *)
Fixpoint reconnect_loop (backoff : Z) (l : list Attempt) : list Z * Z :=
  match l with
  | [] => ([], backoff)
  | a :: l =>
      let '(s, b) := reconnect backoff a in
      let '(ss, b) := reconnect_loop b l in (s :: ss, b)
  end.

(** ** The connection *)

Section Agent.
Context {WCh Sem BCh : Type} `{Mpsc (Z * list byte) WCh} `{Semaphore Sem} `{Mpsc Body BCh}.

(** What the reader spawns a task for. *)
Inductive Spawned :=
| SpListSessions (request_id : Z)
| SpKillSession (request_id : Z) (session_id : SessionId)
| SpStream (sid : Z) (session_id : SessionId) (initial_size : size) (rx : Ref).

(** The state of [run_session]: the writer queue, the registry [streams] of the
    senders of the streams' channels (the channels live in [schans]; the
    receiver of one belongs to its stream's task), and the tasks spawned. *)
Record Conn := mk_conn {
  cwriter : Prio (Bytes WCh Sem);
  cstreams : gmap Z Ref;
  schans : gmap Ref (Prio BCh);
  cnext : Ref;
  spawned : list Spawned;
}.

Definition set_cwriter (w : Prio (Bytes WCh Sem)) (c : Conn) : Conn :=
  mk_conn w (cstreams c) (schans c) (cnext c) (spawned c).
Definition set_cstreams (ss : gmap Z Ref) (cs : gmap Ref (Prio BCh)) (c : Conn) : Conn :=
  mk_conn (cwriter c) ss cs (cnext c) (spawned c).
Definition spawn_task (t : Spawned) (c : Conn) : Conn :=
  mk_conn (cwriter c) (cstreams c) (schans c) (cnext c) (spawned c ++ [t]).

Definition new_conn : Conn := mk_conn (prio_channel WRITE_HI_BYTES WRITE_LO_BYTES) ∅ ∅ O [].

(** Which half of the writer queue a frame goes through ([send_frame_to_hub]). *)
Definition hub_half (t : FrameType) : Half :=
  match t with
  | Ty.DownloadBegin | Ty.DownloadChunk | Ty.DownloadEnd => Lo
  | _ => Hi
  end.

(** [send_frame_to_hub], one poll *)
Definition send_frame_to_hub (f : Frame) (w : Prio (Bytes WCh Sem)) : Prio (Bytes WCh Sem) * SendPoll :=
  let h := hub_half (ty f) in
  let '(b, r) := bytes_send (encode f) (half h w) in (set_half h b w, r).

(** The first frame of a connection; [hello] is the JSON of [HelloPayload]. *)
Definition send_hello (json : list byte) (c : Conn) : Conn * SendPoll :=
  let '(w, r) := send_frame_to_hub (hello json) (cwriter c) in (set_cwriter w c, r).

(** The pinger's frame. *)
Definition send_ping (c : Conn) : Conn * SendPoll :=
  let '(w, r) := send_frame_to_hub (ping []) (cwriter c) in (set_cwriter w c, r).

(** Dropping the sender of both halves of a stream's channel. *)
Definition item_drop_tx (p : Prio BCh) : Prio BCh :=
  mk_prio (ch_drop_tx (hi p)) (ch_drop_tx (lo p)) (hi_closed p) (lo_closed p).
Definition item_drop_rx (p : Prio BCh) : Prio BCh :=
  mk_prio (ch_drop_rx (hi p)) (ch_drop_rx (lo p)) (hi_closed p) (lo_closed p).

(** [streams.lock().await.remove(&sid)] *)
Definition unregister (sid : Z) (c : Conn) : Conn :=
  match cstreams c !! sid with
  | None => c
  | Some r => set_cstreams (delete sid (cstreams c)) (alter item_drop_tx r (schans c)) c
  end.

(** [Open]: a new channel under the stream's id (a sender that was there is
    dropped), and the stream's task. *)
Definition open_session_stream (sid : Z) (session_id : SessionId) (initial_size : size) (c : Conn) : Conn :=
  let r := cnext c in
  let c := unregister sid c in
  mk_conn (cwriter c) (<[sid := r]> (cstreams c))
    (<[r := item_prio_channel STREAM_HI_CAP STREAM_LO_CAP]> (schans c)) (S r)
    (spawned c ++ [SpStream sid session_id initial_size r]).

(** Which half of a stream's channel a body takes. *)
Definition body_half (b : Body) : Half :=
  match b with
  | Bd.PasteBegin _ _ _ _ _ | Bd.PasteChunk _ _ | Bd.PasteEnd _ _ => Lo
  | _ => Hi
  end.

(** A body for a stream: never waits; a stream whose half is full, or whose
    task is gone, is dropped from the registry. *)
Definition route_body (sid : Z) (b : Body) (c : Conn) : Conn :=
  match cstreams c !! sid with
  | None => c
  | Some r =>
      match schans c !! r with
      | None => c
      | Some p =>
          let h := body_half b in
          let '(x, sent) := ch_send b (half h p) in
          let c := set_cstreams (cstreams c) (<[r := set_half h x p]> (schans c)) c in
          match sent with Sent => c | _ => unregister sid c end
      end
  end.

(** What one turn of the reader ends in: the next turn, a wait for room in the
    writer queue, or the end of the connection. *)
Inductive Turn := TNext | TAwaitWriter | TBail (why : list byte).

(** One turn of the reader loop, on a frame. *)
Definition agent_turn (f : Frame) (c : Conn) : Conn * Turn :=
  if stream_id f =? 0 then
    match body f with
    | Bd.Ping p =>
        let '(w, r) := send_frame_to_hub (pong p) (cwriter c) in
        (set_cwriter w c, match r with Sending => TAwaitWriter | _ => TNext end)
    | Bd.Pong _ => (c, TNext)
    | Bd.Hello _ => (c, TBail (lit "hub sent hello (protocol error)"))
    | Bd.ListSessions request_id => (spawn_task (SpListSessions request_id) c, TNext)
    | Bd.KillSession request_id session_id => (spawn_task (SpKillSession request_id session_id) c, TNext)
    | _ => (c, TBail (lit "unexpected control-stream frame"))
    end
  else
    match body f with
    | Bd.Open session_id initial_size =>
        (open_session_stream (stream_id f) session_id initial_size c, TNext)
    | b => (route_body (stream_id f) b c, TNext)
    end.

(** [rx.recv()] of a stream's task, one poll *)
Definition stream_recv (r : Ref) (c : Conn) : Conn * RecvPoll Body :=
  match schans c !! r with
  | None => (c, GotNone)
  | Some p =>
      let '(p, x) := prio_recv item_recv p in
      (set_cstreams (cstreams c) (<[r := p]> (schans c)) c, x)
  end.

(** The end of a stream's task: its receiver is dropped, [Close] is sent and
    the registry entry of its id removed. *)
Definition stream_drop_rx (r : Ref) (c : Conn) : Conn :=
  set_cstreams (cstreams c) (alter item_drop_rx r (schans c)) c.
Definition stream_close (sid : Z) (c : Conn) : Conn * SendPoll :=
  let '(w, r) := send_frame_to_hub (close sid) (cwriter c) in (set_cwriter w c, r).

(** The teardown: [streams.lock().await.clear()]. *)
Definition clear_cstreams (c : Conn) : Conn :=
  set_cstreams ∅ (foldr (fun r cs => alter item_drop_tx r cs) (schans c) (map_to_list (cstreams c)).*2) c.
End Agent.
Arguments Conn : clear implicits.

(** ** Requests of the hub *)

(** The task of [KillSession]: the session leaves the registry and is killed,
    and the acknowledgement says whether there was one. *)
Definition kill_session_task (request_id : Z) (session_id : SessionId) (m : SessionManager)
    : SessionManager * Frame :=
  let '(m, found) := remove session_id m in
  match found with
  | Some r =>
      (mk_manager (map m) (heap m) (next_ref m) (killed m ++ [r]), kill_session_ack request_id KILL_STATUS_OK)
  | None => (m, kill_session_ack request_id KILL_STATUS_NOT_FOUND)
  end.

(** [struct Info] of [build_session_list_json] *)
Record Info := mk_info { info_id : SessionId; idle_secs : Z; info_attached : nat; has_controller : bool }.

(** [build_session_list_json] up to the JSON text ([serde_json]); times in
    nanoseconds.  The registry is read at once, but each session's lock is
    taken three times: [reads] is what it holds at each, and [now] is earlier
    than all of them. *)
Definition session_info (now : Z) (id : SessionId) (reads : SessionInner * SessionInner * SessionInner) : Info :=
  let '(i1, i2, i3) := reads in
  mk_info id (Z.max (now - last_attached_at i1) 0 / 1000000000) (base.size (attached i2))
    (match controller i3 with Some _ => true | None => false end).
Definition session_infos (now : Z) (reads : Ref -> SessionInner * SessionInner * SessionInner) (m : SessionManager) : list Info :=
  (fun '(id, r) => session_info now id (reads r)) <$> map_to_list (map m).

(** The task of [ListSessions]: [json_of] is [serde_json]'s text. *)
Definition list_sessions_task (json_of : list Info -> list byte) (request_id now : Z)
    (reads : Ref -> SessionInner * SessionInner * SessionInner) (m : SessionManager) : Frame :=
  session_list request_id (json_of (session_infos now reads m)).
