(* ===== verification/StreamTask.v ===== *)
(** * StreamTask: the task of one stream on the agent ([run_session_stream] in
    [agent/src/main.rs])

    The task attaches its stream to a session, replays the scrollback, and then
    forwards in both directions until one of them ends; then it detaches and
    removes the files of unfinished uploads.  The session is shared: it is the
    concurrent [World] of [Session], and any operation of any other stream may
    come between two steps of the task.  When one direction ends, [select!]
    drops the other wherever it waits: in the middle of a handler, or between
    two of the frames of one event ([TCut], [TOutCut]). *)

From Stdlib Require Import Strings.Byte.
From stdpp Require Import prelude strings list gmap.
From S2P Require Import Prelude Tokio Frame Session Paste.

(** [slice::chunks(n)], with the length as fuel *)
Fixpoint chunks_fuel {A} (fuel n : nat) (l : list A) : list (list A) :=
  match fuel, l with
  | O, _ | _, [] => []
  | S k, _ => take n l :: chunks_fuel k n (drop n l)
  end.
Definition chunks {A} (n : nat) (l : list A) : list (list A) := chunks_fuel (length l) n l.

(** ** Frames of the stream *)

(** The frames for a block of terminal output. *)
Definition data_frames (sid : Z) (bytes : list byte) : list Frame :=
  (fun c => data sid c) <$> chunks (Z.to_nat MAX_DATA_LEN) bytes.

(** Who is in control, seen from this stream: on attaching, and when the
    session announces a change. *)
Definition initial_status (sid : Z) (controller : option StreamId) : Z :=
  match controller with
  | None => CONTROLLER_STATUS_NONE
  | Some c => if c =? sid then CONTROLLER_STATUS_SELF else CONTROLLER_STATUS_OTHER
  end.
Definition event_status (sid controller : Z) : Z :=
  if controller =? CONTROLLER_NONE_STREAM_ID then CONTROLLER_STATUS_NONE
  else if controller =? sid then CONTROLLER_STATUS_SELF
  else CONTROLLER_STATUS_OTHER.

(** The frame of a download event. *)
Definition download_frame (sid : Z) (e : DownloadEvent) : Frame :=
  match e with
  | DE.Begin id total_size name => download_begin sid id total_size name
  | DE.Chunk id bytes => download_chunk sid id bytes
  | DE.End id status => download_end sid id status
  end.

(** ** The writer, seen from the task *)

(** What the task has handed to the writer queue, and how many more frames the
    queue takes before the connection's writer is gone (from then on every
    send fails). *)
Record Out := mk_out { sent : list Frame; accepts : nat }.

(** [send_frame_to_hub(..).await]: the queue once took the frame, or failed. *)
Definition put (f : Frame) (o : Out) : Out * bool :=
  match accepts o with
  | O => (o, false)
  | S n => (mk_out (sent o ++ [f]) n, true)
  end.

(** A loop of sends that stops at the first failure. *)
Fixpoint put_all (fs : list Frame) (o : Out) : Out * bool :=
  match fs with
  | [] => (o, true)
  | f :: fs => match put f o with (o, true) => put_all fs o | (o, false) => (o, false) end
  end.

(** Sends whose failure is ignored ([let _ = ..]). *)
Definition put_ignore (fs : list Frame) (o : Out) : Out := foldl (fun o f => (put f o).1) o fs.

(** ** The outbound half *)

(** What the two broadcast receivers yield; with the session's last event come
    the download events that [try_recv] still finds. *)
Inductive OutEvent :=
| OEvent (e : SessionEvent) (ready : list DownloadEvent)
| OLagged
| ODownload (e : DownloadEvent)
| ODownloadLagged
| OClosed.

(** One iteration of the outbound loop; [false] ends it. *)
Definition outbound (sid : Z) (e : OutEvent) (o : Out) : Out * bool :=
  match e with
  | OEvent (SE.Data bytes) _ => put_all (data_frames sid bytes) o
  | OEvent (SE.ControllerChanged c) _ => put (controller_changed sid (event_status sid c)) o
  | OEvent SE.Closed ready =>
      (put_ignore ((download_frame sid <$> ready) ++ [close sid]) o, false)
  | ODownload e => put (download_frame sid e) o
  | OLagged | ODownloadLagged => (o, true)
  | OClosed => (o, false)
  end.

(** The frames of one iteration. *)
Definition out_frames (sid : Z) (e : OutEvent) : list Frame :=
  match e with
  | OEvent (SE.Data bytes) _ => data_frames sid bytes
  | OEvent (SE.ControllerChanged c) _ => [controller_changed sid (event_status sid c)]
  | OEvent SE.Closed ready => (download_frame sid <$> ready) ++ [close sid]
  | ODownload e => [download_frame sid e]
  | _ => []
  end.

(** An iteration that is dropped when it waits to send its [k]-th frame. *)
Definition outbound_cut (sid : Z) (e : OutEvent) (k : nat) (o : Out) : Out :=
  (put_all (take k (out_frames sid e)) o).1.

(** ** The task *)

Section Task.
Context {Ch Rx : Type} `{Broadcast SessionEvent Ch Rx}.
Variables max_pending_pastes max_pending_groups : nat.
Variable style : PasteStyle.
Variable sid : Z.

(** The session, the uploads of this stream, what it has sent, and whether its
    [select!] is still running. *)
Record Task := mk_task {
  world : World Ch;
  uploads : PasteState;
  out : Out;
  running : bool;
}.

Definition set_world (w : World Ch) (t : Task) : Task := mk_task w (uploads t) (out t) (running t).
Definition set_out (o : Out) (t : Task) : Task := mk_task (world t) (uploads t) o (running t).
Definition stop (t : Task) : Task := mk_task (world t) (uploads t) (out t) false.

(** A request of this task to the session. *)
Definition ask (now : Z) (r : Request) (t : Task) : Task :=
  set_world (Session.step (Serve now r) (world t)) t.

(** What a part of the inbound loop runs through: the states in which it waits
    and the one in which it is done. *)
Abbreviation Run := (list Task * Task)%type.

(** A method of the session: it waits for the lock.  (Its effects after the
    lock are pending in the session's [World]; a method that is dropped before
    them leaves them there.) *)
Definition asking (now : Z) (r : Request) (t : Task) : Run := ([t], ask now r t).

(** The handlers start without frames and typed text. *)
Definition blank (u : PasteState) : PasteState :=
  mk_state (pending_pastes u) (pending_groups u) (fs u) [] [].

(** What a handler has done so far: its rejections go to the writer, what it
    types to the terminal, whose writer thread may be gone (the error is
    logged and nothing else). *)
Definition commit (now : Z) (alive : bool) (u : PasteState) (t : Task) : Task :=
  foldl (fun t text => ask now (RInternal text alive) t)
    (mk_task (world t) (blank u) (put_ignore (frames u) (out t)) (running t)) (typed u).
Definition run_paste (now : Z) (alive : bool) (h : Handler) (t : Task) : Run :=
  let '(l, u) := h (blank (uploads t)) in
  ((fun u => commit now alive u t) <$> l, commit now alive u t).

Definition in_control (t : Task) : bool := is_controller sid (sess (world t)).

(** What the environment decides while a body is handled: the clock, the room
    in the terminal's input queue, the file system's answers, and whether the
    terminal's writer thread is alive. *)
Record InEnv := mk_in_env {
  ie_now : Z; ie_room : bool; ie_open : OpenEnv; ie_write : WriteEnd; ie_alive : bool;
}.

(** One iteration of the inbound loop. *)
Definition inbound (env : InEnv) (b : Body) (t : Task) : Run :=
  let now := ie_now env in
  let alive := ie_alive env in
  match b with
  | Bd.Data bytes => asking now (RInput sid bytes (ie_room env)) t
  | Bd.Resize rows cols => asking now (RResize sid rows cols) t
  | Bd.AcquireControl => asking now (RAcquire sid) t
  | Bd.ReleaseControl => asking now (RRelease sid) t
  | Bd.TakeControl => asking now (RTake sid) t
  | Bd.PasteBegin paste_id total_size group_id group_size name =>
      let '(l, t') :=
        if in_control t then
          run_paste now alive (handle_paste_begin max_pending_pastes max_pending_groups sid (ie_open env)
                                 paste_id total_size group_id group_size name) t
        else run_paste now alive (reject sid paste_id PASTE_REJECT_NOT_CONTROLLER) t in
      (t :: l, t')
  | Bd.PasteChunk paste_id bytes =>
      run_paste now alive (handle_paste_chunk sid (ie_write env) paste_id bytes) t
  | Bd.PasteEnd paste_id status =>
      run_paste now alive (handle_paste_end sid (ie_write env) style (in_control t) paste_id status) t
  | Bd.Close => ([], stop t)
  | _ => ([], t)
  end.

(** The state in which a run is dropped: where it waits for the [k]-th time, or
    at its end if it does not wait so often. *)
Definition cut_at (k : nat) (r : Run) : Task := default r.2 (r.1 !! k).

(** Attaching: the scrollback (until the writer fails), then the status. *)
Definition attach_task (now : Z) (sz : size) (t : Task) : Task * Rx :=
  let '(s, r, es) := attach_locked now sid sz (sess (world t)) in
  let o := (put_all (data_frames sid (replay r)) (out t)).1 in
  let o := (put (controller_changed sid (initial_status sid (current_controller r))) o).1 in
  (mk_task (mk_world s (pending (world t) ++ [es])) (uploads t) o (running t), event_rx r).

(** The files of unfinished uploads. *)
Definition unfinished (u : PasteState) : list Path :=
  (pp_path <$> (map_to_list (pending_pastes u)).*2)
  ++ concat (finished <$> (map_to_list (pending_groups u)).*2).

(** After the [select!]: detach, then remove the files. *)
Definition finish_task (now : Z) (t : Task) : Task :=
  let t := ask now (RDetach sid) t in
  let u := uploads t in
  let f := foldl (fun f p => remove_file p f) (fs u) (unfinished u) in
  mk_task (world t) (mk_state ∅ ∅ f (frames u) (typed u)) (out t) (running t).

(** What happens to the task while its [select!] runs: a body of the browser or
    the end of its queue, an event of the session, or anything at all that
    others do to the session; and the end of one direction while the other is
    in the middle of a body or of an event. *)
Inductive TaskEvent :=
| TInbound (env : InEnv) (b : Body)
| TInboundEnd
| TOutbound (e : OutEvent)
| TOther (e : Session.Event)
| TCut (env : InEnv) (b : Body) (k : nat)
| TOutCut (e : OutEvent) (k : nat).

Definition task_step (t : Task) (e : TaskEvent) : Task :=
  match e with
  | TOther e => set_world (Session.step e (world t)) t
  | TInbound env b => if running t then (inbound env b t).2 else t
  | TInboundEnd => stop t
  | TOutbound e =>
      if running t then let '(o, go) := outbound sid e (out t) in
        let t := set_out o t in if go : bool then t else stop t
      else t
  | TCut env b k => if running t then stop (cut_at k (inbound env b t)) else t
  | TOutCut e k => if running t then stop (set_out (outbound_cut sid e k (out t)) t) else t
  end.

Definition run_task (es : list TaskEvent) (t : Task) : Task := foldl task_step t es.
End Task.
Arguments Task : clear implicits.

(** The task from the attach on, in a session whose other streams have brought
    it to [w]; [f] is the file system and [accepts] the writer's life. *)
Definition start_task {Ch Rx} `{Broadcast SessionEvent Ch Rx} (sid now : Z) (sz : size)
    (w : World Ch) (f : Fs) (accepts : nat) : Task Ch * Rx :=
  attach_task sid now sz (mk_task w (mk_state ∅ ∅ f [] []) (mk_out [] accepts) true).

(** The frame for a stream whose session cannot be opened; [why] is the error's
    text. *)
Definition refuse_frame (sid : Z) (why : list byte) : Frame :=
  data sid (byte_of 13 :: byte_of 10 :: lit "term-agent: " ++ why ++ [byte_of 13; byte_of 10]).
