(* ===== verification/UploadFacts.v ===== *)
(** * UploadFacts: where the files of uploads end up

    What each paste handler answers, and why no file it created is forgotten:
    a file is in a registry, or gone, or its path was typed. *)

From Stdlib Require Import Strings.Byte.
From stdpp Require Import prelude strings list gmap.
From S2P Require Import Prelude Utf8 Std Frame Session Paste PasteFinal PasteFacts StreamTask.

(** ** The paths in the registries *)

Lemma elem_of_unfinished p u :
  p ∈ unfinished u <->
  (exists i q, pending_pastes u !! i = Some q /\ pp_path q = p) \/
  (exists g x, pending_groups u !! g = Some x /\ p ∈ finished x).
Proof.
  unfold unfinished. rewrite elem_of_app. f_equiv.
  - rewrite list_elem_of_fmap. split.
    + intros (q & -> & ([i q'] & -> & Hi)%list_elem_of_fmap). apply elem_of_map_to_list in Hi. eauto.
    + intros (i & q & Hi & <-). exists q. split; [done|]. apply list_elem_of_fmap. exists (i, q).
      split; [done|]. by apply elem_of_map_to_list.
  - rewrite list_elem_of_In, in_concat. split.
    + intros (l & Hl & Hp). apply list_elem_of_In, list_elem_of_fmap in Hl as (x & -> & Hx).
      apply list_elem_of_fmap in Hx as ([g x'] & -> & Hg). apply elem_of_map_to_list in Hg.
      exists g, x'. split; [done|]. by apply list_elem_of_In.
    + intros (g & x & Hg & Hp). exists (finished x). split; [|by apply list_elem_of_In].
      apply list_elem_of_In, list_elem_of_fmap. exists x. split; [done|]. apply list_elem_of_fmap.
      exists (g, x). split; [done|]. by apply elem_of_map_to_list.
Qed.

Lemma removed_names ps f p :
  is_Some (names (foldl (fun f q => remove_file q f) f ps) !! p) -> is_Some (names f !! p) /\ p ∉ ps.
Proof.
  revert f. induction ps as [|q ps IH]; intros f; cbn [foldl]; [intros; split; [done|apply not_elem_of_nil]|].
  intros [Hs Hn]%IH. cbn in Hs. destruct (decide (p = q)) as [->|Hne].
  - rewrite lookup_delete_eq in Hs. by destruct Hs.
  - rewrite lookup_delete_ne in Hs by done. split; [done|]. by apply not_elem_of_cons.
Qed.

Lemma open_names env name f f' r p :
  open_paste_file env name f = (f', r) ->
  is_Some (names f' !! p) -> is_Some (names f !! p) \/ exists i, r = Some (i, p).
Proof.
  assert (Sw : forall d, is_Some (names (sweep_old_paste_files (oe_now env) d (oe_seen env) f) !! p) -> is_Some (names f !! p)).
  { intros d. destruct (sweep_keeps (oe_now env) d (oe_seen env) f) as (_ & _ & Hk).
    destruct (Hk p) as [->|[-> _]]; [done|by intros []]. }
  destruct r as [[i q]|]; intros E.
  - apply open_spec in E as (dir & c & _ & _ & _ & _ & _ & ->). cbn. destruct (decide (q = p)) as [->|]; [eauto|].
    rewrite lookup_insert_ne by done. left. eauto.
  - unfold open_paste_file in E. destruct (oe_dir env) as [dir|]; [|injection E as <-; auto].
    destruct (split_ext _) as [stem ext].
    destruct (try_names _ _ _ _ _ _ _ _ _ _) as [[[? ?] ?]|]; [done|]. injection E as <-. eauto.
Qed.

(** ** Every file is accounted for *)

Section Covered.
Variable style : PasteStyle.
Variable sid : Z.

(** A path typed into the terminal. *)
Definition typed_path (texts : list (list byte)) (p : Path) : Prop :=
  exists paths, p ∈ paths /\ paste_text style paths ∈ texts.

(** Every name in the file system was [known], belongs to an unfinished upload,
    or has been typed. *)
Definition covered (known : Path -> Prop) (s : PasteState) : Prop :=
  forall p, is_Some (names (fs s) !! p) -> known p \/ p ∈ unfinished s \/ typed_path (typed s) p.

(** What a step may do: fewer names, each still accounted for. *)
Lemma covered_step K s s' :
  (forall p, is_Some (names (fs s') !! p) -> is_Some (names (fs s) !! p)) ->
  (forall p, is_Some (names (fs s') !! p) -> p ∈ unfinished s -> p ∈ unfinished s' \/ typed_path (typed s') p) ->
  typed s ⊆ typed s' -> covered K s -> covered K s'.
Proof.
  intros Hn Hu Ht C p Hp. destruct (C p (Hn p Hp)) as [?|[Hq|(l & Hl & Hin)]]; [by left|by right; apply Hu|].
  right. right. exists l. split; [done|]. by apply Ht.
Qed.

Lemma covered_remove K ps s s' :
  pending_pastes s' = pending_pastes s -> pending_groups s' = pending_groups s -> typed s' = typed s ->
  fs s' = foldl (fun f q => remove_file q f) (fs s) ps ->
  covered K s -> covered K s'.
Proof.
  intros E1 E2 E3 E4. apply covered_step; rewrite ?E3, ?E4; [|intros p _|done].
  - intros p Hp. by apply removed_names in Hp as [? _].
  - rewrite !elem_of_unfinished, E1, E2. auto.
Qed.

(** Dropping an upload whose file is removed. *)
Lemma covered_drop_paste K pid q ps s s' :
  pending_pastes s !! pid = Some q -> pp_path q ∈ ps ->
  pending_pastes s' = delete pid (pending_pastes s) -> pending_groups s' = pending_groups s -> typed s' = typed s ->
  fs s' = foldl (fun f q => remove_file q f) (fs s) ps ->
  covered K s -> covered K s'.
Proof.
  intros Hq Hps E1 E2 E3 E4. apply covered_step; rewrite ?E3, ?E4; [|intros p Hp|done].
  - intros p Hp. by apply removed_names in Hp as [? _].
  - apply removed_names in Hp as [_ Hp]. rewrite !elem_of_unfinished, E1, E2. intros [(i & x & Hi & <-)|?]; [|by auto].
    left. left. exists i, x. split; [|done]. rewrite lookup_delete_ne; [done|]. intros ->. congruence.
Qed.

(** Dropping a group together with its files. *)
Lemma covered_drop_group K gid s : covered K s -> covered K (dropped gid s).
Proof.
  unfold dropped. destruct (pending_groups s !! gid) as [g|] eqn:Eg; [|done].
  apply covered_step; cbn; [intros p Hp; by apply removed_names in Hp as [? _]|intros p Hp|done].
  apply removed_names in Hp as [_ Hp]. rewrite !elem_of_unfinished. cbn. intros [?|(h & x & Hh & Hx)]; [by auto|].
  left. right. exists h, x. split; [|done]. rewrite lookup_delete_ne; [done|]. intros ->. congruence.
Qed.

Lemma covered_reject K pid reason s : covered K s -> covered K (send_paste_reject sid pid reason s).
Proof. done. Qed.

(** Injecting paths that leave the registries. *)
Lemma covered_inject K ctl paths s s' :
  (forall p, p ∈ unfinished s -> p ∈ unfinished s' \/ p ∈ paths) ->
  names (fs s') = names (fs s) -> typed s' = typed s -> covered K s -> covered K (injected style ctl paths s').
Proof.
  intros Hu Ef Et. unfold injected. destruct ctl; cbn [negb].
  - apply covered_step; cbn; rewrite ?Ef, ?Et; [done| |set_solver].
    intros p _ [?|?]%Hu; [by left|]. right. exists paths. split; [done|]. set_solver.
  - apply covered_step; cbn; rewrite ?Et; [intros p Hp; apply removed_names in Hp as [? _]; by rewrite <- Ef| |done].
    intros p [_ Hp]%removed_names [?|?]%Hu; [by left|done].
Qed.

(** The answers of a handler: rejections of the paste it is about. *)
Definition rejects (pid : Z) (fs : list Frame) : Prop :=
  Forall (fun f => exists r, f = paste_reject sid pid r /\ 0 <= r <= PASTE_REJECT_MAX_REASON) fs.

Lemma rejects_one pid r : 0 <= r <= PASTE_REJECT_MAX_REASON -> rejects pid [paste_reject sid pid r].
Proof. intros. constructor; [eauto|constructor]. Qed.

(** What a handler may do to a state without frames. *)
Record handled (pid : Z) (may_type : bool) (s s' : PasteState) : Prop := {
  ha_covered : forall K, covered K s -> covered K s';
  ha_frames : frames s = [] -> rejects pid (frames s');
  ha_typed : may_type = false -> typed s' = typed s;
}.

Lemma open_handled env pid total gid name s s1 :
  fs s1 = fs s -> frames s1 = frames s -> typed s1 = typed s ->
  pending_pastes s !! pid = None ->
  (forall p, p ∈ unfinished s -> p ∈ unfinished s1) -> pending_pastes s1 = pending_pastes s ->
  handled pid false s (registered sid env pid total gid name s1).
Proof.
  intros Ef Efr Et Hn Hu Ep. unfold registered. rewrite Ef.
  destruct (open_paste_file env name (fs s)) as [f [[ino path]|]] eqn:E; split; cbn; rewrite ?Efr, ?Et; try done.
  - intros K C p Hp. cbn in Hp. destruct (open_names _ _ _ _ _ _ E Hp) as [Hp'|(i & [= <- <-])].
    + destruct (C p Hp') as [?|[Hq|(l & ? & Hl)]]; [by left| |right; right; exists l; cbn; by rewrite Et].
      right. left. apply Hu in Hq. rewrite elem_of_unfinished in *. cbn. rewrite Ep in *.
      destruct Hq as [(i & q & Hi & Hq)|?]; [left|by right]. exists i, q.
      rewrite lookup_insert_ne; [done|congruence].
    + right. left. rewrite elem_of_unfinished. cbn. left. eexists pid, _. by rewrite lookup_insert_eq.
  - intros ->. by constructor.
  - intros K C p Hp. cbn in Hp. destruct (open_names _ _ _ _ _ _ E Hp) as [Hp'|(i & [=])].
    destruct (C p Hp') as [?|[Hq|(l & ? & Hl)]]; [by left| |right; right; exists l; cbn; by rewrite Et].
    right. left. apply Hu in Hq. rewrite elem_of_unfinished in *. cbn. destruct Hq as [?|(h & x & Hh & Hx)]; [by left|right].
    destruct (decide (h = gid)) as [->|].
    + eexists gid, _. rewrite lookup_alter_eq, Hh. done.
    + exists h, x. by rewrite lookup_alter_ne.
  - intros ->. by apply rejects_one.
Qed.

Lemma begin_handled maxp maxg env pid total gid gsize name s :
  handled pid false s (begin_paste maxp maxg sid env pid total gid gsize name s).
Proof.
  rewrite begin_paste_eq.
  assert (R : forall r, 0 <= r <= PASTE_REJECT_MAX_REASON -> handled pid false s (send_paste_reject sid pid r s)).
  { intros r Hr. split; [done| |done]. cbn. intros ->. by apply rejects_one. }
  case_bool_decide; [by apply R|]. case_bool_decide; [by apply R|].
  unfold reserve_group. destruct (pending_groups s !! gid) as [g|] eqn:Eg.
  - destruct (_ >? _).
    { split; [|cbn; intros ->; by apply rejects_one|done]. intros K C.
      apply (covered_drop_group K gid) in C. unfold dropped in C. rewrite Eg in C. apply C. }
    apply open_handled; [done|done|done|by apply eq_None_not_Some|intros p|done].
    rewrite !elem_of_unfinished. cbn. intros [?|(h & x & Hh & Hx)]; [by left|right]. destruct (decide (h = gid)) as [->|].
    + rewrite Eg in Hh. injection Hh as <-. eexists gid, _. rewrite lookup_insert_eq. done.
    + exists h, x. by rewrite lookup_insert_ne.
  - case_bool_decide; [by apply R|]. destruct (_ >? _); [by apply R|].
    apply open_handled; [done|done|done|by apply eq_None_not_Some|intros p|done]. rewrite !elem_of_unfinished. cbn.
    intros [?|(h & x & Hh & Hx)]; [by left|right]. exists h, x. rewrite lookup_insert_ne; [done|congruence].
Qed.

Lemma reject_handled pid reason s :
  0 <= reason <= PASTE_REJECT_MAX_REASON -> handled pid false s (send_paste_reject sid pid reason s).
Proof. intros Hr. split; [done| |done]. cbn. intros ->. by apply rejects_one. Qed.

Lemma chunk_handled w pid bytes s : handled pid false s (chunk_paste sid w pid bytes s).
Proof.
  rewrite chunk_paste_eq. destruct (pending_pastes s !! pid) as [p|] eqn:Ep.
  2: { split; [done| |done]. intros ->. by constructor. }
  assert (C : forall r f, 0 <= r <= PASTE_REJECT_MAX_REASON -> names f = names (fs s) ->
    handled pid false s (cancelled sid pid p r (set_fs s f))).
  { intros r f Hr En. split; [|cbn; intros ->; by apply rejects_one|done]. intros K C q Hq.
    apply (covered_drop_paste K pid p [pp_path p] s (set_fs (cancelled sid pid p r s) (remove_file (pp_path p) (fs s)))) in C;
      [|done|by apply list_elem_of_singleton|done..].
    apply (C q). cbn in *. by rewrite <- En. }
  destruct (_ >? _).
  { specialize (C PASTE_REJECT_SIZE_MISMATCH (fs s) ltac:(done) eq_refl). by destruct s. }
  pose proof (proj1 (write_all_names w bytes p (fs s))) as En.
  destruct (write_all w bytes p (fs s)) as [f [q|]] eqn:Ew; cbn [fst] in En; [|by apply C].
  apply write_all_spec in Ew as (_ & E2 & _).
  split; [|cbn; intros ->; by constructor|done]. intros K. apply covered_step; [cbn; by rewrite En| |done].
  intros r _. rewrite !elem_of_unfinished. cbn. intros [(i & x & Hi & <-)|?]; [|by auto]. left. left.
  destruct (decide (i = pid)) as [->|].
  - rewrite Ep in Hi. injection Hi as <-. exists pid, q. by rewrite lookup_insert_eq.
  - exists i, x. by rewrite lookup_insert_ne.
Qed.

Lemma inject_frames ctl paths s :
  frames (injected style ctl paths s) = frames s /\
  (ctl = false -> typed (injected style ctl paths s) = typed s).
Proof. unfold injected. by destruct ctl. Qed.
Lemma dropped_frames gid s : frames (dropped gid s) = frames s /\ typed (dropped gid s) = typed s.
Proof. unfold dropped. by destruct (pending_groups s !! gid). Qed.

(** The path of a paste that has left its registry is staged. *)
Lemma staged_handled ctl pid p s s1 :
  (forall q, q ∈ unfinished s -> q ∈ unfinished s1 \/ q = pp_path p) ->
  names (fs s1) = names (fs s) -> frames s1 = frames s -> typed s1 = typed s ->
  handled pid ctl s (staged style ctl p s1).
Proof.
  intros Gone En Efr Et0. unfold staged. destruct (pending_groups s1 !! pp_group_id p) as [g|] eqn:Eg.
  - destruct (_ >=? _).
    + set (s2 := set_groups s1 _). destruct (inject_frames ctl (finished g ++ [pp_path p]) s2) as [Ef Et].
      split; [|rewrite Ef; cbn; rewrite Efr; intros ->; by constructor|intros Hc; rewrite Et by done; exact Et0]. intros K.
      apply covered_inject; [|done..]. intros q [Hq| ->]%Gone; [|right; set_solver].
      rewrite elem_of_unfinished in *. cbn in *. destruct Hq as [?|(h & x & Hh & Hx)]; [by auto|].
      destruct (decide (h = pp_group_id p)) as [->|]; [|left; right; exists h, x; by rewrite lookup_delete_ne].
      right. rewrite Eg in Hh. injection Hh as <-. set_solver.
    + split; [|cbn; rewrite Efr; intros ->; by constructor|done]. intros K.
      apply covered_step; [cbn; by rewrite En| |cbn; by rewrite Et0].
      intros q _ Hq. left. apply Gone in Hq as [Hq| ->]; rewrite elem_of_unfinished in *; cbn in *.
      * destruct Hq as [?|(h & x & Hh & Hx)]; [by auto|right].
        destruct (decide (h = pp_group_id p)) as [->|]; [|exists h, x; by rewrite lookup_insert_ne].
        rewrite Eg in Hh. injection Hh as <-. eexists _, _. rewrite lookup_insert_eq. split; [done|]. cbn. set_solver.
      * right. eexists (pp_group_id p), _. rewrite lookup_insert_eq. split; [done|]. cbn. set_solver.
  - destruct (inject_frames ctl [pp_path p] s1) as [Ef Et].
    split; [|rewrite Ef, Efr; intros ->; by constructor|intros Hc; rewrite Et by done; exact Et0]. intros K.
    apply covered_inject; [|done..]. intros q [Hq| ->]%Gone; [by left|right; set_solver].
Qed.

(** A paste leaves its registry. *)
Lemma unfinished_leave pid p s f q :
  pending_pastes s !! pid = Some p -> q ∈ unfinished s ->
  q ∈ unfinished (set_fs (set_pastes s (delete pid (pending_pastes s))) f) \/ q = pp_path p.
Proof.
  intros Ep. rewrite !elem_of_unfinished. cbn. intros [(i & x & Hi & <-)|?]; [|by auto].
  destruct (decide (i = pid)) as [->|]; [right; congruence|]. left. left. exists i, x. by rewrite lookup_delete_ne.
Qed.

Lemma end_handled w ctl pid status s : handled pid ctl s (end_paste sid w style ctl pid status s).
Proof.
  rewrite end_paste_eq. destruct (pending_pastes s !! pid) as [p|] eqn:Ep.
  2: { split; [done| |done]. intros ->. by constructor. }
  cbn zeta. set (s1 := set_pastes s (delete pid (pending_pastes s))).
  assert (D : forall K, covered K s -> covered K (remove_files [pp_path p] s1)).
  { intros K. by apply (covered_drop_paste K pid p [pp_path p]); [|apply list_elem_of_singleton|..]. }
  destruct (status =? _).
  { destruct (dropped_frames (pp_group_id p) (remove_files [pp_path p] s1)) as [Ef Et].
    split; [|rewrite Ef; cbn; intros ->; by constructor|by rewrite Et]. intros K C. by apply covered_drop_group, D. }
  destruct (negb _).
  { set (s2 := send_paste_reject _ _ _ _). destruct (dropped_frames (pp_group_id p) s2) as [Ef Et].
    split; [|rewrite Ef; cbn; intros ->; by apply rejects_one|by rewrite Et]. intros K C.
    by apply covered_drop_group, (covered_reject K), D. }
  apply staged_handled; [|done..]. intros q. by apply unfinished_leave.
Qed.
End Covered.
