(* ===== verification/UploadWaits.v ===== *)
(** * UploadWaits: where a paste handler leaves its files when it is dropped

    A handler that is dropped while it waits has typed nothing, and every file
    it has not removed is still in a registry, but for those of the batch it
    was at work on: its paste's file, the finished ones of its group, the one
    it has just created. *)

From Stdlib Require Import Strings.Byte.
From stdpp Require Import prelude strings list gmap.
From S2P Require Import Prelude Utf8 Std Frame Session Paste PasteFinal PasteFacts StreamTask UploadFacts.

(** The files of the batch that a body is about. *)
Definition at_risk (env : OpenEnv) (s : PasteState) (b : Body) (p : Path) : Prop :=
  match b with
  | Bd.PasteBegin _ _ gid _ name =>
      (exists i, (open_paste_file env name (fs s)).2 = Some (i, p)) \/
      exists g, pending_groups s !! gid = Some g /\ p ∈ finished g
  | Bd.PasteChunk pid _ => exists q, pending_pastes s !! pid = Some q /\ p = pp_path q
  | Bd.PasteEnd pid _ =>
      exists q, pending_pastes s !! pid = Some q /\
        (p = pp_path q \/ exists g, pending_groups s !! pp_group_id q = Some g /\ p ∈ finished g)
  | _ => False
  end.

Section Waits.
Variable sid : Z.

(** ** What may happen on the way *)

(** No other file appears and none but those of [risk] leaves the registries. *)
Record keeps (risk : Path -> Prop) (s s' : PasteState) : Prop := {
  ke_names : forall p, is_Some (names (fs s') !! p) -> is_Some (names (fs s) !! p) \/ risk p;
  ke_unfinished : forall p, p ∈ unfinished s -> p ∈ unfinished s' \/ risk p;
}.
(** Only rejections are sent, and nothing is typed. *)
Record quiet (pid : Z) (s s' : PasteState) : Prop := {
  qu_typed : typed s' = typed s;
  qu_frames : exists fs', frames s' = frames s ++ fs' /\ rejects sid pid fs';
}.
Definition still (pid : Z) (risk : Path -> Prop) (s s' : PasteState) : Prop := keeps risk s s' /\ quiet pid s s'.

#[export] Instance keeps_preorder risk : PreOrder (keeps risk).
Proof.
  split; [by split; auto|]. intros s1 s2 s3 [N1 U1] [N2 U2]. split.
  - intros p [Hp|?]%N2; [by apply N1|by right].
  - intros p [Hp|?]%U1; [by apply U2|by right].
Qed.
#[export] Instance quiet_preorder pid : PreOrder (quiet pid).
Proof.
  split; [split; [done|]; exists []; rewrite app_nil_r; by split; [|constructor]|].
  intros s1 s2 s3 [T1 (f1 & E1 & R1)] [T2 (f2 & E2 & R2)]. split; [congruence|].
  exists (f1 ++ f2). rewrite E2, E1, <- app_assoc. split; [done|]. by apply Forall_app.
Qed.
#[export] Instance still_preorder pid risk : PreOrder (still pid risk).
Proof. split; [by split|]. intros s1 s2 s3 [A1 B1] [A2 B2]. split; by etrans. Qed.

Lemma keeps_uploads (risk : Path -> Prop) s s' :
  (forall p, is_Some (names (fs s') !! p) -> is_Some (names (fs s) !! p) \/ risk p) ->
  (forall p q pid, pending_pastes s !! pid = Some q -> p = pp_path q ->
     (exists q', pending_pastes s' !! pid = Some q' /\ p = pp_path q') \/ risk p) ->
  (forall p g gid, pending_groups s !! gid = Some g -> p ∈ finished g ->
     (exists g', pending_groups s' !! gid = Some g' /\ p ∈ finished g') \/ risk p) ->
  keeps risk s s'.
Proof.
  intros Hn Hp Hg. split; [done|]. intros p. rewrite !elem_of_unfinished. intros [(i & q & Hi & E)|(gid & g & Hgi & Hin)].
  - destruct (Hp p q i Hi (eq_sym E)) as [(q' & Hq' & E')|?]; [left; left; eauto|by right].
  - destruct (Hg p g gid Hgi Hin) as [(g' & ? & ?)|?]; [left; right; eauto|by right].
Qed.

(** A step that only touches the files [ps] removes and keeps the rest. *)
Lemma still_same pid risk s s' :
  pending_pastes s' = pending_pastes s -> pending_groups s' = pending_groups s -> typed s' = typed s ->
  frames s' = frames s -> (forall p, is_Some (names (fs s') !! p) -> is_Some (names (fs s) !! p) \/ risk p) -> still pid risk s s'.
Proof.
  intros Ep Eg Et Ef Hn. split; [apply keeps_uploads; rewrite ?Ep, ?Eg; eauto|].
  split; [done|]. exists []. rewrite app_nil_r. by split; [|constructor].
Qed.

(** ** Handlers *)

Definition waiting (pid : Z) (risk : Path -> Prop) (h : Handler) (s : PasteState) : Prop := Forall (still pid risk s) (h s).1.

Lemma waiting_before pid risk h1 h2 s :
  waiting pid risk h1 s -> still pid risk s (final h1 s) -> waiting pid risk h2 (final h1 s) -> waiting pid risk (h1 ;;; h2) s.
Proof.
  unfold waiting, before, final. destruct (h1 s) as [l1 s1]. cbn. intros W1 S W2. destruct (h2 s1) as [l2 s2]. cbn in *.
  apply Forall_app. split; [done|]. eapply Forall_impl; [exact W2|]. intros s'. by etrans.
Qed.
Lemma waiting_wait pid risk h s : waiting pid risk h s -> waiting pid risk (wait ;;; h) s.
Proof. intros W. apply waiting_before; [by constructor|done|done]. Qed.
Lemma waiting_act pid risk f h s : still pid risk s (f s) -> waiting pid risk h (f s) -> waiting pid risk (act f ;;; h) s.
Proof. intros S W. by apply waiting_before; [constructor| |]. Qed.
Lemma waiting_blocking pid risk f h s : still pid risk s (f s) -> waiting pid risk h (f s) -> waiting pid risk (blocking f ;;; h) s.
Proof. intros S W. by apply waiting_before; [constructor| |]. Qed.

Lemma still_remove pid risk p s : still pid risk s (set_fs s (remove_file p (fs s))).
Proof. apply still_same; try done. intros q. cbn. intros Hq. left. destruct (decide (q = p)) as [->|N]; [by rewrite lookup_delete_eq in Hq; destruct Hq|by rewrite lookup_delete_ne in Hq]. Qed.
Lemma still_removed pid risk ps s : still pid risk s (remove_files ps s).
Proof. apply still_same; try done. intros q Hq. left. by apply removed_names in Hq as [? _]. Qed.
Lemma still_reject pid risk r s : 0 <= r <= PASTE_REJECT_MAX_REASON -> still pid risk s (send_paste_reject sid pid r s).
Proof. intros Hr. split; [by apply keeps_uploads; eauto|]. split; [done|]. eexists. split; [done|]. by apply rejects_one. Qed.

Lemma waiting_remove pid risk ps s : waiting pid risk (remove_all ps) s.
Proof.
  revert s. induction ps as [|p ps IH]; intros s; [constructor|]. cbn [remove_all].
  apply waiting_blocking; [apply still_remove|apply IH].
Qed.
Lemma waiting_reject pid risk r s : waiting pid risk (reject sid pid r) s.
Proof. by constructor. Qed.

(** Removing files and rejecting, then what follows. *)
Lemma waiting_remove_then pid risk ps h s : waiting pid risk h (remove_files ps s) -> waiting pid risk (remove_all ps ;;; h) s.
Proof. intros W. apply waiting_before; [apply waiting_remove|rewrite final_remove; apply still_removed|by rewrite final_remove]. Qed.
Lemma waiting_reject_then pid risk r h s :
  0 <= r <= PASTE_REJECT_MAX_REASON -> waiting pid risk h (send_paste_reject sid pid r s) -> waiting pid risk (reject sid pid r ;;; h) s.
Proof. intros Hr W. apply waiting_before; [apply waiting_reject|by apply still_reject|done]. Qed.

(** A paste and a group leave their registries. *)
Lemma still_leave pid (risk : Path -> Prop) s i q :
  pending_pastes s !! i = Some q -> risk (pp_path q) -> still pid risk s (set_pastes s (delete i (pending_pastes s))).
Proof.
  intros Eq Hr. split; [|split; [done|]; exists []; rewrite app_nil_r; by split; [|constructor]].
  apply keeps_uploads; [auto| |eauto]. cbn. intros p x j Hx ->. destruct (decide (j = i)) as [->|N]; [right; congruence|].
  left. exists x. by rewrite lookup_delete_ne.
Qed.
Lemma still_drop pid (risk : Path -> Prop) s gid g :
  pending_groups s !! gid = Some g -> (forall p, p ∈ finished g -> risk p) -> still pid risk s (set_groups s (delete gid (pending_groups s))).
Proof.
  intros Eg Hr. split; [|split; [done|]; exists []; rewrite app_nil_r; by split; [|constructor]].
  apply keeps_uploads; [auto|eauto|]. cbn. intros p x j Hx Hin. destruct (decide (j = gid)) as [->|N]; [right; apply Hr; congruence|].
  left. exists x. by rewrite lookup_delete_ne.
Qed.

Lemma waiting_drop_group pid (risk : Path -> Prop) gid s :
  (forall g p, pending_groups s !! gid = Some g -> p ∈ finished g -> risk p) ->
  waiting pid risk (drop_group gid) s /\ still pid risk s (final (drop_group gid) s).
Proof.
  intros Hr. split.
  - apply waiting_wait. unfold waiting. destruct (pending_groups s !! gid) as [g|] eqn:Eg; [|constructor].
    apply (waiting_act pid risk (fun s => set_groups s (delete gid (pending_groups s)))); [by eapply still_drop; eauto|apply waiting_remove].
  - rewrite final_drop_group. unfold dropped. destruct (pending_groups s !! gid) as [g|] eqn:Eg; [|done].
    etrans; [eapply still_drop; eauto|apply still_removed].
Qed.

(** The end of a paste types its batch or removes it. *)
Lemma waiting_inject pid (risk : Path -> Prop) style ctl paths s :
  waiting pid risk (inject_paste_paths style ctl paths) s /\ keeps risk s (final (inject_paste_paths style ctl paths) s).
Proof.
  split.
  - apply waiting_wait. destruct ctl; cbn [negb]; [by apply waiting_wait; constructor|apply waiting_remove].
  - rewrite final_inject. unfold injected. destruct ctl; cbn [negb]; [by apply keeps_uploads; eauto|apply (still_removed pid)].
Qed.

Lemma waiting_stage pid (risk : Path -> Prop) style ctl q s :
  risk (pp_path q) -> (forall g p, pending_groups s !! pp_group_id q = Some g -> p ∈ finished g -> risk p) ->
  waiting pid risk (stage style ctl q) s /\ keeps risk s (final (stage style ctl q) s).
Proof.
  intros Hq Hr. unfold stage. set (h := fun s : PasteState => _).
  assert (G : waiting pid risk h s /\ keeps risk s (h s).2).
  2: { destruct G as [G1 G2]. split; [by apply waiting_wait|]. rewrite final_before, final_wait. exact G2. }
  unfold h, waiting. destruct (pending_groups s !! pp_group_id q) as [g|] eqn:Eg.
  - destruct (_ >=? _).
    + set (s1 := set_groups s _). destruct (waiting_inject pid risk style ctl (finished g ++ [pp_path q]) s1) as [W K].
      assert (S : still pid risk s s1) by (eapply still_drop; eauto). split; [|etrans; [apply S|exact K]].
      eapply Forall_impl; [exact W|]. intros s'. by etrans.
    + split; [constructor|]. apply keeps_uploads; [auto|eauto|]. cbn. intros p x j Hx Hin.
      destruct (decide (j = pp_group_id q)) as [->|N]; [|left; exists x; by rewrite lookup_insert_ne].
      left. eexists. rewrite lookup_insert_eq. split; [done|]. rewrite Eg in Hx. injection Hx as <-. cbn. set_solver.
  - apply waiting_inject.
Qed.

(** ** Each handler *)

Lemma open_waits_names env name f f' p :
  f' ∈ open_waits env name f -> is_Some (names f' !! p) ->
  is_Some (names f !! p) \/ exists i, (open_paste_file env name f).2 = Some (i, p).
Proof.
  assert (O : is_Some (names (open_paste_file env name f).1 !! p) ->
    is_Some (names f !! p) \/ exists i, (open_paste_file env name f).2 = Some (i, p)).
  { destruct (open_paste_file env name f) as [f1 r] eqn:E. by apply (open_names _ _ _ _ _ _ E). }
  unfold open_waits. destruct (oe_dir env) as [dir|]; [|intros ->%list_elem_of_singleton; auto].
  intros [->|[(n & -> & _)%list_elem_of_fmap| ->%list_elem_of_singleton]%elem_of_app]%elem_of_cons; [auto| |done].
  intros Hp. left. destruct (sweep_keeps (oe_now env) dir (take n (oe_seen env)) f) as (_ & _ & Hk).
  destruct (Hk p) as [<-|[E _]]; [done|]. rewrite E in Hp. by destruct Hp.
Qed.

Lemma waiting_open env pid total gid name s0 s (risk : Path -> Prop) :
  fs s = fs s0 -> pending_pastes s !! pid = None ->
  (forall i p, (open_paste_file env name (fs s0)).2 = Some (i, p) -> risk p) ->
  waiting pid risk (open_and_register sid env pid total gid name) s /\
  keeps risk s (registered sid env pid total gid name s).
Proof.
  intros Ef Hn Hr. rewrite <- Ef in Hr.
  assert (N : forall f' p, f' ∈ open_waits env name (fs s) -> is_Some (names f' !! p) -> is_Some (names (fs s) !! p) \/ risk p).
  { intros f' p Hf Hp. destruct (open_waits_names env name (fs s) f' p Hf Hp) as [?|[i E]]; [by left|right; by eapply Hr]. }
  assert (W : Forall (still pid risk s) (set_fs s <$> open_waits env name (fs s))).
  { apply Forall_fmap, Forall_forall. intros f' Hf. apply still_same; try done. intros p. by apply N. }
  assert (No : forall p, is_Some (names (open_paste_file env name (fs s)).1 !! p) -> is_Some (names (fs s) !! p) \/ risk p).
  { intros p Hp. destruct (open_paste_file env name (fs s)) as [f1 r] eqn:E.
    destruct (open_names _ _ _ _ _ _ E Hp) as [?|(i & ->)]; [by left|right; by eapply Hr]. }
  unfold waiting, open_and_register, registered. destruct (open_paste_file env name (fs s)) as [f [[ino path]|]]; cbn [fst snd] in No.
  - split; [exact W|]. apply keeps_uploads; [exact No| |eauto]. cbn. intros p q i Hi ->. left.
    exists q. by rewrite lookup_insert_ne by congruence.
  - assert (S : still pid risk s (set_fs s f)) by (by apply still_same).
    set (roll := fun s : PasteState => set_groups s _).
    assert (R : keeps risk (set_fs s f) (roll (set_fs s f))).
    { apply keeps_uploads; [auto|eauto|]. cbn. intros p g j Hg Hin. left. destruct (decide (j = gid)) as [->|Nj].
      - eexists. rewrite lookup_alter_eq, Hg. by split.
      - exists g. by rewrite lookup_alter_ne. }
    split.
    + apply Forall_app. split; [exact W|]. cbn. constructor; [exact S|]. constructor; [|constructor]. etrans; [exact S|].
      split; [exact R|]. split; [done|]. exists []. rewrite app_nil_r. by split; [|constructor].
    + etrans; [apply S|]. etrans; [exact R|]. by apply keeps_uploads; eauto.
Qed.

Lemma waiting_begin maxp maxg env pid total gid gsize name s :
  let risk := at_risk env s (Bd.PasteBegin pid total gid gsize name) in
  waiting pid risk (handle_paste_begin maxp maxg sid env pid total gid gsize name) s /\
  keeps risk s (begin_paste maxp maxg sid env pid total gid gsize name s).
Proof.
  intros risk. rewrite begin_paste_eq. unfold handle_paste_begin. set (h := fun s : PasteState => _).
  assert (G : waiting pid risk h s /\
    keeps risk s (if bool_decide (maxp <= base.size (pending_pastes s))%nat then send_paste_reject sid pid PASTE_REJECT_REGISTRY_FULL s
      else if bool_decide (is_Some (pending_pastes s !! pid)) then send_paste_reject sid pid PASTE_REJECT_DUPLICATE_PASTE s
      else match reserve_group maxg total gid gsize s with inr r => refused sid pid r | inl s => registered sid env pid total gid name s end)).
  2: { destruct G as [G1 G2]. split; [by apply waiting_wait|exact G2]. }
  unfold h, waiting. assert (K : forall r, keeps risk s (send_paste_reject sid pid r s)) by (intros r; apply keeps_uploads; cbn; eauto).
  case_bool_decide; [by split; [constructor|]|]. case_bool_decide as Hn; [by split; [constructor|]|].
  apply eq_None_not_Some in Hn. fold (waiting pid risk (wait ;;; fun s : PasteState =>
     match reserve_group maxg total gid gsize s with
     | inr (to_drop, reason, s) => (remove_all to_drop ;;; reject sid pid reason) s
     | inl s => open_and_register sid env pid total gid name s
     end) s). set (k := fun s : PasteState => _).
  assert (G : waiting pid risk k s /\
    keeps risk s (match reserve_group maxg total gid gsize s with inr r => refused sid pid r | inl s => registered sid env pid total gid name s end)).
  2: { destruct G as [G1 G2]. split; [by apply waiting_wait|exact G2]. }
  unfold k, waiting. clear h k. unfold reserve_group. destruct (pending_groups s !! gid) as [g|] eqn:Eg.
  - assert (Rg : forall p, p ∈ finished g -> risk p) by (intros p Hp; right; eauto). destruct (_ >? _).
    + set (s1 := set_groups s _). assert (S : still pid risk s s1) by (eapply still_drop; eauto). split.
      * assert (W : waiting pid risk (remove_all (finished g) ;;; reject sid pid PASTE_REJECT_GROUP_OVERSIZE) s1)
          by apply waiting_remove_then, waiting_reject.
        eapply Forall_impl; [exact W|]. intros s'. by etrans.
      * etrans; [apply S|]. unfold refused. cbn [fst snd]. etrans; [apply (still_removed pid)|]. by apply still_reject.
    + set (s1 := set_groups s _).
      assert (S : still pid risk s s1).
      { split; [|split; [done|]; exists []; rewrite app_nil_r; by split; [|constructor]]. apply keeps_uploads; [auto|eauto|].
        cbn. intros p x j Hx Hin. left. destruct (decide (j = gid)) as [->|N]; [|exists x; by rewrite lookup_insert_ne].
        eexists. rewrite lookup_insert_eq. split; [done|]. rewrite Eg in Hx. by injection Hx as <-. }
      destruct (waiting_open env pid total gid name s s1 risk) as [W Kp]; [done|done|intros i p E; left; eauto|].
      split; [|etrans; [apply S|exact Kp]]. eapply Forall_impl; [exact W|]. intros s'. by etrans.
  - assert (R : forall r, waiting pid risk (remove_all [] ;;; reject sid pid r) s) by (intros r; apply waiting_remove_then, waiting_reject).
    case_bool_decide; [split; [apply R|rewrite refused_at_once; apply K]|].
    destruct (_ >? _); [split; [apply R|rewrite refused_at_once; apply K]|].
    set (s1 := set_groups s _).
    assert (S : still pid risk s s1).
    { split; [|split; [done|]; exists []; rewrite app_nil_r; by split; [|constructor]]. apply keeps_uploads; [auto|eauto|].
      cbn. intros p x j Hx Hin. left. exists x. rewrite lookup_insert_ne; [done|congruence]. }
    destruct (waiting_open env pid total gid name s s1 risk) as [W Kp]; [done|done|intros i p E; left; eauto|].
    split; [|etrans; [apply S|exact Kp]]. eapply Forall_impl; [exact W|]. intros s'. by etrans.
Qed.

Lemma still_settled pid risk s f : names f = names (fs s) -> still pid risk s (set_fs s f).
Proof. intros E. apply still_same; try done. cbn. rewrite E. auto. Qed.

(** The cancellation of a paste. *)
Lemma waiting_cancel pid (risk : Path -> Prop) q r s :
  pending_pastes s !! pid = Some q -> risk (pp_path q) -> 0 <= r <= PASTE_REJECT_MAX_REASON ->
  waiting pid risk (act (fun s => set_pastes s (delete pid (pending_pastes s))) ;;;
    remove_all [pp_path q] ;;; reject sid pid r) s /\
  keeps risk s (cancelled sid pid q r s).
Proof.
  intros Eq Hr Hc. split.
  - apply waiting_act; [by eapply still_leave|]. apply waiting_remove_then, waiting_reject.
  - unfold cancelled. etrans; [by apply (still_leave pid risk s pid q)|]. etrans; [apply (still_removed pid)|]. by apply still_reject.
Qed.

Lemma waiting_chunk env w pid bytes s :
  let risk := at_risk env s (Bd.PasteChunk pid bytes) in
  waiting pid risk (handle_paste_chunk sid w pid bytes) s /\ keeps risk s (chunk_paste sid w pid bytes s).
Proof.
  intros risk. rewrite chunk_paste_eq. unfold handle_paste_chunk.
  destruct (pending_pastes s !! pid) as [q|] eqn:Eq.
  2: { split; [|done]. apply waiting_wait. unfold waiting. rewrite Eq. constructor. }
  assert (Rq : risk (pp_path q)) by (exists q; auto).
  assert (G : forall f, names f = names (fs s) -> forall r, 0 <= r <= PASTE_REJECT_MAX_REASON ->
    waiting pid risk (act (fun s => set_pastes s (delete pid (pending_pastes s))) ;;; remove_all [pp_path q] ;;; reject sid pid r) (set_fs s f) /\
    keeps risk s (cancelled sid pid q r (set_fs s f))).
  { intros f En r Hr. destruct (waiting_cancel pid risk q r (set_fs s f)) as [W K]; [done|done|done|].
    split; [exact W|]. etrans; [apply (still_settled pid); exact En|exact K]. }
  pose proof (proj1 (write_all_names w bytes q (fs s))) as En.
  split.
  - apply waiting_wait. unfold waiting. rewrite Eq. destruct (_ >? _); [by apply (waiting_cancel pid risk q)|].
    apply waiting_wait. unfold waiting.
    destruct (write_all w bytes q (fs s)) as [f [q'|]]; cbn [fst] in En; [by constructor|].
    destruct (G f En PASTE_REJECT_WRITE_FAILED) as [W _]; [done|]. eapply Forall_impl; [exact W|]. intros s'. etrans; [by apply still_settled|done].
  - destruct (_ >? _); [by apply (waiting_cancel pid risk q)|].
    destruct (write_all w bytes q (fs s)) as [f [q'|]] eqn:Ew; cbn [fst] in En; [|by apply G].
    apply write_all_spec in Ew as (_ & E2 & _). apply keeps_uploads; [cbn; rewrite En; auto| |eauto]. cbn. intros p x j Hx ->. left.
    destruct (decide (j = pid)) as [->|N]; [|exists x; by rewrite lookup_insert_ne]. exists q'. rewrite lookup_insert_eq. split; [done|].
    rewrite Eq in Hx. injection Hx as <-. by rewrite E2.
Qed.

Lemma waiting_end env w style ctl pid status s :
  let risk := at_risk env s (Bd.PasteEnd pid status) in
  waiting pid risk (handle_paste_end sid w style ctl pid status) s /\ keeps risk s (end_paste sid w style ctl pid status s).
Proof.
  intros risk. rewrite end_paste_eq. unfold handle_paste_end.
  destruct (pending_pastes s !! pid) as [q|] eqn:Eq.
  2: { split; [|done]. apply waiting_wait. unfold waiting. rewrite Eq. constructor. }
  assert (Rq : risk (pp_path q)) by (exists q; auto).
  assert (Rg : forall s1, pending_groups s1 = pending_groups s -> forall g p, pending_groups s1 !! pp_group_id q = Some g -> p ∈ finished g -> risk p)
    by (intros s1 E g p Hg Hp; rewrite E in Hg; exists q; eauto).
  cbn zeta. set (s1 := set_pastes s (delete pid (pending_pastes s))).
  assert (S1 : still pid risk s s1) by (by eapply still_leave).
  split.
  - apply waiting_wait. unfold waiting. rewrite Eq. apply waiting_act; [done|]. fold s1. destruct (status =? _).
    { apply waiting_remove_then, waiting_drop_group. by apply Rg. }
    destruct (negb _).
    { apply waiting_remove_then, waiting_reject_then; [done|]. apply waiting_drop_group. by apply Rg. }
    apply waiting_blocking; [by apply still_settled|]. apply waiting_stage; [done|by apply Rg].
  - etrans; [apply S1|]. destruct (status =? _).
    { etrans; [apply (still_removed pid)|]. rewrite <- final_drop_group. apply (waiting_drop_group pid). by apply Rg. }
    destruct (negb _).
    { etrans; [apply (still_removed pid)|]. etrans; [by apply (still_reject pid risk PASTE_REJECT_SIZE_MISMATCH)|].
      rewrite <- final_drop_group. apply (waiting_drop_group pid). by apply Rg. }
    etrans; [apply (still_settled pid risk s1 (settle w q (fs s1))); reflexivity|]. rewrite <- final_stage. apply (waiting_stage pid); [done|by apply Rg].
Qed.
End Waits.
