(* ===== verification/UploadContents.v ===== *)
(** * UploadContents: a typed path names the bytes that were sent

    What the files of a stream's uploads hold, by the bodies its task has been
    handed: over any sequence of bodies, with other tasks at work on the file
    system in between, each file holds what was sent for its paste id, and the
    paths that are typed are those of complete uploads - unless the last write
    of one has failed in the background, which cuts its file short. *)

From Stdlib Require Import Strings.Byte.
From stdpp Require Import prelude strings list gmap.
From S2P Require Import Prelude Utf8 Std Tokio Frame Session Paste PasteFinal PasteFacts UploadFacts StreamTask.

(** ** What a browser sends for a paste *)

(** The paste a body belongs to. *)
Definition paste_of (b : Body) : option Z :=
  match b with
  | Bd.PasteBegin i _ _ _ _ | Bd.PasteChunk i _ | Bd.PasteEnd i _ => Some i
  | _ => None
  end.
Definition mentions (pid : Z) (bs : list Body) : bool := existsb (fun b => bool_decide (paste_of b = Some pid)) bs.

Definition chunk_of (pid : Z) (b : Body) : list byte :=
  match b with Bd.PasteChunk i c => if i =? pid then c else [] | _ => [] end.
Definition ends (pid : Z) (b : Body) : bool := match b with Bd.PasteEnd i _ => i =? pid | _ => false end.
Definition begins (pid : Z) (b : Body) : option (Z * Z) :=
  match b with Bd.PasteBegin i total gid _ _ => if i =? pid then Some (total, gid) else None | _ => None end.

(** The bytes of its chunks, the last chunk that has any, whether its end was sent, and the size and the
    group it was announced with. *)
Definition sent_for (pid : Z) (bs : list Body) : list byte := concat (chunk_of pid <$> bs).
Definition last_chunk (pid : Z) (bs : list Body) : list byte :=
  foldl (fun last b => match chunk_of pid b with [] => last | c => c end) [] bs.
Definition has_ended (pid : Z) (bs : list Body) : bool := existsb (ends pid) bs.
Definition declared (pid : Z) (bs : list Body) : option (Z * Z) := head (omap (begins pid) bs).

(** A browser that does not reuse ids: a paste begins before anything else is
    said of it, and has no chunk after its end. *)
Definition fits (before : list Body) (b : Body) : bool :=
  match b with
  | Bd.PasteBegin i _ _ _ _ => negb (mentions i before)
  | Bd.PasteChunk i _ => negb (has_ended i before)
  | _ => true
  end.
Fixpoint orderly_from (before bs : list Body) : bool :=
  match bs with
  | [] => true
  | b :: bs => fits before b && orderly_from (before ++ [b]) bs
  end.
Definition orderly (bs : list Body) : bool := orderly_from [] bs.

Lemma sent_for_app pid a b : sent_for pid (a ++ b) = sent_for pid a ++ sent_for pid b.
Proof. unfold sent_for. by rewrite fmap_app, concat_app. Qed.
Lemma sent_for_snoc pid bs b : sent_for pid (bs ++ [b]) = sent_for pid bs ++ chunk_of pid b.
Proof. rewrite sent_for_app. unfold sent_for at 2. cbn. by rewrite app_nil_r. Qed.
Lemma last_chunk_snoc pid bs b :
  last_chunk pid (bs ++ [b]) = match chunk_of pid b with [] => last_chunk pid bs | c => c end.
Proof. unfold last_chunk. by rewrite foldl_app. Qed.
Lemma has_ended_app pid a b : has_ended pid (a ++ b) = has_ended pid a || has_ended pid b.
Proof. apply existsb_app. Qed.
Lemma has_ended_snoc pid bs b : has_ended pid (bs ++ [b]) = has_ended pid bs || ends pid b.
Proof. rewrite has_ended_app. cbn. by rewrite orb_false_r. Qed.
Lemma mentions_app pid a b : mentions pid (a ++ b) = mentions pid a || mentions pid b.
Proof. apply existsb_app. Qed.
Lemma declared_app pid a b : declared pid (a ++ b) = match declared pid a with Some x => Some x | None => declared pid b end.
Proof. unfold declared. rewrite omap_app. by destruct (omap (begins pid) a). Qed.
Lemma declared_one pid b : declared pid [b] = begins pid b.
Proof. unfold declared. cbn. by destruct (begins pid b). Qed.

Lemma unmentioned pid bs :
  mentions pid bs = false ->
  sent_for pid bs = [] /\ has_ended pid bs = false /\ declared pid bs = None /\ last_chunk pid bs = [].
Proof.
  unfold mentions, sent_for, has_ended, declared, last_chunk. induction bs as [|b bs IH]; [done|]. cbn [existsb fmap list_fmap concat omap list_omap foldl].
  rewrite orb_false_iff, bool_decide_eq_false. intros [Hb Hr]. destruct (IH Hr) as (-> & -> & E & El).
  assert (X : chunk_of pid b = [] /\ ends pid b = false /\ begins pid b = None).
  { destruct b; cbn in *; try done; destruct (Z.eqb_spec paste_id pid); try done; by subst. }
  destruct X as (-> & -> & ->). done.
Qed.

Lemma orderly_snoc bs b : orderly (bs ++ [b]) = orderly bs && fits bs b.
Proof.
  unfold orderly. assert (G : forall before, orderly_from before (bs ++ [b]) = orderly_from before bs && fits (before ++ bs) b); [|apply (G [])].
  induction bs as [|x bs IH]; intros before; cbn [app orderly_from]; [by rewrite app_nil_r, andb_true_r|].
  rewrite IH, <- app_assoc. cbn. by rewrite andb_assoc.
Qed.
Lemma orderly_app a b : orderly (a ++ b) = true -> orderly a = true.
Proof.
  induction b as [|x b IH] using rev_ind; [by rewrite app_nil_r|]. rewrite app_assoc, orderly_snoc. intros [H _]%andb_prop. by apply IH.
Qed.

(** After its end, nothing is sent for a paste. *)
Lemma sent_for_ended pid a b : orderly (a ++ b) = true -> has_ended pid a = true ->
  sent_for pid (a ++ b) = sent_for pid a /\ last_chunk pid (a ++ b) = last_chunk pid a.
Proof.
  intros O E. induction b as [|x b IH] using rev_ind; [by rewrite app_nil_r|]. rewrite app_assoc in *. rewrite orderly_snoc in O.
  apply andb_prop in O as [O Fx]. destruct (IH O) as [E1 E2]. rewrite sent_for_snoc, last_chunk_snoc, E1, E2.
  assert (C : chunk_of pid x = []); [|by rewrite C, app_nil_r].
  destruct x; try done. cbn in *. destruct (Z.eqb_spec paste_id pid) as [->|]; [|done]. by rewrite has_ended_app, E in Fx.
Qed.

(** ** Files *)

(** A name the sweep may remove. *)
Definition temp_path (p : Path) : Prop := exists dir n, p = join dir (lit "term-paste-" ++ n).
Definition stored_at (f : Fs) (ino : Ino) (c : list byte) : Prop := exists x, inodes f !! ino = Some x /\ content x = c.
Definition kept (f : Fs) (p : Path) (ino : Ino) : Prop := temp_path p \/ names f !! p = Some ino.

(** What other tasks do to the file system: they leave the files of this one
    alone, except that their sweeps may remove temporary names. *)
Record others_may (mine : list Ino) (f f' : Fs) : Prop := {
  om_next : (next_ino f <= next_ino f')%nat;
  om_inodes : forall i, i ∈ mine -> inodes f' !! i = inodes f !! i;
  om_names : forall p i, i ∈ mine -> names f !! p = Some i -> kept f' p i;
}.

(** The state of a task's uploads, the bodies it was handed, the pastes whose
    last write failed and the inodes it created, over any such history.  A body may have no effect on the uploads
    if it is not about one, or a begin that is refused. *)
Definition op_body (o : PasteOp) : Body :=
  match o with
  | PBegin _ i total gid gsize name => Bd.PasteBegin i total gid gsize name
  | PChunk _ i c => Bd.PasteChunk i c
  | PEnd _ _ _ i st => Bd.PasteEnd i st
  end.
(** The paste whose last write failed. *)
Definition failed_last (w : WriteEnd) (b : Body) : list Z :=
  match w, b with Failed _, Bd.PasteEnd i _ => [i] | _, _ => [] end.
Definition op_write (o : PasteOp) : WriteEnd :=
  match o with PBegin _ _ _ _ _ _ => Written | PChunk w _ _ => w | PEnd w _ _ _ _ => w end.
Definition may_ignore (b : Body) : bool := match b with Bd.PasteChunk _ _ | Bd.PasteEnd _ _ => false | _ => true end.
Definition created (s : PasteState) : list Ino := pp_file <$> (map_to_list (pending_pastes s)).*2.

Inductive upload_run (maxp maxg : nat) (sid : Z) (f0 : Fs) : list Body -> list Z -> list Ino -> PasteState -> Prop :=
| ur_start : upload_run maxp maxg sid f0 [] [] [] (PasteFacts.start f0)
| ur_op bs lost mine s o :
    upload_run maxp maxg sid f0 bs lost mine s ->
    upload_run maxp maxg sid f0 (bs ++ [op_body o]) (lost ++ failed_last (op_write o) (op_body o))
      (mine ++ created (apply_op maxp maxg sid o s)) (apply_op maxp maxg sid o s)
| ur_ignored bs lost mine s s' b :
    upload_run maxp maxg sid f0 bs lost mine s -> may_ignore b = true ->
    pending_pastes s' = pending_pastes s -> pending_groups s' = pending_groups s -> fs s' = fs s ->
    upload_run maxp maxg sid f0 (bs ++ [b]) lost mine s'
| ur_flush bs lost mine s s' :
    upload_run maxp maxg sid f0 bs lost mine s ->
    pending_pastes s' = pending_pastes s -> pending_groups s' = pending_groups s -> fs s' = fs s ->
    upload_run maxp maxg sid f0 bs lost mine s'
| ur_others bs lost mine s f' :
    upload_run maxp maxg sid f0 bs lost mine s -> others_may mine (fs s) f' -> upload_run maxp maxg sid f0 bs lost mine (set_fs s f').

(** ** The invariant *)

(** What the file of a paste that has ended holds: all that was sent for it,
    or, if its last write failed, all but an end of the last chunk. *)
Definition holds (bs : list Body) (lost : list Z) (pid : Z) (c : list byte) : Prop :=
  (exists k, c ++ drop k (last_chunk pid bs) = sent_for pid bs) /\ (pid ∉ lost -> c = sent_for pid bs).

(** An upload that is finished but not typed yet. *)
Definition finished_upload (W : gmap Ino Z) (bs : list Body) (lost : list Z) (f : Fs) (gid : Z) (p : Path) (pid : Z) (ino : Ino) : Prop :=
  has_ended pid bs = true /\ declared pid bs = Some (len (sent_for pid bs), gid) /\
  (exists c, stored_at f ino c /\ holds bs lost pid c) /\ W !! ino = Some pid /\ kept f p ino.

(** What the file of a paste holds that has not ended: the write in flight is
    missing, which is that of the last chunk. *)
Definition holds_with (bs : list Body) (f : Fs) (pid : Z) (p : PendingPaste) : Prop :=
  exists c, stored_at f (pp_file p) c /\ c ++ pp_buf p = sent_for pid bs /\ pp_buf p = last_chunk pid bs.

(** [W] says for which paste an inode was created. *)
Record contents_ok (W : gmap Ino Z) (bs : list Body) (lost : list Z) (mine : list Ino) (s : PasteState) : Prop := {
  co_pending : forall pid p, pending_pastes s !! pid = Some p ->
    holds_with bs (fs s) pid p /\ pp_written p = len (sent_for pid bs) /\
    declared pid bs = Some (pp_total_size p, pp_group_id p) /\ has_ended pid bs = false /\
    W !! pp_file p = Some pid /\ kept (fs s) (pp_path p) (pp_file p);
  co_groups : forall gid g p, pending_groups s !! gid = Some g -> p ∈ finished g ->
    exists pid ino, finished_upload W bs lost (fs s) gid p pid ino;
  co_mine : forall i pid, W !! i = Some pid -> (i < next_ino (fs s))%nat /\ i ∈ mine;
}.

(** A later body leaves a finished upload alone. *)
Lemma finished_snoc W bs lost more b f gid p pid ino :
  fits bs b = true -> finished_upload W bs lost f gid p pid ino -> finished_upload W (bs ++ [b]) (lost ++ more) f gid p pid ino.
Proof.
  intros Fb (E & D & (c & S & [k Hk] & Hl) & Wi & K).
  assert (C : chunk_of pid b = []).
  { destruct b; try done. cbn in *. destruct (Z.eqb_spec paste_id pid) as [->|]; [|done]. by rewrite E in Fb. }
  unfold finished_upload, holds. rewrite sent_for_snoc, last_chunk_snoc, C, app_nil_r, has_ended_app, E, declared_app, D.
  split_and!; try done. exists c. split; [done|]. split; [by exists k|]. intros N. apply Hl. set_solver.
Qed.

(** Removing the files of other uploads keeps a name. *)
Definition owned (W : gmap Ino Z) (f : Fs) (pid : Z) (p : Path) : Prop := exists ino, W !! ino = Some pid /\ kept f p ino.

Lemma kept_remove W f ps (gone : Z -> Prop) p pid ino :
  (forall q, q ∈ ps -> exists pid', gone pid' /\ owned W f pid' q) -> ~ gone pid -> W !! ino = Some pid ->
  kept f p ino -> kept (foldl (fun f q => remove_file q f) f ps) p ino.
Proof.
  intros Hps Hg Wi [T|N]; [by left|]. destruct (decide (p ∈ ps)) as [Hin|Hout].
  { destruct (Hps p Hin) as (pid' & Hg' & i' & Wi' & [T|N']); [by left|]. exfalso. apply Hg. congruence. }
  right. rewrite <- N. clear -Hout. revert f. induction ps as [|q ps IH]; intros f; [done|]. apply not_elem_of_cons in Hout as [N Hout].
  cbn [foldl]. rewrite IH by done. cbn. by apply lookup_delete_ne.
Qed.

Lemma remove_all_inodes ps f :
  inodes (foldl (fun f q => remove_file q f) f ps) = inodes f /\ next_ino (foldl (fun f q => remove_file q f) f ps) = next_ino f.
Proof. revert f. induction ps as [|q ps IH]; intros f; [done|]. apply (IH (remove_file q f)). Qed.

(** A file system that differs in the files of [gone] pastes only. *)
Record agrees (W : gmap Ino Z) (gone : Z -> Prop) (f f' : Fs) : Prop := {
  ag_names : names f' = names f;
  ag_next : next_ino f' = next_ino f;
  ag_inodes : forall i pid, W !! i = Some pid -> ~ gone pid -> inodes f' !! i = inodes f !! i;
}.
Lemma agrees_refl W gone f : agrees W gone f f.
Proof. done. Qed.
Lemma settle_agrees W (gone : Z -> Prop) w p f pid : W !! pp_file p = Some pid -> gone pid -> agrees W gone f (settle w p f).
Proof. intros Wp Hg. split; [done|done|]. intros i pid' Wi N. apply settle_other. intros ->. congruence. Qed.
Lemma stored_agrees W gone f f' i pid c : agrees W gone f f' -> W !! i = Some pid -> ~ gone pid -> stored_at f i c -> stored_at f' i c.
Proof. intros [_ _ Ai] Wi N (x & Hx & Ex). exists x. by rewrite (Ai i pid). Qed.
Lemma kept_agrees W gone f f' p i : agrees W gone f f' -> kept f p i -> kept f' p i.
Proof. intros [An _ _]. unfold kept. by rewrite An. Qed.
Lemma finished_agrees W gone bs lost f f' gid p pid ino :
  agrees W gone f f' -> ~ gone pid -> finished_upload W bs lost f gid p pid ino -> finished_upload W bs lost f' gid p pid ino.
Proof.
  intros A N (E & D & (c & S & Hc) & Wi & K). split_and!; try done; [|by eapply kept_agrees].
  exists c. split; [|done]. by eapply stored_agrees.
Qed.

(** Steps that only end uploads: those of [gone] leave, with the files [ps]. *)
Lemma contents_shrink W bs bs' lost lost' mine s s' f ps (gone : Z -> Prop) :
  contents_ok W bs lost mine s -> agrees W gone (fs s) f ->
  fs s' = foldl (fun f q => remove_file q f) f ps ->
  (forall q, q ∈ ps -> exists pid, gone pid /\ owned W (fs s) pid q) ->
  (forall pid p, pending_pastes s' !! pid = Some p ->
     pending_pastes s !! pid = Some p /\ ~ gone pid /\ sent_for pid bs' = sent_for pid bs /\
     last_chunk pid bs' = last_chunk pid bs /\ declared pid bs' = declared pid bs /\ has_ended pid bs' = false) ->
  (forall gid g p, pending_groups s' !! gid = Some g -> p ∈ finished g ->
     exists pid ino, finished_upload W bs' lost' (fs s) gid p pid ino /\ ~ gone pid) ->
  contents_ok W bs' lost' mine s'.
Proof.
  intros [Cp Cg Cm] A Ef Hps Hp Hg. destruct (remove_all_inodes ps f) as [Ei En].
  assert (Hps' : forall q, q ∈ ps -> exists pid, gone pid /\ owned W f pid q).
  { intros q Hq. destruct (Hps q Hq) as (pid & G & i & Wi & K). exists pid. split; [done|]. exists i. split; [done|]. by eapply kept_agrees. }
  split.
  - intros pid p E. destruct (Hp pid p E) as (E0 & Ng & E1 & E2 & E3 & E4). destruct (Cp pid p E0) as ((c & S & Ec & Eb) & Ew & D & _ & Wi & K).
    rewrite E1, E3, E4. split_and!; try done.
    + exists c. rewrite E1, E2. split; [|done]. apply (stored_agrees W gone _ f _ pid) in S; [|done..]. destruct S as (x & Hx & Ex). exists x. by rewrite Ef, Ei.
    + rewrite Ef. eapply kept_remove; [done..|]. by eapply kept_agrees.
  - intros gid g p E Hin. destruct (Hg gid g p E Hin) as (pid & ino & F & Ng). exists pid, ino.
    apply (finished_agrees W gone _ _ _ f) in F as (E1 & D & (c & S & Hc) & Wi & K); [|done..]. split_and!; try done.
    + destruct S as (x & Hx & Ex). exists c. split; [|done]. exists x. by rewrite Ef, Ei.
    + rewrite Ef. by eapply kept_remove.
  - intros i pid Wi. rewrite Ef, En, (ag_next _ _ _ _ A). by eapply Cm.
Qed.

(** *** Each operation *)

Section Steps.
Variables (maxp maxg : nat) (sid : Z).

(** What a body that is no chunk for it and no end of it leaves of a pending
    paste. *)
Lemma pending_snoc W bs lost mine s b pid p :
  contents_ok W bs lost mine s -> pending_pastes s !! pid = Some p -> chunk_of pid b = [] -> ends pid b = false ->
  sent_for pid (bs ++ [b]) = sent_for pid bs /\ last_chunk pid (bs ++ [b]) = last_chunk pid bs /\
  declared pid (bs ++ [b]) = declared pid bs /\ has_ended pid (bs ++ [b]) = false.
Proof.
  intros [Cp _ _] E Hc He. destruct (Cp pid p E) as (_ & _ & D & En & _).
  by rewrite sent_for_snoc, last_chunk_snoc, Hc, app_nil_r, declared_app, D, has_ended_snoc, En, He.
Qed.

(** A finished upload of another group, or any while a paste is pending, is
    not among those that leave. *)
Lemma finished_distinct W bs lost mine s f gid p pid ino pid0 q :
  contents_ok W bs lost mine s -> pending_pastes s !! pid0 = Some q -> finished_upload W bs lost f gid p pid ino -> pid <> pid0.
Proof. intros [Cp _ _] E (En & _) ->. destruct (Cp pid0 q E) as (_ & _ & _ & X & _). congruence. Qed.

(** The pastes of a finished group leave with its files. *)
Definition leaves (bs : list Body) (gid pid : Z) : Prop := has_ended pid bs = true /\ exists n, declared pid bs = Some (n, gid).

Lemma group_owned W bs lost mine s gid g q :
  contents_ok W bs lost mine s -> pending_groups s !! gid = Some g -> q ∈ finished g ->
  exists pid, leaves bs gid pid /\ owned W (fs s) pid q.
Proof.
  intros [_ Cg _] Eg Hq. destruct (Cg gid g q Eg Hq) as (pid & ino & E & D & _ & Wi & K). exists pid.
  split; [split; [done|by eexists]|by exists ino].
Qed.
Lemma leaves_group W bs lost f gid gid' p pid ino : finished_upload W bs lost f gid' p pid ino -> gid' <> gid -> ~ leaves bs gid pid.
Proof. intros (_ & D & _) N [_ [n D']]. congruence. Qed.

(** Nothing happens to the uploads. *)
Lemma contents_same W bs lost more mine s s' b :
  contents_ok W bs lost mine s -> fits bs b = true -> (forall pid p, pending_pastes s !! pid = Some p -> chunk_of pid b = [] /\ ends pid b = false) ->
  pending_pastes s' = pending_pastes s -> fs s' = fs s ->
  (forall gid g p, pending_groups s' !! gid = Some g -> p ∈ finished g -> exists g0, pending_groups s !! gid = Some g0 /\ p ∈ finished g0) ->
  contents_ok W (bs ++ [b]) (lost ++ more) mine s'.
Proof.
  intros C Fb Hb Ep Ef Hg. apply (contents_shrink W bs (bs ++ [b]) lost _ mine s s' (fs s) [] (fun _ => False)); try done.
  - intros q Hq. by apply elem_of_nil in Hq.
  - intros pid p. rewrite Ep. intros E. destruct (Hb pid p E) as [Hc He].
    destruct (pending_snoc W bs lost mine s b pid p C E Hc He) as (? & ? & ? & ?). split_and!; tauto.
  - intros gid g p E Hin. destruct (Hg gid g p E Hin) as (g0 & E0 & Hin0). destruct (co_groups _ _ _ _ _ C gid g0 p E0 Hin0) as (pid & ino & F).
    exists pid, ino. split; [by apply finished_snoc|tauto].
Qed.

(** A pending paste is cancelled: its file goes. *)
Lemma contents_cancel W bs lost more mine s s' f b pid0 p0 :
  contents_ok W bs lost mine s -> fits bs b = true ->
  pending_pastes s !! pid0 = Some p0 -> (forall pid, pid <> pid0 -> chunk_of pid b = [] /\ ends pid b = false) ->
  agrees W (eq pid0) (fs s) f ->
  pending_pastes s' = delete pid0 (pending_pastes s) -> pending_groups s' = pending_groups s -> fs s' = remove_file (pp_path p0) f ->
  contents_ok W (bs ++ [b]) (lost ++ more) mine s'.
Proof.
  intros C Fb E0 Hb A Ep Eg Ef. apply (contents_shrink W bs (bs ++ [b]) lost _ mine s s' f [pp_path p0] (eq pid0)); try done.
  - intros q ->%list_elem_of_singleton. exists pid0. split; [done|]. destruct (co_pending _ _ _ _ _ C pid0 p0 E0) as (_ & _ & _ & _ & Wi & K).
    by eexists.
  - intros pid p. rewrite Ep. intros [N E]%lookup_delete_Some. destruct (Hb pid (not_eq_sym N)) as [Hc He].
    destruct (pending_snoc W bs lost mine s b pid p C E Hc He) as (? & ? & ? & ?). by split_and!.
  - intros gid g p. rewrite Eg. intros E Hin. destruct (co_groups _ _ _ _ _ C gid g p E Hin) as (pid & ino & F).
    exists pid, ino. split; [by apply finished_snoc|]. intros X.
    by apply (finished_distinct W bs lost mine s (fs s) gid p pid ino pid0 p0).
Qed.

(** A group is dropped with its files, when it is out of its registry or about
    to be. *)
Lemma contents_drop_group W bs lost mine s gid :
  contents_ok W bs lost mine s -> contents_ok W bs lost mine (dropped gid s).
Proof.
  intros C. unfold dropped. destruct (pending_groups s !! gid) as [g|] eqn:Eg; [|done].
  apply (contents_shrink W bs bs lost lost mine s _ (fs s) (finished g) (leaves bs gid)); try done; cbn.
  - intros q Hq. by eapply group_owned.
  - intros pid p E. destruct (co_pending _ _ _ _ _ C pid p E) as (_ & _ & _ & En & _). split_and!; try done. intros [X _]. congruence.
  - intros gid' g' p [N E]%lookup_delete_Some Hin. destruct (co_groups _ _ _ _ _ C gid' g' p E Hin) as (pid & ino & F).
    exists pid, ino. split; [done|]. by eapply leaves_group.
Qed.

(** A chunk. *)
Lemma write_all_agrees W (gone : Z -> Prop) w bytes p f pid :
  W !! pp_file p = Some pid -> gone pid -> agrees W gone f (write_all w bytes p f).1.
Proof.
  intros Wp Hg. split; [apply write_all_names..|]. intros i pid' Wi N. apply write_all_other. intros ->. congruence.
Qed.
Lemma write_all_buf w bytes p f f' p' :
  write_all w bytes p f = (f', Some p') -> pp_buf p' = match bytes with [] => pp_buf p | _ => bytes end.
Proof. unfold write_all. destruct bytes; [by intros [= <- <-]|]. destruct w; by intros [= <- <-]. Qed.

Lemma chunk_contents W bs lost mine s w pid0 c :
  contents_ok W bs lost mine s -> fits bs (Bd.PasteChunk pid0 c) = true ->
  contents_ok W (bs ++ [Bd.PasteChunk pid0 c]) (lost ++ []) mine (chunk_paste sid w pid0 c s).
Proof.
  intros C Fb. rewrite chunk_paste_eq.
  assert (Oth : forall pid, pid <> pid0 -> chunk_of pid (Bd.PasteChunk pid0 c) = [] /\ ends pid (Bd.PasteChunk pid0 c) = false).
  { intros pid N. cbn. destruct (Z.eqb_spec pid0 pid); [congruence|done]. }
  destruct (pending_pastes s !! pid0) as [p0|] eqn:E0.
  2: { apply (contents_same W bs lost _ mine s s); try done; [|eauto]. intros pid p E. apply Oth. congruence. }
  destruct (co_pending _ _ _ _ _ C pid0 p0 E0) as ((c0 & S0 & Ec0 & Eb0) & Ew0 & D0 & En0 & W0 & K0).
  destruct (_ >? _); [by apply (contents_cancel W bs lost _ mine s _ (fs s) _ pid0 p0)|].
  pose proof (write_all_agrees W (eq pid0) w c p0 (fs s) pid0 W0 eq_refl) as A.
  destruct (write_all w c p0 (fs s)) as [f [q|]] eqn:Ew; cbn [fst] in A; [|by apply (contents_cancel W bs lost _ mine s _ f _ pid0 p0)].
  pose proof (write_all_buf _ _ _ _ _ _ Ew) as Eb. apply write_all_spec in Ew as (E1 & E2 & E3 & E4 & E5 & _ & _ & _ & E6).
  assert (X : chunk_of pid0 (Bd.PasteChunk pid0 c) = c) by (cbn; by rewrite Z.eqb_refl).
  split; cbn -[chunk_of].
  - intros pid p [[<- <-]|[N E]]%lookup_insert_Some; cbn -[chunk_of].
    + unfold holds_with. rewrite sent_for_snoc, last_chunk_snoc, X, declared_app, D0, has_ended_snoc, En0, E1, E2, E3, E4, E5.
      destruct S0 as (x & Hx & Ex). destruct (E6 x Hx) as (x' & Hx' & Ex'). split_and!; try done.
      * exists (content x'). split; [by exists x'|]. split; [by rewrite Ex', Ex, Ec0|]. rewrite Eb. by destruct c.
      * by rewrite len_app, Ew0.
      * by eapply kept_agrees.
    + destruct (Oth pid (not_eq_sym N)) as [Hc He]. destruct (pending_snoc W bs lost mine s _ pid p C E Hc He) as (P1 & P2 & P3 & P4).
      destruct (co_pending _ _ _ _ _ C pid p E) as ((c1 & S & Ec & Ebp) & Ewp & D & En & Wi & K). unfold holds_with.
      rewrite P1, P2, P3, P4. split_and!; try done; [|by eapply kept_agrees]. exists c1. split; [|done]. by eapply stored_agrees.
  - intros gid g p E Hin. destruct (co_groups _ _ _ _ _ C gid g p E Hin) as (pid & ino & F). exists pid, ino.
    pose proof (finished_distinct W bs lost mine s (fs s) gid p pid ino pid0 p0 C E0 F) as N.
    apply (finished_snoc W bs lost [] _ _ gid p pid ino Fb) in F. by eapply finished_agrees.
  - intros i pid Wi. rewrite (ag_next _ _ _ _ A). by eapply (co_mine _ _ _ _ _ C).
Qed.

(** A begin. *)
Lemma swept_names env dir f p ino :
  kept f p ino -> kept (sweep_old_paste_files (oe_now env) dir (oe_seen env) f) p ino.
Proof.
  intros [T|N]; [by left|]. destruct (sweep_keeps (oe_now env) dir (oe_seen env) f) as (_ & _ & Hk).
  destruct (Hk p) as [E|(_ & n & -> & T)]; [right; by rewrite E|left]. exists dir, (drop 11 n). by rewrite <- T, take_drop.
Qed.

Lemma open_keeps env name f f' r p ino :
  open_paste_file env name f = (f', r) -> kept f p ino -> kept f' p ino.
Proof.
  intros E K. destruct r as [[i q]|].
  - apply open_spec in E as (dir & c & _ & -> & _ & Hn & _ & ->). apply (swept_names env dir) in K as [T|N]; [by left|right].
    cbn. rewrite lookup_insert_ne; [done|]. intros <-. congruence.
  - unfold open_paste_file in E. destruct (oe_dir env) as [dir|]; [|by injection E as <-]. destruct (split_ext _) as [stem ext].
    destruct (try_names _ _ _ _ _ _ _ _ _ _) as [[[? ?] ?]|]; [done|]. injection E as <-. by apply swept_names.
Qed.

Lemma open_contents W bs lost mine s s1 env pid0 total gid0 gsize name :
  let b := Bd.PasteBegin pid0 total gid0 gsize name in
  contents_ok W bs lost mine s -> fits bs b = true -> pending_pastes s1 = pending_pastes s -> fs s1 = fs s ->
  (forall gid g p, pending_groups s1 !! gid = Some g -> p ∈ finished g -> exists g0, pending_groups s !! gid = Some g0 /\ p ∈ finished g0) ->
  exists W', contents_ok W' (bs ++ [b]) (lost ++ []) (mine ++ created (registered sid env pid0 total gid0 name s1)) (registered sid env pid0 total gid0 name s1).
Proof.
  intros b C Fb Ep Ef Hg. pose proof Fb as U. cbn in U. apply negb_true_iff, unmentioned in U as (U1 & U2 & U3 & U4).
  assert (Cs : forall gid g p, pending_groups s1 !! gid = Some g -> p ∈ finished g ->
                 exists pid ino, finished_upload W (bs ++ [b]) (lost ++ []) (fs s) gid p pid ino /\ pid <> pid0).
  { intros gid g p E Hin. destruct (Hg gid g p E Hin) as (g0 & E0 & Hin0). destruct (co_groups _ _ _ _ _ C gid g0 p E0 Hin0) as (pid & ino & F).
    exists pid, ino. split; [by apply finished_snoc|]. intros ->. destruct F as (X & _). congruence. }
  assert (Pd : forall pid p, pending_pastes s !! pid = Some p -> pid <> pid0 /\
     sent_for pid (bs ++ [b]) = sent_for pid bs /\ last_chunk pid (bs ++ [b]) = last_chunk pid bs /\
     declared pid (bs ++ [b]) = declared pid bs /\ has_ended pid (bs ++ [b]) = false).
  { intros pid p E. split; [intros ->; destruct (co_pending _ _ _ _ _ C pid0 p E) as (_ & _ & D & _); congruence|].
    by apply (pending_snoc W bs lost mine s b pid p C E). }
  unfold registered. rewrite Ef. destruct (open_paste_file env name (fs s)) as [f' [[ino path]|]] eqn:Eo.
  - pose proof Eo as Eo'. apply open_spec in Eo' as (dir & c & _ & Epath & _ & _ & Ei & Ef').
    assert (Keep : forall i pid x, W !! i = Some pid -> inodes (fs s) !! i = Some x -> inodes f' !! i = Some x).
    { intros i pid x Wi Hx. rewrite Ef'. cbn. rewrite lookup_insert_ne; [done|]. apply (co_mine _ _ _ _ _ C) in Wi as [L _]. lia. }
    assert (Wf : W !! ino = None) by (apply eq_None_not_Some; intros [pid Wi]; apply (co_mine _ _ _ _ _ C) in Wi as [L _]; lia).
    exists (<[ino := pid0]> W). split; cbn.
    + intros pid p [[<- <-]|[N E]]%lookup_insert_Some; cbn.
      * unfold holds_with. rewrite sent_for_snoc, last_chunk_snoc, U1, U4, declared_app, U3, declared_one, has_ended_snoc, U2. subst b. cbn.
        rewrite Z.eqb_refl. split_and!; try done.
        -- exists []. split_and!; try done. eexists. rewrite Ef'. cbn. rewrite lookup_insert_eq. done.
        -- by rewrite lookup_insert_eq.
        -- right. rewrite Ef', Epath. cbn. by rewrite lookup_insert_eq.
      * rewrite Ep in E. destruct (Pd pid p E) as (_ & P1 & P2 & P3 & P4). destruct (co_pending _ _ _ _ _ C pid p E) as ((c1 & (x & Hx & Ex) & Hc1) & Ew & D & En & Wi & K).
        unfold holds_with. rewrite P1, P2, P3, P4. split_and!; try done; [exists c1; split; [exists x; eauto|done]| |by eapply open_keeps].
        rewrite lookup_insert_ne; [done|congruence].
    + intros gid g p E Hin. destruct (Cs gid g p E Hin) as (pid & i & (E1 & D & (c1 & (x & Hx & Ex) & Hc) & Wi & K) & N). exists pid, i.
      split_and!; try done; [exists c1; split; [exists x; eauto|done]| |by eapply open_keeps]. rewrite lookup_insert_ne; [done|congruence].
    + intros i pid [[<- <-]|[N Wi]]%lookup_insert_Some.
      * rewrite Ef'. cbn. split; [lia|]. apply elem_of_app. right. unfold created. apply list_elem_of_fmap.
        exists (mk_pending ino path total 0 gid0 []). split; [done|]. apply list_elem_of_fmap. exists (pid0, mk_pending ino path total 0 gid0 []).
        split; [done|]. apply elem_of_map_to_list. cbn. by rewrite lookup_insert_eq.
      * apply (co_mine _ _ _ _ _ C) in Wi as [L Hm]. rewrite Ef'. cbn. split; [lia|]. apply elem_of_app. by left.
  - exists W. pose proof (open_fails _ _ _ _ Eo) as [Ei En]. split; cbn.
    + intros pid p E. rewrite Ep in E. destruct (Pd pid p E) as (_ & P1 & P2 & P3 & P4).
      destruct (co_pending _ _ _ _ _ C pid p E) as ((c1 & (x & Hx & Ex) & Hc1) & Ew & D & En' & Wi & K).
      unfold holds_with. rewrite P1, P2, P3, P4. split_and!; try done; [exists c1; split; [exists x; by rewrite Ei|done]|by eapply open_keeps].
    + intros gid g p E Hin. apply lookup_alter_Some in E as [(<- & g1 & E & ->)|[_ E]].
      all: destruct (Cs _ _ p E Hin) as (pid & i & (E1 & D & (c1 & (x & Hx & Ex) & Hc) & Wi & K) & N); exists pid, i;
        split_and!; try done; [exists c1; split; [exists x; by rewrite Ei|done]|by eapply open_keeps].
    + intros i pid Wi. apply (co_mine _ _ _ _ _ C) in Wi as [L Hm]. rewrite En. split; [done|]. apply elem_of_app. by left.
Qed.

Lemma contents_more W bs lost mine more s : contents_ok W bs lost mine s -> contents_ok W bs lost (mine ++ more) s.
Proof. intros [Cp Cg Cm]. split; try done. intros i pid Wi. destruct (Cm i pid Wi). split; [done|]. apply elem_of_app. by left. Qed.

Lemma begin_contents W bs lost mine s env pid0 total gid0 gsize name :
  let b := Bd.PasteBegin pid0 total gid0 gsize name in
  let s' := begin_paste maxp maxg sid env pid0 total gid0 gsize name s in
  contents_ok W bs lost mine s -> fits bs b = true -> exists W', contents_ok W' (bs ++ [b]) (lost ++ []) (mine ++ created s') s'.
Proof.
  intros b s' C Fb. unfold s'. rewrite begin_paste_eq.
  assert (Same : forall s1, pending_pastes s1 = pending_pastes s -> fs s1 = fs s -> pending_groups s1 = pending_groups s ->
    exists W', contents_ok W' (bs ++ [b]) (lost ++ []) (mine ++ created s1) s1).
  { intros s1 E1 E2 E3. exists W. apply contents_more, (contents_same W bs lost _ mine s s1 b); try done. rewrite E3. eauto. }
  case_bool_decide; [by apply Same|]. case_bool_decide; [by apply Same|].
  unfold reserve_group. destruct (pending_groups s !! gid0) as [g|] eqn:Eg.
  - destruct (_ >? _).
    + exists W. apply contents_more. pose proof (contents_drop_group W bs lost mine s gid0 C) as Cd. unfold dropped in Cd. rewrite Eg in Cd.
      apply (contents_same W bs lost _ mine _ _ b Cd Fb); try done. eauto.
    + apply (open_contents W bs lost mine s _ env pid0 total gid0 gsize name); try done.
      cbn. intros gid g' p [[<- <-]|[_ E]]%lookup_insert_Some Hin; eauto.
  - case_bool_decide; [by apply Same|]. destruct (_ >? _); [by apply Same|].
    apply (open_contents W bs lost mine s _ env pid0 total gid0 gsize name); try done.
    cbn. intros gid g' p [[<- <-]|[_ E]]%lookup_insert_Some Hin; [by apply elem_of_nil in Hin|eauto].
Qed.

(** An end.  The uploads a complete one finishes its group with. *)
Definition finishes (W : gmap Ino Z) (bs : list Body) (lost : list Z) (f : Fs) (up : Z * Path) : Prop :=
  exists gid ino, finished_upload W bs lost f gid up.2 up.1 ino.

Lemma end_finishes W bs lost mine s pid0 p0 w st :
  contents_ok W bs lost mine s -> pending_pastes s !! pid0 = Some p0 -> pp_written p0 = pp_total_size p0 ->
  let b := Bd.PasteEnd pid0 st in
  finished_upload W (bs ++ [b]) (lost ++ failed_last w b) (settle w p0 (fs s)) (pp_group_id p0) (pp_path p0) pid0 (pp_file p0).
Proof.
  intros C E0 Ew b. destruct (co_pending _ _ _ _ _ C pid0 p0 E0) as ((c & (x & Hx & Ex) & Ec & Eb) & Ew0 & D & _ & Wi & K).
  assert (X : chunk_of pid0 b = [] /\ ends pid0 b = true) by (cbn; by rewrite Z.eqb_refl).
  destruct X as [X1 X2]. unfold finished_upload, holds. rewrite sent_for_snoc, last_chunk_snoc, X1, app_nil_r, has_ended_snoc, X2, orb_true_r, declared_app, D.
  split_and!; try done; [by rewrite <- Ew0, Ew|]. exists (content x ++ reaches w (pp_buf p0)). split; [|split].
  - eexists. rewrite settle_inodes, bool_decide_true, Hx by done. by split.
  - rewrite <- Ec, <- Eb, Ex. destruct w as [|k]; cbn [reaches].
    + exists (length (pp_buf p0)). by rewrite drop_all, app_nil_r.
    + exists k. by rewrite <- app_assoc, take_drop.
  - intros N. rewrite <- Ec, Ex. destruct w as [|k]; [done|]. destruct N. apply elem_of_app. right. cbn. set_solver.
Qed.

(** A step that takes the ended paste out, with the finished uploads [ups] of
    its group; [ctl]: their paths are typed, otherwise their files are removed. *)
Lemma contents_inject W bs lost more mine s s2 (ctl : bool) b pid0 p0 (ups : list (Z * Path)) style :
  contents_ok W bs lost mine s -> fits bs b = true ->
  pending_pastes s !! pid0 = Some p0 -> (forall pid, pid <> pid0 -> chunk_of pid b = [] /\ ends pid b = false) ->
  pending_pastes s2 = delete pid0 (pending_pastes s) -> agrees W (eq pid0) (fs s) (fs s2) ->
  pending_groups s2 = delete (pp_group_id p0) (pending_groups s) ->
  Forall (fun up => exists ino, finished_upload W (bs ++ [b]) (lost ++ more) (fs s2) (pp_group_id p0) up.2 up.1 ino) ups ->
  contents_ok W (bs ++ [b]) (lost ++ more) mine (injected style ctl ups.*2 s2).
Proof.
  intros C Fb E0 Hb Ep A Eg Hups.
  assert (Ei : exists ps, fs (injected style ctl ups.*2 s2) = foldl (fun f q => remove_file q f) (fs s2) ps /\ (ps = [] \/ ps = ups.*2)).
  { destruct ctl; [exists []|exists ups.*2]; cbn; auto. }
  destruct Ei as (ps & Ei & Hps). rewrite Forall_forall in Hups.
  apply (contents_shrink W bs (bs ++ [b]) lost _ mine s _ (fs s2) ps (fun pid => pid = pid0 \/ leaves (bs ++ [b]) (pp_group_id p0) pid)); try done.
  - destruct A as [A1 A2 A3]. split; [done|done|]. intros i pid Wi N. apply (A3 i pid Wi). intros ->. by apply N; left.
  - intros q Hq. destruct Hps as [-> | ->]; [by apply elem_of_nil in Hq|]. apply list_elem_of_fmap in Hq as (up & -> & Hin).
    destruct (Hups up Hin) as (ino & En & D & _ & Wi & K). exists up.1. split; [right; split; [done|by eexists]|]. exists ino. split; [done|].
    unfold kept in *. by rewrite <- (ag_names _ _ _ _ A).
  - assert (Epp : pending_pastes (injected style ctl ups.*2 s2) = delete pid0 (pending_pastes s)) by (by destruct ctl).
    intros pid p. rewrite Epp. intros [N E]%lookup_delete_Some. destruct (Hb pid (not_eq_sym N)) as [Hc He].
    destruct (pending_snoc W bs lost mine s b pid p C E Hc He) as (? & ? & ? & X). split_and!; try done.
    intros [->|[Y _]]; [done|congruence].
  - assert (Egg : pending_groups (injected style ctl ups.*2 s2) = delete (pp_group_id p0) (pending_groups s)) by (by destruct ctl).
    intros gid g p. rewrite Egg. intros [N E]%lookup_delete_Some Hin. destruct (co_groups _ _ _ _ _ C gid g p E Hin) as (pid & ino & F).
    pose proof (finished_distinct W bs lost mine s (fs s) gid p pid ino pid0 p0 C E0 F) as Np.
    apply (finished_snoc W bs lost more b _ gid p pid ino Fb) in F. exists pid, ino. split; [done|]. intros [?|X]; [done|].
    revert X. eapply leaves_group; [done|]. congruence.
Qed.

Lemma group_uploads W bs lost more mine s gid g b pid0 p0 f :
  contents_ok W bs lost mine s -> fits bs b = true -> pending_groups s !! gid = Some g ->
  pending_pastes s !! pid0 = Some p0 -> agrees W (eq pid0) (fs s) f ->
  exists ups : list (Z * Path), ups.*2 = finished g /\
    Forall (fun up => exists ino, finished_upload W (bs ++ [b]) (lost ++ more) f gid up.2 up.1 ino) ups.
Proof.
  intros C Fb Eg E0 A. assert (G : forall ps, (forall p, p ∈ ps -> p ∈ finished g) -> exists ups : list (Z * Path), ups.*2 = ps /\
    Forall (fun up => exists ino, finished_upload W (bs ++ [b]) (lost ++ more) f gid up.2 up.1 ino) ups); [|by apply G].
  induction ps as [|p ps IH]; intros Hin; [by exists []|].
  destruct IH as (ups & <- & F); [intros q Hq; apply Hin; by right|].
  destruct (co_groups _ _ _ _ _ C gid g p Eg (Hin p (list_elem_of_here _ _))) as (pid & ino & Fu).
  pose proof (finished_distinct W bs lost mine s (fs s) gid p pid ino pid0 p0 C E0 Fu) as Np.
  exists ((pid, p) :: ups). split; [done|]. constructor; [|done]. exists ino. eapply finished_agrees; [done|by apply not_eq_sym|]. by apply finished_snoc.
Qed.

(** An upload that joins a group which waits for others. *)
Lemma contents_wait W bs lost more mine s f b pid0 p0 g' :
  contents_ok W bs lost mine s -> fits bs b = true -> pending_pastes s !! pid0 = Some p0 ->
  (forall pid, pid <> pid0 -> chunk_of pid b = [] /\ ends pid b = false) -> agrees W (eq pid0) (fs s) f ->
  (forall p, p ∈ finished g' -> exists pid ino, finished_upload W (bs ++ [b]) (lost ++ more) f (pp_group_id p0) p pid ino) ->
  contents_ok W (bs ++ [b]) (lost ++ more) mine
    (set_groups (set_fs (set_pastes s (delete pid0 (pending_pastes s))) f) (<[pp_group_id p0 := g']> (pending_groups s))).
Proof.
  intros C Fb E0 Oth A G. split; cbn.
  - intros pid p [N E]%lookup_delete_Some. destruct (Oth pid (not_eq_sym N)) as [Hc He].
    destruct (pending_snoc W bs lost mine s b pid p C E Hc He) as (P1 & P2 & P3 & P4).
    destruct (co_pending _ _ _ _ _ C pid p E) as ((c & S & Hc0) & ? & ? & ? & ? & ?). unfold holds_with. rewrite P1, P2, P3, P4.
    split_and!; try done; [|by eapply kept_agrees]. exists c. split; [|done]. by eapply stored_agrees.
  - intros gid g p [[<- <-]|[N E]]%lookup_insert_Some Hin; [by apply G|].
    destruct (co_groups _ _ _ _ _ C gid g p E Hin) as (pid & ino & F). exists pid, ino.
    pose proof (finished_distinct W bs lost mine s (fs s) gid p pid ino pid0 p0 C E0 F) as Np.
    eapply finished_agrees; [done|by apply not_eq_sym|]. by apply finished_snoc.
  - rewrite (ag_next _ _ _ _ A). apply C.
Qed.

(** The staged path of a complete upload. *)
Lemma stage_contents W bs lost mine s w style ctl pid0 p0 status :
  let b := Bd.PasteEnd pid0 status in
  let s' := staged style ctl p0 (set_fs (set_pastes s (delete pid0 (pending_pastes s))) (settle w p0 (fs s))) in
  contents_ok W bs lost mine s -> pending_pastes s !! pid0 = Some p0 -> pp_written p0 = pp_total_size p0 ->
  contents_ok W (bs ++ [b]) (lost ++ failed_last w b) mine s' /\
  (typed s' = typed s \/
   exists ups : list (Z * Path), typed s' = typed s ++ [paste_text style ups.*2] /\ pid0 ∈ ups.*1 /\
     Forall (finishes W (bs ++ [b]) (lost ++ failed_last w b) (fs s')) ups).
Proof.
  intros b s' C E0 Ew. assert (Fb : fits bs b = true) by done. unfold s', staged.
  assert (Oth : forall pid, pid <> pid0 -> chunk_of pid b = [] /\ ends pid b = false).
  { intros pid N. cbn. destruct (Z.eqb_spec pid0 pid); [congruence|done]. }
  pose proof (end_finishes W bs lost mine s pid0 p0 w status C E0 Ew) as F0. cbn zeta in F0.
  destruct (co_pending _ _ _ _ _ C pid0 p0 E0) as (_ & _ & _ & _ & W0 & _).
  pose proof (settle_agrees W (eq pid0) w p0 (fs s) pid0 W0 eq_refl) as A. set (f := settle w p0 (fs s)) in *.
  set (s1 := set_fs _ f). change (pending_groups s1) with (pending_groups s). set (lost' := lost ++ failed_last w b) in *.
  assert (Ty : forall ps s2, typed s2 = typed s -> fs s2 = f -> typed (injected style ctl ps s2) = typed s \/
     ctl = true /\ typed (injected style ctl ps s2) = typed s ++ [paste_text style ps] /\ fs (injected style ctl ps s2) = f).
  { intros ps s2 E Efs. destruct ctl; [right|left]; cbn; by rewrite E. }
  assert (Fin : forall ups : list (Z * Path), Forall (fun up => exists ino, finished_upload W (bs ++ [b]) lost' f (pp_group_id p0) up.2 up.1 ino) ups ->
     Forall (finishes W (bs ++ [b]) lost' f) ups).
  { intros ups F. eapply list.Forall_impl; [exact F|]. intros up (ino & Fi). by eexists _, ino. }
  destruct (pending_groups s !! pp_group_id p0) as [g|] eqn:Eg.
  - destruct (group_uploads W bs lost (failed_last w b) mine s _ g b pid0 p0 f C Fb Eg E0 A) as (ups & Eu & Fu). fold lost' in Fu.
    assert (Fu' : Forall (fun up => exists ino, finished_upload W (bs ++ [b]) lost' f (pp_group_id p0) up.2 up.1 ino) (ups ++ [(pid0, pp_path p0)]))
      by (apply Forall_app; split; [done|]; constructor; [by exists (pp_file p0)|constructor]).
    assert (Eu' : (ups ++ [(pid0, pp_path p0)]).*2 = finished g ++ [pp_path p0]) by (by rewrite fmap_app, Eu).
    destruct (_ >=? _).
    + rewrite <- Eu'. split; [by apply (contents_inject W bs lost _ mine s _ ctl b pid0 p0)|].
      destruct (Ty (ups ++ [(pid0, pp_path p0)]).*2 (set_groups s1 (delete (pp_group_id p0) (pending_groups s))) eq_refl eq_refl) as [E|(-> & E & Ef)]; [by left|right].
      exists (ups ++ [(pid0, pp_path p0)]). split; [done|]. split; [rewrite fmap_app; set_solver|]. rewrite Ef. by apply Fin.
    + split; [|by left]. apply (contents_wait W bs lost _ mine s f b pid0 p0 _ C Fb E0 Oth A). intros p Hin. cbn in Hin.
      rewrite <- Eu' in Hin. apply list_elem_of_fmap in Hin as (up & -> & Hin). rewrite Forall_forall in Fu'.
      destruct (Fu' up Hin) as (ino & F). eauto.
  - split.
    + apply (contents_inject W bs lost _ mine s s1 ctl b pid0 p0 [(pid0, pp_path p0)]); try done.
      * symmetry. by apply delete_id.
      * constructor; [by exists (pp_file p0)|constructor].
    + destruct (Ty [pp_path p0] s1 eq_refl eq_refl) as [E|(-> & E & Ef)]; [by left|right].
      exists [(pid0, pp_path p0)]. split; [done|]. split; [set_solver|]. rewrite Ef. apply Fin. constructor; [by exists (pp_file p0)|constructor].
Qed.

Lemma end_contents W bs lost mine s w style ctl pid0 status :
  let b := Bd.PasteEnd pid0 status in
  let s' := end_paste sid w style ctl pid0 status s in
  contents_ok W bs lost mine s -> contents_ok W (bs ++ [b]) (lost ++ failed_last w b) mine s' /\
  (typed s' = typed s \/
   exists ups : list (Z * Path), typed s' = typed s ++ [paste_text style ups.*2] /\ pid0 ∈ ups.*1 /\
     Forall (finishes W (bs ++ [b]) (lost ++ failed_last w b) (fs s')) ups).
Proof.
  intros b s' C. assert (Fb : fits bs b = true) by done. unfold s'. rewrite end_paste_eq.
  assert (Oth : forall pid, pid <> pid0 -> chunk_of pid b = [] /\ ends pid b = false).
  { intros pid N. cbn. destruct (Z.eqb_spec pid0 pid); [congruence|done]. }
  destruct (pending_pastes s !! pid0) as [p0|] eqn:E0.
  2: { split; [|by left]. apply (contents_same W bs lost _ mine s s); try done; [|eauto]. intros pid p E. apply Oth. congruence. }
  cbn zeta. set (s1 := set_pastes s (delete pid0 (pending_pastes s))).
  destruct (status =? PASTE_STATUS_CANCEL).
  { split; [by apply contents_drop_group, (contents_cancel W bs lost _ mine s _ (fs s) b pid0 p0)|left; exact (proj2 (dropped_frames _ _))]. }
  destruct (pp_written p0 =? pp_total_size p0) eqn:Ew; cbn [negb].
  2: { split; [by apply contents_drop_group, (contents_cancel W bs lost _ mine s _ (fs s) b pid0 p0)|].
       left. set (s2 := send_paste_reject _ _ _ _). exact (proj2 (dropped_frames _ s2)). }
  bool_to_prop. exact (stage_contents W bs lost mine s w style ctl pid0 p0 status C E0 Ew).
Qed.
End Steps.

(** ** Whole histories *)

Section History.
Variables (maxp maxg : nat) (sid : Z) (f0 : Fs).

Lemma contents_start : contents_ok ∅ [] [] [] (PasteFacts.start f0).
Proof. by split. Qed.

Lemma contents_flush W bs lost mine s s' :
  contents_ok W bs lost mine s -> pending_pastes s' = pending_pastes s -> pending_groups s' = pending_groups s -> fs s' = fs s ->
  contents_ok W bs lost mine s'.
Proof. intros [Cp Cg Cm] Ep Eg Ef. split; rewrite ?Ep, ?Eg, ?Ef; done. Qed.

Lemma contents_others W bs lost mine s f' : contents_ok W bs lost mine s -> others_may mine (fs s) f' -> contents_ok W bs lost mine (set_fs s f').
Proof.
  intros [Cp Cg Cm] [On Oi Om].
  assert (S : forall i pid c, W !! i = Some pid -> stored_at (fs s) i c -> stored_at f' i c).
  { intros i pid c Wi (x & Hx & Ex). exists x. rewrite Oi; [done|]. by eapply Cm. }
  assert (K : forall i pid p, W !! i = Some pid -> kept (fs s) p i -> kept f' p i).
  { intros i pid p Wi [T|N]; [by left|]. apply Om; [by eapply Cm|done]. }
  split; cbn.
  - intros pid p E. destruct (Cp pid p E) as ((c & Sc & Hc) & ? & ? & ? & Wi & ?). split_and!; eauto. exists c. eauto.
  - intros gid g p E Hin. destruct (Cg gid g p E Hin) as (pid & ino & E1 & D & (c & St & Hc) & Wi & Kp). exists pid, ino. split_and!; eauto.
  - intros i pid Wi. destruct (Cm i pid Wi). split; [lia|done].
Qed.

Lemma upload_run_ok bs lost mine s : upload_run maxp maxg sid f0 bs lost mine s -> orderly bs = true -> exists W, contents_ok W bs lost mine s.
Proof.
  induction 1 as [|bs lost mine s o R IH|bs lost mine s s' b R IH Hb Ep Eg Ef|bs lost mine s s' R IH Ep Eg Ef|bs lost mine s f' R IH Om]; intros O.
  - exists ∅. apply contents_start.
  - rewrite orderly_snoc in O. apply andb_prop in O as [O Fb]. destruct (IH O) as [W C].
    destruct o as [env pid total gid gsize name|w pid c|w style ctl pid st]; cbn [apply_op op_body op_write] in *.
    + by eapply begin_contents.
    + exists W. replace (failed_last w (Bd.PasteChunk pid c)) with (@nil Z) by (by destruct w). by apply contents_more, chunk_contents.
    + exists W. apply contents_more. by apply end_contents.
  - rewrite orderly_snoc in O. apply andb_prop in O as [O Fb]. destruct (IH O) as [W C]. exists W. rewrite <- (app_nil_r lost).
    apply (contents_same W bs lost [] mine s s' b C Fb); [|done|done|rewrite Eg; eauto]. intros pid p _. by destruct b.
  - destruct (IH O) as [W C]. exists W. by apply (contents_flush W bs lost mine s).
  - destruct (IH O) as [W C]. exists W. by apply contents_others.
Qed.

(** The contents under a name. *)
Definition file_at (f : Fs) (p : Path) : option (list byte) := names f !! p ≫= fun i => content <$> inodes f !! i.

(** [up] is an upload that arrived: its end was sent, its chunks are as many
    bytes as it announced, and they are what its file holds, but for an end of
    the last chunk when its write failed (unless the name is one of the
    temporary ones, which the sweep may take away). *)
Definition arrived (bs : list Body) (lost : list Z) (f : Fs) (up : Z * Path) : Prop :=
  has_ended up.1 bs = true /\ (exists gid, declared up.1 bs = Some (len (sent_for up.1 bs), gid)) /\
  (temp_path up.2 \/ exists c, file_at f up.2 = Some c /\ holds bs lost up.1 c).

Lemma finishes_arrived W bs lost f up : finishes W bs lost f up -> arrived bs lost f up.
Proof.
  intros (gid & ino & E & D & (c & (x & Hx & Ex) & H) & _ & K). split; [done|]. split; [by exists gid|].
  destruct K as [T|N]; [by left|right]. exists c. split; [|done]. unfold file_at. rewrite N. cbn. by rewrite Hx, <- Ex.
Qed.

(** Whatever is typed for an end is the paths of uploads that arrived, the one
    that ended among them. *)
Lemma typed_uploads_arrived bs lost mine s w style ctl pid status :
  upload_run maxp maxg sid f0 bs lost mine s -> orderly bs = true ->
  let b := Bd.PasteEnd pid status in
  let s' := end_paste sid w style ctl pid status s in
  typed s' = typed s \/
  exists ups : list (Z * Path), typed s' = typed s ++ [paste_text style ups.*2] /\ pid ∈ ups.*1 /\
    Forall (arrived (bs ++ [b]) (lost ++ failed_last w b) (fs s')) ups.
Proof.
  intros R O b s'. destruct (upload_run_ok bs lost mine s R O) as [W C].
  destruct (end_contents sid W bs lost mine s w style ctl pid status C) as [_ [E|(ups & E & Hin & F)]]; [by left|right].
  exists ups. split; [done|]. split; [done|]. eapply list.Forall_impl; [exact F|]. intros up. apply finishes_arrived.
Qed.
End History.
