(* ===== verification/StreamTaskFacts.v ===== *)
(** * StreamTaskFacts: what one stream's task does for its browser *)

From Stdlib Require Import Strings.Byte.
From stdpp Require Import prelude strings list gmap.
From S2P Require Import Prelude Utf8 Std Tokio Frame FrameFacts Transport Wire Session SessionFacts DownloadFacts Paste PasteFinal PasteFacts StreamTask UploadFacts UploadWaits.

(** ** Chunks *)

Lemma chunks_fuel_spec {A} fuel n (l : list A) :
  (0 < n)%nat -> (length l <= fuel)%nat ->
  concat (chunks_fuel fuel n l) = l /\ Forall (fun c => (length c <= n)%nat) (chunks_fuel fuel n l).
Proof.
  intros Hn. revert l. induction fuel as [|k IH]; intros [|a l] Hl; try (by split; [|constructor]).
  { cbn in Hl. lia. }
  cbn [chunks_fuel concat]. destruct (IH (drop n (a :: l))) as [E F].
  { rewrite length_drop. cbn in *. lia. }
  split; [by rewrite E, take_drop|]. constructor; [|done]. rewrite length_take. lia.
Qed.

Lemma concat_chunks {A} n (l : list A) : (0 < n)%nat -> concat (chunks n l) = l.
Proof. intros. by apply chunks_fuel_spec. Qed.
Lemma chunks_small {A} n (l : list A) : (0 < n)%nat -> Forall (fun c => (length c <= n)%nat) (chunks n l).
Proof. intros. by apply chunks_fuel_spec. Qed.

(** ** What the browser's terminal is fed *)

Lemma data_cap_pos : (0 < Z.to_nat MAX_DATA_LEN)%nat.
Proof. unfold MAX_DATA_LEN. lia. Qed.

Lemma shown_data sid (cs : list (list byte)) : shown ((fun c => data sid c) <$> cs) = concat cs.
Proof. induction cs as [|c cs IH]; [done|]. unfold shown in *. cbn in *. by rewrite IH. Qed.

Lemma shown_data_frames sid l : shown (data_frames sid l) = l.
Proof. unfold data_frames. rewrite shown_data. apply concat_chunks, data_cap_pos. Qed.

(** The writer was handed a prefix of [bytes], all of it while it accepts. *)
Record fed (bytes : list byte) (o : Out) : Prop := {
  fed_prefix : shown (sent o) `prefix_of` bytes;
  fed_all : (0 < accepts o)%nat -> shown (sent o) = bytes;
}.

Lemma put_fed bytes f o : fed bytes o -> fed (bytes ++ data_bytes (body f)) (put f o).1.
Proof.
  intros [P A]. unfold put. destruct (accepts o) as [|n] eqn:En; cbn [fst].
  - split; [by apply prefix_app_r|lia].
  - assert (E : shown (sent o ++ [f]) = bytes ++ data_bytes (body f)).
    { rewrite shown_app, A by lia. unfold shown. cbn. by rewrite app_nil_r. }
    split; cbn [sent accepts]; by rewrite E.
Qed.

Lemma put_all_fed fs bytes o : fed bytes o -> fed (bytes ++ shown fs) (put_all fs o).1.
Proof.
  revert bytes o. induction fs as [|f fs IH]; intros bytes o F; cbn [put_all].
  { by rewrite app_nil_r. }
  pose proof (put_fed bytes f o F) as F'. change (shown (f :: fs)) with (data_bytes (body f) ++ shown fs).
  rewrite app_assoc. destruct (put f o) as [o' [|]] eqn:Ep; cbn [fst] in *; [by apply IH|].
  unfold put in Ep. destruct (accepts o) eqn:Ea; [|done]. injection Ep as <-. destruct F' as [P A].
  split; [by apply prefix_app_r|lia].
Qed.

Lemma put_quiet bytes f o : data_bytes (body f) = [] -> fed bytes o -> fed bytes (put f o).1.
Proof. intros E F. apply (put_fed _ f) in F. by rewrite E, app_nil_r in F. Qed.

Lemma put_ignore_quiet bytes fs o :
  Forall (fun f => data_bytes (body f) = []) fs -> fed bytes o -> fed bytes (put_ignore fs o).
Proof.
  intros Hq. revert o. induction Hq as [|f fs Hf _ IH]; intros o F; [done|].
  cbn [put_ignore foldl]. apply IH. by apply put_quiet.
Qed.

Lemma put_accepts f o : (put f o).2 = false -> accepts (put f o).1 = 0%nat.
Proof. unfold put. by destruct (accepts o) eqn:E. Qed.
Lemma put_all_accepts fs o : (put_all fs o).2 = false -> accepts (put_all fs o).1 = 0%nat.
Proof.
  revert o. induction fs as [|f fs IH]; intros o; [done|]. cbn [put_all].
  pose proof (put_accepts f o) as P. destruct (put f o) as [o' [|]]; [apply IH|by apply P].
Qed.

(** What one outbound event adds to the terminal. *)
Definition out_data (e : OutEvent) : list byte :=
  match e with OEvent ev _ => data_of [ev] | _ => [] end.

Lemma outbound_fed sid e bytes o : fed bytes o -> fed (bytes ++ out_data e) (outbound sid e o).1.
Proof.
  intros F. destruct e as [[b|c|] ready| |e| |]; cbn [outbound out_data fst]; unfold data_of; cbn [List.map concat app];
    rewrite ?app_nil_r; try done.
  - pose proof (put_all_fed (data_frames sid b) bytes o F) as P. by rewrite shown_data_frames in P.
  - by apply put_quiet.
  - apply put_ignore_quiet; [|done]. apply Forall_app. split; [|by repeat constructor].
    apply Forall_fmap, Forall_true. by intros [].
  - apply put_quiet; [by destruct e|done].
Qed.

Lemma outbound_stops sid e o : (outbound sid e o).2 = false ->
  e = OClosed \/ (exists r, e = OEvent SE.Closed r) \/ accepts (outbound sid e o).1 = 0%nat.
Proof.
  destruct e as [[b|c|] ready| |e| |]; cbn [outbound]; intros E; eauto; try done;
    right; right; first [by apply put_all_accepts|by apply put_accepts].
Qed.

(** The frames of an event, and an iteration that is dropped between them. *)
Lemma out_frames_data sid e : shown (out_frames sid e) = out_data e.
Proof.
  destruct e as [[b|c|] ready| |e| |]; cbn [out_frames out_data]; try done.
  - rewrite shown_data_frames. unfold data_of. cbn. by rewrite app_nil_r.
  - unfold shown. rewrite map_app, concat_app. cbn. rewrite app_nil_r. induction ready as [|[] ready IH]; [done|..]; exact IH.
  - by destruct e.
Qed.
Lemma shown_take k fs : shown (take k fs) `prefix_of` shown fs.
Proof. rewrite <- (take_drop k fs) at 2. rewrite shown_app. by apply prefix_app_r. Qed.
Lemma outbound_cut_fed sid e k bytes o : fed bytes o -> shown (sent (outbound_cut sid e k o)) `prefix_of` bytes ++ out_data e.
Proof.
  intros F. apply (put_all_fed (take k (out_frames sid e))) in F as [P _]. etrans; [exact P|].
  apply prefix_app. etrans; [apply shown_take|]. by rewrite out_frames_data.
Qed.

(** ** The session under the task *)

Section Facts.
Context {Ch Rx : Type} `{BroadcastLaws SessionEvent Ch Rx}.
Variables max_pastes max_groups : nat.
Variable style : PasteStyle.
Variable sid : Z.
Abbreviation step := (task_step max_pastes max_groups style sid).
Abbreviation run := (run_task max_pastes max_groups style sid).

(** The steps of the session that a step of the task amounts to. *)
Definition session_steps (t t' : Task Ch) : Prop := exists es, world t' = Session.run es (world t).

Lemma typing_steps now alive texts (t : Task Ch) :
  let t' := foldl (fun t text => ask now (RInternal text alive) t) t texts in
  session_steps t t' /\ out t' = out t /\ uploads t' = uploads t /\ running t' = running t.
Proof.
  cbn zeta. revert t. induction texts as [|x texts IH]; intros t; [split; [by exists []|done]|].
  cbn [foldl]. destruct (IH (ask now (RInternal x alive) t)) as ((es & E) & -> & -> & ->). split; [|done].
  by exists (Serve now (RInternal x alive) :: es).
Qed.

Lemma commit_spec now alive u (t : Task Ch) :
  let t' := commit now alive u t in
  session_steps t t' /\ out t' = put_ignore (frames u) (out t) /\ uploads t' = blank u /\ running t' = running t.
Proof. cbn zeta. unfold commit. match goal with |- context [foldl _ ?x ?l] => apply (typing_steps now alive l x) end. Qed.

Lemma run_paste_done now alive h (t : Task Ch) : (run_paste now alive h t).2 = commit now alive (final h (blank (uploads t))) t.
Proof. unfold run_paste, final. by destruct (h _). Qed.
Lemma run_paste_waits now alive h (t : Task Ch) :
  (run_paste now alive h t).1 = (fun u => commit now alive u t) <$> (h (blank (uploads t))).1.
Proof. unfold run_paste. by destruct (h _). Qed.

Lemma ask_steps now r (t : Task Ch) : session_steps t (ask now r t).
Proof. by exists [Serve now r]. Qed.
Lemma same_steps (t t' : Task Ch) : world t' = world t -> session_steps t t'.
Proof. intros E. by exists []. Qed.

(** What the uploads can be while a paste handler is at work on [b], and once
    it is [done]. *)
Record paste_at (env : InEnv) (b : Body) (t : Task Ch) (done : bool) (pid : Z) (u : PasteState) : Prop := {
  pa_rejects : rejects sid pid (frames u);
  pa_typed : in_control sid t = false \/ done = false -> typed u = [];
  pa_id : body_typed b -> u32 pid;
  pa_keeps : keeps (at_risk (ie_open env) (uploads t) b) (blank (uploads t)) u;
  pa_covered : done = true -> forall K, covered style K (blank (uploads t)) -> covered style K u;
}.

(** What the inbound loop makes of the task with a body: a request to the
    session, a paste handler, or nothing but perhaps the end. *)
Inductive inbound_case (env : InEnv) (b : Body) (t : Task Ch) (done : bool) : Task Ch -> Prop :=
| ic_ask r : done = true -> inbound_case env b t done (ask (ie_now env) r t)
| ic_paste pid u : paste_at env b t done pid u -> inbound_case env b t done (commit (ie_now env) (ie_alive env) u t)
| ic_stop t' : t' = t \/ t' = stop t -> inbound_case env b t done t'.

Lemma paste_case env b (t : Task Ch) pid ctl (h : Handler) :
  handled style sid pid ctl (blank (uploads t)) (final h (blank (uploads t))) -> (ctl = true -> in_control sid t = true) -> (body_typed b -> u32 pid) ->
  waiting sid pid (at_risk (ie_open env) (blank (uploads t)) b) h (blank (uploads t)) /\
  keeps (at_risk (ie_open env) (blank (uploads t)) b) (blank (uploads t)) (final h (blank (uploads t))) ->
  let r := run_paste (ie_now env) (ie_alive env) h t in
  inbound_case env b t true r.2 /\ Forall (inbound_case env b t false) r.1.
Proof.
  intros [Hc Hf Ht] Hctl Hp [W K]. cbn zeta. rewrite run_paste_done, run_paste_waits. split.
  - apply (ic_paste _ _ _ _ pid). split; [by apply Hf| |done|exact K|done]. intros [E|?]; [|done]. apply Ht. destruct ctl; [|done]. rewrite Hctl in E; done.
  - apply Forall_fmap. eapply Forall_impl; [exact W|]. intros u [Ku [Tu (fs' & Eu & Ru)]]. apply (ic_paste _ _ _ _ pid).
    split; [by rewrite Eu|by intros _|done|exact Ku|done].
Qed.

Lemma inbound_cases env b (t : Task Ch) :
  let r := inbound max_pastes max_groups style sid env b t in
  inbound_case env b t true r.2 /\ Forall (inbound_case env b t false) r.1.
Proof.
  cbn zeta. assert (Same : Forall (inbound_case env b t false) [t]) by (constructor; [apply ic_stop; by left|constructor]).
  destruct b; cbn [inbound asking fst snd]; try (split; [by apply ic_ask|done]); try (split; [apply ic_stop; by auto|constructor]).
  - set (x := if in_control sid t then _ else _). set (b := Bd.PasteBegin paste_id total_size group_id group_size name) in *.
    assert (G : inbound_case env b t true x.2 /\ Forall (inbound_case env b t false) x.1).
    + unfold x. destruct (in_control sid t) eqn:Ec.
      * apply (paste_case env _ t paste_id false); [by apply begin_handled|done|by intros (? & _)|by apply waiting_begin].
      * apply (paste_case env _ t paste_id false); [by apply reject_handled|done|by intros (? & _)|].
        split; [by apply waiting_reject|]. by apply (still_reject sid paste_id _ PASTE_REJECT_NOT_CONTROLLER).
    + destruct x as [l t']. destruct G as [G1 G2]. split; [done|]. by constructor; [apply ic_stop; left|].
  - apply (paste_case env _ t paste_id false); [by apply chunk_handled|done|by intros ?|apply (waiting_chunk sid (ie_open env))].
  - apply (paste_case env _ t paste_id (in_control sid t)); [by apply end_handled|done|by intros (? & _)|apply (waiting_end sid (ie_open env))].
Qed.

(** A body that is dropped on the way. *)
Lemma cut_case env b k (t : Task Ch) :
  exists done, inbound_case env b t done (cut_at k (inbound max_pastes max_groups style sid env b t)).
Proof.
  destruct (inbound_cases env b t) as [D W]. unfold cut_at. destruct (_ !! k) as [t'|] eqn:E; [|by exists true].
  exists false. by eapply Forall_lookup_1.
Qed.

Lemma case_steps env b d (t t' : Task Ch) : inbound_case env b t d t' -> session_steps t t'.
Proof. intros [r _|pid u _|t'' [->| ->]]; [apply ask_steps|apply commit_spec|by apply same_steps..]. Qed.

Lemma step_steps e (t : Task Ch) : session_steps t (step t e).
Proof.
  destruct e as [env b| |e|e|env b k|e k]; cbn [task_step]; try (destruct (running t); [|by apply same_steps]).
  - eapply case_steps, inbound_cases.
  - by apply same_steps.
  - destruct (outbound sid e (out t)) as [o []]; by apply same_steps.
  - by exists [e].
  - destruct (cut_case env b k t) as [d C]. exact (case_steps _ _ _ _ _ C).
  - by apply same_steps.
Qed.

Lemma run_steps es (t : Task Ch) : session_steps t (run es t).
Proof.
  revert t. induction es as [|e es IH]; intros t; [by exists []|].
  destruct (step_steps e t) as [l1 E1]. destruct (IH (step t e)) as [l2 E2]. exists (l1 ++ l2).
  cbn [run_task foldl]. fold (run es (step t e)). rewrite E2, E1. unfold Session.run. by rewrite foldl_app.
Qed.

(** ** The output of the session, on the stream *)

(** What its receiver has handed to the task: events, and the notice that it
    has lagged; the events alone. *)
Definition out_event (e : TaskEvent) : option OutEvent :=
  match e with TOutbound e | TOutCut e _ => Some e | _ => None end.
Definition yield (e : OutEvent) : option (option SessionEvent) :=
  match e with OEvent ev _ => Some (Some ev) | OLagged => Some None | _ => None end.
Definition yields (es : list TaskEvent) : list (option SessionEvent) := omap yield (omap out_event es).
Definition yielded (es : list TaskEvent) : list SessionEvent := omap id (yields es).

(** The terminal of this browser was fed a prefix of [bytes], all of it while the
    task runs and its writer accepts. *)
Record feeding (bytes : list byte) (t : Task Ch) : Prop := {
  fe_prefix : shown (sent (out t)) `prefix_of` bytes;
  fe_all : running t = true -> (0 < accepts (out t))%nat -> shown (sent (out t)) = bytes;
}.

Lemma feeding_fed bytes t : running t = true -> feeding bytes t <-> fed bytes (out t).
Proof. intros R. split; [intros [P A]; split; auto|intros [P A]; by split]. Qed.

Lemma stop_feeding bytes more t : feeding bytes t -> feeding (bytes ++ more) (stop t).
Proof. intros [P A]. split; [by apply prefix_app_r|done]. Qed.

Lemma feeding_case env b d bytes (t t' : Task Ch) :
  running t = true -> feeding bytes t -> inbound_case env b t d t' -> feeding bytes t'.
Proof.
  intros R F [r _|pid u U|t'' [->| ->]]; [| |done|].
  - by destruct F as [P A].
  - destruct (commit_spec (ie_now env) (ie_alive env) u t) as (_ & Eo & _ & Er). apply feeding_fed; [by rewrite Er|].
    rewrite Eo. apply feeding_fed in F; [|done]. apply put_ignore_quiet; [|done].
    eapply Forall_impl; [apply (pa_rejects _ _ _ _ _ _ U)|]. by intros f (? & -> & _).
  - rewrite <- (app_nil_r bytes). by apply stop_feeding.
Qed.

Lemma yielded_out e : data_of (yielded [e]) = default [] (out_data <$> out_event e).
Proof. by destruct e as [| |[]| | |[]]. Qed.

Lemma feeding_step e bytes (t : Task Ch) :
  feeding bytes t -> feeding (bytes ++ data_of (yielded [e])) (step t e).
Proof.
  intros F. rewrite yielded_out.
  destruct e as [env b| |e|e|env b k|e k]; cbn [task_step out_event fmap option_fmap option_map default]; rewrite ?app_nil_r.
  - destruct (running t) eqn:R; [|done]. eapply feeding_case; [done|done|apply inbound_cases].
  - rewrite <- (app_nil_r bytes). by apply stop_feeding.
  - destruct (running t) eqn:R; [|destruct F as [P A]; split; [by apply prefix_app_r|congruence]].
    apply feeding_fed in F; [|done]. apply (outbound_fed sid e) in F.
    destruct (outbound sid e (out t)) as [o []]; cbn [fst] in F; [by apply feeding_fed|].
    destruct F as [P _]. by split.
  - by destruct F as [P A].
  - destruct (running t) eqn:R; [|done]. rewrite <- (app_nil_r bytes). apply stop_feeding.
    destruct (cut_case env b k t) as [d C]. by eapply feeding_case.
  - destruct (running t) eqn:R; [|destruct F as [P A]; split; [by apply prefix_app_r|congruence]].
    apply feeding_fed in F; [|done]. split; [by apply outbound_cut_fed|done].
Qed.

Lemma feeding_run es bytes (t : Task Ch) :
  feeding bytes t -> feeding (bytes ++ data_of (yielded es)) (run es t).
Proof.
  revert bytes t. induction es as [|e es IH]; intros bytes t F; [by rewrite app_nil_r|].
  cbn [run_task foldl]. fold (run es (step t e)).
  replace (data_of (yielded (e :: es))) with (data_of (yielded [e]) ++ data_of (yielded es)).
  - rewrite app_assoc. by apply IH, feeding_step.
  - rewrite <- data_of_app. f_equal. unfold yielded, yields. rewrite <- omap_app. f_equal. cbn.
    destruct (out_event e) as [o|]; [|done]. cbn. by destruct (yield o).
Qed.

Lemma attach_feeding now sz (t : Task Ch) :
  running t = true -> sent (out t) = [] ->
  feeding (replay (attach_locked now sid sz (sess (world t))).1.2) (attach_task sid now sz t).1.
Proof.
  intros R E. unfold attach_task. destruct (attach_locked now sid sz (sess (world t))) as [[s r] es]. cbn [fst snd].
  apply feeding_fed; [done|]. cbn [out]. apply put_quiet; [done|].
  replace (replay r) with (shown (data_frames sid (replay r))) at 1 by apply shown_data_frames.
  apply (put_all_fed _ []). split; rewrite E; done.
Qed.

(** The receiver of an attach, whatever happens to the session afterwards. *)
Lemma attach_world now sz (t : Task Ch) :
  world (attach_task sid now sz t).1 = Session.step (Serve now (RAttach sid sz)) (world t) /\
  (attach_task sid now sz t).2 = event_rx (attach_locked now sid sz (sess (world t))).1.2 /\
  uploads (attach_task sid now sz t).1 = uploads t /\ running (attach_task sid now sz t).1 = running t.
Proof. unfold attach_task. cbn [Session.step serve]. by destruct (attach_locked now sid sz (sess (world t))) as [[s r] es]. Qed.

Lemma start_follows now0 sz0 cap c0 before now sz f acc es :
  let w := Session.run before (mk_world (spawn now0 sz0 cap c0) []) in
  let t0 := (start_task sid now sz w f acc).1 in
  let rx := (start_task sid now sz w f acc).2 in
  follows (length (output (sess w))) rx (sess (world (run es t0))) /\
  replay (attach_locked now sid sz (sess w)).1.2 = last_n cap (output (sess w)) /\
  exists more, output (sess (world (run es t0))) = output (sess w) ++ more.
Proof.
  intros w t0 rx. destruct (attach_world now sz (mk_task w (mk_state ∅ ∅ f [] []) (mk_out [] acc) true)) as (Ew & Erx & _ & _).
  fold (start_task sid now sz w f acc) in Ew, Erx. fold t0 in Ew. fold rx in Erx. cbn [world] in Ew, Erx.
  pose proof (attach_follows now sid sz (sess w)) as A. pose proof (serve_quiet now (RAttach sid sz) (sess w)) as Q.
  pose proof (attach_output now sid sz (sess w)) as O. cbn [Session.step serve] in Ew, Q.
  destruct (attach_locked now sid sz (sess w)) as [[s r] eff]. cbn [fst snd] in *.
  destruct A as [A Er]. subst rx. rewrite Erx. destruct (run_steps es t0) as [es' ->].
  split; [|split].
  - rewrite Ew. apply run_follows; [exact A|]. cbn. apply Forall_app_2; [|by constructor].
    apply run_quiet. constructor.
  - rewrite Er. apply (inv_ring _ _ (run_inv cap before (mk_world (spawn now0 sz0 cap c0) []) (spawn_inv _ _ _ _))).
  - destruct (run_output es' (world t0)) as [more E]. exists more. rewrite E, Ew. cbn. by rewrite O.
Qed.
End Facts.

(** ** Properties *)

Lemma data_of_each evs : data_of evs = concat ((fun e => data_of [e]) <$> evs).
Proof. induction evs as [|e evs IH]; [done|]. cbn [fmap list_fmap concat]. by rewrite <- IH, <- data_of_app. Qed.

(** What a browser's terminal shows, end to end on the agent: whatever has
    happened to the session before a stream attaches, whatever the other
    streams and the shell do afterwards, and however the task's own steps fall
    in between, the bytes of the Data frames it sends are the session's output
    from [scrollback_cap] bytes before the attach onwards, up to some point,
    with one gap at most for each time its receiver has lagged (which it cannot
    while no more than [BROADCAST_CAP] events were sent); and while the task
    runs and the writer accepts, once every event was yielded, they are all of
    it. *)
Lemma viewer_output (Ch Rx : Type) `{BroadcastLaws SessionEvent Ch Rx} maxp maxg style sid
    now0 sz0 cap c0 before now sz f acc es :
  let w := Session.run before (mk_world (spawn now0 sz0 cap c0) []) in
  let '(t0, rx) := start_task sid now sz w f acc in
  let t := run_task maxp maxg style sid es t0 in
  let s := sess (world t) in
  let from := (length (output (sess w)) - cap)%nat in
  hands_out BROADCAST_CAP (yields es) (delivered (broadcast_tx s) rx) ->
  gappy (lag_count (yields es)) (shown (sent (out t))) (drop from (output s)) /\
  ((length (delivered (broadcast_tx s) rx) <= BROADCAST_CAP)%nat -> lag_count (yields es) = 0%nat) /\
  (running t = true -> (0 < accepts (out t))%nat -> yields es = Some <$> delivered (broadcast_tx s) rx ->
   shown (sent (out t)) = drop from (output s)).
Proof.
  cbn zeta. set (w := Session.run before _).
  destruct (start_follows maxp maxg style sid now0 sz0 cap c0 before now sz f acc es) as ((_ & L & D) & Er & more & Eo).
  fold w in L, D, Er, Eo. pose proof (attach_feeding sid now sz (mk_task w (mk_state ∅ ∅ f [] []) (mk_out [] acc) true) eq_refl eq_refl) as F.
  fold (start_task sid now sz w f acc) in F. cbn [world] in F. rewrite Er in F.
  destruct (start_task sid now sz w f acc) as [t0 rx]. cbn [fst snd] in *.
  apply (feeding_run maxp maxg style sid es) in F as [P A]. intros Y.
  assert (B : last_n cap (output (sess w)) ++ data_of (delivered (broadcast_tx (sess (world (run_task maxp maxg style sid es t0)))) rx)
              = drop (length (output (sess w)) - cap) (output (sess (world (run_task maxp maxg style sid es t0))))).
  { rewrite D, Eo. unfold last_n. by rewrite drop_app_length, drop_app_le by lia. }
  rewrite <- B. split; [|split].
  - eapply gappy_shorter; [exact P|]. apply gappy_keep. rewrite !data_of_each. by eapply hands_out_gappy.
  - by apply hands_out_small.
  - intros R Ha E. rewrite A by done. unfold yielded. rewrite E. do 2 f_equal.
    clear. induction (delivered _ _) as [|e l IH]; [done|]. cbn. by f_equal.
Qed.


(** A second viewer attaches behind four bytes of output with a ring of three. *)
Definition viewer_env : InEnv := mk_in_env 6 true (mk_open_env None [] (fun _ => false) 0 0) Written true.
Definition viewer_events : list TaskEvent :=
  [TOther (Serve 5 (ROutput (lit "xy"))); TOutbound (OEvent (SE.Data (lit "xy")) []); TInbound viewer_env (Bd.Data (lit "ls"))].
Definition viewer_before : list Session.Event :=
  [Serve 0 (RAttach 1 (24, 80)); Perform 0; Serve 1 (ROutput (lit "abcd"))].

Lemma viewer_output_witness :
  let w := Session.run viewer_before (mk_world (spawn 0 (24, 80) 3 ([] : list SessionEvent)) []) in
  let t := run_task 32 32 Bracketed 2 viewer_events (start_task 2 4 (10, 10) w (mk_fs ∅ ∅ 0) 100).1 in
  shown (sent (out t)) = lit "bcdxy" /\ gappy 0 (shown (sent (out t))) (drop 1 (output (sess (world t)))).
Proof.
  split; [vm_compute; reflexivity|].
  pose proof (viewer_output (list SessionEvent) nat 32 32 Bracketed 2 0 (24, 80) 3 [] viewer_before 4 (10, 10)
    (mk_fs ∅ ∅ 0) 100 viewer_events) as W. cbn zeta in W.
  refine (proj1 (W _)). apply hands_out_item, hands_out_none.
Defined.

(** A receiver that lags: behind 1025 blocks of one byte it misses the first. *)
Definition lagging_events : list TaskEvent :=
  ((fun i => TOther (Serve 5 (ROutput [byte_of (65 + Z.of_nat i)]))) <$> seq 0 1025)
  ++ [TOutbound OLagged; TOutbound (OEvent (SE.Data (lit "B")) [])].
Lemma lagging_viewer :
  let t0 := start_task (Rx:=nat) 2 4 (10, 10) (mk_world (spawn 0 (24, 80) 3 ([] : list SessionEvent)) []) (mk_fs ∅ ∅ 0) 100 in
  let t := run_task 32 32 Bracketed 2 lagging_events t0.1 in
  hands_out BROADCAST_CAP (yields lagging_events) (delivered (broadcast_tx (sess (world t))) t0.2) /\
  shown (sent (out t)) = lit "B" /\ take 2 (output (sess (world t))) = lit "AB".
Proof.
  cbn zeta. split; [|by vm_compute]. change (yields lagging_events) with [None; Some (SE.Data (lit "B"))].
  apply (hands_out_lagged _ 1); [lia|by vm_compute; repeat constructor|].
  set (l := drop 1 _). assert (E : l = SE.Data (lit "B") :: drop 1 l) by (by vm_compute). rewrite E.
  apply hands_out_item, hands_out_none.
Qed.
