(* ===== verification/StreamSafety.v ===== *)
(** * StreamSafety: what one stream's task leaves behind, and what it may do *)

From Stdlib Require Import Strings.Byte.
From stdpp Require Import prelude strings list gmap.
From S2P Require Import Prelude Utf8 Std Tokio Frame FrameFacts Transport Wire Session SessionFacts DownloadFacts Paste PasteFinal PasteFacts StreamTask UploadFacts UploadWaits StreamTaskFacts.

Section Safety.
Context {Ch Rx : Type} `{BroadcastLaws SessionEvent Ch Rx}.
Variables max_pastes max_groups : nat.
Variable style : PasteStyle.
Variable sid : Z.
Abbreviation step := (task_step max_pastes max_groups style sid).
Abbreviation run := (run_task max_pastes max_groups style sid).
Abbreviation input_of t := (inputs (pty (sess (world t)))).

(** ** Files *)

(** The terminal's input only grows. *)
Lemma steps_inputs (t t' : Task Ch) : session_steps t t' -> input_of t ⊆ input_of t'.
Proof.
  intros [es ->]. generalize (world t). induction es as [|e es IH]; intros w; [done|].
  etrans; [|apply (IH (Session.step e w))]. rewrite step_inputs. set_solver.
Qed.

Lemma typing_inputs now (alive : bool) texts (t : Task Ch) :
  input_of (foldl (fun t x => ask now (RInternal x alive) t) t texts) = input_of t ++ (if alive then texts else []).
Proof.
  revert t. induction texts as [|x texts IH]; intros t; [by destruct alive; rewrite app_nil_r|].
  cbn [foldl]. rewrite IH. destruct alive; cbn; rewrite ?app_nil_r; [|done]. by rewrite inputs_app, <- app_assoc.
Qed.

Lemma commit_inputs now (alive : bool) u (t : Task Ch) :
  input_of (commit now alive u t) = input_of t ++ (if alive then typed u else []).
Proof. unfold commit. by rewrite typing_inputs. Qed.

(** An event that can lose files: a handler that is dropped, or that types when
    the terminal's writer thread is gone; and the files it can lose. *)
Definition may_lose (e : TaskEvent) : option (InEnv * Body) :=
  match e with
  | TCut env b _ => Some (env, b)
  | TInbound env b => if ie_alive env then None else Some (env, b)
  | _ => None
  end.
Definition loses (e : TaskEvent) (t : Task Ch) (p : Path) : Prop :=
  match may_lose e with Some (env, b) => at_risk (ie_open env) (uploads t) b p | None => False end.

(** The names that are not unfinished uploads: there from the start, typed, or
    [lost]. *)
Definition known (f : Fs) (lost : Path -> Prop) (t : Task Ch) (p : Path) : Prop :=
  is_Some (names f !! p) \/ typed_path style (input_of t) p \/ lost p.

Definition files_ok (f : Fs) (lost : Path -> Prop) (t : Task Ch) : Prop := covered style (known f lost t) (blank (uploads t)).

Lemma covered_weaken K K' s : (forall p, K p -> K' p) -> covered style K s -> covered style K' s.
Proof. intros HK C p Hp. destruct (C p Hp) as [?|?]; auto. Qed.

Lemma known_mono f (lost lost' : Path -> Prop) t t' p :
  input_of t ⊆ input_of t' -> (lost p -> lost' p) -> known f lost t p -> known f lost' t' p.
Proof. intros Hi Hl [?|[(l & ? & ?)|?]]; [by left|right; left; exists l; auto|right; right; auto]. Qed.

Lemma files_steps f (lost lost' : Path -> Prop) (t t' : Task Ch) :
  session_steps t t' -> uploads t' = uploads t -> (forall p, lost p -> lost' p) -> files_ok f lost t -> files_ok f lost' t'.
Proof.
  intros Hs Eu Hl. unfold files_ok. rewrite Eu. apply covered_weaken. intros p.
  apply known_mono; [by apply steps_inputs|auto].
Qed.

(** A paste handler at work or done, whose files may be lost or not. *)
Lemma files_paste f lost env b d pid u (t : Task Ch) (e : TaskEvent) :
  paste_at style sid env b t d pid u -> (may_lose e = Some (env, b) \/ d = true /\ ie_alive env = true) ->
  files_ok f lost t -> files_ok f (fun p => lost p \/ loses e t p) (commit (ie_now env) (ie_alive env) u t).
Proof.
  intros U He F. destruct (commit_spec (ie_now env) (ie_alive env) u t) as (Hs & _ & Eu & _). unfold files_ok. rewrite Eu.
  assert (Km : forall p, known f lost t p -> known f (fun p => lost p \/ loses e t p) (commit (ie_now env) (ie_alive env) u t) p).
  { intros p. apply known_mono; [by apply steps_inputs|by left]. }
  destruct He as [He|[-> Ha]].
  - destruct (pa_keeps _ _ _ _ _ _ _ _ U) as [Kn Ku]. intros p Hp.
    assert (R : at_risk (ie_open env) (uploads t) b p -> loses e t p) by (unfold loses; by rewrite He).
    destruct (Kn p Hp) as [Hp'|?]; [|left; right; right; right; by apply R].
    destruct (F p Hp') as [K|[Hq|(l & _ & Hl)]]; [left; by apply Km| |by apply not_elem_of_nil in Hl].
    destruct (Ku p Hq) as [?|?]; [by right; left|left; right; right; right; by apply R].
  - intros p Hp. destruct (pa_covered _ _ _ _ _ _ _ _ U eq_refl _ F p Hp) as [K|[?|(l & Hl & Hin)]]; [left; by apply Km|by right; left|].
    left. right. left. exists l. split; [done|]. rewrite commit_inputs, Ha. set_solver.
Qed.

Lemma files_case f lost env b d (t t' : Task Ch) (e : TaskEvent) :
  inbound_case style sid env b t d t' -> (may_lose e = Some (env, b) \/ d = true /\ ie_alive env = true) ->
  files_ok f lost t -> files_ok f (fun p => lost p \/ loses e t p) t'.
Proof.
  intros [r _|pid u U|t'' [->| ->]] He F; [|by eapply files_paste|by eapply (files_steps f lost); [by apply same_steps|..]; auto..].
  eapply (files_steps f lost); [apply ask_steps|done|by left|done].
Qed.

Lemma files_step f lost e (t : Task Ch) : files_ok f lost t -> files_ok f (fun p => lost p \/ loses e t p) (step t e).
Proof.
  intros F. assert (Q : forall t' : Task Ch, session_steps t t' -> uploads t' = uploads t -> files_ok f (fun p => lost p \/ loses e t p) t').
  { intros t' Hs Eu. by eapply (files_steps f lost); [done|done|auto|]. }
  destruct e as [env b| |e|e|env b k|e k]; cbn [task_step]; try (destruct (running t); [|by apply Q; [apply same_steps|]]).
  - eapply files_case; [apply inbound_cases|cbn; destruct (ie_alive env); auto|done].
  - by apply Q; [apply same_steps|].
  - destruct (outbound sid e (out t)) as [o []]; by apply Q; [apply same_steps|].
  - apply Q; [by exists [e]|done].
  - destruct (cut_case max_pastes max_groups style sid env b k t) as [d C].
    pose proof (files_case f lost env b d t _ (TCut env b k) C (or_introl eq_refl) F) as G. exact G.
  - by apply Q; [apply same_steps|].
Qed.

(** The files that the events of a run have lost. *)
Definition lost_in (es : list TaskEvent) (t : Task Ch) (p : Path) : Prop :=
  exists es1 e es2, es = es1 ++ e :: es2 /\ loses e (run es1 t) p.

Lemma files_run f lost es (t : Task Ch) : files_ok f lost t -> files_ok f (fun p => lost p \/ lost_in es t p) (run es t).
Proof.
  intros F. induction es as [|e es IH] using rev_ind.
  { eapply (files_steps f lost); [by apply same_steps|done|by left|done]. }
  unfold run_task. rewrite foldl_app. cbn [foldl]. fold (run es t).
  eapply (files_steps f _ _ _ _ (same_steps _ _ eq_refl) eq_refl); [|apply files_step, IH].
  intros p [[?|(es1 & e' & es2 & -> & L)]|L]; [by left|right; exists es1, e', (es2 ++ [e])|right; exists es, e, []].
  - by rewrite <- app_assoc.
  - done.
Qed.

(** ** Frames *)

(** The hub's decoder takes the frame as it was encoded. *)
Definition accepted (f : Frame) : Prop :=
  exists f', frame_from_ws_payload (encode f) = Ok (f', len (encode f)) /\
    stream_id f' = stream_id f /\ ty f' = ty f.

Lemma wf_accepted f : wf_frame f -> accepted f.
Proof. intros W. exists f. split; [by apply ws_payload_encode|done]. Qed.

Lemma data_accepted bytes : sid <> 0 -> u32 sid -> len bytes <= MAX_DATA_LEN -> accepted (data sid bytes).
Proof. intros Hs Hu Hl. apply wf_accepted. split; cbn; [done| |done|done]. by apply Z.eqb_neq. Qed.

(** Everything but the name of a download is sent as it is; the name is cut. *)
Lemma download_begin_accepted id total name :
  sid <> 0 -> u32 sid -> u32 id -> 0 <= total <= MAX_PASTE_TOTAL_BYTES -> utf8_valid name = true ->
  accepted (download_begin sid id total name).
Proof.
  intros Hs Hu Hi Ht Hv. set (short := take (name_cut name) name).
  assert (Lc : (name_cut name <= 255)%nat).
  { unfold name_cut, MAX_PASTE_NAME_LEN. case_bool_decide; [lia|].
    pose proof (floor_char_boundary_le name (Z.to_nat 255)). lia. }
  assert (Vs : utf8_valid short = true).
  { unfold short, name_cut. case_bool_decide; [by rewrite firstn_all|by apply utf8_valid_floor]. }
  assert (Ls : length short = name_cut name).
  { unfold short. rewrite length_take. unfold name_cut. case_bool_decide; [lia|].
    unfold MAX_PASTE_NAME_LEN in *. pose proof (floor_char_boundary_le name (Z.to_nat 255)). lia. }
  assert (Lz : len short <= MAX_PASTE_NAME_LEN) by (unfold len, MAX_PASTE_NAME_LEN; lia).
  exists (download_begin sid id total short). split; [|done].
  assert (E : encode (download_begin sid id total name) = encode (download_begin sid id total short)).
  { unfold encode. cbn [body download_begin payload ty stream_id].
    assert (Ep : download_begin_payload id total name = download_begin_payload id total short); [|by rewrite Ep].
    unfold download_begin_payload. rewrite (name_cut_all short Lz), firstn_all, Ls. done. }
  rewrite E. apply ws_payload_encode. split; cbn; [done|by apply Z.eqb_neq| |by split; [lia|]].
  split_and!; [done|unfold u64, MAX_PASTE_TOTAL_BYTES in *; lia|done].
Qed.

(** The pieces of a valid path are valid. *)
Lemma split_slash_utf8 st l :
  utf8_run st l = Some UStart ->
  match split_on "/" l with
  | [] => False
  | p :: ps => utf8_run st p = Some UStart /\ Forall (fun q => utf8_valid q = true) ps
  end.
Proof.
  revert st. induction l as [|b l IH]; intros st Hr; cbn [split_on]; [by split|].
  cbn [utf8_run] in Hr. destruct (utf8_step st b) as [st'|] eqn:Es; [|done].
  specialize (IH st' Hr). destruct (split_on "/" l) as [|p ps]; [done|]. destruct IH as [IH1 IH2].
  case_bool_decide as E.
  - subst b. assert (st = UStart) as -> by (destruct st; cbn in Es; done). cbn in Es. injection Es as <-.
    split; [done|]. constructor; [by apply utf8_valid_run|done].
  - split; [cbn [utf8_run]; by rewrite Es|done].
Qed.

Lemma file_name_utf8 path name : utf8_valid path = true -> file_name path = Some name -> utf8_valid name = true.
Proof.
  intros V%utf8_valid_run. apply split_slash_utf8 in V. unfold file_name.
  destruct (split_on "/" path) as [|p ps]; [done|]. destruct V as [V1%utf8_valid_run V2].
  set (l := List.filter _ _). assert (F : Forall (fun q => utf8_valid q = true) l).
  { apply Forall_forall. intros q Hq%list_elem_of_In. apply filter_In in Hq as [Hq%list_elem_of_In _].
    apply elem_of_cons in Hq as [->|Hq]; [done|]. by eapply Forall_forall in V2. }
  assert (G : utf8_valid (List.last l []) = true).
  { clearbody l. destruct l as [|c l]; [done|].
    destruct (@List.exists_last _ (c :: l)) as (l' & a & E); [done|]. rewrite E in F |- *. rewrite List.last_last.
    apply Forall_app in F as [_ F]. by inversion F. }
  destruct (List.last l []) as [|c r] eqn:El; [done|]. case_bool_decide; [done|]. by intros [= <-].
Qed.

(** A download event as the agent produces it: of a file whose path is a string
    and which is read at most 1 MiB at a time. *)
Inductive from_agent (e : DownloadEvent) : Prop :=
| fa_intro id path f listening : e ∈ download_task id path f listening ->
    u32 id -> utf8_valid path = true ->
    (forall r n, fa_stat f = Some (r, n) -> 0 <= n) ->
    Forall (fun r => match r with Some c => len c <= MAX_PASTE_CHUNK_BYTES | None => True end) (fa_reads f) ->
    from_agent e.

Lemma loop_events id total reads listening n e :
  e ∈ (download_loop id total reads listening n).1 ->
  e = DE.End id DOWNLOAD_STATUS_OK \/ exists c, e = DE.Chunk id c /\ Some c ∈ reads.
Proof.
  revert listening n. induction reads as [|r reads IH]; intros l n; cbn [download_loop].
  - destruct (negb _); cbn; [by intros ?%not_elem_of_nil|]. intros ?%list_elem_of_singleton. auto.
  - destruct r as [[|b c]|]; [| |by intros ?%not_elem_of_nil].
    { destruct (negb _); cbn; [by intros ?%not_elem_of_nil|]. intros ?%list_elem_of_singleton. auto. }
    destruct (_ >? _); [by intros ?%not_elem_of_nil|].
    destruct (match l with [] => _ | _ => _ end) as [[] l'].
    + specialize (IH l' (sat_add64 n (len (b :: c)))).
      destruct (download_loop id total reads l' _) as [evs r]. cbn [fst] in *. rewrite elem_of_cons.
      intros [->|[->|(c' & -> & Hc)]%IH]; [right|by left|right]; eexists; (split; [done|]); [apply list_elem_of_here|by apply list_elem_of_further].
    + intros ->%list_elem_of_singleton. right. eexists. split; [done|apply list_elem_of_here].
Qed.
Hypothesis sid_pos : sid <> 0.
Hypothesis sid_u32 : u32 sid.

Lemma wf_stream_frame b : is_control_type (ty (mk_frame sid b)) = false -> body_typed b -> body_legal b -> accepted (mk_frame sid b).
Proof. intros Hc Ht Hl. apply wf_accepted. split; [done| |done|done]. rewrite Hc. by apply Z.eqb_neq. Qed.

Lemma download_frame_accepted e : from_agent e -> accepted (download_frame sid e).
Proof.
  intros [id path f listening Hin Hid Hv Hst Hrd]. revert Hin. unfold download_task, stream_download.
  assert (Cancel : forall s, s = DOWNLOAD_STATUS_OK \/ s = DOWNLOAD_STATUS_CANCEL -> accepted (download_frame sid (DE.End id s))).
  { intros s Hs. apply wf_stream_frame; [done|split; [done|]|]; destruct Hs as [-> | ->]; vm_compute; done. }
  assert (Lone : forall s, s = DOWNLOAD_STATUS_OK \/ s = DOWNLOAD_STATUS_CANCEL -> e ∈ [DE.End id s] -> accepted (download_frame sid e)).
  { intros s Hs ->%list_elem_of_singleton. by apply Cancel. }
  destruct (negb (fa_open f)); [apply Lone; by right|].
  destruct (fa_stat f) as [[r total]|] eqn:Es; [|apply Lone; by right].
  destruct (negb r); [apply Lone; by right|]. destruct (total >? _) eqn:G; [apply Lone; by right|].
  rewrite Z.gtb_ltb in G. bool_to_prop. pose proof (Hst r total eq_refl).
  set (name := default (lit "download") (file_name path)).
  assert (B : accepted (download_frame sid (DE.Begin id total name))).
  { apply download_begin_accepted; try done. unfold name.
    destruct (file_name path) eqn:E; [by eapply file_name_utf8|done]. }
  destruct (match listening with [] => _ | _ => _ end) as [ok l']. destruct ok.
  2: { intros ->%list_elem_of_singleton. done. }
  pose proof (loop_events id total (fa_reads f) l' 0 e) as L.
  assert (LL : e ∈ (download_loop id total (fa_reads f) l' 0).1 -> accepted (download_frame sid e)).
  { intros [->|(c & -> & Hc)]%L; [by apply Cancel; left|]. apply wf_stream_frame; [done|done|].
    by apply (Forall_forall _ _) with (x := Some c) in Hrd. }
  destruct (download_loop _ _ _ _ _) as [evs [x|[]]]; cbn [fst] in LL.
  - intros [[ -> |?]%elem_of_cons| ->%list_elem_of_singleton]%elem_of_app; [done|by apply LL|by apply Cancel; right].
  - intros [->|?]%elem_of_cons; [done|by apply LL].
Qed.

(** What the task is given: bodies the connection decoded, and download events
    of the agent. *)
Definition event_ok (e : TaskEvent) : Prop :=
  match e with
  | TInbound _ b | TCut _ b _ => body_typed b
  | TOutbound (ODownload d) | TOutCut (ODownload d) _ => from_agent d
  | TOutbound (OEvent _ ready) | TOutCut (OEvent _ ready) _ => Forall from_agent ready
  | _ => True
  end.

Definition frame_ok (f : Frame) : Prop := stream_id f = sid /\ accepted f.

Lemma put_ok f o : frame_ok f -> Forall frame_ok (sent o) -> Forall frame_ok (sent (put f o).1).
Proof.
  intros Hf Ho. unfold put. destruct (accepts o); cbn; [done|]. apply Forall_app. split; [done|]. by constructor.
Qed.
Lemma put_all_ok fs o : Forall frame_ok fs -> Forall frame_ok (sent o) -> Forall frame_ok (sent (put_all fs o).1).
Proof.
  intros Hf. revert o. induction Hf as [|f fs Hf _ IH]; intros o Ho; [done|]. cbn [put_all].
  pose proof (put_ok f o Hf Ho). destruct (put f o) as [o' [|]]; [by apply IH|done].
Qed.
Lemma put_ignore_ok fs o : Forall frame_ok fs -> Forall frame_ok (sent o) -> Forall frame_ok (sent (put_ignore fs o)).
Proof. intros Hf. revert o. induction Hf as [|f fs Hf _ IH]; intros o Ho; [done|]. by apply IH, put_ok. Qed.

Lemma data_frames_ok l : Forall frame_ok (data_frames sid l).
Proof.
  unfold data_frames. apply Forall_fmap. eapply Forall_impl; [apply chunks_small, data_cap_pos|].
  intros c Hc. split; [done|]. apply data_accepted; [done..|]. unfold len, MAX_DATA_LEN in *. lia.
Qed.
Lemma status_ok z : 0 <= z <= 2 -> frame_ok (controller_changed sid z).
Proof. intros Hz. split; [done|]. apply wf_stream_frame; [done|unfold body_typed, u8; lia|unfold body_legal, CONTROLLER_STATUS_OTHER; lia]. Qed.
Lemma close_ok : frame_ok (close sid).
Proof. split; [done|]. by apply wf_stream_frame. Qed.

Lemma out_frames_ok e : event_ok (TOutbound e) -> Forall frame_ok (out_frames sid e).
Proof.
  intros He. destruct e as [[b|c|] ready| |d| |]; cbn [out_frames event_ok] in *; try by constructor.
  - apply data_frames_ok.
  - constructor; [|constructor]. apply status_ok. unfold event_status. repeat case_match; vm_compute; done.
  - apply Forall_app. split; [|constructor; [apply close_ok|constructor]].
    apply Forall_fmap. eapply Forall_impl; [exact He|]. intros d Hd. split; [by destruct d|by apply download_frame_accepted].
  - constructor; [|constructor]. split; [by destruct d|by apply download_frame_accepted].
Qed.
Lemma outbound_ok e o : event_ok (TOutbound e) -> Forall frame_ok (sent o) -> Forall frame_ok (sent (outbound sid e o).1).
Proof.
  intros He%out_frames_ok Ho. destruct e as [[b|c|] ready| |d| |]; cbn [outbound out_frames fst] in *; try done.
  - by apply put_all_ok.
  - apply Forall_cons in He as [He _]. by apply put_ok.
  - by apply put_ignore_ok.
  - apply Forall_cons in He as [He _]. by apply put_ok.
Qed.
Lemma outbound_cut_ok e k o : event_ok (TOutbound e) -> Forall frame_ok (sent o) -> Forall frame_ok (sent (outbound_cut sid e k o)).
Proof. intros He%out_frames_ok Ho. apply put_all_ok; [by apply Forall_take|done]. Qed.

Lemma rejects_ok pid fs : u32 pid -> rejects sid pid fs -> Forall frame_ok fs.
Proof.
  intros Hp Hr. eapply Forall_impl; [exact Hr|]. intros f (r & -> & Hr'). split; [done|].
  apply wf_stream_frame; [done| |]; unfold body_typed, body_legal, u8, PASTE_REJECT_MAX_REASON, PASTE_REJECT_NOT_CONTROLLER in *; [split; [done|lia]|lia].
Qed.

Lemma case_frames_ok env b d (t t' : Task Ch) :
  inbound_case style sid env b t d t' -> body_typed b -> Forall frame_ok (sent (out t)) -> Forall frame_ok (sent (out t')).
Proof.
  intros [r _|pid u U|t'' [->| ->]] Hb F; [done| |done|done].
  destruct (commit_spec (ie_now env) (ie_alive env) u t) as (_ & -> & _). apply put_ignore_ok; [|done].
  by apply (rejects_ok pid); [apply (pa_id _ _ _ _ _ _ _ _ U)|apply (pa_rejects _ _ _ _ _ _ _ _ U)].
Qed.

Lemma step_frames_ok e (t : Task Ch) :
  event_ok e -> Forall frame_ok (sent (out t)) -> Forall frame_ok (sent (out (step t e))).
Proof.
  intros He F. destruct e as [env b| |e|e|env b k|e k]; cbn [task_step]; try done; try (destruct (running t); [|done]).
  - eapply case_frames_ok; [apply inbound_cases|done|done].
  - pose proof (outbound_ok e (out t) He F). by destruct (outbound sid e (out t)) as [o []].
  - destruct (cut_case max_pastes max_groups style sid env b k t) as [d C]. exact (case_frames_ok _ _ _ _ _ C He F).
  - apply outbound_cut_ok; [by destruct e|done].
Qed.

Lemma run_frames_ok es (t : Task Ch) :
  Forall event_ok es -> Forall frame_ok (sent (out t)) -> Forall frame_ok (sent (out (run es t))).
Proof.
  intros He. revert t. induction He as [|e es He _ IH]; intros t F; [done|]. by apply IH, step_frames_ok.
Qed.
End Safety.

(** ** Properties *)

(** [C21] However a stream's task ends - at any point of its two loops, a
    handler or an event half done included - it cleans up: the stream is no
    longer attached and does not hold control, no upload is pending, and every
    file in the file system was there before or is one whose path has been
    typed into the terminal, with one exception: a file of the batch that a
    paste handler was at work on when it was dropped, or when it typed and the
    terminal's writer thread was gone.  Without such an event no unfinished,
    cancelled, rejected or orphaned upload leaves a file behind. *)
Theorem stream_leaves_nothing (Ch Rx : Type) `{BroadcastLaws SessionEvent Ch Rx} maxp maxg style sid
    now sz (w : World Ch) f acc es now' :
  let t0 := (start_task sid now sz w f acc).1 in
  let t := finish_task sid now' (run_task maxp maxg style sid es t0) in
  attached (inner (sess (world t))) !! sid = None /\
  controller (inner (sess (world t))) <> Some sid /\
  pending_pastes (uploads t) = ∅ /\ pending_groups (uploads t) = ∅ /\
  (forall p, is_Some (names (fs (uploads t)) !! p) ->
    is_Some (names f !! p) \/
    (exists paths, p ∈ paths /\ paste_text style paths ∈ inputs (pty (sess (world t)))) \/
    exists es1 e es2 env b, es = es1 ++ e :: es2 /\ may_lose e = Some (env, b) /\
      at_risk (ie_open env) (uploads (run_task maxp maxg style sid es1 t0)) b p) /\
  (Forall (fun e => may_lose e = None) es -> forall p, is_Some (names (fs (uploads t)) !! p) ->
    is_Some (names f !! p) \/ exists paths, p ∈ paths /\ paste_text style paths ∈ inputs (pty (sess (world t)))).
Proof.
  cbn zeta. destruct (attach_world sid now sz (mk_task w (mk_state ∅ ∅ f [] []) (mk_out [] acc) true)) as (_ & _ & Eu & _).
  fold (start_task sid now sz w f acc) in Eu. set (t0 := (start_task sid now sz w f acc).1) in *.
  assert (F : files_ok style f (fun p => False \/ lost_in maxp maxg style sid es t0 p) (run_task maxp maxg style sid es t0)).
  { apply files_run. unfold files_ok. rewrite Eu. intros p Hp. left. by left. }
  set (t := run_task maxp maxg style sid es t0) in *. unfold finish_task. cbn.
  assert (G : forall p, is_Some (names (foldl (fun g q => remove_file q g) (fs (uploads t)) (unfinished (uploads t))) !! p) ->
    is_Some (names f !! p) \/ typed_path style (inputs (pty (sess (world t)))) p \/ lost_in maxp maxg style sid es t0 p).
  { intros p Hp. apply removed_names in Hp as [Hp Hn].
    destruct (F p Hp) as [[?|[?|[[]|?]]]|[?|(l & _ & Hl)]]; [by left|by right; left|by right; right|done|].
    by apply not_elem_of_nil in Hl. }
  split; [by rewrite lookup_delete_eq|]. split; [by case_bool_decide|]. split; [done|]. split; [done|]. split.
  - intros p [?|[?|(es1 & e & es2 & E & L)]]%G; [by left|by right; left|]. right; right. unfold loses in L.
    destruct (may_lose e) as [[env b]|] eqn:Em; [|done]. by exists es1, e, es2, env, b.
  - intros Hs p [?|[?|(es1 & e & es2 & -> & L)]]%G; [by left|by right|]. exfalso. apply Forall_app in Hs as [_ Hs].
    apply Forall_cons in Hs as [Hs _]. unfold loses in L. by rewrite Hs in L.
Qed.

(** [C12] A viewer - a stream that does not hold control - cannot touch the
    terminal: whatever it sends, short of asking for control while nobody has
    it or taking it over, and wherever its handling stops, nothing is typed,
    the geometry is not changed, no announcement is made, control stays where
    it is and the output is the same; and the upload of a file is refused
    before anything is created, with the rejection that says so. *)
Theorem viewer_is_powerless (Ch Rx : Type) `{BroadcastLaws SessionEvent Ch Rx} maxp maxg style sid env b (t : Task Ch) :
  in_control sid t = false ->
  b <> Bd.TakeControl ->
  (b = Bd.AcquireControl -> is_Some (controller (inner (sess (world t))))) ->
  let r := inbound maxp maxg style sid env b t in
  let s := sess (world t) in
  (forall t', t' = r.2 \/ t' ∈ r.1 -> let s' := sess (world t') in
   pty s' = pty s /\ controller (inner s') = controller (inner s) /\ output s' = output s /\
   concat (pending (world t')) = concat (pending (world t))) /\
  (forall pid total gid gsize name, b = Bd.PasteBegin pid total gid gsize name ->
     uploads r.2 = blank (uploads t) /\
     out r.2 = put_ignore [paste_reject sid pid PASTE_REJECT_NOT_CONTROLLER] (out t)).
Proof.
  cbn zeta. intros Hc Ht Ha.
  destruct (inbound_cases maxp maxg style sid env b t) as [_ W].
  assert (P : forall pid h, handled style sid pid false (blank (uploads t)) (final h (blank (uploads t))) ->
    world (run_paste (ie_now env) (ie_alive env) h t).2 = world t).
  { intros pid h Hh. rewrite run_paste_done. unfold commit. by rewrite (ha_typed _ _ _ _ _ _ Hh eq_refl). }
  assert (Hn : controller (inner (sess (world t))) <> Some sid).
  { unfold in_control, is_controller in Hc. by apply bool_decide_eq_false in Hc. }
  split.
  - intros t' [->|Hin].
    2: { rewrite Forall_forall in W. destruct (W t' Hin) as [r [=]|pid u U|t'' [->| ->]]; [|done|done].
         unfold commit. by rewrite (pa_typed _ _ _ _ _ _ _ _ U (or_introl Hc)). }
    destruct b; cbn [inbound asking snd]; try (split_and!; done); try rewrite Hc.
    + cbn. unfold write_input_from. rewrite bool_decide_false by done. cbn.
      by rewrite concat_app, app_nil_r.
    + cbn. unfold resize_for_locked. rewrite bool_decide_false by done. cbn. by rewrite concat_app, app_nil_r.
    + pose proof (P paste_id (reject sid paste_id PASTE_REJECT_NOT_CONTROLLER) ltac:(by apply reject_handled)) as E.
      destruct (run_paste _ _ _ _) as [l t']. cbn [snd] in *. by rewrite E.
    + rewrite (P paste_id) by apply chunk_handled. by split_and!.
    + rewrite (P paste_id) by apply end_handled. by split_and!.
    + cbn. unfold acquire_locked. destruct (Ha eq_refl) as [c Hcc].
      destruct (attached (inner (sess (world t))) !! sid); [rewrite Hcc|]; cbn; by rewrite concat_app, app_nil_r.
    + cbn. unfold release_locked. rewrite bool_decide_false by done. cbn. by rewrite concat_app, app_nil_r.
  - intros pid total gid gsize name ->. cbn [inbound]. rewrite Hc.
    pose proof (run_paste_done (ie_now env) (ie_alive env) (reject sid pid PASTE_REJECT_NOT_CONTROLLER) t) as E.
    destruct (run_paste _ _ _ _) as [l t']. cbn [snd] in *. by subst t'.
Qed.

(** [C22] Every frame a stream's task hands to the connection is one the hub
    accepts: it carries the stream's own id and its encoding decodes, as a
    frame of the same type, in full - for any output, however large its
    blocks, any announcement, any upload and any download of a file, whatever
    the length of its name. *)
Theorem sent_frames_accepted (Ch Rx : Type) `{BroadcastLaws SessionEvent Ch Rx} maxp maxg style sid
    now sz (w : World Ch) f acc es :
  0 < sid -> u32 sid -> Forall event_ok es ->
  let t := run_task maxp maxg style sid es (start_task sid now sz w f acc).1 in
  Forall (fun f => stream_id f = sid /\
            exists f', frame_from_ws_payload (encode f) = Ok (f', len (encode f)) /\
                       stream_id f' = stream_id f /\ ty f' = ty f) (sent (out t)).
Proof.
  intros Hp Hu He. cbn zeta. assert (Hs : sid <> 0) by lia.
  apply (run_frames_ok maxp maxg style sid Hs Hu); [done|]. unfold start_task, attach_task.
  destruct (attach_locked now sid sz (sess _)) as [[s r] eff]. cbn [fst out].
  apply put_ok; [|apply put_all_ok; [by apply data_frames_ok|by constructor]].
  apply status_ok; [done..|]. unfold initial_status. repeat case_match; vm_compute; done.
Qed.

(** ** Witnesses *)

(** A viewer that receives a long-named download, announcements and output. *)
Definition sample_file : FileAccess := Session.mk_file true (Some (true, 3)) [Some (lit "abc"); Some []].
Definition sample_events : list TaskEvent :=
  [TInbound viewer_env (Bd.PasteChunk 7 (lit "?"));
   TOutbound (ODownload (DE.Begin 1 3 (repeat "n"%byte 300)));
   TOutbound (OEvent (SE.ControllerChanged 2) [])].
Definition sample_world : World (list SessionEvent) :=
  Session.run [Serve 0 (RAttach 1 (24, 80)); Perform 0; Serve 1 (ROutput (lit "hello"))]
    (mk_world (spawn 0 (24, 80) 100 []) []).

Lemma sample_begin_from_agent : from_agent (DE.Begin 1 3 (repeat "n"%byte 300)).
Proof.
  apply (fa_intro _ 1 ("/"%byte :: repeat "n"%byte 300) sample_file []).
  - apply list_elem_of_here.
  - by split.
  - vm_compute. reflexivity.
  - intros r n [= _ <-]. done.
  - repeat constructor; done.
Qed.

Lemma sent_frames_accepted_witness :
  let t := run_task 32 32 Bracketed 2 sample_events (start_task 2 4 (10, 10) sample_world (mk_fs ∅ ∅ 0) 100).1 in
  length (sent (out t)) = 4%nat /\
  Forall (fun f => stream_id f = 2 /\
            exists f', frame_from_ws_payload (encode f) = Ok (f', len (encode f)) /\
                       stream_id f' = stream_id f /\ ty f' = ty f) (sent (out t)).
Proof.
  split; [vm_compute; reflexivity|].
  apply (sent_frames_accepted (list SessionEvent) nat 32 32 Bracketed 2 4 (10, 10) sample_world (mk_fs ∅ ∅ 0) 100 sample_events).
  - lia.
  - by split.
  - repeat constructor; try done. apply sample_begin_from_agent.
Defined.

(** The stream 2 tries to type while stream 1 holds control. *)
Lemma viewer_is_powerless_witness :
  let t := (start_task 2 4 (10, 10) sample_world (mk_fs ∅ ∅ 0) 100).1 in
  let r := inbound 32 32 Bracketed 2 viewer_env (Bd.Data (lit "rm")) t in
  pty (sess (world r.2)) = pty (sess (world t)).
Proof.
  pose proof (viewer_is_powerless (list SessionEvent) nat 32 32 Bracketed 2 viewer_env (Bd.Data (lit "rm"))
    (start_task 2 4 (10, 10) sample_world (mk_fs ∅ ∅ 0) 100).1) as W. cbn zeta in W.
  refine (proj1 (proj1 (W _ _ _) _ (or_introl eq_refl))); [vm_compute; reflexivity|done|done].
Defined.

(** What is lost: a batch of one file whose name is in no registry any more when
    its end is dropped while [flush] waits, and one whose path is written to a
    terminal that is gone.  Both files stay. *)
Definition lossy (e : TaskEvent) : list TaskEvent :=
  [TInbound viewer_env Bd.TakeControl;
   TInbound (mk_in_env 6 true demo_env Written true) (Bd.PasteBegin 1 2 5 1 (lit "a"));
   TInbound (mk_in_env 6 true demo_env Written true) (Bd.PasteChunk 1 (lit "xy")); e; TInboundEnd].
Definition left_over (e : TaskEvent) : list Path :=
  let t := finish_task 2 7 (run_task 32 32 Bracketed 2 (lossy e) (start_task 2 4 (10, 10) sample_world (mk_fs ∅ ∅ 0) 100).1) in
  (map_to_list (names (fs (uploads t)))).*1.
Lemma dropped_handlers_leak :
  let b := Bd.PasteEnd 1 PASTE_STATUS_OK in
  left_over (TCut viewer_env b 1) = [lit "/run/p/a"] /\
  left_over (TInbound (mk_in_env 6 true demo_env Written false) b) = [lit "/run/p/a"] /\
  left_over (TCut viewer_env b 0) = [].
Proof. split_and!; vm_compute; reflexivity. Qed.
