(* ===== verification/AgentFacts.v ===== *)
(** * AgentFacts: routing, requests and reconnects on the agent *)

From Stdlib Require Import Strings.Byte.
From stdpp Require Import prelude strings list gmap.
From S2P Require Import Prelude Tokio Prio Frame FrameFacts Transport Session Manager Link LinkFacts Agent.
Open Scope Z_scope.

Section Routing.
Context {WCh Sem BCh : Type} `{MpscLaws (Z * list byte) WCh} `{SemaphoreLaws Sem} `{MpscLaws Body BCh}.
Abbreviation ConnT := (Conn WCh Sem BCh).

(** ** Histories of a connection *)

(** What the tasks of a connection do to it, in any order; stream ids and
    channels are arbitrary. *)
Inductive ConnEvent :=
| CFrame (f : Frame)
| CRecv (r : Ref)
| CDropRx (r : Ref)
| CUnregister (sid : Z)
| CSend (f : Frame)
| CClear.

(** The connection with its history: the bodies the reader took for streams,
    what each stream's task was handed, and when and under which id each
    stream was opened. *)
Record ConnWorld := mk_cworld {
  conn : ConnT;
  clog : list (Z * Body);
  ctaken : list (Ref * (Half * Body));
  cborn : gmap Ref (Z * nat);
}.

(** The half the next body of a channel comes from. *)
Definition next_half (p : Prio BCh) : Half := match held (hi p) with [] => Lo | _ => Hi end.

Definition is_open_frame (f : Frame) : bool := match body f with Bd.Open _ _ => true | _ => false end.

Definition conn_step (w : ConnWorld) (e : ConnEvent) : ConnWorld :=
  let c := conn w in
  match e with
  | CFrame f =>
      let c' := (agent_turn f c).1 in
      if stream_id f =? 0 then mk_cworld c' (clog w) (ctaken w) (cborn w)
      else if is_open_frame f then
        mk_cworld c' (clog w) (ctaken w) (<[cnext c := (stream_id f, length (clog w))]> (cborn w))
      else mk_cworld c' (clog w ++ [(stream_id f, body f)]) (ctaken w) (cborn w)
  | CRecv r =>
      let '(c', p) := stream_recv r c in
      let from := match schans c !! r with Some p => next_half p | None => Hi end in
      mk_cworld c' (clog w) (match p with Got b => ctaken w ++ [(r, (from, b))] | _ => ctaken w end) (cborn w)
  | CDropRx r => mk_cworld (stream_drop_rx r c) (clog w) (ctaken w) (cborn w)
  | CUnregister sid => mk_cworld (unregister sid c) (clog w) (ctaken w) (cborn w)
  | CSend f => mk_cworld (set_cwriter (send_frame_to_hub f (cwriter c)).1 c) (clog w) (ctaken w) (cborn w)
  | CClear => mk_cworld (clear_cstreams c) (clog w) (ctaken w) (cborn w)
  end.
Definition conn_run (es : list ConnEvent) : ConnWorld := foldl conn_step (mk_cworld new_conn [] [] ∅) es.

(** What the task of [r] was handed from one half, and the bodies that travel
    in one half. *)
Definition handed (h : Half) (r : Ref) (l : list (Ref * (Half * Body))) : list Body :=
  omap (fun '(q, (k, b)) => if bool_decide (q = r) && same_half k h then Some b else None) l.
Definition in_half (h : Half) (l : list Body) : list Body :=
  omap (fun b => if same_half (body_half b) h then Some b else None) l.

Lemma handed_app h r a b : handed h r (a ++ b) = handed h r a ++ handed h r b.
Proof. apply omap_app. Qed.
Lemma in_half_app h a b : in_half h (a ++ b) = in_half h a ++ in_half h b.
Proof. apply omap_app. Qed.
Lemma in_half_take h n l : in_half h (take n l) `prefix_of` in_half h l.
Proof. rewrite <- (take_drop n l) at 2. rewrite in_half_app. by apply prefix_app_r. Qed.

(** ** The routing invariant *)

Definition cap_of (h : Half) : nat := match h with Hi => STREAM_HI_CAP | Lo => STREAM_LO_CAP end.

(** The stream [r]: there is a cut in the bodies addressed to it such that from
    each half it has been handed, or still will be, what lies before the cut;
    while it is registered the cut is at the end. *)
Record cstream_ok (w : ConnWorld) (r : Ref) (sid : Z) (k : nat) : Prop := {
  cs_ref : (r < cnext (conn w))%nat;
  cs_born : (k <= length (clog w))%nat;
  cs_chan : exists p, schans (conn w) !! r = Some p /\ closed_ok item_recv p /\
    (forall h, ch_cap (view (half h p)) = Some (cap_of h) /\ (length (ch_items (view (half h p))) <= cap_of h)%nat) /\
    ch_rx (view (hi p)) = ch_rx (view (lo p)) /\
    exists j, let seen := take j (addressed sid (drop k (clog w))) in
      (j <= length (addressed sid (drop k (clog w))))%nat /\
      (forall h, let got := handed h r (ctaken w) ++ ch_items (view (half h p)) in
        got `prefix_of` in_half h seen /\ (ch_rx (view (half h p)) = true -> got = in_half h seen)) /\
      (cstreams (conn w) !! sid = Some r ->
        (forall h, ch_tx (view (half h p)) = true) /\
        (ch_rx (view (hi p)) = true -> j = length (addressed sid (drop k (clog w)))));
}.

Record croutes_ok (w : ConnWorld) : Prop := {
  co_streams : forall r sid k, cborn w !! r = Some (sid, k) -> cstream_ok w r sid k;
  co_born : forall sid r, cstreams (conn w) !! sid = Some r -> exists k, cborn w !! r = Some (sid, k);
  co_fresh : forall r, cborn w !! r = None -> (forall h, handed h r (ctaken w) = []) /\ schans (conn w) !! r = None;
}.

(** Connections that differ in their writer and spawned tasks only. *)
Lemma croutes_same w c :
  cstreams c = cstreams (conn w) -> schans c = schans (conn w) -> cnext c = cnext (conn w) ->
  croutes_ok w -> croutes_ok (mk_cworld c (clog w) (ctaken w) (cborn w)).
Proof.
  intros Es Ec En [Ks Kb Kf]. split; cbn [conn clog ctaken cborn].
  - intros r sid k Hb. destruct (Ks r sid k Hb) as [S1 S2 S3]. split; cbn; [by rewrite En|done|]. by rewrite Ec, Es.
  - by rewrite Es.
  - by rewrite Ec.
Qed.

(** A channel that lost senders, or its receiver with what was queued. *)
Record chan_shrinks (p p' : Prio BCh) : Prop := {
  sh_closed : closed_ok item_recv p -> closed_ok item_recv p';
  sh_cap : forall h, ch_cap (view (half h p')) = ch_cap (view (half h p));
  sh_items : (forall h, ch_items (view (half h p')) = ch_items (view (half h p)) /\ ch_rx (view (half h p')) = ch_rx (view (half h p)))
    \/ (forall h, ch_items (view (half h p')) = [] /\ ch_rx (view (half h p')) = false);
}.

Lemma shrinks_refl p : chan_shrinks p p.
Proof. split; [done|done|by left]. Qed.

Lemma drop_tx_shrinks p : chan_shrinks p (item_drop_tx p).
Proof.
  split; [|intros []; cbn; by rewrite view_drop_tx|left; intros []; cbn; by rewrite view_drop_tx].
  intros [Kh Kl]. split; cbn; rewrite view_drop_tx; cbn; intros Hc; [destruct (Kh Hc)|destruct (Kl Hc)]; done.
Qed.
Lemma drop_rx_shrinks p : chan_shrinks p (item_drop_rx p).
Proof.
  split; [|intros []; cbn; by rewrite view_drop_rx|right; intros []; cbn; by rewrite view_drop_rx].
  intros [Kh Kl]. split; cbn; rewrite view_drop_rx; cbn; intros Hc; [destruct (Kh Hc)|destruct (Kl Hc)]; done.
Qed.

Lemma shrinks_trans p q r : chan_shrinks p q -> chan_shrinks q r -> chan_shrinks p r.
Proof.
  intros [A1 A2 A3] [B1 B2 B3]. split; [auto|intros h; by rewrite B2|].
  destruct B3 as [B3|B3]; [|by right]. destruct A3 as [A3|A3]; [left|right]; intros h; by rewrite (proj1 (B3 h)), (proj2 (B3 h)).
Qed.

(** A map of channels whose members shrank. *)
Definition chans_shrink (cs cs' : gmap Ref (Prio BCh)) : Prop :=
  (forall r p, cs !! r = Some p -> exists p', cs' !! r = Some p' /\ chan_shrinks p p') /\
  (forall r, cs !! r = None -> cs' !! r = None).

Lemma alter_shrinks (g : Prio BCh -> Prio BCh) r cs :
  (forall p, chan_shrinks p (g p)) -> chans_shrink cs (alter g r cs).
Proof.
  intros Hg. split.
  - intros q p Hp. destruct (decide (r = q)) as [->|Hne].
    + rewrite lookup_alter_eq, Hp. eauto.
    + rewrite lookup_alter_ne by done. eauto using shrinks_refl.
  - intros q Hq. destruct (decide (r = q)) as [->|Hne]; [by rewrite lookup_alter_eq, Hq|by rewrite lookup_alter_ne].
Qed.

Lemma drop_all_shrinks rs cs : chans_shrink cs (foldr (fun r cs => alter item_drop_tx r cs) cs rs).
Proof.
  induction rs as [|r rs [I1 I2]]; [split; eauto using shrinks_refl|]. cbn [foldr].
  destruct (alter_shrinks item_drop_tx r (foldr (fun r cs => alter item_drop_tx r cs) cs rs) drop_tx_shrinks) as [A1 A2].
  split; [|auto]. intros q p Hp. destruct (I1 q p Hp) as (p' & Hp' & S1). destruct (A1 q p' Hp') as (p2 & Hp2 & S2).
  eauto using shrinks_trans.
Qed.

Lemma take_prefix {X} j (l l' : list X) : (j <= length l)%nat -> take j (l ++ l') = take j l.
Proof. intros L. rewrite take_app. by replace (j - length l)%nat with 0%nat by lia; rewrite take_0, app_nil_r. Qed.

(** Taking streams out of the registry, closing ends, and bodies that go to no
    stream keep the invariant. *)
Lemma croutes_skip w c l :
  cnext c = cnext (conn w) -> chans_shrink (schans (conn w)) (schans c) ->
  (forall sid r, cstreams c !! sid = Some r -> cstreams (conn w) !! sid = Some r /\ addressed sid l = [] /\
     forall p p', schans (conn w) !! r = Some p -> schans c !! r = Some p' ->
       forall h, ch_tx (view (half h p')) = ch_tx (view (half h p))) ->
  croutes_ok w -> croutes_ok (mk_cworld c (clog w ++ l) (ctaken w) (cborn w)).
Proof.
  intros En [Ec1 Ec2] Es [Ks Kb Kf]. split; cbn [conn clog ctaken cborn].
  - intros r sid k Hb. destruct (Ks r sid k Hb) as [S1 S2 (p & Hp & Kc & Hcap & Hrx & j & Hj & Hg & Hr)].
    destruct (Ec1 r p Hp) as (p' & Hp' & [Sc Scap Si]).
    split; cbn [conn clog ctaken]; [by rewrite En|rewrite length_app; lia|].
    exists p'. split; [done|]. split; [auto|].
    assert (Ed : addressed sid (drop k (clog w ++ l)) = addressed sid (drop k (clog w)) ++ addressed sid l)
      by (by rewrite drop_app_le, addressed_app).
    assert (X : (forall h, ch_cap (view (half h p')) = Some (cap_of h) /\ (length (ch_items (view (half h p'))) <= cap_of h)%nat) /\
      ch_rx (view (hi p')) = ch_rx (view (lo p')) /\ (ch_rx (view (hi p')) = true -> ch_rx (view (hi p)) = true) /\
      forall h, let seen := take j (addressed sid (drop k (clog w))) in
        let got := handed h r (ctaken w) ++ ch_items (view (half h p')) in
        got `prefix_of` in_half h seen /\ (ch_rx (view (half h p')) = true -> got = in_half h seen)).
    { destruct Si as [Si|Si]; pose proof (proj2 (Si Hi)) as Xh; pose proof (proj2 (Si Lo)) as Xl; cbn [half] in Xh, Xl;
        rewrite Xh, Xl; (split; [intros h; rewrite Scap, (proj1 (Si h)); split; [apply Hcap|first [apply Hcap|cbn; lia]]|]);
        (split; [done|]); (split; [done|]); intros h; rewrite (proj1 (Si h)), (proj2 (Si h)); [apply Hg|].
      cbn zeta. rewrite app_nil_r. split; [|done]. etrans; [|apply Hg]. by apply prefix_app_r. }
    destruct X as (X1 & X2 & X3 & X4). split; [done|]. split; [done|]. exists j. rewrite Ed, length_app, take_prefix by done.
    split; [lia|]. split; [done|]. intros Hs. destruct (Es _ _ Hs) as (Hs' & Hl & Ht). destruct (Hr Hs') as [Hr1 Hr2].
    rewrite Hl. split; [intros h; by rewrite (Ht p p')|]. intros E. cbn. rewrite Hr2 by auto. lia.
  - intros sid r Hs. by apply Kb, Es.
  - intros r Hr. destruct (Kf r Hr) as (? & ?). auto.
Qed.

Lemma croutes_shrink w c :
  cnext c = cnext (conn w) -> chans_shrink (schans (conn w)) (schans c) ->
  (forall sid r, cstreams c !! sid = Some r -> cstreams (conn w) !! sid = Some r /\
     forall p p', schans (conn w) !! r = Some p -> schans c !! r = Some p' ->
       forall h, ch_tx (view (half h p')) = ch_tx (view (half h p))) ->
  croutes_ok w -> croutes_ok (mk_cworld c (clog w) (ctaken w) (cborn w)).
Proof.
  intros En Ec Es K. rewrite <- (app_nil_r (clog w)). apply croutes_skip; try done.
  intros s r Hs. destruct (Es s r Hs) as [? ?]. done.
Qed.

(** Each channel is registered under one id. *)
Lemma registered_once w a b r : croutes_ok w -> cstreams (conn w) !! a = Some r -> cstreams (conn w) !! b = Some r -> a = b.
Proof. intros K Ha Hb. destruct (co_born _ K _ _ Ha), (co_born _ K _ _ Hb). congruence. Qed.

Lemma croutes_unregister w sid :
  croutes_ok w -> croutes_ok (mk_cworld (unregister sid (conn w)) (clog w) (ctaken w) (cborn w)).
Proof.
  intros K. unfold unregister. destruct (cstreams (conn w) !! sid) as [r|] eqn:E; [|by apply croutes_same].
  apply croutes_shrink; cbn; [done|apply alter_shrinks, drop_tx_shrinks| |done].
  intros s q [Hne Hs]%lookup_delete_Some. split; [done|]. intros p p' Hp Hp' h.
  rewrite lookup_alter_ne in Hp' by (intros ->; by destruct (registered_once w s sid q K)).
  congruence.
Qed.

Lemma croutes_drop_rx w r : croutes_ok w -> croutes_ok (mk_cworld (stream_drop_rx r (conn w)) (clog w) (ctaken w) (cborn w)).
Proof.
  apply croutes_shrink; cbn; [done|apply alter_shrinks, drop_rx_shrinks|].
  intros s q Hs. split; [done|]. intros p p' Hp Hp' h. destruct (decide (r = q)) as [->|].
  - rewrite lookup_alter_eq, Hp in Hp'. injection Hp' as <-. destruct h; cbn; by rewrite view_drop_rx.
  - rewrite lookup_alter_ne in Hp' by done. congruence.
Qed.

Lemma croutes_clear w : croutes_ok w -> croutes_ok (mk_cworld (clear_cstreams (conn w)) (clog w) (ctaken w) (cborn w)).
Proof.
  apply croutes_shrink; cbn; [done|apply drop_all_shrinks|]. intros s q Hs. by rewrite lookup_empty in Hs.
Qed.

(** Receiving moves a body from its half to the task and changes nothing
    else. *)
Lemma recv_conserves p :
  closed_ok item_recv p ->
  let '(p', x) := prio_recv item_recv p in
  closed_ok item_recv p' /\
  forall h, ch_cap (view (half h p')) = ch_cap (view (half h p)) /\ ch_rx (view (half h p')) = ch_rx (view (half h p)) /\
    ch_tx (view (half h p')) = ch_tx (view (half h p)) /\
    ch_items (view (half h p))
    = (match x with Got b => if same_half (next_half p) h then [b] else [] | _ => [] end) ++ ch_items (view (half h p')).
Proof.
  intros K. destruct (prio_recv_spec item_recv p K) as (p' & E & K' & Hh).
  pose proof (prio_recv_keeps item_recv (fun h x => ch_cap (view x) = ch_cap (view (half h p)) /\
    ch_rx (view x) = ch_rx (view (half h p)) /\ ch_tx (view x) = ch_tx (view (half h p))) p) as Keep.
  rewrite E in *. split; [done|]. intros h. cbn [fst] in Keep.
  destruct (Keep) with (h := h) as (-> & -> & ->); [|by intros []|].
  { intros k x (<- & <- & <-). unfold item_recv. pose proof (view_recv x) as V. cbn zeta in V.
    destruct (ch_recv x) as [x' q]. destruct (ch_items (view x)); injection V as Ev ->; [destruct (ch_tx (view x)) eqn:Et|];
      cbn; by rewrite Ev, ?Et. }
  split_and!; [done..|]. destruct (Hh h) as [Hi' _]. cbn [held item_polled] in Hi'. rewrite Hi'.
  unfold held_after, recv_spec, next_half. cbn [held open item_polled].
  destruct (ch_items (view (hi p))) as [|a ha] eqn:Ea; destruct (ch_items (view (lo p))) as [|b hb] eqn:Eb;
    destruct h; cbn [half]; rewrite ?Ea, ?Eb; cbn; try done; destruct (_ || _); done.
Qed.

Lemma handed_snoc h r q k b l :
  handed h r (l ++ [(q, (k, b))]) = handed h r l ++ (if bool_decide (q = r) && same_half k h then [b] else []).
Proof. rewrite handed_app. f_equal. cbn. by destruct (bool_decide (q = r) && same_half k h). Qed.

(** A channel of a world changes together with what its task was handed. *)
Lemma croutes_chan w c r p p' l b :
  schans (conn w) !! r = Some p -> schans c = <[r := p']> (schans (conn w)) ->
  cstreams c = cstreams (conn w) -> cnext c = cnext (conn w) ->
  closed_ok item_recv p' ->
  (forall h, ch_cap (view (half h p')) = ch_cap (view (half h p)) /\ ch_rx (view (half h p')) = ch_rx (view (half h p)) /\
    ch_tx (view (half h p')) = ch_tx (view (half h p)) /\
    ch_items (view (half h p)) = b h ++ ch_items (view (half h p'))) ->
  (forall q h, handed h q l = handed h q (ctaken w) ++ (if bool_decide (q = r) then b h else [])) ->
  croutes_ok w -> croutes_ok (mk_cworld c (clog w) l (cborn w)).
Proof.
  intros Ep Ec Es En Kc' Hp Hl [Ks Kb Kf]. split; cbn [conn clog ctaken cborn].
  - intros q sid k Hb. destruct (Ks q sid k Hb) as [S1 S2 (p0 & Hp0 & Kc & Hcap & Hrx & j & Hj & Hg & Hr)].
    split; cbn [conn clog ctaken]; [by rewrite En|done|]. rewrite Ec, Es. destruct (decide (q = r)) as [->|Hne].
    + assert (p0 = p) as -> by congruence. exists p'. rewrite lookup_insert_eq. split; [done|]. split; [done|].
      destruct (Hp Hi) as (_ & Xh & _), (Hp Lo) as (_ & Xl & _). cbn [half] in Xh, Xl.
      split; [|split; [congruence|exists j; split; [done|split]]].
      * intros h. destruct (Hp h) as (-> & _ & _ & E). split; [apply Hcap|].
        destruct (Hcap h) as [_ L]. rewrite E, length_app in L. lia.
      * intros h. destruct (Hp h) as (_ & -> & _ & E). rewrite Hl, bool_decide_true, <- app_assoc, <- E by done. apply Hg.
      * intros Hs. destruct (Hr Hs) as [Hr1 Hr2]. rewrite Xh. split; [|done].
        intros h. destruct (Hp h) as (_ & _ & -> & _). apply Hr1.
    + exists p0. rewrite lookup_insert_ne by done. split; [done|]. split; [done|]. split; [done|]. split; [done|].
      exists j. split; [done|]. split; [|done]. intros h. rewrite Hl, bool_decide_false, app_nil_r by done. apply Hg.
  - by rewrite Es.
  - intros q Hq. destruct (Kf q Hq) as [E1 E2]. assert (q <> r) by congruence.
    rewrite Ec, lookup_insert_ne by done. split; [|done]. intros h. by rewrite Hl, E1, bool_decide_false.
Qed.

Lemma croutes_recv w r : croutes_ok w -> croutes_ok (conn_step w (CRecv r)).
Proof.
  intros K. cbn [conn_step]. unfold stream_recv. destruct (schans (conn w) !! r) as [p|] eqn:Ep; [|by apply croutes_same].
  assert (Kc : closed_ok item_recv p).
  { destruct (cborn w !! r) as [[sid k]|] eqn:Eb.
    - destruct (co_streams _ K r sid k Eb) as [_ _ (q & Hq & Kc & _)]. congruence.
    - destruct (co_fresh _ K r Eb). congruence. }
  pose proof (recv_conserves p Kc) as R. destruct (prio_recv item_recv p) as [p' x]. destruct R as [Kc' Hp].
  refine (croutes_chan w (set_cstreams (cstreams (conn w)) (<[r:=p']> (schans (conn w))) (conn w)) r p p' _
    (fun h => match x with Got b => if same_half (next_half p) h then [b] else [] | _ => [] end) Ep eq_refl eq_refl eq_refl Kc' Hp _ K).
  intros q h. destruct x as [|b|]; [by case_bool_decide; rewrite app_nil_r| |by case_bool_decide; rewrite app_nil_r].
  rewrite handed_snoc. f_equal. rewrite (bool_decide_ext (r = q) (q = r)) by done. by case_bool_decide.
Qed.

(** Opening a stream; a stream that had the id loses its sender. *)
Lemma new_chan_ok : let p := item_prio_channel (E:=Body) (Ch:=BCh) STREAM_HI_CAP STREAM_LO_CAP in
  forall h, view (half h p) = mk_view (Some (cap_of h)) [] true true.
Proof. intros p []; cbn; by rewrite view_new. Qed.

Lemma croutes_open w sid id sz :
  croutes_ok w ->
  croutes_ok (mk_cworld (open_session_stream sid id sz (conn w)) (clog w) (ctaken w)
    (<[cnext (conn w) := (sid, length (clog w))]> (cborn w))).
Proof.
  intros K. pose proof (croutes_unregister w sid K) as [Ks Kb Kf]. cbn [conn clog ctaken cborn] in *.
  set (r0 := cnext (conn w)).
  assert (En : cnext (unregister sid (conn w)) = r0) by (unfold unregister; by destruct (cstreams (conn w) !! sid)).
  assert (Hb0 : cborn w !! r0 = None).
  { destruct (cborn w !! r0) as [[s k]|] eqn:E; [|done]. destruct (Ks r0 s k E) as [L _ _]. cbn in L. lia. }
  destruct (Kf r0 Hb0) as [Ht0 _]. unfold open_session_stream. fold r0.
  split; cbn [conn clog ctaken cborn cstreams schans cnext].
  - intros r s k Hb. destruct (decide (r = r0)) as [->|Hne].
    + rewrite lookup_insert_eq in Hb. injection Hb as <- <-. split; cbn [conn clog ctaken schans cstreams cnext]; [lia|done|].
      eexists. rewrite lookup_insert_eq. split; [done|]. split; [by split|]. pose proof new_chan_ok as Nc. cbn zeta in Nc.
      split; [intros h; rewrite Nc; cbn; split; [done|lia]|]. split; [exact (eq_trans (f_equal ch_rx (Nc Hi)) (eq_sym (f_equal ch_rx (Nc Lo))))|].
      exists O. rewrite drop_all. split; [cbn; lia|]. split; [|by split; intros; rewrite ?Nc].
      intros h. rewrite Nc, Ht0. done.
    + rewrite lookup_insert_ne in Hb by done. destruct (Ks r s k Hb) as [S1 S2 (p & Hp & Kc & Hcap & Hrx & j & Hj & Hg & Hr)].
      cbn [conn clog ctaken] in *.
      split; cbn [conn clog ctaken schans cstreams cnext]; [lia|done|]. exists p. rewrite lookup_insert_ne by done.
      split; [done|]. split; [done|]. split; [done|]. split; [done|]. exists j. split; [done|]. split; [done|].
      intros Hs. apply Hr. destruct (decide (s = sid)) as [->|]; [|by rewrite lookup_insert_ne in Hs].
      rewrite lookup_insert_eq in Hs. congruence.
  - intros s r Hs. destruct (decide (s = sid)) as [->|Hne].
    + rewrite lookup_insert_eq in Hs. injection Hs as <-. rewrite lookup_insert_eq. eauto.
    + rewrite lookup_insert_ne in Hs by done. destruct (Kb s r Hs) as [k Hk]. exists k.
      rewrite lookup_insert_ne; [done|]. intros <-. congruence.
  - intros r Hr. apply lookup_insert_None in Hr as [Hr Hne]. destruct (Kf r Hr) as [E1 E2].
    rewrite lookup_insert_ne by done. done.
Qed.

(** What [route_body] does to a registered stream. *)
Lemma route_body_cases sid b (c : ConnT) r p :
  cstreams c !! sid = Some r -> schans c !! r = Some p ->
  exists x, let v := view (half (body_half b) p) in
    let c' := set_cstreams (cstreams c) (<[r := set_half (body_half b) x p]> (schans c)) c in
    if ch_rx v && has_room v
    then view x = mk_view (ch_cap v) (ch_items v ++ [b]) (ch_tx v) true /\ route_body sid b c = c'
    else view x = v /\ route_body sid b c = unregister sid c'.
Proof.
  intros Hs Hp. unfold route_body. rewrite Hs, Hp. pose proof (view_send b (half (body_half b) p)) as V. cbn zeta in V.
  destruct (ch_send b _) as [x s]. exists x. cbn zeta.
  destruct (ch_rx _) eqn:Rx; cbn [negb andb] in *; [destruct (has_room _) eqn:Rm|]; injection V as Ev ->; done.
Qed.

Lemma set_half_shrinks h x p : view x = view (half h p) -> chan_shrinks p (set_half h x p).
Proof.
  intros E. split.
  - intros [Kh Kl]. destruct h; split; cbn in *; rewrite ?E; auto.
  - intros []; destruct h; cbn in *; by rewrite ?E.
  - left. intros []; destruct h; cbn in *; by rewrite ?E.
Qed.

(** A body that its stream cannot take ends the stream. *)
Lemma croutes_refused w sid b r p x :
  cstreams (conn w) !! sid = Some r -> schans (conn w) !! r = Some p -> view x = view (half (body_half b) p) ->
  croutes_ok w ->
  croutes_ok (mk_cworld
    (unregister sid (set_cstreams (cstreams (conn w)) (<[r := set_half (body_half b) x p]> (schans (conn w))) (conn w)))
    (clog w ++ [(sid, b)]) (ctaken w) (cborn w)).
Proof.
  intros Hs Hp Ex K. unfold unregister. cbn [cstreams set_cstreams]. rewrite Hs. apply croutes_skip; cbn; [done| | |done].
  - split.
    + intros q p0 Hq. destruct (decide (r = q)) as [<-|Hne].
      * rewrite lookup_alter_eq, lookup_insert_eq. eexists. split; [done|]. assert (p0 = p) as -> by congruence.
        eapply shrinks_trans; [by apply set_half_shrinks|apply drop_tx_shrinks].
      * rewrite lookup_alter_ne, lookup_insert_ne by done. eauto using shrinks_refl.
    + intros q Hq. rewrite lookup_alter_ne, lookup_insert_ne by congruence. done.
  - intros s q [Hne Hq]%lookup_delete_Some. split; [done|]. split; [by destruct (Z.eqb_spec sid s)|].
    intros p0 p' Hp0 Hp' h. assert (r <> q) by (intros ->; by destruct (registered_once w s sid q K)).
    rewrite lookup_alter_ne, lookup_insert_ne in Hp' by done. congruence.
Qed.

(** A body its stream takes. *)
Lemma croutes_accepted w sid b r p x :
  cstreams (conn w) !! sid = Some r -> schans (conn w) !! r = Some p ->
  (let v := view (half (body_half b) p) in
   ch_rx v = true /\ has_room v = true /\ view x = mk_view (ch_cap v) (ch_items v ++ [b]) (ch_tx v) true) ->
  croutes_ok w ->
  croutes_ok (mk_cworld
    (set_cstreams (cstreams (conn w)) (<[r := set_half (body_half b) x p]> (schans (conn w))) (conn w))
    (clog w ++ [(sid, b)]) (ctaken w) (cborn w)).
Proof.
  intros Hs Hp (Rx & Rm & Ex) [Ks Kb Kf]. split; cbn [conn clog ctaken cborn set_cstreams cstreams schans cnext].
  - intros q s k Hb. destruct (Ks q s k Hb) as [S1 S2 (p0 & Hp0 & Kc & Hcap & Hrx & j & Hj & Hg & Hr)].
    split; cbn [conn clog ctaken set_cstreams cstreams schans cnext]; [done|rewrite length_app; lia|].
    rewrite addressed_snoc by done. rewrite (Z.eqb_sym sid s). destruct (decide (q = r)) as [->|Hne].
    + assert (p0 = p) as -> by congruence. destruct (Kb sid r Hs) as [k' Hb']. assert (s = sid) as -> by congruence.
      rewrite Z.eqb_refl, lookup_insert_eq. exists (set_half (body_half b) x p). split; [done|].
      destruct (Hr Hs) as [Ht Hl].
      assert (Hrx' : ch_rx (view (hi p)) = true /\ ch_rx (view (lo p)) = true) by (destruct (body_half b); cbn in *; split; congruence).
      destruct Hrx' as [Rh Rl]. specialize (Hl Rh). subst j. rewrite firstn_all in Hg.
      pose proof (Ht Hi) as Th. pose proof (Ht Lo) as Tl. cbn [half] in Th, Tl. split.
      { destruct Kc as [Kh Kl]. split; destruct (body_half b); cbn; intros E; first [destruct (Kh E)|destruct (Kl E)]; cbn in *; congruence. }
      assert (Hv : forall h, view (half h (set_half (body_half b) x p)) =
         mk_view (Some (cap_of h)) (ch_items (view (half h p)) ++ (if same_half (body_half b) h then [b] else [])) true true).
      { intros h. destruct (Hcap h) as [Ec _], (body_half b), h; cbn in *; rewrite ?Ex, ?Ec, ?Th, ?Tl; cbn; rewrite ?app_nil_r; try done;
          [destruct (view (lo p))|destruct (view (hi p))]; cbn in *; congruence. }
      split; [|split; [exact (eq_trans (f_equal ch_rx (Hv Hi)) (eq_sym (f_equal ch_rx (Hv Lo))))|]].
      { intros h. rewrite Hv. cbn [ch_cap ch_items]. split; [done|]. destruct (Hcap h) as [Ec El]. rewrite length_app.
        destruct (same_half (body_half b) h) eqn:Eh; cbn; [|lia]. assert (Eb : body_half b = h) by (by destruct (body_half b), h).
        rewrite Eb in Rm. unfold has_room in Rm. rewrite Ec in Rm. apply bool_decide_eq_true in Rm. lia. }
      eexists. split; [reflexivity|]. rewrite firstn_all. split; [|split; [intros h; by rewrite Hv|done]].
      intros h. rewrite Hv. cbn [ch_items ch_rx]. destruct (Hg h) as [_ E].
      rewrite app_assoc, E by (destruct h; done). rewrite in_half_app. cbn.
      destruct (same_half (body_half b) h); done.
    + exists p0. rewrite lookup_insert_ne by done. split; [done|]. split; [done|]. split; [done|]. split; [done|].
      exists j. rewrite take_prefix, length_app by done. split; [lia|]. split; [done|].
      intros Hq. destruct (Z.eqb_spec s sid) as [->|Hd]; [congruence|]. cbn. rewrite Nat.add_0_r. auto.
  - done.
  - intros q Hq. destruct (Kf q Hq) as [E1 E2]. rewrite lookup_insert_ne by congruence. done.
Qed.

Lemma croutes_deliver w sid b :
  croutes_ok w -> croutes_ok (mk_cworld (route_body sid b (conn w)) (clog w ++ [(sid, b)]) (ctaken w) (cborn w)).
Proof.
  intros K. destruct (cstreams (conn w) !! sid) as [r|] eqn:Hs.
  - destruct (co_born _ K _ _ Hs) as [k Hb]. destruct (cs_chan _ _ _ _ (co_streams _ K _ _ _ Hb)) as (p & Hp & _).
    destruct (route_body_cases sid b (conn w) r p Hs Hp) as (x & Hx). cbn zeta in Hx.
    destruct (ch_rx _ && has_room _) eqn:E; destruct Hx as [Ex ->].
    + apply andb_true_iff in E as [E1 E2]. by apply croutes_accepted.
    + by eapply croutes_refused.
  - unfold route_body. rewrite Hs. apply croutes_skip; [done|split; eauto using shrinks_refl| |done].
    intros s r Hr. split; [done|]. split; [|congruence]. cbn. destruct (Z.eqb_spec sid s); [congruence|done].
Qed.

(** ** The invariant holds of every history *)

Lemma croutes_step w e : croutes_ok w -> croutes_ok (conn_step w e).
Proof.
  intros K. destruct e as [f|r|r|sid|f|]; cbn [conn_step].
  - unfold agent_turn. destruct (Z.eqb_spec (stream_id f) 0) as [E|E].
    + destruct (body f); cbn [fst]; try (by apply croutes_same); [].
      destruct (send_frame_to_hub _ _) as [x s]. by apply croutes_same.
    + unfold is_open_frame. destruct (body f) eqn:Ef; cbn [fst];
        try (by apply croutes_deliver); by apply croutes_open.
  - by apply croutes_recv.
  - by apply croutes_drop_rx.
  - by apply croutes_unregister.
  - by apply croutes_same.
  - by apply croutes_clear.
Qed.

Lemma croutes_run es : croutes_ok (conn_run es).
Proof.
  unfold conn_run. assert (K : croutes_ok (mk_cworld (new_conn (WCh:=WCh) (Sem:=Sem) (BCh:=BCh)) [] [] ∅)).
  { split; cbn; [intros r s k Hr; by rewrite lookup_empty in Hr|intros s r Hr; by rewrite lookup_empty in Hr|].
    intros r _. split; [done|]. apply lookup_empty. }
  revert K. generalize (mk_cworld (new_conn (WCh:=WCh) (Sem:=Sem) (BCh:=BCh)) [] [] ∅).
  induction es as [|e es IH]; intros w K; [done|]. cbn [foldl]. by apply IH, croutes_step.
Qed.

(** ** Properties *)

(** Whatever the connection's tasks do and in whatever order: for each
    stream there is a cut in the frames the hub addressed to it since it was
    opened, such that from either half of its channel the stream's task was
    handed, in order and without a gap, the frames of that half before the
    cut, followed by those still queued; while the task is there that is all
    of them, and while the stream is also registered the cut is at the end, so
    nothing was lost.  Neither half ever holds more than its capacity. *)
Theorem stream_task_input es r sid k :
  let w := conn_run es in
  cborn w !! r = Some (sid, k) ->
  exists p j, schans (conn w) !! r = Some p /\
    let sent := addressed sid (drop k (clog w)) in
    (forall h, let got := handed h r (ctaken w) ++ ch_items (view (half h p)) in
      (length (ch_items (view (half h p))) <= cap_of h)%nat /\
      got `prefix_of` in_half h (take j sent) /\
      (ch_rx (view (half h p)) = true -> got = in_half h (take j sent)) /\
      (ch_rx (view (half h p)) = true -> cstreams (conn w) !! sid = Some r -> take j sent = sent)).
Proof.
  intros w Hb. destruct (co_streams _ (croutes_run es) r sid k Hb) as [_ _ (p & Hp & _ & Hcap & Hrx & j & _ & Hg & Hr)].
  exists p, j. split; [done|]. intros sent h got. destruct (Hg h) as [G1 G2]. destruct (Hcap h) as [_ L].
  split; [done|]. split; [done|]. split; [done|]. intros Rx Hs. destruct (Hr Hs) as [_ E].
  rewrite E; [apply firstn_all|]. destruct h; cbn in Rx; congruence.
Qed.

(** What a turn can do to a connection's registry. *)
Record only_stream (sid : Z) (c c' : ConnT) : Prop := {
  os_writer : cwriter c' = cwriter c;
  os_streams : forall s, s <> sid -> cstreams c' !! s = cstreams c !! s;
  os_chans : forall r, (r < cnext c)%nat -> cstreams c !! sid <> Some r -> schans c' !! r = schans c !! r;
}.

Lemma only_unregister sid (c : ConnT) : only_stream sid c (unregister sid c).
Proof.
  unfold unregister. destruct (cstreams c !! sid) as [q|] eqn:Hq; [|by split].
  split; cbn; [done|intros s Hs; by rewrite lookup_delete_ne|]. intros r _ Hr. rewrite lookup_alter_ne; [done|congruence].
Qed.

Lemma only_route sid b (c : ConnT) : only_stream sid c (route_body sid b c).
Proof.
  unfold route_body. destruct (cstreams c !! sid) as [r|] eqn:Hs; [|by split].
  destruct (schans c !! r) as [p|] eqn:Hp; [|by split]. destruct (ch_send b _) as [x sent].
  set (d := set_cstreams _ _ _).
  assert (D : only_stream sid c d) by (split; [done|done|]; intros q _ Hq; cbn; apply lookup_insert_ne; congruence).
  destruct sent; [done|destruct D as [D1 D2 D3], (only_unregister sid d) as [U1 U2 U3]..]; (split; [congruence| |]).
  1,3: intros s Hn; rewrite U2 by done; apply D2, Hn.
  all: intros q Hl Hq; rewrite U3 by done; by apply D3.
Qed.

Lemma only_open sid id sz (c : ConnT) : only_stream sid c (open_session_stream sid id sz c).
Proof.
  destruct (only_unregister sid c) as [U1 U2 U3]. split; cbn; [done| |].
  - intros s Hs. rewrite lookup_insert_ne by done. by apply U2.
  - intros r Hl Hr. rewrite lookup_insert_ne by lia. by apply U3.
Qed.

(** The reader of a connection never waits on a stream: a frame for a
    stream always leads to the next turn, leaves the writer queue alone, and
    changes at most the registry entry of that stream and the channel
    registered under it. *)
Lemma agent_reader_never_waits f (c : ConnT) :
  stream_id f <> 0 ->
  let '(c', t) := agent_turn f c in
  t = TNext /\ cwriter c' = cwriter c /\
  (forall s, s <> stream_id f -> cstreams c' !! s = cstreams c !! s) /\
  (forall r, (r < cnext c)%nat -> cstreams c !! stream_id f <> Some r -> schans c' !! r = schans c !! r).
Proof.
  intros E. unfold agent_turn. destruct (Z.eqb_spec (stream_id f) 0) as [|_]; [done|].
  assert (C : forall c', only_stream (stream_id f) c c' -> cwriter c' = cwriter c /\
    (forall s, s <> stream_id f -> cstreams c' !! s = cstreams c !! s) /\
    (forall r, (r < cnext c)%nat -> cstreams c !! stream_id f <> Some r -> schans c' !! r = schans c !! r)) by (by intros c' []).
  destruct (body f); (split; [done|]); apply C; first [apply only_open|apply only_route].
Qed.
End Routing.

(** ** Requests from the hub *)

Section Rpc.
Context {HCh HSem HBCh : Type} `{MpscLaws (Z * list byte) HCh} `{SemaphoreLaws HSem} `{Mpsc Body HBCh}.
Abbreviation LinkT := (AgentLink HCh HSem HBCh).

(** A request that was accepted is queued, whole, behind what the control half
    held, and waited for. *)
Lemma rpc_sent who build (l : LinkT) :
  bytes_ok (hi (writer l)) -> writer_half (ty (build (next_request_id l))) = Hi ->
  let '(l1, (id, r)) := rpc_start who build l in
  id = next_request_id l /\
  (r = SendOk -> held (hi (writer l1)) = held (hi (writer l)) ++ [encode (build id)] /\ pending_rpcs l1 !! id = Some who).
Proof.
  intros K Hh. unfold rpc_start, send_frame. rewrite Hh. cbn [half writer].
  destruct (bytes_send_spec (encode (build (next_request_id l))) _ K) as (b & r & -> & _ & _ & _ & R).
  destruct r; cbv beta iota; (split; [done|]); intros Hr; try discriminate Hr.
  destruct R as [(? & _ & _)|[(? & _ & _)|(_ & _ & Eh)]]; try done. split; [exact Eh|]. apply lookup_insert_eq.
Qed.

(** Its answer is handed to exactly the call that waits for it. *)
Lemma rpc_returned who id f n (l : LinkT) :
  stream_id f = 0 -> reply_id (body f) = Some id -> pending_rpcs l !! id = Some who ->
  let '(l2, t) := reader_turn f n l in
  t = Next /\ pending_rpcs l2 !! id = None /\ rpc_finish who id false l2 = (l2, inr (body f)).
Proof.
  intros Hs Hb Hp. unfold reader_turn. rewrite Hs. cbn [Z.eqb].
  assert (A : let l2 := deliver_reply id (body f) (count_in n l) in
    pending_rpcs l2 !! id = None /\ rpc_finish who id false l2 = (l2, inr (body f))).
  { unfold deliver_reply, rpc_finish. cbn [pending_rpcs count_in]. rewrite Hp. cbn. by rewrite lookup_delete_eq, lookup_insert_eq. }
  destruct (body f) eqn:E; try discriminate Hb; injection Hb as ->; by split.
Qed.
End Rpc.

Section Kill.
Context {HCh HSem HBCh WCh Sem BCh : Type}.
Context `{MpscLaws (Z * list byte) HCh} `{SemaphoreLaws HSem} `{Mpsc Body HBCh}.
Context `{Mpsc (Z * list byte) WCh} `{Semaphore Sem} `{Mpsc Body BCh}.

Lemma kill_session_wf id sid : u32 id -> is_valid_session_id sid = true -> wf_frame (kill_session id sid).
Proof. intros U V. split; cbn; try done. split; [done|by apply session_id_utf8]. Qed.
Lemma kill_ack_wf id st : u32 id -> 0 <= st <= 1 -> wf_frame (kill_session_ack id st).
Proof. intros U V. split; cbn; try done; unfold u8, KILL_STATUS_MAX, KILL_STATUS_NOT_FOUND; split_and?; try done; lia. Qed.

(** [C14] Killing a session from the hub, all the way: the request that was
    accepted for sending is queued, whole, behind what the link's control half
    held; the agent decodes it and spawns the task for it; the task takes the
    session out of the registry and kills it if there was one; and the hub,
    as long as the call still waits, decodes the acknowledgement, hands it to
    exactly that call and answers whether the session existed. *)
Theorem kill_session_end_to_end (l : AgentLink HCh HSem HBCh) (c : Conn WCh Sem BCh) m who sid n :
  bytes_ok (hi (writer l)) -> u32 (next_request_id l) -> is_valid_session_id sid = true ->
  let '(l1, (id, r)) := rpc_start who (fun id => kill_session id sid) l in
  let request := kill_session id sid in
  let '(m', ack) := kill_session_task id sid m in
  r = SendOk ->
  held (hi (writer l1)) = held (hi (writer l)) ++ [encode request] /\ pending_rpcs l1 !! id = Some who /\
  frame_from_ws_payload (encode request) = Ok (request, len (encode request)) /\
  agent_turn request c = (spawn_task (SpKillSession id sid) c, TNext) /\
  Manager.map m' = delete sid (Manager.map m) /\ killed m' = killed m ++ option_list (Manager.map m !! sid) /\
  frame_from_ws_payload (encode ack) = Ok (ack, len (encode ack)) /\
  forall l' : AgentLink HCh HSem HBCh, pending_rpcs l' !! id = Some who ->
    let '(l2, t) := reader_turn ack n l' in
    t = Next /\ pending_rpcs l2 !! id = None /\
    match (rpc_finish who id false l2).2 with
    | inr b => kill_session_result b = inr (bool_decide (is_Some (Manager.map m !! sid)))
    | inl _ => False
    end.
Proof.
  intros K U V. pose proof (rpc_sent who (fun id => kill_session id sid) l K eq_refl) as S.
  destruct (rpc_start who _ l) as [l1 [id r]]. destruct S as [-> S]. destruct (kill_session_task _ sid m) as [m' ack] eqn:Et.
  intros request Hr. destruct (S Hr) as [Sq Sp].
  assert (Ea : ack = kill_session_ack (next_request_id l) (if bool_decide (is_Some (Manager.map m !! sid)) then KILL_STATUS_OK else KILL_STATUS_NOT_FOUND) /\
    Manager.map m' = delete sid (Manager.map m) /\ killed m' = killed m ++ option_list (Manager.map m !! sid)).
  { unfold kill_session_task, remove in Et. destruct (Manager.map m !! sid) as [q|]; injection Et as <- <-; [done|].
    split; [done|]. split; [done|]. symmetry. apply app_nil_r. }
  destruct Ea as (-> & Em & Ek). split; [done|]. split; [done|]. split; [by apply ws_payload_encode, kill_session_wf|].
  split; [done|]. split; [done|]. split; [done|]. split.
  { apply ws_payload_encode, kill_ack_wf; [done|]. by case_bool_decide. }
  intros l' Hl. pose proof (rpc_returned who (next_request_id l) (kill_session_ack (next_request_id l)
    (if bool_decide (is_Some (Manager.map m !! sid)) then KILL_STATUS_OK else KILL_STATUS_NOT_FOUND)) n l' eq_refl eq_refl Hl) as R.
  destruct (reader_turn _ n l') as [l2 t]. destruct R as (-> & Hn & ->). split; [done|]. split; [done|].
  cbn [snd body kill_session_ack kill_session_result]. by case_bool_decide.
Qed.
End Kill.

(** ** Reconnecting *)

(** An attempt that resets the backoff. *)
Definition healthy (a : Attempt) : bool := at_ok a && (HEALTHY_SESSION <=? at_lasted a).

Lemma reconnect_loop_app b l l' :
  reconnect_loop b (l ++ l') =
  let '(s, b) := reconnect_loop b l in let '(s', b) := reconnect_loop b l' in (s ++ s', b).
Proof.
  revert b. induction l as [|a l IH]; intros b; cbn [reconnect_loop app].
  - by destruct (reconnect_loop b l').
  - destruct (reconnect b a) as [s b1]. rewrite IH. destruct (reconnect_loop b1 l) as [ss b2].
    by destruct (reconnect_loop b2 l').
Qed.

(** The backoff is the initial one doubled some number of times, up to the
    maximum. *)
Definition backoff_at (k : nat) : Z := Z.min (RECONNECT_INITIAL * 2 ^ Z.of_nat k) RECONNECT_MAX.

Lemma backoff_next k : Z.min (backoff_at k * 2) RECONNECT_MAX = backoff_at (S k).
Proof.
  unfold backoff_at, RECONNECT_MAX, RECONNECT_INITIAL. rewrite Nat2Z.inj_succ, Z.pow_succ_r by lia.
  assert (0 < 2 ^ Z.of_nat k) by (apply Z.pow_pos_nonneg; lia). lia.
Qed.

Lemma backoff_range k : RECONNECT_INITIAL <= backoff_at k <= RECONNECT_MAX.
Proof.
  unfold backoff_at, RECONNECT_MAX, RECONNECT_INITIAL. assert (0 < 2 ^ Z.of_nat k) by (apply Z.pow_pos_nonneg; lia). lia.
Qed.

Lemma reconnect_fails l k :
  Forall (fun a => healthy a = false) l ->
  reconnect_loop (backoff_at k) l = (backoff_at <$> seq k (length l), backoff_at (k + length l)).
Proof.
  revert k. induction l as [|a l IH]; intros k Hl; [by rewrite Nat.add_0_r|]. apply Forall_cons in Hl as [Ha Hl].
  cbn [reconnect_loop]. unfold reconnect. unfold healthy in Ha. rewrite Ha, backoff_next, IH by done.
  cbn. do 2 f_equal. lia.
Qed.

Lemma reconnect_range l k :
  let '(ss, b) := reconnect_loop (backoff_at k) l in
  (exists j, b = backoff_at j) /\ Forall (fun s => RECONNECT_CLEAN <= s <= RECONNECT_MAX) ss /\ length ss = length l.
Proof.
  revert k. induction l as [|a l IH]; intros k; cbn [reconnect_loop]; [eauto|]. unfold reconnect.
  destruct (at_ok a && _).
  - specialize (IH O). change (backoff_at 0) with RECONNECT_INITIAL in IH. destruct (reconnect_loop RECONNECT_INITIAL l) as [ss b].
    destruct IH as (? & ? & ?). split; [done|]. split; [|cbn; lia]. constructor; [done|done].
  - rewrite backoff_next. specialize (IH (S k)). destruct (reconnect_loop (backoff_at (S k)) l) as [ss b].
    destruct IH as (? & ? & ?). split; [done|]. split; [|cbn; lia]. constructor; [|done].
    pose proof (backoff_range k). unfold RECONNECT_CLEAN, RECONNECT_INITIAL in *. lia.
Qed.

(** The agent always tries again: after every connection that ended it
    sleeps between a quarter of a second and a minute, whatever happened
    before; and the attempts since the start, or since the last connection
    that was healthy, back off by doubling from one second up to a minute. *)
Theorem reconnect_backs_off before recent :
  Forall (fun a => healthy a = false) recent ->
  (match last before with Some a => healthy a = true | None => True end) ->
  let '(sleeps, _) := reconnect_loop RECONNECT_INITIAL (before ++ recent) in
  length sleeps = length (before ++ recent) /\
  Forall (fun s => RECONNECT_CLEAN <= s <= RECONNECT_MAX) sleeps /\
  drop (length before) sleeps = (fun k => Z.min (1000 * 2 ^ Z.of_nat k) 60000) <$> seq 0 (length recent).
Proof.
  intros Hr Hb. pose proof (reconnect_range (before ++ recent) 0) as R. change (backoff_at 0) with RECONNECT_INITIAL in R.
  rewrite reconnect_loop_app in *. pose proof (reconnect_range before 0) as Rb. change (backoff_at 0) with RECONNECT_INITIAL in Rb.
  assert (E : (reconnect_loop RECONNECT_INITIAL before).2 = backoff_at 0).
  { destruct before as [|a l _] using rev_ind; [done|]. rewrite last_snoc in Hb. rewrite reconnect_loop_app.
    destruct (reconnect_loop RECONNECT_INITIAL l) as [s b]. cbn [reconnect_loop]. unfold reconnect. unfold healthy in Hb.
    by rewrite Hb. }
  destruct (reconnect_loop RECONNECT_INITIAL before) as [s b]. cbn [snd] in E. subst b. rewrite reconnect_fails in * by done.
  destruct R as (_ & R1 & R2), Rb as (_ & _ & L). split; [done|]. split; [done|]. by rewrite <- L, drop_app_length.
Qed.

(** ** Witnesses *)

Abbreviation sample_conn := (conn_run (WCh:=ChanView (Z * list byte)) (Sem:=Z) (BCh:=ChanView Body)).
Definition sample_conn_events : list ConnEvent :=
  [CFrame (mk_frame 3 (Bd.Open (lit "main") (24, 80))); CFrame (data 3 (lit "a"));
   CFrame (mk_frame 3 (Bd.PasteChunk 1 (lit "p"))); CFrame (data 3 (lit "b")); CRecv 0; CRecv 0].

Lemma stream_task_input_witness :
  handed Hi 0 (ctaken (sample_conn sample_conn_events)) = [Bd.Data (lit "a"); Bd.Data (lit "b")] /\
  exists p j, schans (conn (sample_conn sample_conn_events)) !! 0%nat = Some p /\
    ch_items (view (half Lo p)) = [Bd.PasteChunk 1 (lit "p")] /\ take j [1%nat; 2%nat; 3%nat] = [1%nat; 2%nat; 3%nat].
Proof.
  split; [vm_compute; reflexivity|].
  assert (E : cborn (sample_conn sample_conn_events) !! 0%nat = Some (3, 0%nat)) by (vm_compute; reflexivity).
  destruct (stream_task_input sample_conn_events 0%nat 3 0%nat E) as (p & j & Hp & _). exists p, 3%nat.
  split; [exact Hp|]. split; [|reflexivity].
  assert (Q : schans (conn (sample_conn sample_conn_events)) !! 0%nat =
    Some (mk_prio (mk_view (Some 64%nat) [] true true) (mk_view (Some 16%nat) [Bd.PasteChunk 1 (lit "p")] true true) false false))
    by (vm_compute; reflexivity).
  rewrite Q in Hp. injection Hp as <-. reflexivity.
Defined.

Lemma agent_reader_never_waits_witness :
  let c := conn (sample_conn sample_conn_events) in
  stream_id (data 3 (lit "x")) <> 0 /\
  (agent_turn (data 3 (lit "x")) c).2 = TNext /\ cwriter (agent_turn (data 3 (lit "x")) c).1 = cwriter c.
Proof.
  cbn zeta. assert (E : stream_id (data 3 (lit "x")) <> 0) by discriminate. split; [exact E|].
  pose proof (agent_reader_never_waits (data 3 (lit "x")) (conn (sample_conn sample_conn_events)) E) as W.
  destruct (agent_turn (data 3 (lit "x")) (conn (sample_conn sample_conn_events))) as [c' t].
  destruct W as (W1 & W2 & _). split; [exact W1|exact W2].
Defined.

Definition sample_hub : AgentLink (ChanView (Z * list byte)) Z (ChanView Body) := new_link 20.
Definition sample_sessions : SessionManager :=
  mk_manager {[lit "main" := 4%nat]} ∅ 5 [].

Lemma kill_session_end_to_end_witness :
  let '(l1, (id, r)) := rpc_start 7 (fun id => kill_session id (lit "main")) sample_hub in
  r = SendOk /\ pending_rpcs l1 !! id = Some 7%nat /\
  killed (kill_session_task id (lit "main") sample_sessions).1 = [4%nat].
Proof.
  assert (K : bytes_ok (hi (writer sample_hub))) by (apply channel_ok; discriminate).
  assert (U : u32 (next_request_id sample_hub)) by (split; reflexivity || discriminate).
  assert (V : is_valid_session_id (lit "main") = true) by reflexivity.
  pose proof (kill_session_end_to_end sample_hub (new_conn (WCh:=ChanView (Z * list byte)) (Sem:=Z) (BCh:=ChanView Body))
    sample_sessions 7 (lit "main") 13 K U V) as W.
  assert (Er : (rpc_start 7 (fun id => kill_session id (lit "main")) sample_hub).2.2 = SendOk) by (vm_compute; reflexivity).
  destruct (rpc_start 7 (fun id => kill_session id (lit "main")) sample_hub) as [l1 [id r]].
  destruct (kill_session_task id (lit "main") sample_sessions) as [m' ack].
  destruct (W Er) as (_ & W2 & _ & _ & _ & W6 & _). split; [exact Er|]. split; [exact W2|]. cbn [fst]. rewrite W6. reflexivity.
Defined.

Lemma reconnect_backs_off_witness :
  reconnect_loop RECONNECT_INITIAL
    [mk_attempt false 10; mk_attempt true 40000; mk_attempt true 5; mk_attempt false 90000; mk_attempt false 1]
  = ([1000; 250; 1000; 2000; 4000], 8000) /\
  drop 2 [1000; 250; 1000; 2000; 4000] = (fun k => Z.min (1000 * 2 ^ Z.of_nat k) 60000) <$> seq 0 3.
Proof.
  split; [reflexivity|].
  assert (H1 : Forall (fun a => healthy a = false) [mk_attempt true 5; mk_attempt false 90000; mk_attempt false 1])
    by (repeat constructor).
  assert (H2 : match last [mk_attempt false 10; mk_attempt true 40000] with Some a => healthy a = true | None => True end)
    by reflexivity.
  exact (proj2 (proj2 (reconnect_backs_off [mk_attempt false 10; mk_attempt true 40000] _ H1 H2))).
Defined.
