(* ===== verification/EndToEnd.v ===== *)
(** * EndToEnd: between the browser and the shell

    The two directions of a connection as whole machines: the tasks that put
    frames in, the writer, the wire, the reader and its registry of streams
    ([Wire] with [LinkFacts] behind it on the way to the browser, and with
    [AgentFacts] on the way to the shell). *)

From Stdlib Require Import Strings.Byte.
From stdpp Require Import prelude strings list gmap.
From S2P Require Import Prelude Utf8 Std Tokio Prio Frame FrameFacts Transport Wire Session SessionFacts Manager DownloadFacts Paste StreamTask StreamTaskFacts StreamSafety Link LinkFacts Proxy Agent AgentFacts.

(** ** The browser's terminal *)

(** What a message writes to the browser's terminal: the payload of a Data
    frame. *)
Definition screen (m : WsMessage) : list byte :=
  match m with
  | WsBinary d =>
      match header_fields d with
      | Ok (_, t, _) => if t =? type_byte Ty.Data then drop (Z.to_nat HEADER_LEN) d else []
      | _ => []
      end
  | _ => []
  end.

Lemma header_fields_type f : exists s l, header_fields (encode f) = Ok (s, type_byte (ty f), l).
Proof.
  unfold header_fields, encode, be_at, be_enc, rds, rd. cbn. rewrite byte_val_type_byte. by do 2 eexists.
Qed.

Lemma screen_encode f : screen (WsBinary (encode f)) = data_bytes (body f).
Proof.
  cbn [screen]. destruct (header_fields_type f) as (s & l & ->). destruct f as [sid b]. destruct b; reflexivity.
Qed.
Lemma screen_to_ws b : screen (stream_to_ws b) = data_bytes b.
Proof. apply (screen_encode (mk_frame 0 b)). Qed.

Definition bodies_shown (bs : list Body) : list byte := concat (data_bytes <$> bs).
Lemma screen_all bs : concat (screen <$> (stream_to_ws <$> bs)) = bodies_shown bs.
Proof. unfold bodies_shown. induction bs as [|b bs IH]; [done|]. cbn [fmap list_fmap concat]. by rewrite IH, screen_to_ws. Qed.
Lemma bodies_shown_app a b : bodies_shown (a ++ b) = bodies_shown a ++ bodies_shown b.
Proof. unfold bodies_shown. by rewrite fmap_app, concat_app. Qed.
Lemma bodies_shown_prefix a b : a `prefix_of` b -> bodies_shown a `prefix_of` bodies_shown b.
Proof. intros [c ->]. rewrite bodies_shown_app. by apply prefix_app_r. Qed.
Lemma bodies_shown_frames fs : bodies_shown (body <$> fs) = shown fs.
Proof. unfold bodies_shown, shown. f_equal. by rewrite <- list_fmap_compose. Qed.

(** What a log of bodies by stream says of the frames it was made from. *)
Definition logged (keep : Frame -> bool) (fs : list Frame) : list (Z * Body) :=
  omap (fun f => if keep f then Some (stream_id f, body f) else None) fs.
Lemma addressed_logged keep sid fs :
  (forall f, keep f = false -> stream_id f = sid -> data_bytes (body f) = []) ->
  bodies_shown (addressed sid (logged keep fs)) = shown (on_stream sid fs).
Proof.
  intros Hk. induction fs as [|f fs IH]; [done|].
  assert (S : shown (on_stream sid (f :: fs)) = (if stream_id f =? sid then data_bytes (body f) else []) ++ shown (on_stream sid fs))
    by (unfold on_stream; cbn [List.filter]; by destruct (stream_id f =? sid)).
  rewrite S, <- IH. unfold logged. cbn [omap list_omap]. destruct (keep f) eqn:E; unfold addressed; cbn [omap list_omap].
  - by destruct (stream_id f =? sid).
  - destruct (Z.eqb_spec (stream_id f) sid); [|done]. by rewrite (Hk f).
Qed.
Lemma logged_snoc keep fs f : logged keep (fs ++ [f]) = logged keep fs ++ (if keep f then [(stream_id f, body f)] else []).
Proof. unfold logged. rewrite omap_app. f_equal. cbn. by destruct (keep f). Qed.

(** ** From the agent's tasks to the browser *)

Section Up.
Context {ACh ASem : Type} `{MpscLaws (Z * list byte) ACh} `{SemaphoreLaws ASem}.
Context {WCh Sem BCh : Type} `{MpscLaws (Z * list byte) WCh} `{SemaphoreLaws Sem} `{MpscLaws Body BCh}.
Abbreviation HubWorld := (LinkFacts.World (WCh:=WCh) (Sem:=Sem) (BCh:=BCh)).

(** The hub behind the wire: its reader takes a frame; anything else but
    frames happens to the link at any time. *)
Definition hub_takes (f : Frame) (n : Z) (w : HubWorld) : HubWorld := link_step w (LFrame f n).
Definition hub_other (e : LinkEvent) (w : HubWorld) : HubWorld := match e with LFrame _ _ => w | e => link_step w e end.
Definition on_data_stream (f : Frame) : bool := negb (stream_id f =? 0).

Definition up_run (hello : Z) (es : list (WireEvent (Other:=LinkEvent))) : Wire (Ch:=ACh) (Sem:=ASem) (Peer:=HubWorld) :=
  wire_run hub_half hub_takes hub_other WRITE_HI_BYTES WRITE_LO_BYTES (LinkFacts.mk_world (new_link hello) [] [] ∅ ∅) es.

Lemma link_step_log (w : HubWorld) e : (forall f n, e <> LFrame f n) -> log (link_step w e) = log w.
Proof.
  intros N. destruct e; cbn [link_step]; try done.
  - by destruct (open_stream _) as [l [sid r]].
  - by destruct (N f n).
  - by destruct (source_recv _ _).
  - destruct (started w !! who); [done|]. by destruct (rpc_start _ _ _) as [l [id r]].
Qed.

Lemma up_peer hello es :
  let w := up_run hello es in routes_ok (peer w) /\ log (peer w) = logged on_data_stream (got_frames w).
Proof.
  apply (wire_run_peer hub_half hub_takes hub_other (fun q fs => routes_ok q /\ log q = logged on_data_stream fs)).
  - split; [apply routes_init|done].
  - intros q fs f n [R L]. split; [by apply routes_step|]. rewrite logged_snoc, <- L. cbn [hub_takes link_step log].
    unfold on_data_stream. destruct (stream_id f =? 0); cbn; by rewrite ?app_nil_r.
  - intros q fs o [R L]. unfold hub_other. destruct o; try (split; [by apply routes_step|by rewrite link_step_log]). done.
Qed.

(** What the proxy of a stream has been handed, against what the agent's tasks
    put in for it. *)
Lemma up_shown hello es r sid k :
  let u := up_run hello es in
  sid <> 0 -> Forall readable (put_frames u) ->
  born (peer u) !! r = Some (sid, k) -> addressed sid (take k (log (peer u))) = [] ->
  bodies_shown (taken_of r (taken (peer u))) `prefix_of` shown (on_stream sid (put_frames u)) /\
  (all_arrived u -> streams (link (peer u)) !! sid = Some r ->
   forall c, chans (link (peer u)) !! r = Some c -> ch_rx (view c) = true -> ch_items (view c) = [] ->
   bodies_shown (taken_of r (taken (peer u))) = shown (on_stream sid (put_frames u))).
Proof.
  intros u Hsid F Hb Hfresh. destruct (up_peer hello es) as [R L]. fold u in R, L.
  destruct (shown_arrives hub_half WRITE_HI_BYTES WRITE_LO_BYTES u sid) as [Sp Se]; [by apply wire_run_ok|done|].
  assert (E : bodies_shown (addressed sid (drop k (log (peer u)))) = shown (on_stream sid (got_frames u))).
  { rewrite <- (addressed_logged on_data_stream), <- L.
    - rewrite <- (take_drop k (log (peer u))) at 2. by rewrite addressed_app, Hfresh.
    - intros g Hg Hs. unfold on_data_stream in Hg. apply negb_false_iff, Z.eqb_eq in Hg. congruence. }
  destruct (ro_streams _ R r sid k Hb) as [_ _ (c & Hc & _ & _ & Hp & Ha)]. split.
  - etrans; [|exact Sp]. rewrite <- E. apply bodies_shown_prefix. etrans; [|exact Hp]. by apply prefix_app_r.
  - intros A Hs c' Hc' Hrx Hi. rewrite Hc in Hc'. injection Hc' as <-. rewrite <- Se, <- E, <- (Ha Hs Hrx), Hi by done.
    by rewrite app_nil_r.
Qed.
End Up.

(** ** From the browser to the agent's task *)

Section Down.
Context {HCh HSem : Type} `{MpscLaws (Z * list byte) HCh} `{SemaphoreLaws HSem}.
Context {WCh Sem BCh : Type} `{MpscLaws (Z * list byte) WCh} `{SemaphoreLaws Sem} `{MpscLaws Body BCh}.
Abbreviation AgentWorld := (ConnWorld (WCh:=WCh) (Sem:=Sem) (BCh:=BCh)).

Definition agent_takes (f : Frame) (n : Z) (w : AgentWorld) : AgentWorld := conn_step w (CFrame f).
Definition agent_other (e : ConnEvent) (w : AgentWorld) : AgentWorld := match e with CFrame _ => w | e => conn_step w e end.
Definition for_a_task (f : Frame) : bool := negb (stream_id f =? 0) && negb (is_open_frame f).

Definition down_run (es : list (WireEvent (Other:=ConnEvent))) : Wire (Ch:=HCh) (Sem:=HSem) (Peer:=AgentWorld) :=
  wire_run writer_half agent_takes agent_other HUB_WRITER_HI_BYTES HUB_WRITER_LO_BYTES (mk_cworld new_conn [] [] ∅) es.

Lemma conn_step_log (w : AgentWorld) e : (forall f, e <> CFrame f) -> clog (conn_step w e) = clog w.
Proof. intros N. destruct e; cbn [conn_step]; try done; [by destruct (N f)|by destruct (stream_recv _ _)]. Qed.

Lemma down_peer es :
  let w := down_run es in croutes_ok (peer w) /\ clog (peer w) = logged for_a_task (got_frames w).
Proof.
  apply (wire_run_peer writer_half agent_takes agent_other (fun q fs => croutes_ok q /\ clog q = logged for_a_task fs)).
  - split; [apply (croutes_run [])|done].
  - intros q fs f n [R L]. split; [by apply croutes_step|]. rewrite logged_snoc, <- L. cbn [agent_takes conn_step].
    unfold for_a_task. destruct (stream_id f =? 0); [|destruct (is_open_frame f)]; cbn; by rewrite ?app_nil_r.
  - intros q fs o [R L]. unfold agent_other. destruct o; try (split; [by apply croutes_step|by rewrite conn_step_log]). done.
Qed.

Lemma in_half_shown bs : bodies_shown (in_half Hi bs) = bodies_shown bs.
Proof.
  induction bs as [|b bs IH]; [done|]. unfold in_half. cbn [omap list_omap]. fold (in_half Hi bs).
  destruct b; cbn [body_half same_half]; unfold bodies_shown in *; cbn [fmap list_fmap concat data_bytes]; by rewrite IH.
Qed.

Lemma down_shown es r sid k :
  let u := down_run es in
  sid <> 0 -> Forall readable (put_frames u) ->
  cborn (peer u) !! r = Some (sid, k) -> addressed sid (take k (clog (peer u))) = [] ->
  bodies_shown (handed Hi r (ctaken (peer u))) `prefix_of` shown (on_stream sid (put_frames u)) /\
  (all_arrived u -> cstreams (conn (peer u)) !! sid = Some r ->
   forall p, schans (conn (peer u)) !! r = Some p -> ch_rx (view (hi p)) = true -> ch_items (view (hi p)) = [] ->
   bodies_shown (handed Hi r (ctaken (peer u))) = shown (on_stream sid (put_frames u))).
Proof.
  intros u Hsid F Hb Hfresh. destruct (down_peer es) as [R L]. fold u in R, L.
  destruct (shown_arrives writer_half HUB_WRITER_HI_BYTES HUB_WRITER_LO_BYTES u sid) as [Sp Se]; [by apply wire_run_ok|done|].
  assert (E : bodies_shown (addressed sid (drop k (clog (peer u)))) = shown (on_stream sid (got_frames u))).
  { rewrite <- (addressed_logged for_a_task), <- L.
    - rewrite <- (take_drop k (clog (peer u))) at 2. by rewrite addressed_app, Hfresh.
    - intros g Hg Hs. unfold for_a_task in Hg. apply andb_false_iff in Hg as [Hg|Hg].
      + apply negb_false_iff, Z.eqb_eq in Hg. congruence.
      + apply negb_false_iff in Hg. by destruct g as [s []]. }
  destruct (co_streams _ R r sid k Hb) as [_ _ (p & Hp & _ & _ & Hrx & j & _ & Hg & Hr)]. destruct (Hg Hi) as [G1 G2]. split.
  - etrans; [|exact Sp]. rewrite <- E. etrans; [|apply bodies_shown_prefix; exists (drop j (addressed sid (drop k (clog (peer u))))); by rewrite take_drop]. rewrite <- (in_half_shown (take j _)).
    apply bodies_shown_prefix. etrans; [|exact G1]. by apply prefix_app_r.
  - intros A Hs p' Hp' Hrx' Hi. rewrite Hp in Hp'. injection Hp' as <-. cbn [half] in G2. rewrite Hi, app_nil_r in G2.
    rewrite G2, in_half_shown, <- Se, <- E by done. destruct (Hr Hs) as [_ Hj]. by rewrite (Hj Hrx'), firstn_all.
Qed.
End Down.

(** What the browser sent, as the proxy forwards it. *)
Lemma typed_messages sid ms : u32 sid -> shown (ws_to_stream sid ms) `prefix_of` concat (screen <$> ms).
Proof.
  intros Hs. induction ms as [|m ms IH]; [done|]. cbn [ws_to_stream fmap list_fmap concat].
  destruct (browser_message sid m) as [[b| |]| |] eqn:E; try by apply prefix_nil.
  - destruct m as [d| | | | | |]; try done. apply browser_forward in E as [_ ->]; [|done].
    rewrite screen_encode. change (data_bytes b) with (data_bytes (body (mk_frame sid b))).
    unfold shown. cbn [map concat body]. apply prefix_app. exact IH.
  - destruct m as [d| | | | | |]; try done; [|by apply IH..]. unfold browser_message in E. destruct (len d <? HEADER_LEN); [done|].
    apply bind_Ok in E as ([[s t] l] & _ & E). destruct (negb (s =? 0)); [done|]. destruct (validate_header sid t l) as [[ty' l']| |]; try done.
    destruct (negb (len d =? HEADER_LEN + l')); [done|]. apply bind_Ok in E as (p & _ & E). by destruct (from_payload sid ty' p).
Qed.

(** ** Properties *)

(** [C2] What a browser's terminal shows, from the shell to the screen.  Whatever
    has happened to the session before a stream attaches, whatever the other
    streams and the shell do afterwards, however the steps of the stream's
    task, of the agent's writer, of the hub's reader, of the stream's proxy and
    of all other streams fall: what the proxy has written to the browser's
    terminal is the session's output from [scrollback_cap] bytes before the
    attach onwards, in order and up to some point, with at most one gap for
    each time the stream's broadcast receiver has lagged - with none, so that
    it is a prefix, as long as the receiver has not lagged, and it cannot lag
    while no more than [BROADCAST_CAP] events were sent since the attach.  And
    while the task runs and its receiver has handed out every event, once
    nothing is in flight and if the stream was not dropped, it is all of it. *)
Theorem browser_shows_terminal {Ch Rx} `{BroadcastLaws SessionEvent Ch Rx}
    {ACh ASem} `{MpscLaws (Z * list byte) ACh} `{SemaphoreLaws ASem}
    {WCh Sem BCh} `{MpscLaws (Z * list byte) WCh} `{SemaphoreLaws Sem} `{MpscLaws Body BCh}
    maxp maxg style sid now0 sz0 cap c0 before now sz f acc tes hello (es : list (WireEvent (Other:=LinkEvent))) r k :
  let w := Session.run before (Session.mk_world (spawn now0 sz0 cap c0) []) in
  let t0 := (start_task sid now sz w f acc).1 in let rx := (start_task sid now sz w f acc).2 in
  let t := run_task maxp maxg style sid tes t0 in
  let s := sess (world t) in
  let from := (length (output (sess w)) - cap)%nat in
  let u := up_run (ACh:=ACh) (ASem:=ASem) (WCh:=WCh) (Sem:=Sem) (BCh:=BCh) hello es in
  sid <> 0 -> hands_out BROADCAST_CAP (yields tes) (delivered (broadcast_tx s) rx) ->
  on_stream sid (put_frames u) = sent (out t) -> Forall readable (put_frames u) ->
  born (peer u) !! r = Some (sid, k) -> addressed sid (take k (log (peer u))) = [] ->
  let browser := concat (screen <$> (stream_to_ws <$> taken_of r (taken (peer u)))) in
  gappy (lag_count (yields tes)) browser (drop from (output s)) /\
  (lag_count (yields tes) = 0%nat -> browser `prefix_of` drop from (output s)) /\
  ((length (delivered (broadcast_tx s) rx) <= BROADCAST_CAP)%nat -> lag_count (yields tes) = 0%nat) /\
  (running t = true -> (0 < accepts (out t))%nat -> yields tes = Some <$> delivered (broadcast_tx s) rx ->
   all_arrived u -> streams (link (peer u)) !! sid = Some r ->
   (forall c, chans (link (peer u)) !! r = Some c -> ch_rx (view c) = true /\ ch_items (view c) = []) ->
   browser = drop from (output s)).
Proof.
  pose proof (viewer_output Ch Rx maxp maxg style sid now0 sz0 cap c0 before now sz f acc tes) as V. cbn zeta in V |- *.
  destruct (start_task sid now sz _ f acc) as [t0 rx]. cbn [fst snd]. set (t := run_task maxp maxg style sid tes t0) in *.
  set (u := up_run hello es). intros Hsid Hy Hsent F Hb Hfresh. rewrite screen_all.
  destruct (V Hy) as (V1 & V0 & V2). destruct (up_shown hello es r sid k Hsid F Hb Hfresh) as [U1 U2]. fold u in U1, U2.
  rewrite Hsent in U1, U2. apply (gappy_shorter _ _ _ _ U1) in V1. split; [done|].
  split; [intros E; rewrite E in V1; by apply gappy_none|]. split; [done|].
  intros Hr Ha He A Hs Hc. rewrite <- (V2 Hr Ha He).
  destruct (ro_streams _ (proj1 (up_peer hello es)) r sid k Hb) as [_ _ (c & Ec & _)]. fold u in Ec.
  destruct (Hc c Ec) as [Hrx Hi]. by apply (U2 A Hs c).
Qed.

(** [C3] What a browser types, from its WebSocket to the shell.  Whatever messages
    a browser sends on its stream and however the steps of its proxy, of the
    hub's writer, of the agent's reader and of all other streams fall: the
    input the stream's task has been handed is, in order and without a gap,
    the beginning of what the browser typed; it is all of what the proxy
    forwarded once nothing is in flight and if the stream was not dropped; and
    the task types what it is handed, byte for byte, while it holds control
    and the terminal has room, and nothing otherwise. *)
Theorem keystrokes_reach_shell {HCh HSem} `{MpscLaws (Z * list byte) HCh} `{SemaphoreLaws HSem}
    {WCh Sem BCh} `{MpscLaws (Z * list byte) WCh} `{SemaphoreLaws Sem} `{MpscLaws Body BCh}
    sid ms pre n post (es : list (WireEvent (Other:=ConnEvent))) r k :
  let u := down_run (HCh:=HCh) (HSem:=HSem) (WCh:=WCh) (Sem:=Sem) (BCh:=BCh) es in
  sid <> 0 -> u32 sid -> Forall readable (put_frames u) ->
  on_stream sid (put_frames u) = pre ++ take n (ws_to_stream sid ms) ++ post -> shown pre = [] -> shown post = [] ->
  cborn (peer u) !! r = Some (sid, k) -> addressed sid (take k (clog (peer u))) = [] ->
  let got := bodies_shown (handed Hi r (ctaken (peer u))) in
  got `prefix_of` concat (screen <$> ms) /\
  (all_arrived u -> cstreams (conn (peer u)) !! sid = Some r ->
   (forall p, schans (conn (peer u)) !! r = Some p -> ch_rx (view (hi p)) = true /\ ch_items (view (hi p)) = []) ->
   got = shown (take n (ws_to_stream sid ms))) /\
  forall (Ch Rx : Type) (B : Broadcast SessionEvent Ch Rx) maxp maxg style env d (t : Task Ch),
    pty (sess (world (inbound maxp maxg style sid env (Bd.Data d) t).2))
    = pty (sess (world t)) ++ (if in_control sid t && ie_room env then [PtyInput d] else []).
Proof.
  intros u Hsid Hu F Hput Hpre Hpost Hb Hfresh got. destruct (down_shown es r sid k Hsid F Hb Hfresh) as [D1 D2]. fold u in D1, D2.
  rewrite Hput, !shown_app, Hpre, Hpost, app_nil_r in D1, D2. cbn [app] in D1, D2. split; [|split].
  - etrans; [exact D1|]. etrans; [|apply (typed_messages sid ms Hu)].
    exists (shown (drop n (ws_to_stream sid ms))). by rewrite <- shown_app, take_drop.
  - intros A Hs Hc. destruct (co_streams _ (proj1 (down_peer es)) r sid k Hb) as [_ _ (p & Hp & _)]. fold u in Hp.
    destruct (Hc p Hp) as [Hrx Hi]. by apply (D2 A Hs p).
  - intros Ch Rx ? maxp maxg style env d t. unfold inbound, asking, ask, in_control, is_controller. cbn.
    unfold write_input_from. destruct (bool_decide _); cbn; [|by rewrite app_nil_r].
    destruct (ie_room env); cbn; by rewrite ?app_nil_r.
Qed.

(** ** Witnesses *)

Definition toy_viewer : Task (list SessionEvent) :=
  run_task 32 32 Bracketed 2 viewer_events
    (start_task 2 4 (10, 10) (Session.run viewer_before (Session.mk_world (spawn 0 (24, 80) 3 ([] : list SessionEvent)) []))
       (mk_fs ∅ ∅ 0) 100).1.
Definition toy_up_events : list (WireEvent (Other:=LinkEvent)) :=
  [WOther LOpen; WOther LOpen] ++ (WSend <$> sent (out toy_viewer))
  ++ [WWriter; WReader; WOther (LRecv 1); WWriter; WWriter; WReader; WReader; WOther (LRecv 1); WOther (LRecv 1)].
Abbreviation toy_up := (up_run (ACh:=ChanView (Z * list byte)) (ASem:=Z) (WCh:=ChanView (Z * list byte)) (Sem:=Z) (BCh:=ChanView Body) 20 toy_up_events).

(** Discharge the first hypothesis of [W]. *)
Ltac feed W tac := match type of W with ?P -> _ => let X := fresh in assert (X : P) by tac; specialize (W X); clear X end.
Ltac all_readable E :=
  rewrite E; apply list.Forall_forall; intros ? Hg; vm_compute in Hg;
  repeat (apply elem_of_cons in Hg as [->|Hg]; [eexists; split; [vm_compute; reflexivity|split; reflexivity]|]);
  by apply not_elem_of_nil in Hg.

Lemma toy_up_put : put_frames toy_up = sent (out toy_viewer).
Proof. vm_compute. reflexivity. Qed.

Lemma browser_shows_terminal_witness :
  concat (screen <$> (stream_to_ws <$> taken_of 1 (taken (peer toy_up)))) = lit "bcdxy" /\
  exists shell, shell = lit "bcdxy" /\ concat (screen <$> (stream_to_ws <$> taken_of 1 (taken (peer toy_up)))) `prefix_of` shell.
Proof.
  split; [vm_compute; reflexivity|].
  pose proof (browser_shows_terminal (Ch:=list SessionEvent) (Rx:=nat) (ACh:=ChanView (Z * list byte)) (ASem:=Z)
    (WCh:=ChanView (Z * list byte)) (Sem:=Z) (BCh:=ChanView Body)
    32 32 Bracketed 2 0 (24, 80) 3%nat [] viewer_before 4 (10, 10) (mk_fs ∅ ∅ 0) 100%nat viewer_events 20 toy_up_events 1%nat 0%nat) as W.
  cbn zeta in W.
  feed W ltac:(discriminate).
  feed W ltac:(apply hands_out_item, hands_out_none).
  feed W ltac:(vm_compute; reflexivity).
  feed W ltac:(all_readable toy_up_put).
  feed W ltac:(vm_compute; reflexivity).
  feed W ltac:(vm_compute; reflexivity).
  destruct W as (_ & P & _). eexists. split; [|apply P; reflexivity]. vm_compute. reflexivity.
Defined.

Definition toy_typed : list WsMessage := [WsBinary (encode (data 0 (lit "l"))); WsPing; WsBinary (encode (data 0 (lit "s")))].
Definition toy_down_events : list (WireEvent (Other:=ConnEvent)) :=
  (WSend <$> [Frame.open 2 (lit "main") (24, 80)] ++ ws_to_stream 2 toy_typed)
  ++ [WWriter; WReader; WWriter; WReader; WOther (CRecv 0); WWriter; WReader; WOther (CRecv 0)].
Abbreviation toy_down := (down_run (HCh:=ChanView (Z * list byte)) (HSem:=Z) (WCh:=ChanView (Z * list byte)) (Sem:=Z) (BCh:=ChanView Body) toy_down_events).

Lemma toy_down_put : put_frames toy_down = [Frame.open 2 (lit "main") (24, 80)] ++ ws_to_stream 2 toy_typed.
Proof. vm_compute. reflexivity. Qed.

Lemma keystrokes_reach_shell_witness :
  bodies_shown (handed Hi 0 (ctaken (peer toy_down))) = lit "ls" /\
  bodies_shown (handed Hi 0 (ctaken (peer toy_down))) `prefix_of` concat (screen <$> toy_typed).
Proof.
  split; [vm_compute; reflexivity|].
  pose proof (keystrokes_reach_shell (HCh:=ChanView (Z * list byte)) (HSem:=Z) (WCh:=ChanView (Z * list byte)) (Sem:=Z) (BCh:=ChanView Body)
    2 toy_typed [Frame.open 2 (lit "main") (24, 80)] 2%nat [] toy_down_events 0%nat 0%nat) as W.
  cbn zeta in W.
  feed W ltac:(discriminate).
  feed W ltac:(split; [discriminate|reflexivity]).
  feed W ltac:(all_readable toy_down_put).
  feed W ltac:(vm_compute; reflexivity).
  feed W ltac:(reflexivity).
  feed W ltac:(reflexivity).
  feed W ltac:(vm_compute; reflexivity).
  feed W ltac:(vm_compute; reflexivity).
  exact (proj1 W).
Defined.
