(* ===== verification/EndToEndFiles.v ===== *)
(** * EndToEndFiles: uploads and downloads between the browser and the files

    The composed machines of [EndToEnd] for the frames that carry files: what
    a browser uploads, from its WebSocket to the file whose path is typed, and
    what a shell sends, from the file to the browser's WebSocket. *)

From Stdlib Require Import Strings.Byte.
From stdpp Require Import prelude strings list gmap.
From S2P Require Import Prelude Utf8 Std Tokio Prio Frame FrameFacts Transport Wire Session SessionFacts Manager DownloadFacts Paste PasteFinal PasteFacts UploadFacts StreamTask UploadContents StreamTaskFacts StreamSafety Link LinkFacts Proxy Agent AgentFacts EndToEnd.

(** ** Uploads *)

(** The bodies the task took from its queue, and those of them that are about
    uploads. *)
Definition taken_in (tes : list TaskEvent) : list Body := omap (fun e => match e with TInbound _ b => Some b | _ => None end) tes.
Definition uploads_in (bs : list Body) : list Body := in_half Lo bs.

(** The pastes whose last write failed: the environment's answer to [flush]. *)
Definition lost_uploads (tes : list TaskEvent) : list Z :=
  concat ((fun e => match e with TInbound env b => failed_last (ie_write env) b | _ => [] end) <$> tes).

Lemma taken_in_snoc tes env b : taken_in (tes ++ [TInbound env b]) = taken_in tes ++ [b].
Proof. unfold taken_in. by rewrite omap_app. Qed.
Lemma uploads_in_prefix a b : a `prefix_of` b -> uploads_in a `prefix_of` uploads_in b.
Proof. intros [c ->]. unfold uploads_in. rewrite in_half_app. by apply prefix_app_r. Qed.

(** What has been typed into the terminal. *)
Abbreviation input_of t := (inputs (pty (sess (world t)))).

Section Task.
Context {Ch Rx : Type} `{BroadcastLaws SessionEvent Ch Rx}.
Variables (maxp maxg : nat) (style : PasteStyle) (sid : Z).

(** The task's uploads are a history of its upload bodies. *)
Lemma run_paste_uploads f0 bs lost mine now alive h o (t : Task Ch) :
  (forall s, final h s = apply_op maxp maxg sid o s) -> upload_run maxp maxg sid f0 bs lost mine (uploads t) ->
  exists mine', upload_run maxp maxg sid f0 (bs ++ [op_body o]) (lost ++ failed_last (op_write o) (op_body o)) mine'
    (uploads (run_paste now alive h t).2).
Proof.
  intros Ho R. rewrite run_paste_done. destruct (commit_spec now alive (final h (blank (uploads t))) t) as (_ & _ & -> & _). rewrite Ho. eexists.
  eapply ur_flush; [apply (ur_op _ _ _ _ bs lost mine (blank (uploads t)) o)|done..]. by eapply ur_flush.
Qed.

Lemma inbound_uploads f0 bs lost mine env b (t : Task Ch) :
  upload_run maxp maxg sid f0 bs lost mine (uploads t) ->
  exists mine', upload_run maxp maxg sid f0 (bs ++ uploads_in [b]) (lost ++ failed_last (ie_write env) b) mine'
    (uploads (inbound maxp maxg style sid env b t).2).
Proof.
  intros R. assert (N : forall b, (forall i st, b <> Bd.PasteEnd i st) -> failed_last (ie_write env) b = []).
  { intros b' Nb. destruct (ie_write env); [done|]. destruct b'; try done. by destruct (Nb paste_id status). }
  assert (Q : forall t' : Task Ch, uploads t' = uploads t -> exists mine', upload_run maxp maxg sid f0 (bs ++ []) (lost ++ []) mine' (uploads t')).
  { intros t' ->. rewrite !app_nil_r. eauto. }
  destruct b; cbn [inbound asking snd]; try (rewrite N by done; apply Q; done).
  - rewrite N by done. change (uploads_in [_]) with [Bd.PasteBegin paste_id total_size group_id group_size name]. destruct (in_control sid t).
    + pose proof (run_paste_uploads f0 bs lost mine (ie_now env) (ie_alive env) _ (PBegin (ie_open env) paste_id total_size group_id group_size name) t (fun _ => eq_refl) R) as G.
      unfold apply_op, begin_paste, final in G. cbn [op_write failed_last op_body] in G.
      match type of G with context [run_paste ?n ?a ?h t] => change h with (handle_paste_begin maxp maxg sid (ie_open env) paste_id total_size group_id group_size name) in G end.
      by destruct (run_paste _ _ _ _) as [l t'].
    + pose proof (run_paste_done (ie_now env) (ie_alive env) (reject sid paste_id PASTE_REJECT_NOT_CONTROLLER) t) as E.
      pose proof (commit_spec (ie_now env) (ie_alive env) (final (reject sid paste_id PASTE_REJECT_NOT_CONTROLLER) (blank (uploads t))) t) as (_ & _ & Eu & _).
      destruct (run_paste _ _ _ _) as [l t']. cbn [snd] in *. subst t'. rewrite Eu, app_nil_r.
      eexists. eapply ur_ignored; [exact R|done..].
  - rewrite N by done. pose proof (run_paste_uploads f0 bs lost mine (ie_now env) (ie_alive env) (handle_paste_chunk sid (ie_write env) paste_id bytes)
      (PChunk (ie_write env) paste_id bytes) t (fun _ => eq_refl) R) as G. cbn [op_write op_body] in G. by rewrite N in G by done.
  - apply (run_paste_uploads f0 bs lost mine (ie_now env) (ie_alive env) (handle_paste_end sid (ie_write env) style (in_control sid t) paste_id status)
      (PEnd (ie_write env) style (in_control sid t) paste_id status) t (fun _ => eq_refl) R).
Qed.

Lemma task_uploads f0 tes (t0 : Task Ch) :
  uploads t0 = PasteFacts.start f0 -> running (run_task maxp maxg style sid tes t0) = true ->
  exists mine, upload_run maxp maxg sid f0 (uploads_in (taken_in tes)) (lost_uploads tes) mine (uploads (run_task maxp maxg style sid tes t0)).
Proof.
  intros E0. induction tes as [|e tes IH] using rev_ind; [cbn; rewrite E0; exists []; constructor|].
  unfold run_task in *. rewrite foldl_app. cbn [foldl]. set (t := foldl _ t0 tes) in *. intros Hr.
  assert (St : running t = true).
  { destruct (running t) eqn:E; [done|]. destruct e; cbn [task_step] in Hr; rewrite ?E in Hr; cbn in Hr; congruence. }
  destruct (IH St) as [mine R]. unfold taken_in, lost_uploads. rewrite omap_app, fmap_app, concat_app. fold (taken_in tes) (lost_uploads tes).
  unfold uploads_in. rewrite in_half_app. fold (uploads_in (taken_in tes)).
  destruct e as [env b| |o|o|env b k|o k]; cbn [task_step omap list_omap fmap list_fmap concat] in *; rewrite ?app_nil_r.
  - rewrite St. by apply (inbound_uploads f0 _ _ mine).
  - done.
  - rewrite St in *. destruct (outbound sid o (out t)) as [o' []]; by exists mine.
  - by exists mine.
  - by rewrite St in Hr.
  - by rewrite St in Hr.
Qed.

(** A paste's end on the task: what it types, and where. *)
Lemma task_types f0 tes (t0 : Task Ch) env pid status :
  uploads t0 = PasteFacts.start f0 ->
  let t := run_task maxp maxg style sid tes t0 in
  let b := Bd.PasteEnd pid status in
  running t = true -> orderly (uploads_in (taken_in tes)) = true ->
  let t' := (inbound maxp maxg style sid env b t).2 in
  input_of t' = input_of t \/
  exists ups : list (Z * Path), input_of t' = input_of t ++ [paste_text style ups.*2] /\ pid ∈ ups.*1 /\
    Forall (arrived (uploads_in (taken_in tes) ++ [b]) (lost_uploads (tes ++ [TInbound env b])) (fs (uploads t'))) ups.
Proof.
  intros E0 t b Hr O t'. destruct (task_uploads f0 tes t0 E0 Hr) as [mine R]. fold t in R.
  assert (Rb : upload_run maxp maxg sid f0 (uploads_in (taken_in tes)) (lost_uploads tes) mine (blank (uploads t))) by (by eapply ur_flush).
  unfold t', b. cbn [inbound]. rewrite run_paste_done, commit_inputs.
  set (u := final _ _). destruct (commit_spec (ie_now env) (ie_alive env) u t) as (_ & _ & -> & _).
  destruct (typed_uploads_arrived maxp maxg sid f0 _ _ mine _ (ie_write env) style (in_control sid t) pid status Rb O) as [E|(ups & E & Hin & F)].
  - left. change (typed u = []) in E. rewrite E. destruct (ie_alive env); by rewrite app_nil_r.
  - destruct (ie_alive env); [right|left; by rewrite app_nil_r]. change (typed u = [] ++ [paste_text style ups.*2]) in E. rewrite E.
    exists ups. split; [done|]. split; [done|]. unfold lost_uploads. rewrite fmap_app, concat_app. cbn [fmap list_fmap concat]. rewrite app_nil_r.
    exact F.
Qed.
End Task.

(** Of what the browser sent, the part up to a paste's end tells all of it. *)
Lemma arrived_later a b lost f up : orderly (a ++ b) = true -> arrived a lost f up -> arrived (a ++ b) lost f up.
Proof.
  intros O (E & [gid D] & F). destruct (sent_for_ended up.1 a b O E) as [E1 E2].
  unfold arrived, holds. rewrite E1, E2, has_ended_app, E, declared_app, D.
  split; [done|]. split; [by exists gid|done].
Qed.

Section DownUploads.
Context {HCh HSem : Type} `{MpscLaws (Z * list byte) HCh} `{SemaphoreLaws HSem}.
Context {WCh Sem BCh : Type} `{MpscLaws (Z * list byte) WCh} `{SemaphoreLaws Sem} `{MpscLaws Body BCh}.

Lemma uploads_half fs : uploads_in (body <$> fs) = body <$> on_half writer_half Lo fs.
Proof.
  induction fs as [|[s b] fs IH]; [done|]. unfold uploads_in, on_half, in_half in *. cbn [fmap list_fmap omap list_omap List.filter body ty].
  rewrite IH. by destruct b.
Qed.
Lemma on_half_stream h sid fs : on_half writer_half h (on_stream sid fs) = on_stream sid (on_half writer_half h fs).
Proof.
  unfold on_half, on_stream. induction fs as [|f fs IH]; [done|]. cbn [List.filter].
  destruct (stream_id f =? sid) eqn:E, (same_half (writer_half (ty f)) h) eqn:E'; cbn [List.filter]; rewrite ?E, ?E', IH; done.
Qed.

Lemma addressed_uploads sid fs :
  sid <> 0 -> uploads_in (addressed sid (logged for_a_task fs)) = uploads_in (body <$> on_stream sid fs).
Proof.
  intros Hs. induction fs as [|[s b] fs IH]; [done|]. unfold uploads_in, logged, on_stream, in_half, addressed in *.
  cbn [omap list_omap List.filter stream_id]. destruct (Z.eqb_spec s sid) as [->|N].
  - cbn [fmap list_fmap body omap list_omap]. unfold for_a_task at 1. cbn [stream_id]. rewrite (proj2 (Z.eqb_neq sid 0) Hs).
    destruct b; cbn [is_open_frame body negb andb omap list_omap]; rewrite ?Z.eqb_refl; cbn [omap list_omap body_half same_half]; by rewrite IH.
  - destruct (for_a_task (mk_frame s b)); cbn [omap list_omap]; [|by apply IH]. rewrite (proj2 (Z.eqb_neq s sid) N). by apply IH.
Qed.

(** What a task has been handed of the uploads, against what was put in. *)
Lemma uploads_handed (es : list (WireEvent (Other:=ConnEvent))) r sid k :
  let u := down_run (HCh:=HCh) (HSem:=HSem) (WCh:=WCh) (Sem:=Sem) (BCh:=BCh) es in
  sid <> 0 -> Forall readable (put_frames u) -> Forall faithful (on_half writer_half Lo (on_stream sid (put_frames u))) ->
  cborn (peer u) !! r = Some (sid, k) -> addressed sid (take k (clog (peer u))) = [] ->
  handed Lo r (ctaken (peer u)) `prefix_of` uploads_in (body <$> on_stream sid (put_frames u)).
Proof.
  intros u Hsid F Ff Hb Hfresh. assert (K : croutes_ok (peer u) /\ clog (peer u) = logged for_a_task (got_frames u)) by apply down_peer.
  destruct K as [R L]. rewrite on_half_stream in Ff.
  destruct (stream_arrives writer_half HUB_WRITER_HI_BYTES HUB_WRITER_LO_BYTES u sid Lo) as [Sp _]; [by apply wire_run_ok|done..|].
  assert (E : uploads_in (addressed sid (drop k (clog (peer u)))) = body <$> on_stream sid (on_half writer_half Lo (got_frames u))).
  { rewrite <- on_half_stream, <- uploads_half, <- (addressed_uploads sid) by done. rewrite <- L.
    rewrite <- (take_drop k (clog (peer u))) at 2. by rewrite addressed_app, Hfresh. }
  destruct (co_streams _ R r sid k Hb) as [_ _ (p & _ & _ & _ & _ & j & _ & Hg & _)]. destruct (Hg Lo) as [G1 _].
  rewrite uploads_half, on_half_stream. etrans; [eapply prefix_app_l; exact G1|].
  etrans; [apply in_half_take|]. fold (uploads_in (addressed sid (drop k (clog (peer u))))). rewrite E. destruct Sp as [c ->].
  rewrite fmap_app. by apply prefix_app_r.
Qed.
End DownUploads.

Lemma browser_faithful sid ms : u32 sid -> Forall faithful (ws_to_stream sid ms).
Proof.
  intros Hs. induction ms as [|m ms IH]; [constructor|]. cbn [ws_to_stream].
  destruct (browser_message sid m) as [[b| |]| |] eqn:E; try constructor; try done.
  destruct m; try done. apply browser_forward in E as [W _]; [|done]. by apply wf_faithful.
Qed.

(** [C4] What a browser uploads, from its WebSocket to the file whose name is
    typed.  Whatever messages a browser sends on its stream (with ids it does
    not reuse), however the steps of its proxy, of the hub's writer, of the
    agent's reader and of all other streams fall, and whatever the file system
    answers: at the end of a paste the task types nothing, or the names of
    complete uploads - their end was sent, and as many bytes as announced - and
    under each of these names is the file that holds, byte for byte, what the
    browser sent for that paste; or, if the operating system failed the last
    write of that paste, which the code learns from [flush] and ignores, all of
    it but an end of its last chunk (the sweep may take away a file with one of
    the program's own temporary names). *)
Theorem uploads_arrive_whole {Ch Rx} `{BroadcastLaws SessionEvent Ch Rx}
    {HCh HSem} `{MpscLaws (Z * list byte) HCh} `{SemaphoreLaws HSem}
    {WCh Sem BCh} `{MpscLaws (Z * list byte) WCh} `{SemaphoreLaws Sem} `{MpscLaws Body BCh}
    maxp maxg style sid now sz (w : Session.World Ch) f0 acc ms pre n post (es : list (WireEvent (Other:=ConnEvent))) r k tes env pid status :
  let u := down_run (HCh:=HCh) (HSem:=HSem) (WCh:=WCh) (Sem:=Sem) (BCh:=BCh) es in
  let browser := uploads_in (body <$> ws_to_stream sid ms) in
  let t := run_task maxp maxg style sid tes (start_task sid now sz w f0 acc).1 in
  sid <> 0 -> u32 sid -> Forall readable (put_frames u) ->
  on_stream sid (put_frames u) = pre ++ take n (ws_to_stream sid ms) ++ post ->
  uploads_in (body <$> pre) = [] -> uploads_in (body <$> post) = [] ->
  cborn (peer u) !! r = Some (sid, k) -> addressed sid (take k (clog (peer u))) = [] ->
  orderly browser = true -> running t = true ->
  uploads_in (taken_in (tes ++ [TInbound env (Bd.PasteEnd pid status)])) `prefix_of` handed Lo r (ctaken (peer u)) ->
  let t' := task_step maxp maxg style sid t (TInbound env (Bd.PasteEnd pid status)) in
  input_of t' = input_of t \/
  exists ups : list (Z * Path), input_of t' = input_of t ++ [paste_text style ups.*2] /\ pid ∈ ups.*1 /\
    Forall (arrived browser (lost_uploads (tes ++ [TInbound env (Bd.PasteEnd pid status)])) (fs (uploads t'))) ups.
Proof.
  intros u browser t Hsid Hu F Hput Hpre Hpost Hb Hfresh O Hr Hin t'.
  assert (Lo_put : uploads_in (body <$> on_stream sid (put_frames u)) = uploads_in (body <$> take n (ws_to_stream sid ms))).
  { rewrite Hput, !fmap_app. unfold uploads_in in *. by rewrite !in_half_app, Hpre, Hpost, app_nil_r. }
  assert (Ff : Forall faithful (on_half writer_half Lo (on_stream sid (put_frames u)))).
  { rewrite Hput. unfold on_half. rewrite !List.filter_app. fold (on_half writer_half Lo pre) (on_half writer_half Lo post).
    rewrite uploads_half in Hpre, Hpost. apply fmap_nil_inv in Hpre, Hpost. rewrite Hpre, Hpost, app_nil_r. cbn [app].
    pose proof (browser_faithful sid ms Hu) as B. rewrite list.Forall_forall in B. apply list.Forall_forall. intros f Hf.
    apply list_elem_of_In, List.filter_In in Hf as [Hf _]. apply B. apply list_elem_of_In in Hf. by apply (subseteq_take n) in Hf. }
  assert (P0 : handed Lo r (ctaken (peer u)) `prefix_of` uploads_in (body <$> on_stream sid (put_frames u)))
    by (by apply (uploads_handed es r sid k)).
  assert (P : uploads_in (taken_in tes) ++ [Bd.PasteEnd pid status] `prefix_of` browser).
  { rewrite taken_in_snoc in Hin. unfold uploads_in at 1 in Hin. rewrite in_half_app in Hin. etrans; [exact Hin|].
    etrans; [exact P0|]. rewrite Lo_put. apply uploads_in_prefix.
    exists (body <$> drop n (ws_to_stream sid ms)). by rewrite <- fmap_app, take_drop. }
  destruct P as [rest P]. rewrite P in O. assert (Ot : orderly (uploads_in (taken_in tes)) = true) by (rewrite <- app_assoc in O; by eapply orderly_app).
  unfold t'. cbn [task_step]. rewrite Hr.
  destruct (task_types maxp maxg style sid f0 tes (start_task sid now sz w f0 acc).1 env pid status) as [E|(ups & E & Hi & Fw)]; [|done|done|by left|right].
  { unfold start_task. by destruct (attach_world sid now sz (mk_task w (mk_state ∅ ∅ f0 [] []) (mk_out [] acc) true)) as (_ & _ & -> & _). }
  exists ups. split; [exact E|]. split; [done|]. eapply list.Forall_impl; [exact Fw|]. intros up Hw. fold browser. rewrite P. by apply arrived_later.
Qed.

(** ** Downloads *)

(** The download event in a body, and those of one download. *)
Definition dl_of (b : Body) : option DownloadEvent :=
  match b with
  | Bd.DownloadBegin id total name => Some (DE.Begin id total name)
  | Bd.DownloadChunk id bytes => Some (DE.Chunk id bytes)
  | Bd.DownloadEnd id status => Some (DE.End id status)
  | _ => None
  end.
Definition dl_id (e : DownloadEvent) : Z :=
  match e with DE.Begin id _ _ => id | DE.Chunk id _ => id | DE.End id _ => id end.
Definition of_download (id : Z) (evs : list DownloadEvent) : list DownloadEvent := List.filter (fun e => dl_id e =? id) evs.
Definition dls (bs : list Body) : list DownloadEvent := omap dl_of bs.

Lemma dls_app a b : dls (a ++ b) = dls a ++ dls b.
Proof. apply omap_app. Qed.
Lemma dls_prefix a b : a `prefix_of` b -> dls a `prefix_of` dls b.
Proof. intros [c ->]. rewrite dls_app. by apply prefix_app_r. Qed.
Lemma of_download_prefix id a b : a `prefix_of` b -> of_download id a `prefix_of` of_download id b.
Proof. intros [c ->]. unfold of_download. rewrite List.filter_app. by apply prefix_app_r. Qed.

(** What arrives of an event: its name is cut to what a frame can carry. *)
Definition arrives_as (e : DownloadEvent) : DownloadEvent :=
  match e with DE.Begin id total name => DE.Begin id total (take (name_cut name) name) | e => e end.
Lemma arrives_id e : dl_id (arrives_as e) = dl_id e.
Proof. by destruct e. Qed.
Lemma of_download_arrives id evs : of_download id (arrives_as <$> evs) = arrives_as <$> of_download id evs.
Proof.
  unfold of_download. induction evs as [|e evs IH]; [done|]. cbn [fmap list_fmap List.filter]. rewrite arrives_id, IH.
  by destruct (dl_id e =? id).
Qed.

Lemma arrives_prefix a b : a `prefix_of` b -> arrives_as <$> a `prefix_of` arrives_as <$> b.
Proof. intros [c ->]. rewrite fmap_app. by apply prefix_app_r. Qed.

(** The events a download can consist of. *)
Definition dl_typed (e : DownloadEvent) : Prop :=
  match e with
  | DE.Begin id total name => u32 id /\ 0 <= total <= MAX_PASTE_TOTAL_BYTES /\ utf8_valid name = true
  | DE.Chunk id bytes => u32 id /\ len bytes <= MAX_PASTE_CHUNK_BYTES
  | DE.End id status => u32 id /\ 0 <= status <= 1
  end.

Lemma arrives_wf sid e : sid <> 0 -> u32 sid -> dl_typed e -> wf_frame (download_frame sid (arrives_as e)).
Proof.
  intros Hs Hu T. assert (N : (sid =? CONTROL_STREAM) = false) by (by apply Z.eqb_neq). destruct e as [id total name|id bytes|id st]; cbn in T |- *.
  - destruct T as (T1 & T2 & T3). destruct (long_name_truncated id total id 1 id name) as (V & L & _); [|done|lia|done|].
    { unfold MAX_PASTE_TOTAL_BYTES, u64, u32 in *. cbn. split_and!; try done; unfold u32, u64; lia. }
    split; try done; cbn; unfold MAX_PASTE_TOTAL_BYTES, MAX_PASTE_NAME_LEN, u64 in *; split_and!; try done; lia.
  - destruct T as [T1 T2]. by split.
  - destruct T as [T1 T2]. split; try done; cbn; [|lia]. split; [done|]. unfold u8. lia.
Qed.

Lemma download_decodes sid e :
  sid <> 0 -> u32 sid -> dl_typed e -> decoded (encode (download_frame sid e)) = Some (download_frame sid (arrives_as e)).
Proof.
  intros Hs Hu T. pose proof (wf_faithful _ (arrives_wf sid e Hs Hu T)) as W. destruct e as [id total name|id bytes|id st]; try exact W.
  rewrite <- W. unfold decoded. do 2 f_equal. unfold encode. cbn. unfold download_begin_payload. 
  destruct (long_name_truncated id total id 1 id name) as (_ & L & _).
  - destruct T as (T1 & T2 & T3). unfold MAX_PASTE_TOTAL_BYTES, u64, u32 in *. cbn. split_and!; try done; unfold u32, u64; lia.
  - apply T.
  - apply T.
  - done.
  - assert (Ec : name_cut (take (name_cut name) name) = name_cut name).
    { rewrite name_cut_all by (unfold MAX_PASTE_NAME_LEN; lia). rewrite length_take. unfold name_cut. case_bool_decide; [lia|].
      pose proof (floor_char_boundary_le name (Z.to_nat MAX_PASTE_NAME_LEN)). lia. }
    rewrite Ec. by rewrite (take_take name (name_cut name) (name_cut name)), Nat.min_id.
Qed.

(** *** On the agent *)

(** The writer was given a prefix of the events, all of them while it accepts. *)
Record dl_fed (evs : list DownloadEvent) (o : Out) : Prop := {
  df_prefix : dls (body <$> sent o) `prefix_of` evs;
  df_all : (0 < accepts o)%nat -> dls (body <$> sent o) = evs;
}.

Lemma put_dl evs f o : dl_fed evs o -> dl_fed (evs ++ dls [body f]) (put f o).1.
Proof.
  intros [P A]. unfold put. destruct (accepts o) as [|n] eqn:Ea; cbn [fst].
  - split; [by apply prefix_app_r|lia].
  - rewrite <- (A ltac:(lia)). by split; cbn [sent]; rewrite fmap_app, dls_app.
Qed.

Lemma put_all_dl fs evs o : dl_fed evs o -> dl_fed (evs ++ dls (body <$> fs)) (put_all fs o).1.
Proof.
  revert evs o. induction fs as [|f fs IH]; intros evs o F; cbn [put_all]; [by rewrite app_nil_r|].
  pose proof (put_dl evs f o F) as F'. change (body <$> f :: fs) with ([body f] ++ (body <$> fs)). rewrite dls_app, app_assoc.
  pose proof (put_accepts f o) as Pa. destruct (put f o) as [o' [|]]; cbn [fst snd] in *; [by apply IH|].
  destruct F' as [P A]. split; [by apply prefix_app_r|]. rewrite (Pa eq_refl). lia.
Qed.

Lemma put_ignore_dl fs evs o : dl_fed evs o -> dl_fed (evs ++ dls (body <$> fs)) (put_ignore fs o).
Proof.
  revert evs o. induction fs as [|f fs IH]; intros evs o F; [by rewrite app_nil_r|]. cbn [put_ignore foldl].
  change (body <$> f :: fs) with ([body f] ++ (body <$> fs)). rewrite dls_app, app_assoc. by apply IH, put_dl.
Qed.

(** What the stream's download receiver hands to the task: events, and the
    notice that it has lagged; the events alone. *)
Definition out_dls (e : OutEvent) : list (option DownloadEvent) :=
  match e with
  | OEvent SE.Closed ready => Some <$> ready
  | ODownload e => [Some e]
  | ODownloadLagged => [None]
  | _ => []
  end.
Definition dl_yields (tes : list TaskEvent) : list (option DownloadEvent) := concat (out_dls <$> omap out_event tes).
Definition downloads (tes : list TaskEvent) : list DownloadEvent := omap id (dl_yields tes).

Lemma downloads_cons e tes : downloads (e :: tes) = downloads [e] ++ downloads tes.
Proof.
  unfold downloads, dl_yields. rewrite <- omap_app. f_equal. cbn. destruct (out_event e); cbn; by rewrite ?app_nil_r.
Qed.
Lemma downloads_one e : downloads [e] = omap id (default [] (out_dls <$> out_event e)).
Proof. unfold downloads, dl_yields. cbn. destruct (out_event e); cbn; by rewrite ?app_nil_r. Qed.
Lemma omap_id_some {A} (l : list A) : omap id (Some <$> l) = l.
Proof. induction l as [|x l IH]; [done|]. cbn. by f_equal. Qed.

Lemma dls_frames sid evs : dls (body <$> (download_frame sid <$> evs)) = evs.
Proof. unfold dls. induction evs as [|e evs IH]; [done|]. destruct e; cbn [fmap list_fmap omap list_omap download_frame body dl_of]; by f_equal. Qed.
Lemma dls_none fs : Forall (fun f => dl_of (body f) = None) fs -> dls (body <$> fs) = [].
Proof. unfold dls. induction 1 as [|f fs E _ IH]; [done|]. cbn [fmap list_fmap omap list_omap]. by rewrite E. Qed.
Lemma data_frames_dls sid bs : dls (body <$> data_frames sid bs) = [].
Proof. apply dls_none. unfold data_frames. by apply Forall_fmap, Forall_true. Qed.

Lemma out_frames_dls sid e : dls (body <$> out_frames sid e) = omap id (out_dls e).
Proof.
  destruct e as [[b|c|] ready| |e| |]; cbn [out_frames out_dls]; try done.
  - apply data_frames_dls.
  - by rewrite fmap_app, dls_app, dls_frames, app_nil_r, omap_id_some.
  - by destruct e.
Qed.
Lemma outbound_dl sid e evs o : dl_fed evs o -> dl_fed (evs ++ omap id (out_dls e)) (outbound sid e o).1.
Proof.
  intros F. rewrite <- (out_frames_dls sid). destruct e as [[b|c|] ready| |e| |]; cbn [outbound out_frames fst].
  - by apply put_all_dl.
  - by apply put_dl.
  - by apply put_ignore_dl.
  - by rewrite app_nil_r.
  - by apply put_dl.
  - by rewrite app_nil_r.
  - by rewrite app_nil_r.
Qed.
Lemma outbound_cut_dl sid e k evs o : dl_fed evs o -> dls (body <$> sent (outbound_cut sid e k o)) `prefix_of` evs ++ omap id (out_dls e).
Proof.
  intros F. apply (put_all_dl (take k (out_frames sid e))) in F as [P _]. etrans; [exact P|]. apply prefix_app.
  rewrite <- (out_frames_dls sid). apply dls_prefix. exists (body <$> drop k (out_frames sid e)). by rewrite <- fmap_app, take_drop.
Qed.

Section TaskDownloads.
Context {Ch Rx : Type} `{BroadcastLaws SessionEvent Ch Rx}.
Variables (maxp maxg : nat) (style : PasteStyle) (sid : Z).

Record dl_feeding (evs : list DownloadEvent) (t : Task Ch) : Prop := {
  dg_prefix : dls (body <$> sent (out t)) `prefix_of` evs;
  dg_all : running t = true -> (0 < accepts (out t))%nat -> dls (body <$> sent (out t)) = evs;
}.

Lemma dl_feeding_fed evs t : running t = true -> dl_feeding evs t <-> dl_fed evs (out t).
Proof. intros R. split; [intros [P A]; split; auto|intros [P A]; by split]. Qed.

Lemma dl_case env b d evs (t t' : Task Ch) :
  running t = true -> dl_feeding evs t -> inbound_case style sid env b t d t' -> dl_feeding evs t'.
Proof.
  intros R F [r _|pid u U|t'' [->| ->]]; [by destruct F| |done|].
  - destruct (commit_spec (ie_now env) (ie_alive env) u t) as (_ & Eo & _ & Er). apply dl_feeding_fed; [by rewrite Er|]. rewrite Eo.
    apply dl_feeding_fed in F; [|done]. apply (put_ignore_dl (frames u)) in F.
    rewrite dls_none, app_nil_r in F; [done|]. eapply list.Forall_impl; [apply (pa_rejects _ _ _ _ _ _ _ _ U)|]. by intros f (? & -> & _).
  - destruct F as [P A]. by split.
Qed.

Lemma dl_step e evs (t : Task Ch) :
  dl_feeding evs t -> dl_feeding (evs ++ downloads [e]) (task_step maxp maxg style sid t e).
Proof.
  intros F. rewrite downloads_one.
  destruct e as [env b| |e|e|env b k|e k]; cbn [task_step out_event fmap option_fmap option_map default omap list_omap]; rewrite ?app_nil_r.
  - destruct (running t) eqn:R; [|done]. eapply dl_case; [done|done|apply inbound_cases].
  - destruct F as [P A]. by split.
  - destruct (running t) eqn:R; [|destruct F as [P A]; split; [by apply prefix_app_r|congruence]].
    apply dl_feeding_fed in F; [|done]. apply (outbound_dl sid e) in F.
    destruct (outbound sid e (out t)) as [o []]; cbn [fst] in F; [by apply dl_feeding_fed|].
    destruct F as [P _]. by split.
  - by destruct F as [P A].
  - destruct (running t) eqn:R; [|done]. destruct (cut_case maxp maxg style sid env b k t) as [d C].
    destruct (dl_case env b d evs t _ R F C) as [P A]. by split.
  - destruct (running t) eqn:R; [|destruct F as [P A]; split; [by apply prefix_app_r|congruence]].
    apply dl_feeding_fed in F; [|done]. split; [by apply outbound_cut_dl|done].
Qed.

Lemma dl_run tes evs (t : Task Ch) :
  dl_feeding evs t -> dl_feeding (evs ++ downloads tes) (run_task maxp maxg style sid tes t).
Proof.
  revert evs t. induction tes as [|e tes IH]; intros evs t F; [by rewrite app_nil_r|].
  rewrite downloads_cons, app_assoc. apply (IH _ (task_step maxp maxg style sid t e)). by apply dl_step.
Qed.

Lemma start_dl now sz w f acc : dl_feeding [] (start_task (Rx:=Rx) sid now sz w f acc).1.
Proof.
  unfold start_task, attach_task. cbn [world]. destruct (attach_locked now sid sz (sess w)) as [[s r] es]. cbn [fst].
  apply dl_feeding_fed; [done|]. cbn [out]. set (o := mk_out [] acc). assert (F : dl_fed [] o) by done.
  apply (put_all_dl (data_frames sid (replay r))) in F. rewrite data_frames_dls in F.
  by apply (put_dl _ (controller_changed sid (initial_status sid (current_controller r)))) in F.
Qed.
End TaskDownloads.

(** *** On the hub and in the browser *)

(** What the browser reads of a message: the type of its frame and what
    follows the header. *)
Definition browser_download (m : WsMessage) : option DownloadEvent :=
  match m with
  | WsBinary d =>
      match header_fields d with
      | Ok (s, t, _) =>
          match from_u8 t with
          | Some ty => match from_payload s ty (drop (Z.to_nat HEADER_LEN) d) with Ok f => dl_of (body f) | _ => None end
          | None => None
          end
      | _ => None
      end
  | _ => None
  end.

Lemma dl_of_ty b : is_Some (dl_of b) -> hub_half (ty (mk_frame 0 b)) = Lo.
Proof. destruct b; cbn; by try intros []. Qed.

Lemma from_u8_type t : from_u8 (type_byte t) = Some t.
Proof. by destruct t. Qed.

Lemma browser_reads b : body_typed b -> body_legal b -> browser_download (stream_to_ws b) = dl_of b.
Proof.
  intros T L. unfold browser_download, stream_to_ws. destruct (header_fields_type (mk_frame 0 b)) as (s & l & E).
  assert (Es : s = 0).
  { unfold header_fields, encode, be_at, be_enc, rds, rd in E. cbn in E. by injection E as <- _ _. }
  rewrite E, from_u8_type, Es. change (drop (Z.to_nat HEADER_LEN) (encode (mk_frame 0 b))) with (payload (body (mk_frame 0 b))).
  pose proof (from_payload_payload (mk_frame 0 b) T L) as P. cbn [stream_id] in P. by rewrite P.
Qed.

(** *** The way between them *)

Section UpDownloads.
Context {ACh ASem : Type} `{MpscLaws (Z * list byte) ACh} `{SemaphoreLaws ASem}.
Context {WCh Sem BCh : Type} `{MpscLaws (Z * list byte) WCh} `{SemaphoreLaws Sem} `{MpscLaws Body BCh}.

Lemma dls_half fs : dls (body <$> on_half hub_half Lo fs) = dls (body <$> fs).
Proof.
  unfold dls, on_half. induction fs as [|[s b] fs IH]; [done|]. cbn [List.filter]. destruct b; cbn; rewrite ?IH; done.
Qed.
Lemma on_half_stream_up h sid fs : on_half hub_half h (on_stream sid fs) = on_stream sid (on_half hub_half h fs).
Proof.
  unfold on_half, on_stream. induction fs as [|f fs IH]; [done|]. cbn [List.filter].
  destruct (stream_id f =? sid) eqn:E, (same_half (hub_half (ty f)) h) eqn:E'; cbn [List.filter]; rewrite ?E, ?E', IH; done.
Qed.

Lemma addressed_dls sid fs : sid <> 0 -> addressed sid (logged on_data_stream fs) = body <$> on_stream sid fs.
Proof.
  intros Hs. induction fs as [|[s b] fs IH]; [done|]. unfold logged, on_stream, addressed in *.
  cbn [omap list_omap List.filter stream_id]. unfold on_data_stream at 1. cbn [stream_id]. destruct (Z.eqb_spec s sid) as [->|N].
  - rewrite (proj2 (Z.eqb_neq sid 0) Hs). cbn [negb omap list_omap fmap list_fmap body]. rewrite Z.eqb_refl. by f_equal.
  - destruct (s =? 0); cbn [negb omap list_omap]; [done|]. by rewrite (proj2 (Z.eqb_neq s sid) N).
Qed.

(** Every frame of the stream that carries a download event decodes to what
    arrives of the event. *)
Lemma decoded_dls sid fs :
  sid <> 0 -> u32 sid -> Forall readable fs -> Forall dl_typed (dls (body <$> on_stream sid fs)) ->
  dls (body <$> on_stream sid (omap (fun f => decoded (encode f)) fs)) = arrives_as <$> dls (body <$> on_stream sid fs).
Proof.
  intros Hs Hu. induction 1 as [|[s b] fs (f' & E & Es & Et) _ IH]; intros T; [done|]. cbn [omap list_omap]. rewrite E.
  unfold on_stream, dls in *. cbn [List.filter]. cbn [List.filter stream_id] in T. rewrite Es. cbn [stream_id].
  destruct (Z.eqb_spec s sid) as [->|]; [|by apply IH].
  cbn [fmap list_fmap omap list_omap body] in *. destruct (dl_of b) as [e|] eqn:Eb.
  - apply Forall_cons in T as [Te T]. rewrite (IH T).
    assert (Eb' : mk_frame sid b = download_frame sid e) by (destruct b; by simplify_eq/=).
    rewrite Eb', download_decodes in E by done. injection E as <-. cbn [fmap list_fmap].
    by destruct e.
  - rewrite (IH T). cbn in Et. destruct f' as [s' b']. cbn in Et. by destruct b, b'.
Qed.

(** What the proxy of a stream was handed of downloads, against what was put in. *)
Lemma dls_handed hello (es : list (WireEvent (Other:=LinkEvent))) r sid k :
  let u := up_run (ACh:=ACh) (ASem:=ASem) (WCh:=WCh) (Sem:=Sem) (BCh:=BCh) hello es in
  sid <> 0 -> u32 sid -> Forall readable (put_frames u) -> Forall dl_typed (dls (body <$> on_stream sid (put_frames u))) ->
  born (peer u) !! r = Some (sid, k) -> addressed sid (take k (log (peer u))) = [] ->
  dls (taken_of r (taken (peer u))) `prefix_of` arrives_as <$> dls (body <$> on_stream sid (put_frames u)) /\
  (all_arrived u -> streams (link (peer u)) !! sid = Some r ->
   forall c, chans (link (peer u)) !! r = Some c -> ch_rx (view c) = true -> ch_items (view c) = [] ->
   dls (taken_of r (taken (peer u))) = arrives_as <$> dls (body <$> on_stream sid (put_frames u))).
Proof.
  intros u Hsid Hu F T Hb Hfresh.
  assert (K : routes_ok (peer u) /\ log (peer u) = logged on_data_stream (got_frames u)) by apply up_peer. destruct K as [R L].
  assert (W : wire_ok hub_half WRITE_HI_BYTES WRITE_LO_BYTES u) by (by apply wire_run_ok).
  assert (G : dls (addressed sid (drop k (log (peer u)))) = dls (body <$> on_stream sid (on_half hub_half Lo (got_frames u)))).
  { rewrite <- on_half_stream_up, dls_half, <- addressed_dls, <- L by done.
    rewrite <- (take_drop k (log (peer u))) at 2. by rewrite addressed_app, Hfresh. }
  assert (P : arrives_as <$> dls (body <$> on_stream sid (put_frames u))
              = dls (body <$> on_stream sid (omap (fun f => decoded (encode f)) (on_half hub_half Lo (put_frames u))))).
  { rewrite decoded_dls; [|done..|by apply readable_half|]; rewrite <- on_half_stream_up, dls_half; done. }
  destruct (ro_streams _ R r sid k Hb) as [_ _ (c & Hc & _ & _ & Hp & Ha)]. rewrite P. split.
  - etrans; [apply dls_prefix; eapply prefix_app_l; exact Hp|]. rewrite G.
    destruct (got_fifo hub_half WRITE_HI_BYTES WRITE_LO_BYTES u Lo W F) as [x E]. rewrite E, on_stream_app, fmap_app, dls_app. by apply prefix_app_r.
  - intros A Hs c' Hc' Hrx Hi. rewrite Hc in Hc'. injection Hc' as <-. specialize (Ha Hs Hrx). rewrite Hi, app_nil_r in Ha.
    rewrite Ha, G. by rewrite (got_all hub_half WRITE_HI_BYTES WRITE_LO_BYTES u Lo W F A).
Qed.

(** What the reader decoded is well formed, so the browser reads it. *)
Lemma taken_legal hello (es : list (WireEvent (Other:=LinkEvent))) r sid k :
  let u := up_run (ACh:=ACh) (ASem:=ASem) (WCh:=WCh) (Sem:=Sem) (BCh:=BCh) hello es in
  sid <> 0 -> born (peer u) !! r = Some (sid, k) ->
  Forall (fun b => body_typed b /\ body_legal b) (taken_of r (taken (peer u))).
Proof.
  intros u Hsid Hb.
  assert (K : routes_ok (peer u) /\ log (peer u) = logged on_data_stream (got_frames u)) by apply up_peer. destruct K as [R L].
  assert (W : wire_ok hub_half WRITE_HI_BYTES WRITE_LO_BYTES u) by (by apply wire_run_ok).
  destruct (ro_streams _ R r sid k Hb) as [_ _ (c & _ & _ & _ & Hp & _)]. apply list.Forall_forall. intros b Hin.
  assert (Hg : b ∈ addressed sid (log (peer u))).
  { rewrite <- (take_drop k (log (peer u))), addressed_app. apply elem_of_app. right. destruct Hp as [x ->]. set_solver. }
  rewrite L, addressed_dls in Hg by done. apply list_elem_of_fmap in Hg as (f & -> & Hf). unfold on_stream in Hf.
  apply list_elem_of_In, List.filter_In in Hf as [Hf _]. apply list_elem_of_In in Hf.
  rewrite (w_got _ _ _ _ W) in Hf. apply list_elem_of_omap in Hf as ([h m] & _ & E). unfold dec_tagged, decoded in E. cbn in E.
  destruct (frame_from_ws_payload m) as [[g n]| |] eqn:Ef; [|done..]. injection E as ->. by apply ws_payload_inv in Ef as ([_ _ ? ?] & _).
Qed.
End UpDownloads.

Lemma browser_reads_all bs :
  Forall (fun b => body_typed b /\ body_legal b) bs -> omap browser_download (stream_to_ws <$> bs) = dls bs.
Proof.
  unfold dls. induction 1 as [|b bs [T L] _ IH]; [done|]. cbn [fmap list_fmap omap list_omap]. by rewrite browser_reads, IH.
Qed.



(** A download that reached its end has sent the whole file. *)
Definition whole_download (id : Z) (path : list byte) (f : FileAccess) (got : list DownloadEvent) : Prop :=
  exists total name chunks rest,
    fa_stat f = Some (true, total) /\ fa_reads f = List.map Some chunks ++ rest /\ total_len chunks = total /\
    got = arrives_as (DE.Begin id total name) :: List.map (DE.Chunk id) chunks ++ [DE.End id DOWNLOAD_STATUS_OK].

Lemma last_event_prefix (x : DownloadEvent) pre tail :
  x ∈ tail -> forall (l : list DownloadEvent), x ∉ l -> pre `prefix_of` l ++ tail -> x ∈ pre -> tail = [x] -> pre = l ++ tail.
Proof.
  intros _ l Nl [c E] Hin ->. destruct c as [|y c] using rev_ind; [by rewrite app_nil_r in E|]. rewrite app_assoc in E.
  apply app_inj_tail in E as [E _]. subst l. set_solver.
Qed.

Lemma ended_download id path f listening got :
  (forall r t, fa_stat f = Some (r, t) -> 0 <= t) ->
  got `prefix_of` arrives_as <$> download_task id path f listening -> DE.End id DOWNLOAD_STATUS_OK ∈ got -> whole_download id path f got.
Proof.
  intros Hst P Hin. destruct (download_events id path f listening Hst) as [E|(total & name & cs & rest & tail & E1 & _ & E2 & E3 & _ & T)].
  { rewrite E in P. destruct P as [c P]. cbn in P. assert (X : DE.End id DOWNLOAD_STATUS_OK ∈ [DE.End id DOWNLOAD_STATUS_CANCEL]) by (rewrite P; set_solver).
    by apply list_elem_of_singleton in X. }
  rewrite E3 in P. cbn [fmap list_fmap] in P. rewrite fmap_app in P.
  assert (Ec : arrives_as <$> List.map (DE.Chunk id) cs = List.map (DE.Chunk id) cs) by (clear; induction cs as [|c cs IH]; [done|]; cbn; by f_equal).
  rewrite Ec in P.
  assert (Nc : DE.End id DOWNLOAD_STATUS_OK ∉ arrives_as (DE.Begin id total name) :: List.map (DE.Chunk id) cs).
  { apply not_elem_of_cons. split; [done|]. intros X. apply list_elem_of_In, in_map_iff in X as (c & X & _). done. }
  assert (Hl : DE.End id DOWNLOAD_STATUS_OK ∈ (arrives_as (DE.Begin id total name) :: List.map (DE.Chunk id) cs) ++ (arrives_as <$> tail))
    by (destruct P as [c P]; cbn [app]; rewrite P; set_solver).
  apply elem_of_app in Hl as [?|Ht]; [done|].
  destruct T as [[-> Et]|[-> |[-> _]]]; [|by apply list_elem_of_singleton in Ht|by apply elem_of_nil in Ht].
  exists total, name, cs, rest. split_and!; try done.
  by apply (last_event_prefix (DE.End id DOWNLOAD_STATUS_OK) got [DE.End id DOWNLOAD_STATUS_OK] ltac:(set_solver) (arrives_as (DE.Begin id total name) :: List.map (DE.Chunk id) cs)).
Qed.

(** The events of a task are such that frames can carry them: the id is the
    counter's, and a read fills at most the buffer. *)
Lemma download_task_typed id path f listening :
  u32 id -> utf8_valid (default (lit "download") (file_name path)) = true -> (forall r t, fa_stat f = Some (r, t) -> 0 <= t) ->
  Forall (fun c => forall bytes, c = Some bytes -> len bytes <= MAX_PASTE_CHUNK_BYTES) (fa_reads f) ->
  Forall dl_typed (download_task id path f listening).
Proof.
  intros Hid Hn Hst Hr.
  assert (Fin : forall total sent : Z, Forall dl_typed (if negb (sent =? total) then ([], inl (Shrank total sent))
     else ([DE.End id DOWNLOAD_STATUS_OK], inr tt) : list DownloadEvent * (DlError + unit)).1).
  { intros total sent. destruct (negb _); [constructor|]. constructor; [by split|constructor]. }
  assert (L : forall total reads l sent, Forall (fun c => forall bytes, c = Some bytes -> len bytes <= MAX_PASTE_CHUNK_BYTES) reads ->
    Forall dl_typed (download_loop id total reads l sent).1).
  { intros total reads. induction reads as [|[[|b c]|] reads IH]; intros l sent Fr; cbn [download_loop]; [apply Fin|apply Fin| |].
    - apply Forall_cons in Fr as [Hc Fr]. destruct (_ >? total); [constructor|]. destruct (match l with [] => _ | _ => _ end) as [ok l'].
      destruct ok.
      + specialize (IH l' (sat_add64 sent (len (b :: c))) Fr). destruct (download_loop _ _ _ _ _) as [evs r]. constructor; [|exact IH]. split; [done|by apply Hc].
      + constructor; [|constructor]. split; [done|by apply Hc].
    - constructor. }
  assert (C : Forall dl_typed [DE.End id DOWNLOAD_STATUS_CANCEL]) by (constructor; [by split|constructor]).
  unfold download_task, stream_download. destruct (fa_open f); cbn [negb]; [|exact C].
  destruct (fa_stat f) as [[[] total]|]; cbn [negb]; [|exact C..].
  destruct (total >? MAX_PASTE_TOTAL_BYTES) eqn:G; [exact C|]. rewrite Z.gtb_ltb in G. bool_to_prop.
  assert (B : dl_typed (DE.Begin id total (default (lit "download") (file_name path)))) by (split; [done|]; split; [|done]; pose proof (Hst _ _ eq_refl); lia).
  destruct (match listening with [] => _ | _ => _ end) as [ok l']. destruct ok; [|constructor; [done|constructor]].
  specialize (L total (fa_reads f) l' 0 Hr). destruct (download_loop _ _ _ _ _) as [evs [e|[]]]; cbn [app].
  - constructor; [done|]. apply Forall_app. by split.
  - by constructor.
Qed.

(** *** Downloads with gaps *)

Lemma of_download_sublist id a b : a `sublist_of` b -> of_download id a `sublist_of` of_download id b.
Proof. apply filter_sublist. Qed.

(** The bytes of a download among its messages. *)
Definition dl_bytes (e : DownloadEvent) : list byte := match e with DE.Chunk _ c => c | _ => [] end.
Definition bytes_of (evs : list DownloadEvent) : list byte := concat (dl_bytes <$> evs).

(** What the browser looks at before it saves a file: it has seen the beginning
    and a good end, and as many bytes as were announced. *)
Definition looks_complete (id : Z) (got : list DownloadEvent) : Prop :=
  exists total name, DE.Begin id total name ∈ got /\ DE.End id DOWNLOAD_STATUS_OK ∈ got /\ len (bytes_of got) = total.

(** A chunk weighs its bytes, a mark one. *)
Definition dl_weight (e : DownloadEvent) : nat := match e with DE.Chunk _ c => length c | _ => 1 end.
Definition is_mark (e : DownloadEvent) : Prop := match e with DE.Chunk _ _ => False | _ => True end.
Abbreviation weight evs := (sum_list (dl_weight <$> evs)).

Lemma weight_bytes evs : (length (bytes_of evs) <= weight evs)%nat.
Proof. unfold bytes_of. induction evs as [|e evs IH]; [done|]. cbn. rewrite length_app. destruct e; cbn in *; lia. Qed.
Lemma weight_mark x evs : is_mark x -> x ∈ evs -> (length (bytes_of evs) + 1 <= weight evs)%nat.
Proof.
  intros M. pose proof weight_bytes. unfold bytes_of in *. induction evs as [|e evs IH]; [by intros ?%elem_of_nil|]. cbn. rewrite length_app.
  specialize (H evs). intros [->|Hx]%elem_of_cons; [destruct e; [|done|]; cbn in *; lia|]. specialize (IH Hx). destruct e; cbn in *; lia.
Qed.
Lemma weight_marks x y evs : is_mark x -> is_mark y -> x <> y -> x ∈ evs -> y ∈ evs -> (length (bytes_of evs) + 2 <= weight evs)%nat.
Proof.
  intros Mx My N. pose proof weight_mark. unfold bytes_of in *. induction evs as [|e evs IH]; [by intros ?%elem_of_nil|]. cbn. rewrite length_app.
  intros [->|Hx]%elem_of_cons [->|Hy]%elem_of_cons; [done| | |specialize (IH Hx Hy); destruct e; cbn in *; lia].
  - specialize (H y evs My Hy). destruct e; [|done|]; cbn in *; lia.
  - specialize (H x evs Mx Hx). destruct e; [|done|]; cbn in *; lia.
Qed.

Lemma chunks_weight id cs : weight (List.map (DE.Chunk id) cs) = Z.to_nat (total_len cs).
Proof.
  induction cs as [|c cs IH]; [done|]. cbn. rewrite IH. unfold total_len. cbn. fold (total_len cs).
  assert (0 <= total_len cs) by (clear; unfold total_len; induction cs as [|c cs IH]; cbn; [lia|pose proof (len_nonneg c); lia]).
  unfold len. lia.
Qed.

(** No chunk is empty. *)
Lemma loop_weighs id total reads listening n :
  Forall (fun e => (0 < dl_weight e)%nat) (download_loop id total reads listening n).1.
Proof.
  revert listening n. induction reads as [|[[|b c]|] reads IH]; intros l n; cbn [download_loop];
    try (destruct (negb _); [constructor|by repeat constructor]); [|constructor].
  destruct (_ >? _); [constructor|]. destruct (match l with [] => _ | _ => _ end) as [[] l']; [|constructor; [cbn; lia|constructor]].
  specialize (IH l' (sat_add64 n (len (b :: c)))). destruct (download_loop _ _ _ _ _) as [evs r]. constructor; [cbn; lia|exact IH].
Qed.
Lemma task_weighs id path f listening : Forall (fun e => (0 < dl_weight e)%nat) (arrives_as <$> download_task id path f listening).
Proof.
  assert (C : forall st, Forall (fun e => (0 < dl_weight e)%nat) [DE.End id st]) by (intros st; repeat constructor).
  apply Forall_fmap. eapply (list.Forall_impl (fun e => (0 < dl_weight e)%nat)); [|by intros []].
  unfold download_task, stream_download. destruct (negb (fa_open f)); [apply C|]. destruct (fa_stat f) as [[r total]|]; [|apply C].
  destruct (negb r); [apply C|]. destruct (total >? _); [apply C|]. destruct (match listening with [] => _ | _ => _ end) as [[] l']; [|by repeat constructor].
  pose proof (loop_weighs id total (fa_reads f) l' 0) as L. destruct (download_loop _ _ _ _ _) as [evs [x|[]]]; cbn [fst] in L.
  - constructor; [cbn; lia|]. apply Forall_app. by split.
  - constructor; [cbn; lia|done].
Qed.

(** Nothing of a download is missing when it looks complete, however many of
    its messages may have been left out on the way. *)
Lemma complete_download id path f listening got :
  (forall r t, fa_stat f = Some (r, t) -> 0 <= t) ->
  got `sublist_of` arrives_as <$> download_task id path f listening -> looks_complete id got -> whole_download id path f got.
Proof.
  intros Hst S (total & name & Hb & He & Hl).
  assert (W : got = arrives_as <$> download_task id path f listening).
  { apply (sublist_same_weight dl_weight); [done|apply task_weighs|].
    destruct (download_events id path f listening Hst) as [E|(total' & name' & cs & rest & tail & _ & _ & _ & E & _ & T)].
    { rewrite E in S. pose proof (elem_of_sublist _ _ _ Hb S) as X. by apply list_elem_of_singleton in X. }
    assert (Ec : arrives_as <$> List.map (DE.Chunk id) cs = List.map (DE.Chunk id) cs) by (clear; induction cs as [|c cs IH]; [done|]; cbn; by f_equal).
    rewrite E in S |- *. cbn [fmap list_fmap] in S |- *. rewrite fmap_app, Ec in S. rewrite fmap_app, Ec.
    assert (Nc : forall e, is_mark e -> e ∉ List.map (DE.Chunk id) cs).
    { intros e M X. apply list_elem_of_In, in_map_iff in X as (c & <- & _). done. }
    assert (Ht : total = total').
    { pose proof (elem_of_sublist _ _ _ Hb S) as X. apply elem_of_cons in X as [[=]|[X|X]%elem_of_app]; [done|by apply Nc in X|].
      destruct T as [[-> _]|[-> |[-> _]]]; [by apply list_elem_of_singleton in X..|by apply elem_of_nil in X]. }
    assert (Tt : tail = [DE.End id DOWNLOAD_STATUS_OK] /\ total_len cs = total').
    { pose proof (elem_of_sublist _ _ _ He S) as X. apply elem_of_cons in X as [[=]|[X|X]%elem_of_app]; [by apply Nc in X|].
      destruct T as [T|[-> |[-> _]]]; [done|by apply list_elem_of_singleton in X|by apply elem_of_nil in X]. }
    destruct Tt as [-> Et]. pose proof (weight_marks (DE.Begin id total name) (DE.End id DOWNLOAD_STATUS_OK) got I I ltac:(done) Hb He) as G.
    pose proof (chunks_weight id cs) as Cw. rewrite Et, <- Ht, <- Hl in Cw. unfold len in Cw. rewrite Nat2Z.id in Cw.
    cbn [fmap list_fmap]. rewrite fmap_app. cbn [arrives_as fmap list_fmap]. 
    change (sum_list (dl_weight (DE.Begin id total' (take (name_cut name') name')) :: ?l)) with (1 + sum_list l)%nat.
    assert (Sa : forall a b : list nat, sum_list (a ++ b) = (sum_list a + sum_list b)%nat) by (clear; intros a b; induction a as [|x a IH]; cbn; lia).
    rewrite Sa, Cw. cbn. lia. }
  apply (ended_download id path f listening got Hst); [by rewrite W|done].
Qed.

(** [C5] What a shell sends with [term-dl], from the file to the browser's
    WebSocket.  [hist] is all that the session's download channel has carried,
    of which the stream's receiver has missed the first [n] by attaching late,
    and may have missed more by lagging.  Whatever else the channel carries,
    however the steps of the stream's task, of the agent's writer, of the
    hub's reader and of all other streams fall: the messages the browser gets
    of a download are in order some of those of its task (with the name cut to
    what a frame can carry), and when they look complete to the browser - it
    has the beginning, an end with status OK and as many bytes as announced -
    they are all of them, and the bytes are exactly the file's.  The receiver
    cannot lag while no more than [DOWNLOAD_BROADCAST_CAP] events were sent
    after the attach; if it has not lagged, and the attach came first, the
    messages are without a gap, an end with status OK means that the file is
    whole, and once nothing is in flight and if the stream was not dropped,
    they are all there. *)
Theorem downloads_arrive_whole {Ch Rx} `{BroadcastLaws SessionEvent Ch Rx}
    {ACh ASem} `{MpscLaws (Z * list byte) ACh} `{SemaphoreLaws ASem}
    {WCh Sem BCh} `{MpscLaws (Z * list byte) WCh} `{SemaphoreLaws Sem} `{MpscLaws Body BCh}
    maxp maxg style sid now sz (w : Session.World Ch) fs0 acc tes hist n id path f listening hello (es : list (WireEvent (Other:=LinkEvent))) r k :
  let t := run_task maxp maxg style sid tes (start_task sid now sz w fs0 acc).1 in
  let u := up_run (ACh:=ACh) (ASem:=ASem) (WCh:=WCh) (Sem:=Sem) (BCh:=BCh) hello es in
  let task := arrives_as <$> download_task id path f listening in
  sid <> 0 -> u32 sid -> hands_out DOWNLOAD_BROADCAST_CAP (dl_yields tes) (drop n hist) -> Forall dl_typed hist ->
  of_download id hist `prefix_of` download_task id path f listening -> (forall x n, fa_stat f = Some (x, n) -> 0 <= n) ->
  on_stream sid (put_frames u) = sent (out t) -> Forall readable (put_frames u) ->
  born (peer u) !! r = Some (sid, k) -> addressed sid (take k (log (peer u))) = [] ->
  let got := of_download id (omap browser_download (stream_to_ws <$> taken_of r (taken (peer u)))) in
  let in_time := lag_count (dl_yields tes) = 0%nat /\ of_download id (take n hist) = [] in
  got `sublist_of` task /\
  (looks_complete id got -> whole_download id path f got) /\
  ((length (drop n hist) <= DOWNLOAD_BROADCAST_CAP)%nat -> lag_count (dl_yields tes) = 0%nat) /\
  (in_time -> got `prefix_of` task /\ (DE.End id DOWNLOAD_STATUS_OK ∈ got -> whole_download id path f got)) /\
  (in_time -> running t = true -> (0 < accepts (out t))%nat ->
   dl_yields tes = Some <$> drop n hist -> of_download id hist = download_task id path f listening ->
   all_arrived u -> streams (link (peer u)) !! sid = Some r ->
   (forall c, chans (link (peer u)) !! r = Some c -> ch_rx (view c) = true /\ ch_items (view c) = []) ->
   got = task).
Proof.
  intros t u task Hsid Hu Hd T He Hst Hsent F Hb Hfresh got in_time.
  assert (Tf : dl_feeding (downloads tes) t) by (apply (dl_run maxp maxg style sid tes []), start_dl). destruct Tf as [P A].
  assert (Sd : downloads tes `sublist_of` hist) by (etrans; [by eapply hands_out_sublist|apply sublist_drop]).
  assert (Ts : Forall dl_typed (dls (body <$> on_stream sid (put_frames u)))).
  { rewrite Hsent. apply list.Forall_forall. intros e Hin. rewrite list.Forall_forall in T. apply T.
    eapply elem_of_sublist; [|exact Sd]. eapply elem_of_sublist; [exact Hin|]. by apply prefix_sublist. }
  assert (Eg : got = of_download id (dls (taken_of r (taken (peer u))))) by (unfold got; by rewrite browser_reads_all by (by apply (taken_legal hello es r sid k))).
  assert (D : dls (taken_of r (taken (peer u))) `prefix_of` arrives_as <$> dls (body <$> on_stream sid (put_frames u)) /\
    (all_arrived u -> streams (link (peer u)) !! sid = Some r ->
     forall c, chans (link (peer u)) !! r = Some c -> ch_rx (view c) = true -> ch_items (view c) = [] ->
     dls (taken_of r (taken (peer u))) = arrives_as <$> dls (body <$> on_stream sid (put_frames u)))) by (by apply (dls_handed hello es r sid k)).
  destruct D as [D1 D2]. rewrite Hsent in D1, D2.
  assert (G0 : got `prefix_of` arrives_as <$> of_download id (downloads tes)).
  { rewrite Eg. etrans; [apply of_download_prefix; exact D1|]. rewrite of_download_arrives. apply arrives_prefix. by apply of_download_prefix. }
  assert (Sh : forall n, of_download id hist = of_download id (take n hist) ++ of_download id (drop n hist))
    by (intros j; rewrite <- (take_drop j hist) at 1; apply List.filter_app).
  assert (G1 : in_time -> got `prefix_of` task).
  { intros [L0 Hn]. etrans; [exact G0|]. apply arrives_prefix. etrans; [|exact He]. rewrite (Sh n), Hn. apply of_download_prefix. by eapply hands_out_prefix. }
  assert (Gs : got `sublist_of` task).
  { etrans; [apply prefix_sublist; exact G0|]. apply fmap_sublist. etrans; [by apply of_download_sublist|]. by apply prefix_sublist. }
  split; [done|]. split; [by apply (complete_download id path f listening)|]. split; [by apply hands_out_small|].
  split; [intros Ht; split; [by apply G1|by apply (ended_download id path f listening got Hst), G1]|].
  intros [L0 Hn] Hr Ha Ey Ed Arr Hs Hc.
  assert (K : routes_ok (peer u)) by apply up_peer. destruct (ro_streams _ K r sid k Hb) as [_ _ (c & Ec & _)].
  destruct (Hc c Ec) as [Hrx Hi]. rewrite Eg, (D2 Arr Hs c Ec Hrx Hi), of_download_arrives, (A Hr Ha). unfold task. f_equal.
  unfold downloads. by rewrite Ey, omap_id_some, <- Ed, (Sh n), Hn.
Qed.

(** ** Witnesses *)

Definition toy_upload : list Body :=
  [Bd.PasteBegin 1 2 5 1 (lit "a b.txt"); Bd.PasteChunk 1 (lit "xy"); Bd.PasteEnd 1 PASTE_STATUS_OK].
Definition toy_upload_ms : list WsMessage := (fun b => WsBinary (encode (mk_frame 0 b))) <$> toy_upload.
Definition toy_upload_events : list (WireEvent (Other:=ConnEvent)) :=
  (WSend <$> [Frame.open 2 (lit "main") (24, 80)] ++ ws_to_stream 2 toy_upload_ms)
  ++ concat (replicate 4 [WWriter; WReader]) ++ [WOther (CRecv 0); WOther (CRecv 0); WOther (CRecv 0)].
Abbreviation toy_upload_run := (down_run (HCh:=ChanView (Z * list byte)) (HSem:=Z) (WCh:=ChanView (Z * list byte)) (Sem:=Z) (BCh:=ChanView Body) toy_upload_events).
Definition toy_in : InEnv := mk_in_env 0 true demo_env Written true.
Definition toy_tes : list TaskEvent :=
  [TInbound toy_in Bd.AcquireControl; TInbound toy_in (Bd.PasteBegin 1 2 5 1 (lit "a b.txt")); TInbound toy_in (Bd.PasteChunk 1 (lit "xy"))].
Definition toy_world : Session.World (list SessionEvent) := Session.mk_world (spawn 0 (24, 80) 3 ([] : list SessionEvent)) [].
Definition toy_start : Task (list SessionEvent) := (start_task (Rx := nat) 2 4 (10, 10) toy_world (mk_fs ∅ ∅ 0) 100).1.

Lemma toy_upload_put : put_frames toy_upload_run = [Frame.open 2 (lit "main") (24, 80)] ++ ws_to_stream 2 toy_upload_ms.
Proof. vm_compute. reflexivity. Qed.

Lemma uploads_arrive_whole_witness :
  let t := run_task 8 8 PlainStyle 2 toy_tes toy_start in
  let t' := task_step 8 8 PlainStyle 2 t (TInbound toy_in (Bd.PasteEnd 1 PASTE_STATUS_OK)) in
  handed Lo 0 (ctaken (peer toy_upload_run)) = toy_upload /\
  input_of t = [] /\ input_of t' = [lit "/run/p/a_b.txt "] /\
  (input_of t' = input_of t \/ exists ups : list (Z * Path), input_of t' = input_of t ++ [paste_text PlainStyle ups.*2] /\ 1 ∈ ups.*1 /\
     Forall (arrived toy_upload [] (fs (uploads t'))) ups).
Proof.
  cbn zeta. split; [vm_compute; reflexivity|]. split; [vm_compute; reflexivity|]. split; [vm_compute; reflexivity|].
  pose proof (uploads_arrive_whole (Ch:=list SessionEvent) (Rx:=nat) (HCh:=ChanView (Z * list byte)) (HSem:=Z) (WCh:=ChanView (Z * list byte)) (Sem:=Z)
    (BCh:=ChanView Body) 8 8 PlainStyle 2 4 (10, 10) toy_world (mk_fs ∅ ∅ 0) 100%nat toy_upload_ms [Frame.open 2 (lit "main") (24, 80)] 3%nat []
    toy_upload_events 0%nat 0%nat toy_tes toy_in 1 PASTE_STATUS_OK) as W.
  cbn zeta in W.
  assert (E : uploads_in (body <$> ws_to_stream 2 toy_upload_ms) = toy_upload) by (vm_compute; reflexivity).
  rewrite E in W.
  feed W ltac:(discriminate).
  feed W ltac:(split; [discriminate|reflexivity]).
  feed W ltac:(all_readable toy_upload_put).
  feed W ltac:(rewrite toy_upload_put; vm_compute; reflexivity).
  feed W ltac:(vm_compute; reflexivity).
  feed W ltac:(reflexivity).
  feed W ltac:(vm_compute; reflexivity).
  feed W ltac:(vm_compute; reflexivity).
  feed W ltac:(vm_compute; reflexivity).
  feed W ltac:(vm_compute; reflexivity).
  feed W ltac:(exists []; vm_compute; reflexivity).
  exact W.
Defined.

Definition toy_sent_file : FileAccess := Session.mk_file true (Some (true, 3)) [Some (lit "ab"); Some (lit "c"); Some []].
Definition toy_dls : list DownloadEvent := download_task 9 (lit "/tmp/x") toy_sent_file [].
Definition toy_down_tes : list TaskEvent := (fun e => TOutbound (ODownload e)) <$> toy_dls.
Definition toy_dl_task : Task (list SessionEvent) := run_task 8 8 PlainStyle 2 toy_down_tes toy_start.
Definition toy_dl_events : list (WireEvent (Other:=LinkEvent)) :=
  [WOther LOpen; WOther LOpen] ++ (WSend <$> sent (out toy_dl_task))
  ++ concat (replicate 5 [WWriter; WReader]) ++ replicate 5 (WOther (LRecv 1)).
Abbreviation toy_dl_run := (up_run (ACh:=ChanView (Z * list byte)) (ASem:=Z) (WCh:=ChanView (Z * list byte)) (Sem:=Z) (BCh:=ChanView Body) 20 toy_dl_events).

Lemma toy_dl_put : put_frames toy_dl_run = sent (out toy_dl_task).
Proof. vm_compute. reflexivity. Qed.

(** The stream attaches after a first event of another download. *)
Definition toy_hist : list DownloadEvent := DE.End 7 DOWNLOAD_STATUS_CANCEL :: toy_dls.

Lemma toy_hist_typed : Forall dl_typed toy_hist.
Proof.
  constructor; [by repeat split|]. apply download_task_typed; [split; [discriminate|reflexivity]|reflexivity|intros ? ? [= <- <-]; discriminate|].
  repeat (constructor; [intros ? [= <-]; vm_compute; discriminate|]). constructor.
Qed.

Lemma downloads_arrive_whole_witness :
  let got := of_download 9 (omap browser_download (stream_to_ws <$> taken_of 1 (taken (peer toy_dl_run)))) in
  got = [DE.Begin 9 3 (lit "x"); DE.Chunk 9 (lit "ab"); DE.Chunk 9 (lit "c"); DE.End 9 DOWNLOAD_STATUS_OK] /\
  whole_download 9 (lit "/tmp/x") toy_sent_file got.
Proof.
  cbn zeta. split; [vm_compute; reflexivity|].
  pose proof (downloads_arrive_whole (Ch:=list SessionEvent) (Rx:=nat) (ACh:=ChanView (Z * list byte)) (ASem:=Z) (WCh:=ChanView (Z * list byte)) (Sem:=Z)
    (BCh:=ChanView Body) 8 8 PlainStyle 2 4 (10, 10) toy_world (mk_fs ∅ ∅ 0) 100%nat toy_down_tes toy_hist 1 9 (lit "/tmp/x") toy_sent_file []
    20 toy_dl_events 1%nat 0%nat) as W.
  cbn zeta in W.
  feed W ltac:(discriminate).
  feed W ltac:(split; [discriminate|reflexivity]).
  feed W ltac:(vm_compute; repeat constructor).
  feed W ltac:(exact toy_hist_typed).
  feed W ltac:(exists []; vm_compute; reflexivity).
  feed W ltac:(intros ? ? [= <- <-]; discriminate).
  feed W ltac:(vm_compute; reflexivity).
  feed W ltac:(all_readable toy_dl_put).
  feed W ltac:(vm_compute; reflexivity).
  feed W ltac:(vm_compute; reflexivity).
  destruct W as (_ & W & _). apply W. exists 3, (lit "x"). vm_compute. repeat constructor.
Defined.

(** A receiver that lags behind a download of 31 chunks loses its beginning;
    one that attaches late does as well.  What remains does not look complete. *)
Definition long_dls : list DownloadEvent :=
  download_task 9 (lit "/tmp/x") (Session.mk_file true (Some (true, 31)) (replicate 31 (Some (lit "c")) ++ [Some []])) [].
Lemma lagging_download :
  hands_out DOWNLOAD_BROADCAST_CAP (None :: (Some <$> drop 1 long_dls)) long_dls /\
  ~ looks_complete 9 (drop 1 long_dls).
Proof.
  split.
  - apply (hands_out_lagged _ 1); [lia|by vm_compute; repeat constructor|]. generalize (drop 1 long_dls). intros l.
    induction l as [|e l IH]; [apply hands_out_none|by apply hands_out_item].
  - intros (total & name & Hb & _). vm_compute in Hb. repeat (apply elem_of_cons in Hb as [?|Hb]; [done|]). by apply elem_of_nil in Hb.
Qed.
