(* ===== verification/Pty.v ===== *)
(** * Pty: the agent's pseudo-terminals ([agent/src/pty.rs])

    The threads that pump bytes between the terminal and the session, the
    cursor-query scanner of the Windows build, the loop that waits for a
    killed shell, and the splitting of the configured command line.  The
    terminal, its child process and the clock are the operating system's:
    their answers are arguments. *)

From Stdlib Require Import Strings.Byte.
From stdpp Require Import prelude strings list.
From S2P Require Import Prelude Utf8 Std.

Definition READ_BUF_SIZE : nat := 16 * 1024.
Definition BRIDGE_QUEUE_LEN : nat := 32.

(** ** The cursor-query scanner *)

Module Dsr.

Definition MAX_CSI_LEN : nat := 64.
Definition ESC : byte := x1b.

(** [enum DsrState] and [struct DsrScanner] *)
Inductive DsrState := Normal | Esc | Csi.
Record DsrScanner := mk_dsr { state : DsrState; args : list byte }.

(** [DsrScanner::new] *)
Definition new : DsrScanner := mk_dsr Normal [].

(** [(0x40..=0x7e).contains(&b)] *)
Definition is_final (b : byte) : bool := in_range 0x40 0x7e (byte_val b).

Definition REPLY : list byte := ESC :: lit "[1;1R".

(** One byte: the scanner, what is forwarded and what is replied. *)
Definition step (s : DsrScanner) (b : byte) : DsrScanner * (list byte * list (list byte)) :=
  match state s with
  | Normal =>
      if bool_decide (b = ESC) then (mk_dsr Esc (args s), ([], []))
      else (s, ([b], []))
  | Esc =>
      if bool_decide (b = "["%byte) then (mk_dsr Csi [], ([], []))
      else (mk_dsr Normal (args s), ([ESC; b], []))
  | Csi =>
      if is_final b then
        if bool_decide (args s = lit "6") && bool_decide (b = "n"%byte)
        then (mk_dsr Normal [], ([], [REPLY]))
        else (mk_dsr Normal [], (ESC :: "["%byte :: args s ++ [b], []))
      else if (MAX_CSI_LEN <=? length (args s))%nat
      then (mk_dsr Normal [], (ESC :: "["%byte :: args s ++ [b], []))
      else (mk_dsr Csi (args s ++ [b]), ([], []))
  end.

(** [DsrScanner::feed] *)
Fixpoint feed (s : DsrScanner) (input : list byte) : DsrScanner * (list byte * list (list byte)) :=
  match input with
  | [] => (s, ([], []))
  | b :: input =>
      let '(s, (o, r)) := step s b in
      let '(s, (o', r')) := feed s input in (s, (o ++ o', r ++ r'))
  end.

(** Several chunks, one after the other. *)
Fixpoint feeds (s : DsrScanner) (chunks : list (list byte)) : DsrScanner * (list byte * list (list byte)) :=
  match chunks with
  | [] => (s, ([], []))
  | c :: chunks =>
      let '(s, (o, r)) := feed s c in
      let '(s, (o', r')) := feeds s chunks in (s, (o ++ o', r ++ r'))
  end.

(** *** The grammar of the output *)

Inductive Token :=
| Plain (b : byte)                       (** an ordinary byte *)
| Escape (b : byte)                      (** [ESC b], not a control sequence *)
| Control (args : list byte) (b : byte). (** a control sequence *)

(** A control sequence ends with its final byte, or with the byte that is one
    too many. *)
Definition token_wf (t : Token) : Prop :=
  match t with
  | Plain b => b <> ESC
  | Escape b => b <> "["%byte
  | Control l b =>
      Forall (fun c => is_final c = false) l /\ (length l <= MAX_CSI_LEN)%nat /\
      (is_final b = false -> length l = MAX_CSI_LEN)
  end.
Definition token_bytes (t : Token) : list byte :=
  match t with
  | Plain b => [b]
  | Escape b => [ESC; b]
  | Control l b => ESC :: "["%byte :: l ++ [b]
  end.

(** The cursor position request. *)
Definition is_query (t : Token) : bool :=
  match t with Control l b => bool_decide (l = lit "6") && bool_decide (b = "n"%byte) | _ => false end.

(** What the scanner holds back. *)
Definition pending (s : DsrScanner) : list byte :=
  match state s with Normal => [] | Esc => [ESC] | Csi => ESC :: "["%byte :: args s end.

Definition scanner_ok (s : DsrScanner) : Prop :=
  match state s with
  | Csi => Forall (fun c => is_final c = false) (args s) /\ (length (args s) <= MAX_CSI_LEN)%nat
  | _ => True
  end.

Definition shown (ts : list Token) : list byte := concat (token_bytes <$> filter (fun t => is_query t = false) ts).
Definition answers (ts : list Token) : list (list byte) := replicate (length (filter (fun t => is_query t = true) ts)) REPLY.

End Dsr.

(** ** The threads *)

(** What one [read] of the terminal returns. *)
Inductive ReadRes := RData (bytes : list byte) | REof | RErr.

(** The reader thread on Unix: each read with whether the session's receiver
    is still there when the chunk is sent; the chunks sent, and whether the
    thread has ended. *)
Fixpoint pty_reader_thread (reads : list (ReadRes * bool)) : list (list byte) * bool :=
  match reads with
  | [] => ([], false)
  | (REof, _) :: _ | (RErr, _) :: _ => ([], true)
  | (RData chunk, alive) :: reads =>
      if bool_decide (chunk = []) then pty_reader_thread reads
      else if alive then let '(sent, ended) := pty_reader_thread reads in (chunk :: sent, ended)
      else ([], true)
  end.

(** The replies are sent until the writer thread turns out to be gone. *)
Fixpoint send_replies (writer_alive : bool) (replies : list (list byte)) : list (list byte) :=
  match replies with
  | [] => []
  | r :: replies => if writer_alive then r :: send_replies writer_alive replies else []
  end.

(** The reader thread on Windows: the chunks sent to the session, the replies
    sent to the terminal. *)
Fixpoint pty_reader_thread_windows (s : Dsr.DsrScanner) (reads : list (ReadRes * (bool * bool)))
    : list (list byte) * list (list byte) * bool :=
  match reads with
  | [] => ([], [], false)
  | (REof, _) :: _ | (RErr, _) :: _ => ([], [], true)
  | (RData buf, (alive, writer_alive)) :: reads =>
      let '(s, (chunk, replies)) := Dsr.feed s buf in
      let replied := send_replies writer_alive replies in
      if bool_decide (chunk = []) then
        let '(sent, r, ended) := pty_reader_thread_windows s reads in (sent, replied ++ r, ended)
      else if alive then
        let '(sent, r, ended) := pty_reader_thread_windows s reads in (chunk :: sent, replied ++ r, ended)
      else ([], replied, true)
  end.

(** The writer thread: each message with whether [write_all] succeeds on it;
    the bytes written, and whether the thread has ended because of an error. *)
Fixpoint pty_writer_thread (inputs : list (list byte * bool)) : list byte * bool :=
  match inputs with
  | [] => ([], false)
  | (bytes, ok) :: inputs =>
      if ok then let '(w, ended) := pty_writer_thread inputs in (bytes ++ w, ended) else ([], true)
  end.

(** ** Sizes *)

(** The clamp of [AsyncPty::spawn] and [AsyncPty::resize]. *)
Definition clamp_size (rows cols : Z) : Z * Z := (Z.max rows 1, Z.max cols 1).

(** ** Waiting for a killed shell *)

(** Times are in milliseconds. *)
Definition KILL_DEADLINE : Z := 500.
Definition KILL_POLL : Z := 10.

Inductive KillEnd := Reaped | GaveUp.

(** The loop of [AsyncPty::kill] from its [i]-th turn: [reaped i] is what
    [try_wait] answers in that turn and [now i] what the clock says after it.
    The loop itself has no bound: [fuel] counts the turns looked at. *)
Fixpoint kill_loop (fuel : nat) (reaped : nat -> bool) (now : nat -> Z) (deadline : Z) (i : nat)
    : option (KillEnd * nat) :=
  match fuel with
  | O => None
  | S k =>
      if reaped i then Some (Reaped, i)
      else if now i >? deadline then Some (GaveUp, i)
      else kill_loop k reaped now deadline (S i)
  end.

(** What [try_wait] answers, and [AsyncPty::exited] on it. *)
Inductive TryWait := StillRunning | ExitStatus (code : Z) | WaitFailed.
Definition async_exited (answer : TryWait) : bool := match answer with ExitStatus _ => true | _ => false end.
(** [AsyncPty::kill] after the kill itself, whose result is ignored: [start] is
    when the wait begins. *)
Definition async_kill (fuel : nat) (answers : nat -> TryWait) (now : nat -> Z) (start : Z) : option (KillEnd * nat) :=
  kill_loop fuel (fun i => async_exited (answers i)) now (start + KILL_DEADLINE) 0.

(** ** The command line *)

(** [split_shell] on Unix *)
Definition default_shell_for_split : list byte := lit "/bin/sh".
Definition split_shell (raw : list byte) : list byte * list (list byte) :=
  match split_whitespace raw with
  | [] => (default_shell_for_split, [])
  | program :: args => (program, args)
  end.
