(* ===== verification/PtyFacts.v ===== *)
(** * PtyFacts: the agent's pseudo-terminals

    What the Windows reader thread forwards and answers, and how long the wait
    for a killed shell can last. *)

From Stdlib Require Import Strings.Byte.
From stdpp Require Import prelude strings list.
From S2P Require Import Prelude Utf8 Std Pty.
Import Dsr.

(** ** The scanner follows its grammar *)

Lemma tokens_shown_app a b : shown (a ++ b) = shown a ++ shown b.
Proof. unfold shown. by rewrite filter_app, fmap_app, concat_app. Qed.
Lemma answers_app a b : answers (a ++ b) = answers a ++ answers b.
Proof. unfold answers. by rewrite filter_app, length_app, replicate_add. Qed.
Lemma bytes_app a b : concat (token_bytes <$> a ++ b) = concat (token_bytes <$> a) ++ concat (token_bytes <$> b).
Proof. by rewrite fmap_app, concat_app. Qed.

Definition token_effect (ts : list Token) (s s' : DsrScanner) (input out : list byte) (replies : list (list byte)) : Prop :=
  scanner_ok s' /\ Forall token_wf ts /\ pending s ++ input = concat (token_bytes <$> ts) ++ pending s' /\
  out = shown ts /\ replies = answers ts.

Lemma effect_none s s' b : scanner_ok s' -> pending s ++ [b] = pending s' -> exists ts, token_effect ts s s' [b] [] [].
Proof. intros K E. exists []. by split_and!. Qed.

Lemma effect_token t s s' b :
  scanner_ok s' -> token_wf t -> pending s ++ [b] = token_bytes t ++ pending s' ->
  exists ts, token_effect ts s s' [b] (if is_query t then [] else token_bytes t) (if is_query t then [REPLY] else []).
Proof.
  intros K W E. exists [t]. unfold token_effect, shown, answers.
  assert (F : forall q, filter (fun t => is_query t = q) [t] = if decide (is_query t = q) then [t] else [])
    by (intros q; by rewrite filter_cons, filter_nil).
  rewrite !F. destruct (is_query t) eqn:Q; (split; [done|]); (split; [by constructor|]);
    rewrite ?decide_True, ?decide_False by done; cbn; by rewrite ?app_nil_r.
Qed.

Lemma step_token s b :
  scanner_ok s -> let '(s', (o, r)) := step s b in exists ts, token_effect ts s s' [b] o r.
Proof.
  destruct s as [[| |] l]; intros K; unfold step; cbn [state args].
  - case_bool_decide as E.
    + subst b. by apply effect_none.
    + by apply (effect_token (Plain b)).
  - case_bool_decide as E.
    + subst b. apply effect_none; [|done]. split; [constructor|unfold MAX_CSI_LEN; cbn; lia].
    + by apply (effect_token (Escape b)).
  - destruct K as [Kf Kl]. cbn [state args] in *. destruct (is_final b) eqn:F.
    + assert (X : exists ts, token_effect ts (mk_dsr Csi l) (mk_dsr Normal []) [b]
        (if is_query (Control l b) then [] else token_bytes (Control l b)) (if is_query (Control l b) then [REPLY] else []))
        by (apply effect_token; cbn; [done|by rewrite F|by rewrite app_nil_r]).
      cbn [is_query token_bytes] in X. by destruct (bool_decide (l = lit "6") && _).
    + destruct (Nat.leb_spec MAX_CSI_LEN (length l)).
      * assert (Q : is_query (Control l b) = false).
        { cbn. rewrite bool_decide_false; [done|]. intros ->. cbn in *. unfold MAX_CSI_LEN in *. lia. }
        pose proof (effect_token (Control l b) (mk_dsr Csi l) (mk_dsr Normal []) b) as X. rewrite Q in X.
        apply X; [done| |cbn; by rewrite app_nil_r]. split; [done|]. split; [done|]. intros _. lia.
      * apply effect_none; [|done]. split; cbn [args]; [|rewrite length_app; cbn; lia].
        apply Forall_app; split; [done|]. by constructor.
Qed.

Lemma effect_app ts ts' s s1 s2 i i' o o' r r' :
  token_effect ts s s1 i o r -> token_effect ts' s1 s2 i' o' r' -> token_effect (ts ++ ts') s s2 (i ++ i') (o ++ o') (r ++ r').
Proof.
  intros (K1 & W1 & E1 & -> & ->) (K2 & W2 & E2 & -> & ->). unfold token_effect.
  rewrite tokens_shown_app, answers_app, bytes_app, <- app_assoc, <- E2, app_assoc, E1, app_assoc.
  split_and!; try done. by apply Forall_app.
Qed.

Lemma effect_refl s : scanner_ok s -> exists ts, token_effect ts s s [] [] [].
Proof. intros K. exists []. unfold token_effect. rewrite app_nil_r. by split_and!. Qed.

Lemma feed_tokens input s :
  scanner_ok s -> let '(s', (o, r)) := feed s input in exists ts, token_effect ts s s' input o r.
Proof.
  revert s. induction input as [|b input IH]; intros s K; cbn [feed]; [by apply effect_refl|].
  pose proof (step_token s b K) as S. destruct (step s b) as [s1 [o r]]. destruct S as [ts S].
  specialize (IH s1 (proj1 S)). destruct (feed s1 input) as [s2 [o' r']]. destruct IH as [ts' S'].
  exists (ts ++ ts'). by apply (effect_app _ _ _ _ _ [b]) with (2 := S').
Qed.

Lemma pending_short s : scanner_ok s -> (length (pending s) <= 66)%nat.
Proof. destruct s as [[| |] l]; cbn; [lia..|]. intros [_ L]. unfold MAX_CSI_LEN in L. lia. Qed.

(** ** The reader thread *)

Definition open_reads (chunks : list (list byte)) : list (ReadRes * (bool * bool)) :=
  (fun c => (RData c, (true, true))) <$> chunks.

Lemma send_all l : send_replies true l = l.
Proof. induction l as [|r l IH]; [done|]. cbn. by rewrite IH. Qed.

Lemma reader_tokens chunks s :
  scanner_ok s ->
  let '(sent, replies, ended) := pty_reader_thread_windows s (open_reads chunks) in
  ended = false /\ Forall (fun c => c <> []) sent /\
  exists ts s', token_effect ts s s' (concat chunks) (concat sent) replies.
Proof.
  revert s. induction chunks as [|c chunks IH]; intros s K; cbn [open_reads fmap list_fmap pty_reader_thread_windows concat].
  - split; [done|]. split; [constructor|]. destruct (effect_refl s K) as [ts T]. by exists ts, s.
  - pose proof (feed_tokens c s K) as F. destruct (feed s c) as [s1 [o r]]. destruct F as [ts F]. rewrite send_all.
    specialize (IH s1 (proj1 F)). unfold open_reads in IH.
    destruct (pty_reader_thread_windows s1 _) as [[sent r'] ended]. destruct IH as (-> & N & ts' & s2 & F').
    pose proof (effect_app _ _ _ _ _ _ _ _ _ _ _ F F') as T. case_bool_decide as E.
    + subst o. eauto 10.
    + split; [done|]. split; [by constructor|]. eauto.
Qed.

(** The Windows reader thread, on any way the terminal's output is cut
    into reads: the output is a sequence of bytes, escape pairs and control
    sequences followed by at most 66 bytes that are held back; what the
    session is sent, in non-empty chunks, is exactly those tokens without the
    cursor position requests, in order; and each request, and nothing else,
    is answered once. *)
Theorem conpty_output_exact chunks :
  let '(sent, replies, _) := pty_reader_thread_windows Dsr.new (open_reads chunks) in
  Forall (fun c => c <> []) sent /\
  exists ts held, Forall token_wf ts /\ (length held <= 66)%nat /\
    concat chunks = concat (token_bytes <$> ts) ++ held /\
    concat sent = shown ts /\ replies = answers ts.
Proof.
  pose proof (reader_tokens chunks Dsr.new I) as R.
  destruct (pty_reader_thread_windows Dsr.new _) as [[sent replies] ended].
  destruct R as (_ & N & ts & s' & K & W & E & Eo & Er). split; [done|]. exists ts, (pending s').
  split_and!; try done. by apply pending_short.
Qed.

(** An [ESC] in front of a request hides it: the pair is taken as one token
    and the rest is forwarded unanswered. *)
Lemma request_after_esc_missed :
  feed Dsr.new (ESC :: ESC :: lit "[6n") = (mk_dsr Normal [], (ESC :: ESC :: lit "[6n", [])).
Proof. reflexivity. Qed.

(** The command line is split at every Unicode space, a no-break space for
    one. *)
Lemma split_shell_no_break_space :
  split_shell (lit "/opt/my" ++ [xc2; xa0] ++ lit "shell") = (lit "/opt/my", [lit "shell"]).
Proof. reflexivity. Qed.

(** ** Waiting for a killed shell *)

Section Kill.
Context (reaped : nat -> bool) (now : nat -> Z) (start : Z).

(** The clock does not go back, and each turn but the last sleeps. *)
Hypothesis starts : start <= now 0.
Hypothesis sleeps : forall i, now i + KILL_POLL <= now (S i).

Lemma clock i : start + KILL_POLL * Z.of_nat i <= now i.
Proof. induction i as [|i IH]; [lia|]. specialize (sleeps i). unfold KILL_POLL in *. lia. Qed.

Lemma kill_loop_ends n i :
  (51 < i + n)%nat -> (0 < n)%nat ->
  exists e j, kill_loop n reaped now (start + KILL_DEADLINE) i = Some (e, j) /\ (i <= j)%nat /\ ((j <= 51)%nat \/ j = i) /\
    (forall k, (i <= k < j)%nat -> reaped k = false /\ now k <= start + KILL_DEADLINE) /\
    match e with Reaped => reaped j = true | GaveUp => reaped j = false /\ start + KILL_DEADLINE < now j end.
Proof.
  revert i. induction n as [|n IH]; intros i L P; [lia|]. cbn [kill_loop]. destruct (reaped i) eqn:R.
  { exists Reaped, i. split_and!; try done; lia. }
  rewrite Z.gtb_ltb. destruct (Z.ltb_spec (start + KILL_DEADLINE) (now i)) as [D|D].
  { exists GaveUp, i. split_and!; try done; lia. }
  assert (i <= 50)%nat by (pose proof (clock i); unfold KILL_DEADLINE, KILL_POLL in *; lia).
  destruct (IH (S i)) as (e & j & E & L1 & L2 & B & Ee); [lia..|]. exists e, j.
  split; [done|]. split; [lia|]. split; [lia|]. split; [|done]. intros k Hk. destruct (decide (k = i)) as [->|]; [done|]. apply B. lia.
Qed.

(** [C38] Killing a session does not wait for its shell for ever: the loop ends
    after at most 52 turns, whatever the child does; it ends as soon as the
    child is reaped, and gives up only after half a second without that. *)
Theorem kill_wait_terminates :
  exists e j, kill_loop 52 reaped now (start + KILL_DEADLINE) 0 = Some (e, j) /\ (j <= 51)%nat /\
    (forall k, (k < j)%nat -> reaped k = false) /\
    match e with
    | Reaped => reaped j = true
    | GaveUp => (forall k, (k <= j)%nat -> reaped k = false) /\ start + KILL_DEADLINE < now j
    end.
Proof.
  destruct (kill_loop_ends 52 0) as (e & j & E & _ & L & B & Ee); [lia..|]. exists e, j.
  assert (Bf : forall k, (k < j)%nat -> reaped k = false) by (intros k Hk; apply B; lia).
  split_and!; try done; [lia|]. destruct e; [done|]. destruct Ee as [Ef Ed]. split; [|done].
  intros k Hk. destruct (decide (k = j)) as [->|]; [done|]. apply Bf. lia.
Qed.
End Kill.

(** An error of [try_wait] is no reason to stop waiting before the deadline. *)
Lemma kill_waits_through_errors now start :
  now O <= start + KILL_DEADLINE -> async_kill 1 (fun _ => WaitFailed) now start = None.
Proof. intros Hn. unfold async_kill. cbn. rewrite Z.gtb_ltb. by rewrite (proj2 (Z.ltb_ge _ _) Hn). Qed.

Lemma kill_wait_terminates_witness :
  kill_loop 52 (fun i => Nat.eqb i 3) (fun i => 1000 + 12 * Z.of_nat i) (1000 + KILL_DEADLINE) 0 = Some (Reaped, 3%nat) /\
  exists j, kill_loop 52 (fun _ => false) (fun i => 1000 + 12 * Z.of_nat i) (1000 + KILL_DEADLINE) 0 = Some (GaveUp, j) /\ (j <= 51)%nat.
Proof.
  split; [vm_compute; reflexivity|].
  assert (S : forall i, (1000 + 12 * Z.of_nat i) + KILL_POLL <= 1000 + 12 * Z.of_nat (S i)) by (intros i; unfold KILL_POLL; lia).
  destruct (kill_wait_terminates (fun _ => false) (fun i => 1000 + 12 * Z.of_nat i) 1000 ltac:(cbn; lia) S) as (e & j & E & L & _ & Ee).
  destruct e; [discriminate Ee|]. exists j. split; [exact E|exact L].
Defined.
