(* ===== verification/Launch.v ===== *)
(** * Launch: starting a session's shell ([Session::spawn] in
    [agent/src/session.rs], [AsyncPty::spawn] in [agent/src/pty.rs])

    From the configured command line to the running shell: the download token
    that only this shell is told, its environment, the clamped terminal, every
    step at which starting can fail, and what is left running when it does.
    The terminal is portable-pty's and the operating system's: their answers
    are the record [PtyAnswers]; the environment of a child is the agent's own
    with the variables of [CommandBuilder::env] set in it. *)

From Stdlib Require Import Strings.Byte.
From stdpp Require Import prelude strings list gmap.
From S2P Require Import Prelude Utf8 Frame Osc Std Tokio Session TermDl DownloadFacts Pty.

(** ** The pseudo-terminal *)

(** [struct PtySize] as it is filled in. *)
Record PtySize := mk_pty_size { ps_rows : Z; ps_cols : Z; pixel_width : Z; pixel_height : Z }.

(** A [CommandBuilder] after its [args] and [env] calls. *)
Record ShellCommand := mk_shell { sh_program : list byte; sh_args : list (list byte); sh_env : gmap (list byte) (list byte) }.

(** [for (k, v) in env { cmd.env(k, v) }] *)
Definition set_env (inherited : gmap (list byte) (list byte)) (env : list (list byte * list byte)) : gmap (list byte) (list byte) :=
  foldl (fun m kv => <[kv.1 := kv.2]> m) inherited env.

Inductive LaunchError :=
| OpenPtyFailed | StartFailed (program : list byte) | CloneReaderFailed | TakeWriterFailed
| ReaderThreadFailed | WriterThreadFailed.

Record PtyAnswers := {
  openpty_ok : PtySize -> bool;
  start_ok : ShellCommand -> bool;
  clone_reader_ok : bool;
  take_writer_ok : bool;
  reader_thread_ok : bool;
  writer_thread_ok : bool;
}.

(** The running terminal: its size and the command in it. *)
Record RunningPty := mk_running { rp_size : PtySize; rp_command : ShellCommand }.

(** [AsyncPty::spawn]: the child started, if one was, and the result. *)
Definition async_spawn (os : PtyAnswers) (inherited : gmap (list byte) (list byte)) (program : list byte) (args : list (list byte))
    (env : list (list byte * list byte)) (rows cols : Z) : option ShellCommand * res LaunchError RunningPty :=
  let '(rows, cols) := clamp_size rows cols in
  let sz := mk_pty_size rows cols 0 0 in
  let cmd := mk_shell program args (set_env inherited env) in
  if negb (openpty_ok os sz) then (None, Err OpenPtyFailed)
  else if negb (start_ok os cmd) then (None, Err (StartFailed program))
  else
    (Some cmd,
     guard_err (negb (clone_reader_ok os)) CloneReaderFailed ;;
     guard_err (negb (take_writer_ok os)) TakeWriterFailed ;;
     guard_err (negb (reader_thread_ok os)) ReaderThreadFailed ;;
     guard_err (negb (writer_thread_ok os)) WriterThreadFailed ;;
     Ok (mk_running sz cmd)).

(** [AsyncPty::resize]: what the terminal is told; the answer is passed on. *)
Definition async_resize (rows cols : Z) : PtySize := let '(rows, cols) := clamp_size rows cols in mk_pty_size rows cols 0 0.

(** ** The session *)

(** What base64url without padding promises. *)
Class Base64Url (encode : list byte -> list byte) := {
  encode_alphabet : forall l, forallb token_byte (encode l) = true;
  encode_length : forall l, len (encode l) = (4 * len l + 2) / 3;
}.

(** The environment every shell gets. *)
Definition session_env (dl_token : list byte) : list (list byte * list byte) := [
  (lit "TERM", lit "xterm-256color");
  (lit "COLORTERM", lit "truecolor");
  (lit "LANG", lit "C.UTF-8");
  (lit "LC_ALL", lit "C.UTF-8");
  (lit "TERM_DL_TOKEN", dl_token)].

Section Launch.
Context {Ch Rx : Type} `{Broadcast SessionEvent Ch Rx}.
Variable b64url : list byte -> list byte.   (** [URL_SAFE_NO_PAD.encode] *)

(** [struct Session] as [Session::spawn] builds it. *)
Record NewSession := mk_new {
  ns_id : list byte;
  ns_dl_token : list byte;
  ns_paste_style : PasteStyle;
  ns_pty : RunningPty;
  ns_next_download_id : Z;
  ns_session : Session.Session Ch;
}.

(** [Session::spawn]; [random] are the 16 bytes of the generator, [c] the
    fresh event channel. *)
Definition session_spawn (os : PtyAnswers) (inherited : gmap (list byte) (list byte)) (random : list byte) (now : Z) (c : Ch)
    (id shell : list byte) (initial_size : size) (scrollback_cap : nat) : option ShellCommand * res LaunchError NewSession :=
  let '(program, args) := split_shell shell in
  let dl_token := b64url random in
  let '(child, r) := async_spawn os inherited program args (session_env dl_token) initial_size.1 initial_size.2 in
  (child,
   pty ← r;
   Ok (mk_new id dl_token (from_shell shell) pty 1 (Session.spawn now initial_size scrollback_cap c))).

(** ** Lemmas *)

Lemma set_env_fresh inherited env k v : k ∉ env.*1 -> set_env (<[k := v]> inherited) env !! k = Some v.
Proof.
  revert inherited. induction env as [|[k' v'] env IH]; intros m Hk; [apply lookup_insert_eq|].
  cbn [fmap list_fmap fst] in Hk. apply not_elem_of_cons in Hk as [N Hk].
  change (set_env (<[k' := v']> (<[k := v]> m)) env !! k = Some v).
  rewrite insert_insert_ne by done. by apply IH.
Qed.

(** The last setting of a variable is the one the shell sees. *)
Lemma set_env_lookup inherited env1 k v env2 :
  k ∉ env2.*1 -> set_env inherited (env1 ++ (k, v) :: env2) !! k = Some v.
Proof. intros Hk. unfold set_env. rewrite foldl_app. cbn [foldl fst snd]. by apply set_env_fresh. Qed.

Lemma session_env_token inherited t : set_env inherited (session_env t) !! lit "TERM_DL_TOKEN" = Some t.
Proof. apply (set_env_lookup inherited (take 4 (session_env t)) _ _ []). apply not_elem_of_nil. Qed.

(** ** Properties *)

(** A terminal is never opened with an empty side; the child that runs is the
    configured command with its environment; a step that fails after the
    child was started leaves it running, without a terminal reader. *)
Lemma async_spawn_exact os inherited program args env rows cols :
  let '(child, r) := async_spawn os inherited program args env rows cols in
  let cmd := mk_shell program args (set_env inherited env) in
  (child = None \/ child = Some cmd) /\
  match r with
  | Ok p => child = Some cmd /\ rp_command p = cmd /\ 1 <= ps_rows (rp_size p) /\ 1 <= ps_cols (rp_size p) /\
            (1 <= rows -> ps_rows (rp_size p) = rows) /\ (1 <= cols -> ps_cols (rp_size p) = cols)
  | Err OpenPtyFailed | Err (StartFailed _) => child = None
  | Err _ => child = Some cmd
  | Panic => False
  end.
Proof.
  unfold async_spawn, clamp_size. cbn zeta.
  destruct (openpty_ok os _); cbn [negb]; [|by auto]. destruct (start_ok os _); cbn [negb]; [|by auto].
  split; [by right|].
  destruct (clone_reader_ok os), (take_writer_ok os), (reader_thread_ok os), (writer_thread_ok os); try done.
  cbn. repeat split; lia.
Qed.

(** A fresh session is nobody's: no controller, nobody attached, nothing to
    replay, its first download numbered 1; it remembers the size asked for,
    which the terminal has where it is not empty. *)
Lemma session_spawn_exact os inherited random now c id shell sz cap child ns :
  session_spawn os inherited random now c id shell sz cap = (child, Ok ns) ->
  child = Some (rp_command (ns_pty ns)) /\ ns_id ns = id /\ ns_dl_token ns = b64url random /\
  ns_paste_style ns = from_shell shell /\ ns_next_download_id ns = 1 /\
  ns_session ns = Session.spawn now sz cap c /\
  (sh_program (rp_command (ns_pty ns)), sh_args (rp_command (ns_pty ns))) = split_shell shell /\
  sh_env (rp_command (ns_pty ns)) = set_env inherited (session_env (b64url random)) /\
  ps_rows (rp_size (ns_pty ns)) = Z.max sz.1 1 /\ ps_cols (rp_size (ns_pty ns)) = Z.max sz.2 1.
Proof.
  unfold session_spawn. destruct (split_shell shell) as [program args] eqn:Es. unfold async_spawn, clamp_size. cbn zeta.
  destruct (openpty_ok os _); cbn [negb]; [|done]. destruct (start_ok os _); cbn [negb]; [|done].
  destruct (clone_reader_ok os), (take_writer_ok os), (reader_thread_ok os), (writer_thread_ok os); try done.
  cbn. by intros [= <- <-].
Qed.
End Launch.

(** The canonical paths that reach the reader whole: at most 64 KiB with the
    frame around them, and UTF-8. *)
Definition carried (abs : list byte) : bool := (len abs + 31 <=? MAX_OSC_LEN) && utf8_valid abs.

(** [C35] Downloads work out of the box, and only for the shell that was told the
    token: in the shell of any session that was started, [term-dl] reads the
    session's token from its environment, and what it prints, fed to that
    session's reader, shows nothing on the screen and starts, in order,
    exactly one download per argument that passed local validation and whose
    canonical path is UTF-8 and fits in an application OSC, of that path.  The
    exit code counts the arguments that did not pass local validation, and
    only these: for a path that is not UTF-8 or too long there is neither a
    download nor an error.  Fed to a session with another token it starts
    none. *)
Theorem started_shell_downloads {Ch Rx} `{Broadcast SessionEvent Ch Rx} b64url `{!Base64Url b64url}
    os inherited random now (c : Ch) id shell sz cap child ns fs usage first args out code other :
  len random = 16 ->
  session_spawn b64url os inherited random now c id shell sz cap = (child, Ok ns) ->
  first <> lit "-h" -> first <> lit "--help" ->
  TermDl.main fs usage (first :: args) (sh_env (rp_command (ns_pty ns)) !! lit "TERM_DL_TOKEN") = (out, code) ->
  reader_chunk (ns_dl_token ns) Osc.new out = (Osc.new, [], List.filter carried (omap (prepare fs) (first :: args))) /\
  code = Z.min (len (List.filter (fun a => bool_decide (prepare fs a = None)) (first :: args))) 255 /\
  (other <> ns_dl_token ns -> reader_chunk other Osc.new out = (Osc.new, [], [])).
Proof.
  intros Hr Hs H1 H2. pose proof (session_spawn_exact _ _ _ _ _ _ _ _ _ _ _ _ Hs) as (_ & _ & Et & _ & _ & _ & _ & Ee & _).
  rewrite Ee, session_env_token, Et. set (token := b64url random) in *.
  assert (Lt : len token = 22) by (unfold token; by rewrite encode_length, Hr).
  assert (Nt : token <> []) by (intros E; by rewrite E in Lt).
  assert (Bt : forallb token_byte token = true) by apply encode_alphabet.
  intros Hm. destruct (term_dl_fed fs usage first args token out code H1 H2 Nt Bt Hm) as [Ef Ec].
  unfold reader_chunk. rewrite Ef, !handle_osc_printed by done. split_and!; [|done|intros No; by rewrite bool_decide_false].
  rewrite bool_decide_true by done. f_equal. rewrite filter_filter_bool. apply filter_ext. intros abs. unfold carried, fits. rewrite Lt.
  by replace (22 + len abs + 9) with (len abs + 31) by lia.
Qed.

(** ** A concrete start *)

(** base64url without padding (RFC 4648). *)
Definition b64_digit (k : Z) : byte :=
  nth (Z.to_nat (k mod 64)) (lit "ABCDEFGHIJKLMNOPQRSTUVWXYZabcdefghijklmnopqrstuvwxyz0123456789-_") "A"%byte.
Fixpoint base64url (l : list byte) : list byte :=
  match l with
  | a :: b :: c :: l =>
      let n := (byte_val a * 256 + byte_val b) * 256 + byte_val c in
      b64_digit (n / 262144) :: b64_digit (n / 4096) :: b64_digit (n / 64) :: b64_digit n :: base64url l
  | [a; b] => let n := (byte_val a * 256 + byte_val b) * 4 in [b64_digit (n / 4096); b64_digit (n / 64); b64_digit n]
  | [a] => let n := byte_val a * 16 in [b64_digit (n / 64); b64_digit n]
  | [] => []
  end.

Lemma b64_digit_token k : token_byte (b64_digit k) = true.
Proof.
  unfold b64_digit. set (abc := lit _). assert (A : forallb token_byte abc = true) by by vm_compute.
  destruct (nth_in_or_default (Z.to_nat (k mod 64)) abc "A"%byte) as [Hin| ->]; [|done].
  by apply (proj1 (forallb_forall _ _) A).
Qed.

#[export, refine] Instance base64url_laws : Base64Url base64url := {}.
Proof.
  - fix IH 1. intros [|a [|b [|c l]]]; cbn [base64url forallb]; rewrite ?b64_digit_token; [done..|]. apply IH.
  - fix IH 1. intros [|a [|b [|c l]]]; [done..|]. cbn [base64url].
    rewrite !len_cons, IH. replace (4 * (_ + _) + 2) with (4 * len l + 2 + 4 * 3) by lia. rewrite Z.div_add by lia. lia.
Defined.

Definition demo_pty : PtyAnswers := {|
  openpty_ok s := (1 <=? ps_rows s) && (1 <=? ps_cols s); start_ok c := bool_decide (sh_program c = lit "/bin/bash");
  clone_reader_ok := true; take_writer_ok := true; reader_thread_ok := true; writer_thread_ok := true |}.
Definition demo_random : list byte := [x00; xff; x10; x20; x30; x40; x50; x60; x70; x80; x90; xa0; xb0; xc0; xd0; xe0].
Definition demo_env : gmap (list byte) (list byte) := {[lit "TERM" := lit "dumb"; lit "HOME" := lit "/root"]}.
Definition demo_token : list byte := lit "AP8QIDBAUGBwgJCgsMDQ4A".
Definition demo_shell : ShellCommand := mk_shell (lit "/bin/bash") [lit "-l"] (set_env demo_env (session_env demo_token)).
Definition demo_session : NewSession :=
  mk_new (lit "main") demo_token Bracketed (mk_running (mk_pty_size 1 80 0 0) demo_shell) 1
    (Session.spawn 0 (0, 80) 1000 ([] : list SessionEvent)).
Definition demo_spawn :=
  session_spawn base64url demo_pty demo_env demo_random 0 ([] : list SessionEvent) (lit "main") (lit "/bin/bash -l") (0, 80) 1000.

Example demo_spawn_result : demo_spawn = (Some demo_shell, Ok demo_session).
Proof.
  unfold demo_spawn, session_spawn.
  replace (split_shell (lit "/bin/bash -l")) with (lit "/bin/bash", [lit "-l"]) by (by vm_compute).
  replace (base64url demo_random) with demo_token by (by vm_compute).
  replace (from_shell (lit "/bin/bash -l")) with Bracketed by (by vm_compute).
  unfold async_spawn. cbn [clamp_size openpty_ok start_ok demo_pty sh_program fst snd].
  by rewrite bool_decide_true.
Qed.

(** A file system in which one name leads to a path that is not UTF-8. *)
Definition odd_fs : FileSystem := {|
  fs_stat := fs_stat demo_fs;
  fs_canonicalize p := if bool_decide (p = lit "odd") then Some (lit "/home/u/" ++ [xff]) else fs_canonicalize demo_fs p;
|}.

Lemma started_shell_downloads_witness :
  let '(out, code) := TermDl.main odd_fs [] [lit "a.txt"; lit "odd"; lit "b;c"] (sh_env demo_shell !! lit "TERM_DL_TOKEN") in
  reader_chunk demo_token Osc.new out = (Osc.new, [], [lit "/home/u/a.txt"; lit "/home/u/b;c"]) /\ code = 0 /\
  reader_chunk (lit "guess") Osc.new out = (Osc.new, [], []).
Proof.
  destruct (TermDl.main odd_fs [] [lit "a.txt"; lit "odd"; lit "b;c"] (sh_env demo_shell !! lit "TERM_DL_TOKEN")) as [out code] eqn:E.
  destruct (started_shell_downloads base64url demo_pty demo_env demo_random 0 ([] : list SessionEvent) (lit "main")
    (lit "/bin/bash -l") (0, 80) 1000%nat (Some demo_shell) demo_session odd_fs [] (lit "a.txt") [lit "odd"; lit "b;c"]
    out code (lit "guess")) as (R1 & R2 & R3).
  - done.
  - apply demo_spawn_result.
  - done.
  - done.
  - exact E.
  - split; [eapply eq_trans; [apply R1|]; by vm_compute|]. split; [rewrite R2; by vm_compute|]. apply R3. by vm_compute.
Defined.
