(* ===== verification/AgentSessions.v ===== *)
(** * AgentSessions: all shells of an agent ([SessionManager] of
    [agent/src/session.rs] with the tasks of [agent/src/main.rs] that use it)

    Streams open sessions, streams attach and detach, shells exit, the hub asks
    for kills, and once a minute a sweep collects the sessions to drop and then
    drops them one by one, without holding the registry in between.  Here these
    run in any order, and a session is followed from the start of its shell. *)

From Stdlib Require Import Strings.Byte.
From stdpp Require Import prelude strings list gmap.
From S2P Require Import Prelude Utf8 Std Tokio Frame Session Manager StreamTask Pty Launch.
Open Scope Z_scope.

Section AgentSessions.
Context {Ch Rx : Type} `{Broadcast SessionEvent Ch Rx}.
Variables (b64url : list byte -> list byte) (limits : Limits).
Variables (shell : list byte) (inherited : gmap (list byte) (list byte)).

(** The registry, the sessions ever started with what never changes about them,
    the children ever started, each with the session it is the shell of, if its
    start got that far, and what the sweep under way has still to drop. *)
Record AgentSessions := mk_agent {
  registry : SessionManager;
  started : gmap Ref (NewSession (Ch := Ch));
  children : list (option Ref * ShellCommand);
  sweep : list (SessionId * Ref);
}.

(** The texts of the errors of [lookup_or_spawn], as [{e}] prints them. *)
Definition limit_text : list byte :=
  lit "session limit reached (" ++ dec (Z.of_nat (max_sessions limits)) ++
  lit " live sessions on this host); close an existing tab first".
Definition launch_text : list byte := lit "spawn " ++ (split_shell shell).1.

(** A start's child, if it had one.  A start that fails after that does nothing
    about it: the handle is dropped, which neither kills nor waits. *)
Definition child_of (o : option Ref) (child : option ShellCommand) : list (option Ref * ShellCommand) :=
  (fun c => (o, c)) <$> option_list child.

(** [SessionManager::lookup_or_spawn] with [Session::spawn]: [os] and [random]
    are what a start would be answered and draw. *)
Definition open_session (os : PtyAnswers) (random : list byte) (now : Z) (c : Ch) (id : SessionId) (sz : size)
    (a : AgentSessions) : AgentSessions * (list byte + Ref) :=
  let '(child, ns) := session_spawn b64url os inherited random now c id shell sz (scrollback_cap_bytes limits) in
  let '(m, r) := lookup_or_spawn limits now (match ns with Ok _ => true | _ => false end) id sz (registry a) in
  match r, ns with
  | inl LimitReached, _ => (mk_agent m (started a) (children a) (sweep a), inl limit_text)
  | inl SpawnFailed, _ => (mk_agent m (started a) (children a ++ child_of None child) (sweep a), inl launch_text)
  | inr r, Ok ns =>
      if bool_decide (r = next_ref (registry a))
      then (mk_agent m (<[r := ns]> (started a)) (children a ++ child_of (Some r) child) (sweep a), inr r)
      else (mk_agent m (started a) (children a) (sweep a), inr r)
  | inr r, _ => (mk_agent m (started a) (children a) (sweep a), inr r)
  end.

(** The beginning of [run_session_stream], and the end of the task when there
    is no session: a line for the browser, then [Close]. *)
Definition start_stream (sid : Z) (os : PtyAnswers) (random : list byte) (now : Z) (c : Ch) (id : SessionId) (sz : size)
    (a : AgentSessions) : AgentSessions * (list Frame + Ref) :=
  match open_session os random now c id sz a with
  | (a, inl why) => (a, inl [refuse_frame sid why; Frame.close sid])
  | (a, inr r) => (a, inr r)
  end.

(** What happens to the sessions of an agent: a stream opens; something changes
    one session under its lock (an attach, a detach, output, the shell's exit);
    a kill is asked for; a sweep begins, if none is under way; the sweep drops
    its next session. *)
Inductive AgentEvent :=
| EOpen (os : PtyAnswers) (random : list byte) (now : Z) (c : Ch) (id : SessionId) (sz : size)
| EInner (r : Ref) (i : SessionInner)
| EKill (id : SessionId)
| ESweep (now : Z)
| EDrop.

Definition set_registry (m : SessionManager) (a : AgentSessions) : AgentSessions :=
  mk_agent m (started a) (children a) (sweep a).

(** A shell that has exited does not come back. *)
Definition change_inner (r : Ref) (i : SessionInner) (m : SessionManager) : SessionManager :=
  match heap m !! r with
  | Some i0 => if exited i0 && negb (exited i) then m else mk_manager (map m) (<[r := i]> (heap m)) (next_ref m) (killed m)
  | None => m
  end.

Definition agent_event (a : AgentSessions) (e : AgentEvent) : AgentSessions :=
  match e with
  | EOpen os random now c id sz => (open_session os random now c id sz a).1
  | EInner r i => set_registry (change_inner r i (registry a)) a
  | EKill id =>
      let '(m, found) := remove id (registry a) in
      set_registry (mk_manager (map m) (heap m) (next_ref m) (killed m ++ option_list found)) a
  | ESweep now =>
      match sweep a with
      | [] => mk_agent (registry a) (started a) (children a) (gc_collect limits now (registry a))
      | _ => a
      end
  | EDrop =>
      match sweep a with
      | [] => a
      | d :: ds => mk_agent (gc_drop d (registry a)) (started a) (children a) ds
      end
  end.
Definition agent_events (es : list AgentEvent) (a : AgentSessions) : AgentSessions := foldl agent_event a es.

Definition no_sessions : AgentSessions := mk_agent (mk_manager ∅ ∅ O []) ∅ [] [].

(** ** Opening a session *)

(** What [lookup_or_spawn] does to the registry. *)
Inductive lookup_case (ok : bool) (id : SessionId) (now : Z) (sz : size) (m : SessionManager) : SessionManager -> OpenError + Ref -> Prop :=
| LookupLive r : map m !! id = Some r -> has_exited m r = false -> lookup_case ok id now sz m m (inr r)
| LookupLimit : (forall r, map m !! id = Some r -> has_exited m r = true) ->
    (max_sessions limits <= base.size (delete id (map m)))%nat ->
    lookup_case ok id now sz m (mk_manager (delete id (map m)) (heap m) (next_ref m) (killed m)) (inl LimitReached)
| LookupFailed : (forall r, map m !! id = Some r -> has_exited m r = true) ->
    (base.size (delete id (map m)) < max_sessions limits)%nat -> ok = false ->
    lookup_case ok id now sz m (mk_manager (delete id (map m)) (heap m) (next_ref m) (killed m)) (inl SpawnFailed)
| LookupNew : (forall r, map m !! id = Some r -> has_exited m r = true) ->
    (base.size (delete id (map m)) < max_sessions limits)%nat -> ok = true ->
    let i := mk_inner None sz ∅ (ring_new (scrollback_cap_bytes limits)) now false in
    lookup_case ok id now sz m
      (mk_manager (<[id := next_ref m]> (map m)) (<[next_ref m := i]> (heap m)) (S (next_ref m)) (killed m)) (inr (next_ref m)).

Lemma lookup_cases ok id now sz m :
  let '(m', r) := lookup_or_spawn limits now ok id sz m in lookup_case ok id now sz m m' r.
Proof.
  unfold lookup_or_spawn. destruct (map m !! id) as [r|] eqn:Em; [destruct (has_exited m r) eqn:Ex; cbn [negb]|].
  - unfold open_new. cbn [map heap next_ref killed]. assert (N : forall r', map m !! id = Some r' -> has_exited m r' = true) by congruence.
    case_bool_decide; [by apply LookupLimit|]. destruct ok; cbn [negb]; [|apply LookupFailed; [done|lia|done]].
    rewrite insert_delete_eq. apply LookupNew; [done|lia|done].
  - by apply LookupLive.
  - assert (N : forall r', map m !! id = Some r' -> has_exited m r' = true) by congruence.
    assert (Ed : delete id (map m) = map m) by by apply delete_id.
    unfold open_new. case_bool_decide.
    + assert (Em' : m = mk_manager (delete id (map m)) (heap m) (next_ref m) (killed m)) by (rewrite Ed; by destruct m).
      rewrite Em' at 2. apply LookupLimit; [done|by rewrite Ed].
    + destruct ok; cbn [negb]; [apply LookupNew; [done|rewrite Ed; lia|done]|].
      assert (Em' : m = mk_manager (delete id (map m)) (heap m) (next_ref m) (killed m)) by (rewrite Ed; by destruct m).
      rewrite Em' at 2. apply LookupFailed; [done|rewrite Ed; lia|done].
Qed.

(** ** The invariant *)

(** What is known of a session that was started. *)
Definition well_started (a : AgentSessions) (r : Ref) (ns : NewSession (Ch := Ch)) : Prop :=
  (Some r, rp_command (ns_pty ns)) ∈ children a /\
  (sh_program (rp_command (ns_pty ns)), sh_args (rp_command (ns_pty ns))) = split_shell shell /\
  sh_env (rp_command (ns_pty ns)) !! lit "TERM_DL_TOKEN" = Some (ns_dl_token ns).

Record agent_ok (a : AgentSessions) : Prop := {
  ok_heap : forall r, is_Some (heap (registry a) !! r) <-> (r < next_ref (registry a))%nat;
  ok_started : forall r, is_Some (started a !! r) <-> (r < next_ref (registry a))%nat;
  ok_registry : forall id r, map (registry a) !! id = Some r -> ns_id <$> started a !! r = Some id;
  ok_sweep : forall id r, (id, r) ∈ sweep a -> ns_id <$> started a !! r = Some id;
  ok_shells : forall r ns, started a !! r = Some ns -> well_started a r ns;
  ok_children : forall o c, (o, c) ∈ children a -> o = None \/
    exists r ns, o = Some r /\ started a !! r = Some ns /\ c = rp_command (ns_pty ns);
  ok_limit : (base.size (map (registry a)) <= max_sessions limits)%nat;
}.

Lemma no_sessions_ok : agent_ok no_sessions.
Proof.
  split; cbn; try done.
  - intros r. rewrite lookup_empty. split; [by intros [? ?]|lia].
  - intros r. rewrite lookup_empty. split; [by intros [? ?]|lia].
  - intros ? ? ?%elem_of_nil. done.
  - intros ? ? ?%elem_of_nil. done.
  - rewrite map_size_empty. lia.
Qed.

(** Whatever only takes sessions out of the registry, and changes what is
    inside them, keeps the invariant. *)
Lemma agent_ok_less a m cs sw :
  agent_ok a -> map m ⊆ map (registry a) -> (forall r, is_Some (heap m !! r) <-> is_Some (heap (registry a) !! r)) ->
  next_ref m = next_ref (registry a) -> (forall c, c ∈ children a -> c ∈ cs) ->
  (forall o c, (o, c) ∈ cs -> (o, c) ∈ children a \/ o = None) ->
  (forall id r, (id, r) ∈ sw -> (id, r) ∈ sweep a \/ map (registry a) !! id = Some r) ->
  agent_ok (mk_agent m (started a) cs sw).
Proof.
  intros [Hh Hs Hr Hw Hc Hch Hl] Hm Hheap Hn Hcs Hcs' Hsw. split; cbn [registry started children sweep]; rewrite ?Hn.
  - intros r. by rewrite Hheap.
  - done.
  - intros id r Hid. apply Hr. by eapply lookup_weaken.
  - intros id r Hin. destruct (Hsw id r Hin); [by apply Hw|by apply Hr].
  - intros r ns Hns. destruct (Hc r ns Hns) as (? & ? & ?). split; [by apply Hcs|done].
  - intros o c [Hin| ->]%Hcs'; [by apply Hch|by left].
  - etrans; [by apply map_subseteq_size|done].
Qed.

Lemma spawned_well os random now c id sz child ns (a : AgentSessions) :
  session_spawn b64url os inherited random now c id shell sz (scrollback_cap_bytes limits) = (child, Ok ns) ->
  child = Some (rp_command (ns_pty ns)) /\ ns_id ns = id /\
  forall r m st sw, well_started (mk_agent m st (children a ++ child_of (Some r) child) sw) r ns.
Proof.
  intros Hs. apply session_spawn_exact in Hs as (-> & Hi & Ht & _ & _ & _ & Hp & He & _). split; [done|]. split; [done|].
  intros r m st sw. split; [apply elem_of_app; right; apply list_elem_of_singleton; done|]. split; [done|]. by rewrite He, session_env_token, Ht.
Qed.

Lemma open_session_ok os random now c id sz a : agent_ok a -> agent_ok (open_session os random now c id sz a).1.
Proof.
  intros Hok. pose proof Hok as [Hh Hs Hr Hw Hc Hch Hl]. unfold open_session.
  assert (Stray : forall child o c, (o, c) ∈ children a ++ child_of None child -> (o, c) ∈ children a \/ o = None).
  { intros child o c' [?|Hin]%elem_of_app; [by left|right]. unfold child_of in Hin. by apply list_elem_of_fmap in Hin as (? & [= -> _] & _). }
  destruct (session_spawn _ _ _ _ _ _ _ _ _ _) as [child ns] eqn:Es.
  pose proof (lookup_cases (match ns with Ok _ => true | _ => false end) id now sz (registry a)) as L.
  destruct (lookup_or_spawn _ _ _ _ _ _) as [m r]. destruct L as [r Em Ex|Nl Hsz|Nl Hsz Hf|Nl Hsz Hf i].
  - assert (Hlt : (r < next_ref (registry a))%nat) by (apply Hs; specialize (Hr id r Em); by destruct (started a !! r)).
    destruct ns; cbn [fst]; try case_bool_decide; try lia; by destruct a.
  - cbn [fst]. apply agent_ok_less; cbn [map heap next_ref]; try done; first [apply delete_subseteq|auto].
  - cbn [fst]. apply agent_ok_less; cbn [map heap next_ref]; try done; first [apply delete_subseteq|apply Stray|by auto|intros; apply elem_of_app; auto].
  - destruct ns as [ns| |]; try done. rewrite bool_decide_true by done. cbn [fst].
    destruct (spawned_well _ _ _ _ _ _ _ _ a Es) as (Hchild & Hid & Hwell). set (n := next_ref (registry a)) in *.
    assert (Fresh : started a !! n = None) by (apply eq_None_not_Some; rewrite Hs; lia).
    assert (Keep : forall r' k, ns_id <$> started a !! r' = Some k -> ns_id <$> <[n := ns]> (started a) !! r' = Some k).
    { intros r' k E. rewrite lookup_insert_ne; [done|]. intros <-. by rewrite Fresh in E. }
    split; cbn [registry started children sweep map heap next_ref].
    + intros r. rewrite lookup_insert_is_Some, Hh. lia.
    + intros r. rewrite lookup_insert_is_Some, Hs. lia.
    + intros k r [[<- <-]|[? ?]]%lookup_insert_Some; [by rewrite lookup_insert_eq, <- Hid|]. by apply Keep, Hr.
    + intros k r Hin. by apply Keep, Hw.
    + intros r ns' [[<- <-]|[? Hns]]%lookup_insert_Some; [apply Hwell|]. destruct (Hc r ns' Hns) as (? & ? & ?).
      split; [apply elem_of_app; auto|done].
    + intros o c' [Hin|Hin]%elem_of_app.
      * destruct (Hch o c' Hin) as [?|(r & ns' & ? & ? & ?)]; [by left|right]. exists r, ns'. rewrite lookup_insert_ne; [done|congruence].
      * right. rewrite Hchild in Hin. apply list_elem_of_singleton in Hin as [= -> ->]. exists n, ns. by rewrite lookup_insert_eq.
    + rewrite <- insert_delete_eq, map_size_insert_None by apply lookup_delete_eq. lia.
Qed.

Lemma collected l now m id r : (id, r) ∈ gc_collect l now m -> map m !! id = Some r /\ ref_expired l now m r = true.
Proof.
  unfold gc_collect. intros Hin%list_elem_of_In. apply List.filter_In in Hin as [Hin E]. split; [|done].
  by apply list_elem_of_In, elem_of_map_to_list in Hin.
Qed.

Lemma change_inner_dom r i m r' : is_Some (heap (change_inner r i m) !! r') <-> is_Some (heap m !! r').
Proof.
  unfold change_inner. destruct (heap m !! r) as [i0|] eqn:E; [|done]. destruct (_ && _); [done|]. cbn [heap].
  rewrite lookup_insert_is_Some. split; [|destruct (decide (r = r')); [by left|by right]]. intros [<-|[_ ?]]; [by rewrite E|done].
Qed.
Lemma change_inner_rest r i m : map (change_inner r i m) = map m /\ next_ref (change_inner r i m) = next_ref m /\
  killed (change_inner r i m) = killed m.
Proof. unfold change_inner. destruct (heap m !! r); [|done]. by destruct (_ && _). Qed.

Lemma agent_event_ok a e : agent_ok a -> agent_ok (agent_event a e).
Proof.
  intros Hok. destruct e as [os random now c id sz|r i|id|now|]; cbn [agent_event].
  - by apply open_session_ok.
  - destruct (change_inner_rest r i (registry a)) as (Em & En & _). apply agent_ok_less; cbn [map heap next_ref]; try done; auto; [by rewrite Em|].
    intros r'. apply change_inner_dom.
  - apply agent_ok_less; cbn [map heap next_ref]; try done; first [apply delete_subseteq|auto].
  - destruct (sweep a) as [|d ds] eqn:Ew; [|done]. apply agent_ok_less; cbn [map heap next_ref]; try done; auto.
    intros id r Hin. right. by apply collected in Hin as [? _].
  - destruct (sweep a) as [|d ds] eqn:Ew; [done|]. apply agent_ok_less; unfold gc_drop; cbn [map heap next_ref]; try done; [apply delete_subseteq|by auto|].
    intros id r Hin. left. rewrite Ew. by right.
Qed.
Lemma agent_events_ok es : agent_ok (agent_events es no_sessions).
Proof. unfold agent_events. apply (fold_inv agent_ok); [intros; by apply agent_event_ok|apply no_sessions_ok]. Qed.

(** ** Nothing is lost, unless a sweep is overtaken *)

(** The event does not open or touch a session the sweep has still to drop. *)
Definition undisturbed (a : AgentSessions) (e : AgentEvent) : Prop :=
  match e with
  | EOpen _ _ _ _ id _ => id ∉ (sweep a).*1
  | EInner r _ => r ∉ (sweep a).*2
  | _ => True
  end.
Fixpoint undisturbed_run (es : list AgentEvent) (a : AgentSessions) : Prop :=
  match es with [] => True | e :: es => undisturbed a e /\ undisturbed_run es (agent_event a e) end.

(** Every shell ever started can be reached or is done for. *)
Definition accounted (a : AgentSessions) : Prop := forall r, (r < next_ref (registry a))%nat ->
  (exists id, map (registry a) !! id = Some r) \/ has_exited (registry a) r = true \/ r ∈ killed (registry a).

(** What the sweep has still to drop has exited or is without viewers beyond
    its time, and nothing else is registered under its id. *)
Definition sweep_ok (a : AgentSessions) : Prop := forall id r, (id, r) ∈ sweep a ->
  (exists now, ref_expired limits now (registry a) r = true) /\
  (map (registry a) !! id = Some r \/ map (registry a) !! id = None).

(** Registries that hold the same sessions in the same states, but for some
    that are no longer registered. *)
Lemma sweep_ok_less a m cs sw :
  sweep_ok a -> heap m = heap (registry a) -> map m ⊆ map (registry a) -> (forall d, d ∈ sw -> d ∈ sweep a) ->
  sweep_ok (mk_agent m (started a) cs sw).
Proof.
  intros Hs Hh Hm Hw id r Hin. destruct (Hs id r (Hw _ Hin)) as [(now & He) Hr]. cbn [registry]. split.
  - exists now. unfold ref_expired in *. by rewrite Hh.
  - destruct (map m !! id) as [r'|] eqn:E; [|by right]. left. pose proof (lookup_weaken _ _ _ _ E Hm) as E'.
    destruct Hr; congruence.
Qed.

Lemma accounted_less a m cs sw :
  accounted a -> next_ref m = next_ref (registry a) -> heap m = heap (registry a) ->
  killed (registry a) ⊆ killed m ->
  (forall id r, map (registry a) !! id = Some r -> map m !! id = Some r \/ has_exited (registry a) r = true \/ r ∈ killed m) ->
  accounted (mk_agent m (started a) cs sw).
Proof.
  intros Ha Hn Hh Hk Hm r Hr. cbn [registry] in *. rewrite Hn in Hr.
  assert (He : forall r, has_exited m r = has_exited (registry a) r) by (intros; unfold has_exited; by rewrite Hh).
  rewrite He. destruct (Ha r Hr) as [[id Hid]|[?|?]]; [|by right; left|right; right; by apply Hk].
  destruct (Hm id r Hid) as [?|[?|?]]; eauto.
Qed.

Lemma open_accounted os random now c id sz a :
  agent_ok a -> accounted a -> sweep_ok a -> id ∉ (sweep a).*1 ->
  let a' := (open_session os random now c id sz a).1 in accounted a' /\ sweep_ok a'.
Proof.
  intros Hok Ha Hs Hid. cbn zeta. unfold open_session. destruct (session_spawn _ _ _ _ _ _ _ _ _ _) as [child ns].
  pose proof (lookup_cases (match ns with Ok _ => true | _ => false end) id now sz (registry a)) as L.
  destruct (lookup_or_spawn _ _ _ _ _ _) as [m r].
  assert (Del : forall cs, (forall r, map (registry a) !! id = Some r -> has_exited (registry a) r = true) ->
    let m := mk_manager (delete id (map (registry a))) (heap (registry a)) (next_ref (registry a)) (killed (registry a)) in
    accounted (mk_agent m (started a) cs (sweep a)) /\ sweep_ok (mk_agent m (started a) cs (sweep a))).
  { intros cs Nl m0. split; [|apply sweep_ok_less; [done|done|apply delete_subseteq|done]].
    apply accounted_less; try done. intros id' r' Hr'. destruct (decide (id' = id)) as [->|N]; [right; left; by apply Nl|].
    left. cbn [m0 map]. by rewrite lookup_delete_ne. }
  destruct L as [r Em Ex|Nl _|Nl _ _|Nl _ Hf i].
  - assert (Hlt : (r < next_ref (registry a))%nat)
      by (apply (ok_started _ Hok); pose proof (ok_registry _ Hok id r Em); by destruct (started a !! r)).
    destruct ns; cbn [fst]; try case_bool_decide; try lia; by destruct a.
  - by apply Del.
  - by apply Del.
  - destruct ns as [ns| |]; try done. rewrite bool_decide_true by done. cbn [fst]. set (n := next_ref (registry a)) in *.
    assert (He : forall r m, (r < n)%nat -> heap m = <[n := i]> (heap (registry a)) -> heap m !! r = heap (registry a) !! r)
      by (intros r m Hr ->; rewrite lookup_insert_ne by lia; done).
    split.
    + intros r Hr. cbn [registry next_ref map killed] in *. destruct (decide (r = n)) as [->|N]; [left; exists id; by rewrite lookup_insert_eq|].
      unfold has_exited. rewrite (He r) by (done || lia). destruct (Ha r ltac:(lia)) as [[id' Hid']|[?|?]]; [|by right; left|by right; right].
      destruct (decide (id' = id)) as [->|N']; [right; left; by apply Nl|]. left. exists id'. by rewrite lookup_insert_ne.
    + intros id' r Hin. cbn [sweep registry map] in *. destruct (Hs id' r Hin) as [(t & Ht) Hm].
      assert (Hr : (r < n)%nat) by (apply (ok_started _ Hok); pose proof (ok_sweep _ Hok id' r Hin); by destruct (started a !! r)).
      split; [exists t; unfold ref_expired; by rewrite (He r)|]. rewrite lookup_insert_ne; [done|]. intros ->. apply Hid.
      apply list_elem_of_fmap. by exists (id', r).
Qed.

Lemma event_accounted a e :
  agent_ok a -> undisturbed a e -> accounted a -> sweep_ok a -> accounted (agent_event a e) /\ sweep_ok (agent_event a e).
Proof.
  intros Hok Hu Ha Hs. destruct e as [os random now c id sz|r i|id|now|]; cbn [agent_event].
  - by apply open_accounted.
  - cbn in Hu. unfold set_registry, change_inner. destruct (heap (registry a) !! r) as [i0|] eqn:Er; [|by destruct a].
    destruct (exited i0 && negb (exited i)) eqn:Ex; [by destruct a|]. split.
    + intros r' Hr'. cbn [registry map killed] in *. destruct (Ha r' Hr') as [?|[He|?]]; [by left| |by right; right]. right; left.
      unfold has_exited in *. cbn [heap]. destruct (decide (r' = r)) as [->|N]; [|by rewrite lookup_insert_ne].
      rewrite lookup_insert_eq. rewrite Er in He. rewrite He in Ex. by destruct (exited i).
    + intros id r' Hin. destruct (Hs id r' Hin) as [(t & Ht) Hm]. split; [|done]. exists t. unfold ref_expired in *. cbn [registry heap].
      rewrite lookup_insert_ne; [done|]. intros <-. apply Hu, list_elem_of_fmap. by exists (id, r).
  - unfold remove. split; [|apply sweep_ok_less; [done|done|apply delete_subseteq|done]].
    apply accounted_less; try done; [set_solver|]. intros id' r Hr. cbn [map killed].
    destruct (decide (id' = id)) as [->|N]; [|left; by rewrite lookup_delete_ne].
    right; right. rewrite Hr. apply elem_of_app; right. by apply list_elem_of_singleton.
  - destruct (sweep a) as [|d ds]; [|done]. split; [done|]. intros id r Hin. apply collected in Hin as [Hm He]. split; [by exists now|by left].
  - destruct (sweep a) as [|d ds] eqn:Ew; [done|]. split.
    + apply accounted_less; try done; [unfold gc_drop; cbn [killed]; set_solver|]. intros id r Hr. unfold gc_drop. cbn [map killed].
      destruct (decide (id = d.1)) as [->|N]; [|left; by rewrite lookup_delete_ne]. right; right.
      destruct (Hs d.1 d.2) as [_ [Hd|Hd]]; [rewrite Ew; destruct d; by left| |congruence].
      rewrite Hr in Hd. injection Hd as ->. apply elem_of_app; right. by apply list_elem_of_singleton.
    + apply sweep_ok_less; [done|done|apply delete_subseteq|]. intros d' Hd'. rewrite Ew. by right.
Qed.

Lemma run_accounted es a :
  agent_ok a -> undisturbed_run es a -> accounted a -> sweep_ok a -> accounted (agent_events es a) /\ sweep_ok (agent_events es a).
Proof.
  revert a. induction es as [|e es IH]; intros a Hok Hu Ha Hs; [done|]. destruct Hu as [Hu Hes].
  destruct (event_accounted a e Hok Hu Ha Hs). cbn [agent_events foldl]. apply IH; try done. by apply agent_event_ok.
Qed.

(** ** Properties *)

(** Opening a stream, on every branch: a session of that id whose shell runs is
    the one the stream gets, and nothing else changes; otherwise, below the
    limit, a start that succeeds registers a new session, with the shell it
    started; and at the limit, or when the start fails, the stream gets one
    line that says so and [Close], and the registry has no session of that id. *)
Lemma start_stream_exact sid os random now c id sz a :
  agent_ok a ->
  let '(a', r) := start_stream sid os random now c id sz a in
  let live := exists r, map (registry a) !! id = Some r /\ has_exited (registry a) r = false in
  let others := base.size (delete id (map (registry a))) in
  let start := session_spawn b64url os inherited random now c id shell sz (scrollback_cap_bytes limits) in
  match r with
  | inr r =>
      map (registry a') !! id = Some r /\ has_exited (registry a') r = false /\
      (live /\ a' = a \/
       ~ live /\ (others < max_sessions limits)%nat /\ exists child ns, start = (child, Ok ns) /\ started a' !! r = Some ns /\
         map (registry a') = <[id := r]> (map (registry a)) /\ children a' = children a ++ child_of (Some r) child)
  | inl frames =>
      ~ live /\ map (registry a') = delete id (map (registry a)) /\ started a' = started a /\
      (frames = [refuse_frame sid limit_text; Frame.close sid] /\ (max_sessions limits <= others)%nat /\ children a' = children a \/
       frames = [refuse_frame sid launch_text; Frame.close sid] /\ (others < max_sessions limits)%nat /\
         (forall ns, start.2 <> Ok ns) /\ children a' = children a ++ child_of None start.1)
  end.
Proof.
  intros Hok. unfold start_stream, open_session. destruct (session_spawn _ _ _ _ _ _ _ _ _ _) as [child ns].
  pose proof (lookup_cases (match ns with Ok _ => true | _ => false end) id now sz (registry a)) as L.
  destruct (lookup_or_spawn _ _ _ _ _ _) as [m r]. destruct L as [r Em Ex|Nl Hsz|Nl Hsz Hf|Nl Hsz Hf i].
  - assert (Hlt : (r < next_ref (registry a))%nat)
      by (apply (ok_started _ Hok); pose proof (ok_registry _ Hok id r Em); by destruct (started a !! r)).
    destruct ns; try case_bool_decide; try lia; (split; [done|]); (split; [done|]); left; (split; [by exists r|by destruct a]).
  - split; [intros (r & Hr & Hx); specialize (Nl r Hr); congruence|]. split; [done|]. split; [done|]. by left.
  - split; [intros (r & Hr & Hx); specialize (Nl r Hr); congruence|]. split; [done|]. split; [done|]. right.
    split; [done|]. split; [done|]. split; [|done]. by destruct ns.
  - destruct ns as [ns| |]; try done. rewrite bool_decide_true by done. cbn [registry map started children].
    split; [by rewrite lookup_insert_eq|]. split; [unfold has_exited; cbn; by rewrite lookup_insert_eq|]. right.
    split; [intros (r & Hr & Hx); specialize (Nl r Hr); congruence|]. split; [done|]. exists child, ns.
    by rewrite lookup_insert_eq.
Qed.

(** A start in which nothing fails once the child runs. *)
Definition starts_whole (os : PtyAnswers) : bool :=
  clone_reader_ok os && take_writer_ok os && reader_thread_ok os && writer_thread_ok os.
Definition whole_start (e : AgentEvent) : Prop := match e with EOpen os _ _ _ _ _ => starts_whole os = true | _ => True end.

Lemma whole_start_child os random now (c : Ch) id sz child ns :
  starts_whole os = true -> session_spawn b64url os inherited random now c id shell sz (scrollback_cap_bytes limits) = (child, ns) ->
  child = None \/ exists n, ns = Ok n.
Proof.
  unfold starts_whole, session_spawn, async_spawn, clamp_size. destruct (split_shell shell) as [program args].
  destruct (openpty_ok os _); cbn [negb]; [|intros _ [= <- _]; by left]. destruct (start_ok os _); cbn [negb]; [|intros _ [= <- _]; by left].
  destruct (clone_reader_ok os), (take_writer_ok os), (reader_thread_ok os), (writer_thread_ok os); try done.
  intros _ [= _ <-]. right. by eexists.
Qed.

Lemma no_strays a e : whole_start e -> (forall c, (None, c) ∉ children a) -> forall c, (None, c) ∉ children (agent_event a e).
Proof.
  intros Hw Hn. destruct e as [os random now c id sz|r i|id|now|]; cbn [agent_event]; [|done|done|by destruct (sweep a)..].
  unfold open_session. destruct (session_spawn _ _ _ _ _ _ _ _ _ _) as [child ns] eqn:Es.
  pose proof (whole_start_child _ _ _ _ _ _ _ _ Hw Es) as W.
  pose proof (lookup_cases (match ns with Ok _ => true | _ => false end) id now sz (registry a)) as L.
  destruct (lookup_or_spawn _ _ _ _ _ _) as [m r]. destruct L as [r Em Ex|Nl Hsz|Nl Hsz Hf|Nl Hsz Hf i].
  - destruct ns; cbn [fst]; try case_bool_decide; cbn [children]; try done. intros c' [?|Hin]%elem_of_app; [by apply (Hn c')|].
    by apply list_elem_of_fmap in Hin as (? & [=] & _).
  - done.
  - cbn. destruct W as [->|[n ->]]; [by rewrite app_nil_r|done].
  - destruct ns; try done. rewrite bool_decide_true by done. cbn. intros c' [?|Hin]%elem_of_app; [by apply (Hn c')|].
    by apply list_elem_of_fmap in Hin as (? & [=] & _).
Qed.

(** [C15] An agent's shells, whatever its streams, shells, kills and sweeps do
    and in whatever order.  There are never more sessions than the limit
    allows, and each was started under its id, runs the configured command and
    has its own download token in the environment.  Every process that was
    ever started is the shell of a session, unless its start failed at a later
    step - such a process is left behind, and there is none if no start fails
    that way.  And as long as nothing opens or touches a session that the
    sweep under way has collected but not yet dropped, the session of every
    shell is registered, has exited, or was killed, and the sweep only drops
    sessions that have exited or stayed without a viewer beyond their time. *)
Theorem shells_are_accounted_for es :
  let a := agent_events es no_sessions in
  (base.size (map (registry a)) <= max_sessions limits)%nat /\
  (forall id r, map (registry a) !! id = Some r -> exists ns, started a !! r = Some ns /\ ns_id ns = id /\
     (Some r, rp_command (ns_pty ns)) ∈ children a /\
     (sh_program (rp_command (ns_pty ns)), sh_args (rp_command (ns_pty ns))) = split_shell shell /\
     sh_env (rp_command (ns_pty ns)) !! lit "TERM_DL_TOKEN" = Some (ns_dl_token ns)) /\
  (forall o c, (o, c) ∈ children a ->
     o = None \/ exists r ns, o = Some r /\ started a !! r = Some ns /\ c = rp_command (ns_pty ns)) /\
  (Forall whole_start es -> forall c, (None, c) ∉ children a) /\
  (undisturbed_run es no_sessions ->
     (forall r, is_Some (started a !! r) ->
        (exists id, map (registry a) !! id = Some r) \/ has_exited (registry a) r = true \/ r ∈ killed (registry a)) /\
     (forall id r, (id, r) ∈ sweep a ->
        (exists now, ref_expired limits now (registry a) r = true) /\
        (map (registry a) !! id = Some r \/ map (registry a) !! id = None))).
Proof.
  cbn zeta. pose proof (agent_events_ok es) as Hok. split; [apply ok_limit, Hok|]. split; [|split; [apply (ok_children _ Hok)|split]].
  - intros id r Hr. pose proof (ok_registry _ Hok id r Hr) as E. destruct (started _ !! r) as [ns|] eqn:Ens; [|done].
    injection E as E. exists ns. split; [done|]. split; [done|]. by apply (ok_shells _ Hok r).
  - clear Hok. intros Hw. assert (N0 : forall c, (None, c) ∉ children no_sessions) by (intros c; apply not_elem_of_nil). revert N0.
    generalize no_sessions. induction Hw as [|e es He _ IH]; intros a N; [done|]. apply IH. by apply no_strays.
  - intros Hu. destruct (run_accounted es no_sessions no_sessions_ok Hu) as [Ha Hs].
    + intros r. cbn. lia.
    + intros id r Hin. by apply elem_of_nil in Hin.
    + split; [|apply Hs]. intros r Hr. by apply Ha, (ok_started _ Hok).
Qed.
End AgentSessions.

(** ** What an overtaken sweep does *)

Abbreviation demo_agent := (agent_events base64url (Build_Limits 2 100 1000) (lit "/bin/bash -l") demo_env).
Abbreviation demo_open now := (EOpen demo_pty demo_random now ([] : list SessionEvent) (lit "main") (24, 80)).

(** A shell exits and is collected; before the sweep comes to drop it, a stream
    opens its id again and gets a new session, which the sweep then takes out
    of the registry: its shell runs on, but no stream, kill or sweep ever
    finds it again, and it does not count towards the limit. *)
Lemma sweep_loses_reopened_session :
  let a := demo_agent [demo_open 0; EInner 0 (mk_inner None (24, 80) ∅ (ring_new 1000) 0 true); ESweep 50; demo_open 60; EDrop]
             (no_sessions (Ch := list SessionEvent)) in
  map (registry a) = ∅ /\ is_Some (started a !! 1%nat) /\ has_exited (registry a) 1 = false /\ killed (registry a) = [0%nat].
Proof. cbn zeta. by_running. Qed.

(** A session without viewers is collected; before the sweep comes to drop it a
    viewer is back: its session is killed all the same. *)
Lemma sweep_kills_viewed_session :
  let a := demo_agent [demo_open 0; ESweep 200; EInner 0 (mk_inner (Some 2) (24, 80) {[2 := (24, 80)]} (ring_new 1000) 200 false); EDrop]
             (no_sessions (Ch := list SessionEvent)) in
  killed (registry a) = [0%nat] /\ attached <$> heap (registry a) !! 0%nat = Some {[2 := (24, 80)]} /\
  has_exited (registry a) 0 = false.
Proof. cbn zeta. by_running. Qed.

(** A start whose writer thread cannot be created: the stream gets an error and
    no session, but the shell is a process already, and no session, kill or
    sweep knows it. *)
Lemma failed_start_leaves_shell :
  let os := {| openpty_ok := openpty_ok demo_pty; start_ok := start_ok demo_pty; clone_reader_ok := true; take_writer_ok := true;
               reader_thread_ok := true; writer_thread_ok := false |} in
  let a := demo_agent [EOpen os demo_random 0 ([] : list SessionEvent) (lit "main") (24, 80)] (no_sessions (Ch := list SessionEvent)) in
  map (registry a) = ∅ /\ base.size (started a) = 0%nat /\ killed (registry a) = [] /\
  (children a).*1 = [None] /\ sh_program <$> (children a).*2 = [lit "/bin/bash"].
Proof. cbn zeta. by_running. Qed.

(** A sweep nobody overtakes: the idle session is dropped and killed, the other
    one stays. *)
Lemma shells_are_accounted_for_witness :
  let es := [demo_open 0; ESweep 200; EDrop; demo_open 250] in
  let a := demo_agent es (no_sessions (Ch := list SessionEvent)) in
  killed (registry a) = [0%nat] /\ map (registry a) = {[lit "main" := 1%nat]} /\
  ((exists id, map (registry a) !! id = Some 0%nat) \/ has_exited (registry a) 0 = true \/ 0%nat ∈ killed (registry a)).
Proof.
  cbn zeta. split; [by_running|]. split; [by_running|].
  destruct (shells_are_accounted_for base64url (Build_Limits 2 100 1000) (lit "/bin/bash -l") demo_env
    [demo_open 0; ESweep 200; EDrop; demo_open 250]) as (_ & _ & _ & _ & W).
  apply W.
  - repeat split; by_running.
  - by_running.
Defined.
