(* ===== verification/AgentMain.v ===== *)
(** * AgentMain: the agent's process ([main] in [agent/src/main.rs])

    The sessions outlive every connection ([AgentSessions]); next to the
    connections runs one task that sweeps them once a minute.  Here that task
    is a timed machine: it waits for its tick, or is inside a [gc_pass] and has
    sessions left to drop, between which anything else may happen. *)

From Stdlib Require Import Strings.Byte.
From stdpp Require Import prelude strings list gmap.
From S2P Require Import Prelude Std Tokio Timers Frame Session Manager Pty Launch AgentSessions.
Open Scope Z_scope.

Definition GC_INTERVAL : Z := 60 * SECOND.

(** The task waits for its tick, or is inside [gc_pass]. *)
Inductive Sweeper := SWaiting (k : Ticker) | SSweeping (k : Ticker).
Definition sweeper_ticker (s : Sweeper) : Ticker := match s with SWaiting k | SSweeping k => k end.

Section Main.
Context {Ch Rx : Type} `{Broadcast SessionEvent Ch Rx}.
Variables (b64url : list byte -> list byte) (limits : Limits).
Variables (shell : list byte) (inherited : gmap (list byte) (list byte)).
Abbreviation event := (agent_event b64url limits shell inherited).

Record AgentMain := mk_main { shells : AgentSessions (Ch:=Ch); sweeper : Sweeper }.

Definition start_main : AgentMain := mk_main no_sessions (SWaiting (mk_ticker GC_INTERVAL Burst None)).

(** After a step of the sweep: the task is inside [gc_pass] as long as there is
    something to drop. *)
Definition after_sweep (k : Ticker) (a : AgentSessions (Ch:=Ch)) : AgentMain :=
  mk_main a (match sweep a with [] => SWaiting k | _ => SSweeping k end).
(** A poll of the task. *)
Definition poll_sweeper (t : Z) (m : AgentMain) : AgentMain :=
  match sweeper m with
  | SWaiting k =>
      let '(k, ticks) := tick_poll t k in
      if ticks then after_sweep k (event (shells m) (ESweep t)) else mk_main (shells m) (SWaiting k)
  | SSweeping k => after_sweep k (event (shells m) EDrop)
  end.

(** Everything else that happens to the sessions comes from the connections,
    the streams and the shells. *)
Inductive MainEvent := MSweeper | MShells (e : AgentEvent (Ch:=Ch)).
Definition main_step (t : Z) (e : MainEvent) (m : AgentMain) : AgentMain :=
  match e with
  | MSweeper => poll_sweeper t m
  | MShells (ESweep _) | MShells EDrop => m
  | MShells e => mk_main (event (shells m) e) (sweeper m)
  end.
Definition main_run (es : list (Z * MainEvent)) (m : AgentMain) : AgentMain := foldl (fun m te => main_step te.1 te.2 m) m es.

(** By [t] the sweep of each tick that was due [lag] ago is over. *)
Definition sweeper_on_time (lag t : Z) (s : Sweeper) : Prop :=
  match s with SWaiting k => on_time lag t k | SSweeping k => on_time (lag - period k) t k end.

(** ** What every run keeps *)

Record main_ok (T : Z) (m : AgentMain) : Prop := {
  mo_agent : agent_ok limits shell (shells m);
  mo_ticker : exists d, sweeper_ticker (sweeper m) = mk_ticker GC_INTERVAL Burst d /\ (forall x, d = Some x -> x <= T + GC_INTERVAL);
  mo_phase : match sweeper m with SWaiting _ => sweep (shells m) = [] | SSweeping k => sweep (shells m) <> [] /\ due k <> None end;
}.

Lemma start_main_ok T : main_ok T start_main.
Proof. split; cbn; [apply no_sessions_ok| |done]. exists None. done. Qed.

Lemma after_sweep_ok T d a : agent_ok limits shell a -> d <= T + GC_INTERVAL -> main_ok T (after_sweep (mk_ticker GC_INTERVAL Burst (Some d)) a).
Proof.
  intros Ka Hd. unfold after_sweep. split; [done| |].
  - exists (Some d). cbn. split; [by destruct (sweep a)|]. by intros x [= <-].
  - cbn. by destruct (sweep a) eqn:E.
Qed.

(** A poll of the task: nothing, the start of the interval, the start of a
    sweep, or a step of it. *)
Lemma poll_cases T t m : main_ok T m ->
  let m' := poll_sweeper t m in
  match sweeper m with
  | SWaiting (mk_ticker _ _ None) => m' = mk_main (shells m) (SWaiting (mk_ticker GC_INTERVAL Burst (Some (t + GC_INTERVAL))))
  | SWaiting (mk_ticker _ _ (Some d)) =>
      t < d /\ m' = m \/
      d <= t /\ m' = after_sweep (mk_ticker GC_INTERVAL Burst (Some (d + GC_INTERVAL))) (event (shells m) (ESweep t))
  | SSweeping k => m' = after_sweep k (event (shells m) EDrop)
  end.
Proof.
  intros [_ (d & E & _) _]. unfold poll_sweeper. destruct (sweeper m) as [k|k] eqn:Es; [|done]. cbn in E. subst k. cbn zeta. unfold tick_poll. cbn [due period missed next_due].
  destruct d as [d|]; [|done]. destruct (Z.ltb_spec t d); [left|right; done]. split; [done|]. rewrite <- Es. by destruct m.
Qed.

Lemma open_keeps_sweep os random now c id sz (a : AgentSessions (Ch:=Ch)) :
  sweep (open_session b64url limits shell inherited os random now c id sz a).1 = sweep a.
Proof.
  unfold open_session. destruct (session_spawn _ _ _ _ _ _ _ _ _ _) as [child ns]. destruct (lookup_or_spawn _ _ _ _ _ _) as [m r].
  by destruct r as [[]|r], ns; cbn; try case_bool_decide.
Qed.

Lemma main_step_ok T t e m : t <= T -> main_ok T m -> main_ok T (main_step t e m).
Proof.
  intros Ht K. pose proof K as [Ka (d & Ed & Hd) Kp]. destruct e as [|e]; cbn [main_step].
  - pose proof (poll_cases T t m K) as P. cbn zeta in P. destruct (sweeper m) as [k|k] eqn:Es; cbn in Ed; subst k; [destruct d as [d|]|].
    + destruct P as [[_ ->]|[Hle ->]]; [done|]. apply after_sweep_ok; [by apply agent_event_ok|unfold GC_INTERVAL, SECOND; lia].
    + rewrite P. split; [done| |done]. cbn. eexists. split; [done|]. intros x [= <-]. lia.
    + rewrite P. destruct d as [d|]; [|by destruct Kp]. apply after_sweep_ok; [by apply agent_event_ok|by apply Hd].
  - assert (Keep : forall a, agent_ok limits shell a -> sweep a = sweep (shells m) -> main_ok T (mk_main a (sweeper m))).
    { intros a Ha Hs. split; [done|by exists d|]. cbn. by rewrite Hs. }
    destruct e as [os random now c id sz|r i|id|now|]; try done; (apply Keep; [by apply agent_event_ok|]); cbn [agent_event].
    + apply open_keeps_sweep.
    + done.
    + by destruct (remove id (registry (shells m))).
Qed.
Lemma main_run_ok T es m : Forall (fun te => te.1 <= T) es -> main_ok T m -> main_ok T (main_run es m).
Proof. intros Hes. revert m. induction Hes as [|te es Ht _ IH]; intros m K; [done|]. apply IH. by apply main_step_ok. Qed.

(** ** A session's end *)

Section Session.
Context (id : SessionId) (r : Ref) (alone : Prop).

Definition gone (a : AgentSessions (Ch:=Ch)) : Prop := (r < next_ref (registry a))%nat /\ map (registry a) !! id <> Some r.
(** The session's shell has exited, or nobody watches it and its time is up;
    the latter is only so while it is left alone. *)
Definition doomed (now : Z) (a : AgentSessions (Ch:=Ch)) : Prop :=
  exists i, heap (registry a) !! r = Some i /\ (exited i = true \/ alone /\ expired limits now i = true).
Definition leaves_alone (e : AgentEvent (Ch:=Ch)) : Prop := alone -> match e with EInner r' _ => r' <> r | _ => True end.

Lemma expired_later now t i : now <= t -> expired limits now i = true -> expired limits t i = true.
Proof.
  intros Ht. unfold expired. destruct (exited i); [done|]. cbn [orb]. destruct (bool_decide _); [|done]. cbn [andb].
  rewrite !Z.gtb_lt. lia.
Qed.

Lemma gone_stays a e : gone a -> gone (event a e).
Proof.
  intros [Hr Hm]. destruct e as [os random now c k sz|r' i|k|now|]; cbn [agent_event].
  - unfold open_session. destruct (session_spawn _ _ _ _ _ _ _ _ _ _) as [child ns].
    pose proof (lookup_cases limits (match ns with Ok _ => true | _ => false end) k now sz (registry a)) as L.
    destruct (lookup_or_spawn _ _ _ _ _ _) as [m' x]. unfold gone.
    assert (G : (r < next_ref m')%nat /\ map m' !! id <> Some r).
    { destruct L as [r' Em Ex|Nl Hsz|Nl Hsz Hf|Nl Hsz Hf i]; [done|..]; cbn [map next_ref].
      - split; [done|]. by intros [_ ?]%lookup_delete_Some.
      - split; [done|]. by intros [_ ?]%lookup_delete_Some.
      - split; [lia|]. intros [[-> <-]|[_ ?]]%lookup_insert_Some; [lia|done]. }
    by destruct x as [[]|x], ns; cbn; try case_bool_decide.
  - destruct (change_inner_rest r' i (registry a)) as (E1 & E2 & _). unfold gone. cbn. by rewrite E1, E2.
  - unfold gone. cbn. split; [done|]. by intros [_ ?]%lookup_delete_Some.
  - by destruct (sweep a).
  - destruct (sweep a) as [|d ds]; [done|]. unfold gone. cbn. split; [done|]. by intros [_ ?]%lookup_delete_Some.
Qed.

Lemma doomed_later now t a : now <= t -> doomed now a -> doomed t a.
Proof. intros Ht (i & Hi & [?|[? ?]]); exists i; [by auto|]. split; [done|right]. split; [done|by eapply expired_later]. Qed.
Lemma doomed_stays now a e : agent_ok limits shell a -> leaves_alone e -> doomed now a -> doomed now (event a e).
Proof.
  intros Ka Hl (i & Hi & Hd). assert (Hr : (r < next_ref (registry a))%nat) by (apply (ok_heap _ _ a Ka); eauto).
  destruct e as [os random t c k sz|r' i'|k|t|]; cbn [agent_event].
  - unfold open_session. destruct (session_spawn _ _ _ _ _ _ _ _ _ _) as [child ns].
    pose proof (lookup_cases limits (match ns with Ok _ => true | _ => false end) k t sz (registry a)) as L.
    destruct (lookup_or_spawn _ _ _ _ _ _) as [m' x].
    assert (G : heap m' !! r = Some i).
    { destruct L as [r' Em Ex|Nl Hsz|Nl Hsz Hf|Nl Hsz Hf i0]; [done..|]. cbn [heap]. by rewrite lookup_insert_ne by lia. }
    exists i. split; [|done]. by destruct x as [[]|x], ns; cbn; try case_bool_decide.
  - unfold doomed. cbn [registry set_registry]. unfold change_inner. destruct (heap (registry a) !! r') as [i0|] eqn:E0; [|by exists i].
    destruct (decide (r' = r)) as [->|Hn].
    + rewrite Hi in E0. injection E0 as <-. destruct Hd as [Hd|[Ha _]]; [|by destruct (Hl Ha)].
      destruct (exited i') eqn:E'; rewrite Hd; cbn; [exists i'; rewrite lookup_insert_eq; auto|exists i; auto].
    + destruct (exited i0 && negb (exited i')); [by exists i|]. cbn. exists i. by rewrite lookup_insert_ne.
  - by exists i.
  - destruct (sweep a); by exists i.
  - destruct (sweep a); by exists i.
Qed.

Lemma doomed_expired now a : doomed now a -> ref_expired limits now (registry a) r = true.
Proof.
  intros (i & Hi & Hd). unfold ref_expired. rewrite Hi. destruct Hd as [E|[_ ?]]; [|done]. unfold expired. by rewrite E.
Qed.

(** From an instant on: the session is gone, or the tick that will collect it
    is the next, or the sweep under way has it. *)
Definition on_its_way (now d : Z) (m : AgentMain) : Prop :=
  gone (shells m) \/
  doomed now (shells m) /\ (due (sweeper_ticker (sweeper m)) = Some d \/
    exists k, sweeper m = SSweeping k /\ due k = Some (d + GC_INTERVAL) /\ (id, r) ∈ sweep (shells m)).

Lemma collect_in now (a : AgentSessions (Ch:=Ch)) : ref_expired limits now (registry a) r = true -> map (registry a) !! id = Some r -> (id, r) ∈ gc_collect limits now (registry a).
Proof.
  intros He Hm. unfold gc_collect. apply list_elem_of_In, filter_In. split; [|done]. by apply list_elem_of_In, elem_of_map_to_list.
Qed.

Lemma after_sweep_on_its_way now d k a : due k = Some (d + GC_INTERVAL) -> doomed now a -> (id, r) ∈ sweep a -> on_its_way now d (after_sweep k a).
Proof.
  intros Ek Hd Hin. right. split; [done|right]. exists k. unfold after_sweep. cbn. split_and!; [|done|done].
  destruct (sweep a); [by apply elem_of_nil in Hin|done].
Qed.

Lemma on_its_way_step T now t d e m : now <= t -> main_ok T m -> match e with MShells e => leaves_alone e | MSweeper => True end ->
  on_its_way now d m -> on_its_way now d (main_step t e m).
Proof.
  intros Ht K Hl [G|[D P]].
  { left. destruct e as [|e]; cbn [main_step]; [|by destruct e; try done; apply gone_stays].
    unfold poll_sweeper. destruct (sweeper m) as [k|k]; [destruct (tick_poll t k) as [k' []]|]; [by apply (gone_stays _ (ESweep t))|done|by apply (gone_stays _ EDrop)]. }
  pose proof (mo_agent _ _ K) as Ka. destruct e as [|e]; cbn [main_step].
  - pose proof (mo_ticker _ _ K) as (d' & Ed & _). pose proof (poll_cases T t m K) as C. cbn zeta in C.
    assert (Dt : forall e, leaves_alone e -> doomed now (event (shells m) e)) by (intros; by apply doomed_stays).
    assert (Nl : leaves_alone EDrop) by done.
    destruct (sweeper m) as [k|k] eqn:Es; cbn [sweeper_ticker] in *.
    + destruct P as [P|(k' & [=] & _)]. rewrite Ed in *. cbn [due] in P. rewrite P in C.
      destruct C as [[_ ->]|[Hle ->]]; [right; split; [done|left; by rewrite Es]|]. destruct (decide (map (registry (shells m)) !! id = Some r)) as [Em|Em].
      * apply after_sweep_on_its_way; [done|by apply Dt|]. pose proof (mo_phase _ _ K) as Hs. rewrite Es in Hs. cbn [agent_event]. rewrite Hs. cbn.
        apply collect_in; [|done]. by apply (doomed_expired t), (doomed_later now).
      * left. destruct D as (i & Hi & _). assert (Hr : (r < next_ref (registry (shells m)))%nat) by (apply (ok_heap _ _ _ Ka); eauto).
        apply (gone_stays _ (ESweep t)). by split.
    + rewrite C. destruct P as [P|(k' & [= <-] & Ek & Hin)].
      * right. split; [by apply Dt|left]. unfold after_sweep. cbn. by destruct (sweep _).
      * cbn [agent_event]. destruct (sweep (shells m)) as [|x xs] eqn:Ew; [by apply elem_of_nil in Hin|].
        pose proof (Dt EDrop Nl) as D'. cbn [agent_event] in D'. rewrite Ew in D'.
        apply elem_of_cons in Hin as [<-|Hin]; [left|by apply after_sweep_on_its_way].
        destruct D as (i & Hi & _). split; cbn; [apply (ok_heap _ _ _ Ka); eauto|]. by rewrite lookup_delete_eq.
  - assert (Stay : sweep (event (shells m) e) = sweep (shells m) -> on_its_way now d (mk_main (event (shells m) e) (sweeper m))).
    { intros Ew. right. split; [by apply doomed_stays|]. cbn. by rewrite Ew. }
    destruct e as [os random now' c k sz|r' i|k|now'|]; try (by right); (apply Stay); cbn [agent_event].
    + apply open_keeps_sweep.
    + done.
Qed.

Lemma on_its_way_run T now d es m :
  Forall (fun te => now <= te.1 <= T /\ match te.2 with MShells e => leaves_alone e | MSweeper => True end) es ->
  main_ok T m -> on_its_way now d m -> on_its_way now d (main_run es m) /\ main_ok T (main_run es m).
Proof.
  intros Hes. revert m. induction Hes as [|[t e] es [[H1 H2] H3] _ IH]; intros m K P; [done|]. cbn [fst snd] in *.
  apply (IH (main_step t e m)); [by apply main_step_ok|by apply (on_its_way_step T now t)].
Qed.
End Session.

(** ** A session's life *)

Section Alive.
Context (id : SessionId) (r : Ref) (T' : Z).

(** The shell runs, and until [T'] the session is watched or its time is not
    up. *)
Definition lively (i : SessionInner) : Prop :=
  exited i = false /\ (attached i <> ∅ \/ T' <= last_attached_at i + idle_ttl limits).
Definition keeps_alive (e : AgentEvent (Ch:=Ch)) : Prop :=
  match e with
  | EInner r' i => r' = r -> lively i
  | EKill id' => id' <> id
  | _ => True
  end.
Record kept (a : AgentSessions (Ch:=Ch)) : Prop := {
  kept_registered : map (registry a) !! id = Some r;
  kept_lively : exists i, heap (registry a) !! r = Some i /\ lively i;
  kept_not_swept : id ∉ (sweep a).*1;
}.

Hypothesis Httl : 0 <= idle_ttl limits.

Lemma lively_not_expired t i : t <= T' -> lively i -> expired limits t i = false.
Proof.
  intros Ht [Ee Hl]. unfold expired. rewrite Ee. cbn [orb]. destruct Hl as [Ha|Hl]; [by rewrite bool_decide_false|].
  apply andb_false_iff. right. rewrite Z.gtb_ltb. apply Z.ltb_ge. lia.
Qed.

Lemma kept_opens os random now c sz a : agent_ok limits shell a -> kept a ->
  open_session b64url limits shell inherited os random now c id sz a = (a, inr r).
Proof.
  intros Ka [Em (i & Hi & [Ee _]) _]. assert (Hr : (r < next_ref (registry a))%nat) by (apply (ok_heap _ _ a Ka); eauto).
  unfold open_session. destruct (session_spawn _ _ _ _ _ _ _ _ _ _) as [child ns].
  unfold lookup_or_spawn. rewrite Em. unfold has_exited. rewrite Hi, Ee. cbn [negb].
  destruct ns; [rewrite bool_decide_false by lia|..]; by destruct a.
Qed.

Lemma kept_event a e : agent_ok limits shell a -> keeps_alive e -> (forall now, e = ESweep now -> now <= T') -> kept a -> kept (event a e).
Proof.
  intros Ka He Hs K. pose proof K as [Em (i & Hi & Hl) Hw].
  destruct e as [os random now c k sz|r' i'|k|now|]; cbn [agent_event keeps_alive] in *.
  - assert (Hr : (r < next_ref (registry a))%nat) by (apply (ok_heap _ _ a Ka); eauto).
    unfold open_session. destruct (session_spawn _ _ _ _ _ _ _ _ _ _) as [child ns].
    pose proof (lookup_cases limits (match ns with Ok _ => true | _ => false end) k now sz (registry a)) as L.
    destruct (lookup_or_spawn _ _ _ _ _ _) as [m' x].
    assert (Hex : has_exited (registry a) r = false) by (unfold has_exited; rewrite Hi; apply Hl).
    assert (Hk : (forall r', map (registry a) !! k = Some r' -> has_exited (registry a) r' = true) -> k <> id).
    { intros Nl ->. specialize (Nl r Em). congruence. }
    assert (G : map m' !! id = Some r /\ heap m' !! r = Some i).
    { destruct L as [r' Em' Ex|Nl Hsz|Nl Hsz Hf|Nl Hsz Hf i0]; [done|..]; specialize (Hk Nl); cbn [map heap];
        rewrite ?lookup_delete_ne, ?lookup_insert_ne by (done || lia); done. }
    destruct G as [G1 G2]. destruct x as [[]|x], ns; cbn; try case_bool_decide; (split; [done|by exists i|done]).
  - destruct (change_inner_rest r' i' (registry a)) as (E1 & _ & _). split; [by cbn; rewrite E1| |done]. cbn.
    unfold change_inner. destruct (heap (registry a) !! r') as [i0|] eqn:E0; [|by exists i].
    destruct (exited i0 && negb (exited i')); [by exists i|]. cbn. destruct (decide (r' = r)) as [->|].
    + exists i'. rewrite lookup_insert_eq. auto.
    + exists i. by rewrite lookup_insert_ne.
  - split; cbn; [by rewrite lookup_delete_ne|by exists i|done].
  - destruct (sweep a) as [|x xs] eqn:Ew; [|done]. split; [done|by exists i|]. cbn.
    intros (r' & Em' & Ex)%collect_lookup. rewrite Em in Em'. injection Em' as <-. unfold ref_expired in Ex. rewrite Hi in Ex.
    rewrite lively_not_expired in Ex; [done|by apply Hs|done].
  - destruct (sweep a) as [|x xs] eqn:Ew; [done|]. cbn in Hw. apply not_elem_of_cons in Hw as [Hx Hxs].
    split; cbn; [by rewrite lookup_delete_ne by congruence|by exists i|done].
Qed.

Lemma kept_run T es m : Forall (fun te => T <= te.1 <= T' /\ match te.2 with MShells e => keeps_alive e | MSweeper => True end) es ->
  main_ok T' m -> kept (shells m) -> kept (shells (main_run es m)).
Proof.
  intros Hes. revert m. induction Hes as [|[t e] es [[H1 H2] H3] _ IH]; intros m K P; [done|]. cbn [fst snd] in *.
  apply (IH (main_step t e m)); [by apply main_step_ok|]. pose proof (mo_agent _ _ K) as Ka.
  destruct e as [|e]; cbn [main_step].
  - assert (Ks : kept (event (shells m) (ESweep t))) by (apply kept_event; [done|done|by intros ? [= <-]|done]).
    assert (Kd : kept (event (shells m) EDrop)) by (by apply kept_event).
    unfold poll_sweeper. destruct (sweeper m) as [k|k]; [destruct (tick_poll t k) as [k' []]|]; [exact Ks|done|exact Kd].
  - destruct e; try done; (by apply kept_event).
Qed.
End Alive.

(** A session whose shell has exited, or that nobody has watched for longer
    than the configured time and nobody touches, is out of the registry within
    a minute and the task's lag, whatever the streams, the kills and the other
    shells do meanwhile; until then its place counts against the limit. *)
Lemma expired_session_is_swept es1 es2 T T' lag t id r d :
  Forall (fun te => te.1 <= T) es1 -> Forall (fun te => T <= te.1 <= T') es2 ->
  let m := main_run es1 start_main in
  let m' := main_run es2 m in
  due (sweeper_ticker (sweeper m)) = Some d ->
  has_exited (registry (shells m)) r = true \/
    ref_expired limits T (registry (shells m)) r = true /\ (forall t r' i, (t, MShells (EInner r' i)) ∈ es2 -> r' <> r) ->
  sweeper_on_time lag t (sweeper m') -> T + GC_INTERVAL + lag < t ->
  map (registry (shells m')) !! id <> Some r.
Proof.
  intros H1 H2 m m' Ed Hd Hlag Ht. pose proof (main_run_ok T es1 _ H1 (start_main_ok T)) as K. fold m in K.
  assert (Hd0 : d <= T + GC_INTERVAL).
  { destruct (mo_ticker _ _ K) as (x & E & Hx). rewrite E in Ed. by apply Hx. }
  assert (P0 : on_its_way id r (forall t r' i, (t, MShells (EInner r' i)) ∈ es2 -> r' <> r) T d m).
  { right. split; [|by left]. destruct Hd as [He|[He Ha]].
    - unfold has_exited in He. destruct (heap (registry (shells m)) !! r) as [i|] eqn:Ei; [|done]. exists i. auto.
    - unfold ref_expired in He. destruct (heap (registry (shells m)) !! r) as [i|] eqn:Ei; [|done]. exists i. auto. }
  intros Hm. eapply (on_its_way_run id r _ (Z.max T T') T d es2 m) in P0 as [P K'].
  2: { apply Forall_forall. intros [t' e] Hin. apply list_elem_of_In in Hin. rewrite List.Forall_forall in H2. specialize (H2 _ Hin). cbn in *. split; [lia|].
    destruct e as [|e]; [done|]. intros Ha. destruct e; try done. apply (Ha t' r0 i). by apply list_elem_of_In. }
  2: { apply (main_run_ok (Z.max T T') es1); [|apply start_main_ok]. eapply Forall_impl; [exact H1|]. cbn. lia. }
  fold m' in P, K'. destruct P as [[_ G]|[_ [P|(k & Ek & P & _)]]]; [done| |].
  - pose proof (mo_ticker _ _ K') as (x & E & _). destruct (sweeper m') as [k|k]; cbn in *; specialize (Hlag d P); [|rewrite E in Hlag; cbn in Hlag; unfold GC_INTERVAL, SECOND in *]; lia.
  - rewrite Ek in Hlag. cbn in Hlag. specialize (Hlag _ P). pose proof (mo_ticker _ _ K') as (x & E & _). rewrite Ek in E. cbn in E. rewrite E in Hlag. cbn in Hlag. lia.
Qed.

(** [C33] A session lives as long as it is promised to, whatever connections
    come and go.  While its shell runs, nobody kills it and it is watched or
    was left less than the configured time ago, opening its id finds this
    session and changes nothing, unless a sweep that is already under way has
    collected its id, which would drop it all the same (lemma
    [sweep_kills_viewed_session]).  Once its shell has exited, or it was left for
    longer than that and nobody comes back, it is out of the registry within a
    minute and the lag of the sweeping task. *)
Theorem session_lifetime es1 es2 T T' id r d :
  0 <= idle_ttl limits -> T <= T' ->
  Forall (fun te => te.1 <= T) es1 -> Forall (fun te => T <= te.1 <= T') es2 ->
  let m := main_run es1 start_main in
  let m' := main_run es2 m in
  map (registry (shells m)) !! id = Some r -> due (sweeper_ticker (sweeper m)) = Some d ->
  ((exists i, heap (registry (shells m)) !! r = Some i /\ lively T' i) -> id ∉ (sweep (shells m)).*1 ->
   (forall t e, (t, MShells e) ∈ es2 -> keeps_alive id r T' e) ->
   forall os random now c sz, open_session b64url limits shell inherited os random now c id sz (shells m') = (shells m', inr r)) /\
  forall lag t,
   has_exited (registry (shells m)) r = true \/
     ref_expired limits T (registry (shells m)) r = true /\ (forall t r' i, (t, MShells (EInner r' i)) ∈ es2 -> r' <> r) ->
   sweeper_on_time lag t (sweeper m') -> T + GC_INTERVAL + lag < t -> map (registry (shells m')) !! id <> Some r.
Proof.
  intros Httl HT H1 H2 m m' Em Ed. split.
  - intros Hl Hn He os random now c sz. assert (K : main_ok T' m).
    { apply main_run_ok; [|apply start_main_ok]. eapply Forall_impl; [exact H1|]. cbn. lia. }
    assert (H2' : Forall (fun te => te.1 <= T') es2) by (eapply Forall_impl; [exact H2|]; cbn; lia).
    apply (kept_opens id r T'); [by apply (main_run_ok T')|]. apply (kept_run id r T' Httl T); [|done|by split].
    apply Forall_forall. intros [t e] Hin. split; [by apply (proj1 (Forall_forall _ _) H2 _ Hin)|].
    destruct e as [|e]; [done|]. by apply (He t).
  - intros lag t Hd. by apply (expired_session_is_swept es1 es2 T T' lag t id r d).
Qed.
End Main.

(** ** Witness *)

Abbreviation demo_main := (main_run base64url (Build_Limits 2 (100 * SECOND) 1000) (lit "/bin/bash -l") demo_env).
Abbreviation demo_event now := (EOpen demo_pty demo_random now ([] : list SessionEvent) (lit "main") (24, 80)).
Definition left_at (t : Z) : SessionInner := mk_inner None (24, 80) ∅ (ring_new 1000) t false.

(** The session is opened at one second.  At 50 s its viewer goes; the sweep of
    the first minute leaves it, and at 70 s its id finds it.  If its shell exits
    at 70 s instead, the sweep of the second minute takes it. *)
Lemma session_lifetime_witness :
  let m := demo_main [(0, MSweeper); (SECOND, MShells (demo_event SECOND)); (50 * SECOND, MShells (EInner 0 (left_at (50 * SECOND))))] start_main in
  let m1 := demo_main [(60 * SECOND, MSweeper)] m in
  let gone_at := demo_main [(0, MSweeper); (SECOND, MShells (demo_event SECOND));
    (50 * SECOND, MShells (EInner 0 (mk_inner None (24, 80) ∅ (ring_new 1000) 0 true)))] start_main in
  let m2 := demo_main [(61 * SECOND, MSweeper); (62 * SECOND, MSweeper)] gone_at in
  (open_session base64url (Build_Limits 2 (100 * SECOND) 1000) (lit "/bin/bash -l") demo_env
     demo_pty demo_random (70 * SECOND) ([] : list SessionEvent) (lit "main") (24, 80) (shells m1)).2 = inr 0%nat /\
  map (registry (shells m2)) !! lit "main" <> Some 0%nat.
Proof.
  cbn zeta. split.
  - destruct (session_lifetime base64url (Build_Limits 2 (100 * SECOND) 1000) (lit "/bin/bash -l") demo_env
      [(0, MSweeper); (SECOND, MShells (demo_event SECOND)); (50 * SECOND, MShells (EInner 0 (left_at (50 * SECOND))))]
      [(60 * SECOND, MSweeper)] (50 * SECOND) (60 * SECOND) (lit "main") 0%nat (60 * SECOND)) as [W _];
      [vm_compute; discriminate|unfold SECOND; lia|repeat constructor; vm_compute; discriminate|repeat constructor; vm_compute; discriminate|by_running|by_running|].
    refine (f_equal snd (W _ _ _ demo_pty demo_random (70 * SECOND) [] (24, 80))).
    + exists (left_at (50 * SECOND)). split; [vm_compute; reflexivity|]. split; [reflexivity|right; vm_compute; discriminate].
    + intros Hin. vm_compute in Hin. by apply elem_of_nil in Hin.
    + intros t e Hin. apply list_elem_of_singleton in Hin. discriminate Hin.
  - destruct (session_lifetime base64url (Build_Limits 2 (100 * SECOND) 1000) (lit "/bin/bash -l") demo_env
      [(0, MSweeper); (SECOND, MShells (demo_event SECOND)); (50 * SECOND, MShells (EInner 0 (mk_inner None (24, 80) ∅ (ring_new 1000) 0 true)))]
      [(61 * SECOND, MSweeper); (62 * SECOND, MSweeper)] (50 * SECOND) (62 * SECOND) (lit "main") 0%nat (60 * SECOND)) as [_ W];
      [vm_compute; discriminate|unfold SECOND; lia|repeat constructor; vm_compute; discriminate|repeat constructor; vm_compute; discriminate|by_running|by_running|].
    apply (W (2 * SECOND) (113 * SECOND)); [left; by_running| |vm_compute; reflexivity].
    vm_compute. intros x Hx. injection Hx as <-. vm_compute. discriminate.
Defined.
