(* ===== verification/HubConfig.v ===== *)
(** * HubConfig: the hub's configuration and its start
    ([hub/src/config.rs], [hub/src/main.rs], [hub/src/listener_mode.rs])

    Which configurations the hub refuses, and which listeners it runs.  The
    TOML reader, the URL parser and the operating system's answers are
    arguments; [SocketAddr]'s parser is [parse_addr]. *)

From Stdlib Require Import Strings.Byte.
From stdpp Require Import prelude strings list.
From S2P Require Import Prelude Utf8 Std Auth.

(** ** Data *)

Inductive TlsMode := Acme | Files | Off.
#[export] Instance TlsMode_eq_dec : EqDecision TlsMode.
Proof. solve_decision. Defined.

Record NoAuthConfig := mk_no_auth { na_bind : list byte; na_public_origin : list byte }.
Record MachineConfig := mk_machine { machine_id : list byte; machine_label : list byte }.

Record HubConfig := mk_config {
  domain : list byte;
  rp_id : list byte;
  rp_name : list byte;
  tls : TlsMode;
  acme_email : option (list byte);
  acme_production : bool;
  cert_path : option (list byte);
  key_path : option (list byte);
  tls_reload_interval_secs : option Z;
  data_dir : list byte;
  cfg_bind : option (list byte);
  agent_bind : list byte;
  public_origin : option (list byte);
  cfg_no_auth : option NoAuthConfig;
  machines : list MachineConfig;
}.

(** [HubConfig::origin] *)
Definition origin (c : HubConfig) : list byte :=
  match public_origin c with Some p => p | None => lit "https://" ++ domain c end.

(** [HubConfig::effective_bind] *)
Definition effective_bind (c : HubConfig) : list byte :=
  match cfg_bind c with
  | Some b => b
  | None => match tls c with Acme | Files => lit "[::]:443" | Off => lit "[::]:8080" end
  end.

Inductive StartError :=
| RpIdNotSuffix | AcmeEmailRequired | InvalidMachineId (id : list byte)
| StartIo | OriginNotUrl | NoAuthOverride (v : list byte) | NoAuthMissing | NoAuthOriginNotUrl
| BindsCollide | BindInvalid | NoAuthBindInvalid | CertPathRequired | KeyPathRequired
| VerifierNotBuilt | BindFailed | NoAuthBindFailed.

(** [HubConfig::effective_no_auth]; [env] is the variable [TERM_HUB_NO_AUTH]. *)
Definition no_auth_override (env : option (list byte)) : res StartError (option bool) :=
  match trim <$> env with
  | None => Ok None
  | Some v =>
      if bool_decide (v ∈ [lit "on"; lit "1"; lit "true"; lit "yes"]) then Ok (Some true)
      else if bool_decide (v ∈ [lit "off"; lit "0"; lit "false"; lit "no"]) then Ok (Some false)
      else if bool_decide (v = []) then Ok None
      else Err (NoAuthOverride v)
  end.
Definition effective_no_auth (env : option (list byte)) (c : HubConfig) : res StartError (option NoAuthConfig) :=
  want ← no_auth_override env;
  match want, cfg_no_auth c with
  | Some false, _ => Ok None
  | Some true, Some n => Ok (Some n)
  | Some true, None => Err NoAuthMissing
  | None, o => Ok o
  end.

(** [config::is_valid_machine_id] *)
Definition machine_byte (b : byte) : bool :=
  let v := byte_val b in
  in_range 48 57 v || in_range 65 90 v || in_range 97 122 v || (v =? 95) || (v =? 45).
Definition is_valid_machine_id (s : list byte) : bool :=
  if (len s =? 0) || (len s >? 32) then false else forallb machine_byte s.

(** [str::ends_with] *)
Definition ends_with (suffix s : list byte) : bool :=
  bool_decide (length suffix <= length s)%nat && bool_decide (drop (length s - length suffix) s = suffix).

(** The loop over the machines. *)
Fixpoint check_machines (ms : list MachineConfig) : res StartError unit :=
  match ms with
  | [] => Ok tt
  | m :: ms =>
      guard_err (negb (is_valid_machine_id (machine_id m))) (InvalidMachineId (machine_id m)) ;;
      check_machines ms
  end.

(** [load_config] behind the TOML reader *)
Definition load_config (c : HubConfig) : res StartError HubConfig :=
  guard_err (negb (ends_with (rp_id c) (domain c)) && negb (bool_decide (rp_id c = domain c))) RpIdNotSuffix ;;
  guard_err (bool_decide (tls c = Acme) && bool_decide (acme_email c = None)) AcmeEmailRequired ;;
  check_machines (machines c) ;;
  Ok c.

(** ** The start *)

(** What the serving half of [main] leaves running: the agents' own TLS
    listener ([None]: not spawned; [Some false]: spawned, but its task has
    ended, because the socket could not be bound), the period in seconds at
    which the TLS files are read again, and whether the ACME client runs. *)
Record Served := mk_served { sv_agent : option bool; sv_reload : option Z; sv_acme : bool }.

(** The listeners of a running hub: the browsers' listener with its mode, the
    listener without authentication, and what else is served. *)
Record Listeners (Addr : Type) := mk_listeners {
  l_browser : Addr;
  l_browser_mode : ListenerMode;
  l_no_auth : option (Addr * ListenerMode);
  l_served : Served;
}.
Arguments mk_listeners {Addr}.
Arguments l_browser {Addr}.
Arguments l_browser_mode {Addr}.
Arguments l_no_auth {Addr}.
Arguments l_served {Addr}.

Section Start.
Context {Addr : Type} `{EqDecision Addr}.
Variables (parse_addr : list byte -> option Addr) (url_ok : list byte -> bool).

(** [equal_socket_addr] *)
Definition equal_socket_addr (a b : list byte) : bool :=
  match parse_addr a, parse_addr b with
  | Some x, Some y => bool_decide (x = y)
  | _, _ => bool_decide (trim a = trim b)
  end.

(** What the hub finds at its start: the directories it creates, its secret,
    the agents' CA, the issued certificates and the TLS files; whether rustls
    takes the CA as a trust anchor and builds the verifier on it; and which
    sockets the operating system lets it bind. *)
Record StartAnswers := mk_answers {
  dirs_ok : bool; secret_ok : bool; agent_ca_ok : bool; issued_certs_ok : bool; tls_files_ok : bool;
  ca_is_anchor : bool; verifier_ok : bool;
  browser_bind_ok : bool; no_auth_bind_ok : bool; agent_bind_ok : bool;
}.

(** [build_agent_server_config] with [AgentClientVerifier::new], which expects
    the CA to be a trust anchor *)
Definition build_agent_server_config (f : StartAnswers) : res StartError unit :=
  if negb (ca_is_anchor f) then Panic else guard_err (negb (verifier_ok f)) VerifierNotBuilt.

(** [spawn_agent_listener]: its task only logs that it could not bind. *)
Definition spawn_agent_listener (f : StartAnswers) : bool := agent_bind_ok f.

(** [tls_files::spawn_reloader]: [tokio::time::interval] panics on a period of
    zero, which ends the task and nothing else. *)
Definition spawn_reloader (period : Z) : option Z := if period =? 0 then None else Some period.

Definition serve_acme (f : StartAnswers) (c : HubConfig) : res StartError Served :=
  guard_err (bool_decide (acme_email c = None)) AcmeEmailRequired ;;
  build_agent_server_config f ;;
  let agent := spawn_agent_listener f in
  guard_err (negb (browser_bind_ok f)) BindFailed ;;
  Ok (mk_served (Some agent) None true).

Definition serve_plain (f : StartAnswers) (c : HubConfig) : res StartError Served :=
  guard_err (negb (browser_bind_ok f)) BindFailed ;;
  Ok (mk_served None None false).

Definition serve_files (f : StartAnswers) (c : HubConfig) : res StartError Served :=
  guard_err (bool_decide (cert_path c = None)) CertPathRequired ;;
  guard_err (bool_decide (key_path c = None)) KeyPathRequired ;;
  let period := default 3600 (tls_reload_interval_secs c) in
  guard_err (negb (tls_files_ok f)) StartIo ;;
  let reload := spawn_reloader period in
  build_agent_server_config f ;;
  let agent := spawn_agent_listener f in
  guard_err (negb (browser_bind_ok f)) BindFailed ;;
  Ok (mk_served (Some agent) reload false).

(** [authed_fut] *)
Definition serve (f : StartAnswers) (c : HubConfig) : res StartError Served :=
  match tls c with
  | Acme => serve_acme f c
  | Files => serve_files f c
  | Off => serve_plain f c
  end.

(** The checks of [main] on the listener without authentication. *)
Definition check_no_auth (c : HubConfig) (na : option NoAuthConfig) : res StartError unit :=
  match na with
  | Some n =>
      guard_err (negb (url_ok (na_public_origin n))) NoAuthOriginNotUrl ;;
      guard_err (equal_socket_addr (effective_bind c) (na_bind n)) BindsCollide
  | None => Ok tt
  end.

(** [serve_optional_no_auth]; without a configuration it never ends. *)
Definition serve_optional_no_auth (f : StartAnswers) (na : option NoAuthConfig) : res StartError (option (Addr * ListenerMode)) :=
  match na with
  | Some n =>
      a ← ok_or NoAuthBindInvalid (parse_addr (na_bind n));
      guard_err (negb (no_auth_bind_ok f)) NoAuthBindFailed ;;
      Ok (Some (a, mk_mode true (na_public_origin n)))
  | None => Ok None
  end.

(** The [select!] of [main]: the hub runs while both futures serve, and ends
    with the first that fails; [first] says which of the two is ahead. *)
Definition select_serving {A B} (first : bool) (authed : res StartError A) (no_auth : res StartError B)
    : res StartError (A * B) :=
  if first then a ← authed; b ← no_auth; Ok (a, b) else b ← no_auth; a ← authed; Ok (a, b).

(** [main], until it serves. *)
Definition start (first : bool) (env : option (list byte)) (f : StartAnswers) (raw : HubConfig)
    : res StartError (Listeners Addr) :=
  c ← load_config raw;
  guard_err (negb (dirs_ok f)) StartIo ;;
  guard_err (negb (secret_ok f)) StartIo ;;
  guard_err (negb (url_ok (origin c))) OriginNotUrl ;;
  na ← effective_no_auth env c;
  check_no_auth c na ;;
  guard_err (negb (agent_ca_ok f)) StartIo ;;
  guard_err (negb (issued_certs_ok f)) StartIo ;;
  browser ← ok_or BindInvalid (parse_addr (effective_bind c));
  '(served, no_auth_listener) ← select_serving first (serve f c) (serve_optional_no_auth f na);
  Ok (mk_listeners browser (mk_mode false (origin c)) no_auth_listener served).

(** ** Properties *)

Lemma check_machines_ok ms u :
  check_machines ms = Ok u -> Forall (fun m => is_valid_machine_id (machine_id m) = true) ms.
Proof.
  induction ms as [|m ms IH]; [constructor|]. cbn [check_machines]. intros H. inv_res. bool_to_prop.
  constructor; [|eauto]. by destruct (is_valid_machine_id (machine_id m)).
Qed.

(** What the environment variable asks for. *)
Definition overrides (want : bool) (env : option (list byte)) : bool :=
  match no_auth_override env with Ok (Some b) => Bool.eqb b want | _ => false end.

Lemma effective_no_auth_ok env c na :
  effective_no_auth env c = Ok na ->
  na = (if overrides false env then None else cfg_no_auth c) /\ (overrides true env = true -> na <> None).
Proof.
  unfold effective_no_auth, overrides. intros H. apply bind_Ok in H as (want & -> & H).
  destruct want as [[|]|]; [destruct (cfg_no_auth c)| |]; by inv_res.
Qed.

Lemma ends_with_suffix p s : ends_with p s = true -> exists q, s = q ++ p.
Proof.
  unfold ends_with. intros [_ E]%andb_true_iff. apply bool_decide_eq_true in E.
  exists (take (length s - length p) s). by rewrite <- E at 2; rewrite take_drop.
Qed.

Lemma rp_id_checked c :
  negb (ends_with (rp_id c) (domain c)) && negb (bool_decide (rp_id c = domain c)) = false ->
  exists p, domain c = p ++ rp_id c.
Proof.
  destruct (ends_with _ _) eqn:E; [intros _; by apply ends_with_suffix|]. cbn. case_bool_decide as F; [|done].
  intros _. by exists [].
Qed.

Lemma select_both {A B} first (a : res StartError A) (b : res StartError B) x :
  select_serving first a b = Ok x <-> a = Ok x.1 /\ b = Ok x.2.
Proof.
  destruct x as [u v]. unfold select_serving. cbn [fst snd].
  destruct first, a, b; cbn; naive_solver.
Qed.

(** What is served, in each mode of TLS. *)
Definition served_by (f : StartAnswers) (c : HubConfig) : Served :=
  match tls c with
  | Acme => mk_served (Some (agent_bind_ok f)) None true
  | Files => mk_served (Some (agent_bind_ok f)) (spawn_reloader (default 3600 (tls_reload_interval_secs c))) false
  | Off => mk_served None None false
  end.
Lemma serve_Ok f c s : serve f c = Ok s -> s = served_by f c /\ browser_bind_ok f = true.
Proof.
  unfold serve, served_by, serve_acme, serve_files, serve_plain, build_agent_server_config, spawn_agent_listener.
  intros H. destruct (tls c), (ca_is_anchor f), (browser_bind_ok f); cbn in *; inv_res; try done.
Qed.

Lemma no_auth_listener_is f na l a m :
  serve_optional_no_auth f na = Ok l ->
  l = Some (a, m) <-> exists n, na = Some n /\ parse_addr (na_bind n) = Some a /\ m = mk_mode true (na_public_origin n).
Proof.
  unfold serve_optional_no_auth. intros H. destruct na as [n|]; inv_res.
  - split; [intros [= <- <-]; eauto|]. intros (n' & [= <-] & Hp & ->). congruence.
  - split; [done|]. by intros (n & ? & _).
Qed.

Lemma binds_differ c na n a b u :
  check_no_auth c na = Ok u -> na = Some n -> parse_addr (na_bind n) = Some a -> parse_addr (effective_bind c) = Some b -> a <> b.
Proof.
  unfold check_no_auth, equal_socket_addr. intros H -> Ha Hb ->. rewrite Ha, Hb in H. inv_res. by case_bool_decide.
Qed.

(** [C28] If the hub starts, then the relying party is a suffix of the domain,
    every machine id is well formed, and its listeners are these: one for
    browsers, which authenticates and expects the hub's own origin; one that
    does not authenticate if and only if the configuration has a [no_auth]
    section and the environment does not disable it, on a different socket
    and with the origin of that section; the agents' own TLS listener if and
    only if TLS is not off, though it may have ended for want of its socket
    (with TLS off [agent_bind] is not bound at all, where comments of the code
    and the README promise plain TCP);
    and the TLS files are read again every so many seconds as configured, an
    hour by default, but never when that number is 0. *)
Theorem started_hub_listeners first env f c l :
  start first env f c = Ok l ->
  (exists p, domain c = p ++ rp_id c) /\
  Forall (fun m => is_valid_machine_id (machine_id m) = true) (machines c) /\
  parse_addr (effective_bind c) = Some (l_browser l) /\ l_browser_mode l = mk_mode false (origin c) /\
  (forall a m, l_no_auth l = Some (a, m) <->
     exists n, overrides false env = false /\ cfg_no_auth c = Some n /\ parse_addr (na_bind n) = Some a /\
       m = mk_mode true (na_public_origin n)) /\
  (forall a m, l_no_auth l = Some (a, m) -> a <> l_browser l) /\
  (overrides true env = true -> l_no_auth l <> None) /\
  (forall up, sv_agent (l_served l) = Some up <-> tls c <> Off /\ up = agent_bind_ok f) /\
  (forall p, sv_reload (l_served l) = Some p <->
     tls c = Files /\ p = default 3600 (tls_reload_interval_secs c) /\ p <> 0).
Proof.
  unfold start, load_config. intros H. inv_res.
  match goal with H : select_serving _ _ _ = Ok _ |- _ =>
    apply select_both in H as [Hs Hl]; cbn [fst snd] in Hs, Hl; apply serve_Ok in Hs as [-> _] end.
  cbn [l_browser l_browser_mode l_no_auth l_served].
  repeat match goal with
  | H : check_machines _ = Ok _ |- _ => apply check_machines_ok in H
  | H : _ && negb (bool_decide (rp_id _ = domain _)) = false |- _ => apply rp_id_checked in H
  | H : effective_no_auth _ _ = Ok ?o |- _ => apply effective_no_auth_ok in H as [Hna Hon]
  end.
  match goal with H : check_no_auth _ _ = Ok _ |- _ => rename H into Hc end.
  match goal with H : parse_addr _ = Some _ |- _ => rename H into Hb end.
  split; [done|]. split; [done|]. split; [done|]. split; [done|]. split.
  { intros a m. rewrite (no_auth_listener_is _ _ _ a m Hl), Hna. destruct (overrides false env); naive_solver. }
  split; [intros a m Hm; apply (no_auth_listener_is _ _ _ a m Hl) in Hm as (n & En & Ha & _); by eapply binds_differ|].
  split; [intros Ho; specialize (Hon Ho); unfold serve_optional_no_auth in Hl;
          match type of Hl with match ?na with _ => _ end = _ => destruct na; [|done] end; by inv_res|].
  unfold served_by, spawn_reloader.
  match goal with |- context [tls ?c] => destruct (tls c); cbn; split; intros; try naive_solver end.
  match goal with |- context [?a =? 0] => destruct (Z.eqb_spec a 0) end; naive_solver.
Qed.

(** A relying party id need not be a suffix in whole labels. *)
Lemma rp_id_not_label_aligned c :
  load_config (mk_config (lit "evilexample.com") (lit "example.com") [] Off None false None None None [] None [] None None [])
  = Ok c -> domain c = lit "evil" ++ rp_id c.
Proof. by intros [= <-]. Qed.
End Start.

Definition sample_config : HubConfig :=
  mk_config (lit "term.example.com") (lit "example.com") (lit "term") Off None false None None None (lit "/tmp") None
    (lit "[::]:7700") None (Some (mk_no_auth (lit "[::]:18080") (lit "https://t.example"))) [mk_machine (lit "alpha") []].
Definition all_well : StartAnswers := mk_answers true true true true true true true true true true.

Lemma started_hub_listeners_witness :
  let l := mk_listeners (lit "[::]:8080") (mk_mode false (lit "https://term.example.com"))
    (Some (lit "[::]:18080", mk_mode true (lit "https://t.example"))) (mk_served None None false) in
  start Some (fun _ => true) true None all_well sample_config = Ok l /\ lit "[::]:18080" <> l_browser l.
Proof.
  cbn zeta.
  assert (E : start Some (fun _ => true) true None all_well sample_config =
    Ok (mk_listeners (lit "[::]:8080") (mk_mode false (lit "https://term.example.com"))
      (Some (lit "[::]:18080", mk_mode true (lit "https://t.example"))) (mk_served None None false))) by (vm_compute; reflexivity).
  split; [exact E|].
  destruct (started_hub_listeners Some (fun _ => true) true None all_well sample_config _ E) as (_ & _ & _ & _ & _ & W & _).
  apply (W _ _ eq_refl).
Defined.
