(* ===== verification/Envelope.v ===== *)
(** * Envelope: the registration of a passkey, from the hub to [hub-admin]
    ([common/src/envelope.rs], [common/src/webauthn/mod.rs], the secret of
    [common/src/creds.rs], [register_start] of [hub/src/webauthn_routes.rs])

    The hub keeps no state for a registration: the challenge travels through
    the browser in an envelope under the hub's HMAC key, and comes back with
    the authenticator's answer in the blob the operator pastes into
    [hub-admin].  HMAC, JSON and base64 are libraries. *)

From Stdlib Require Import Strings.Byte.
From stdpp Require Import prelude strings list.
From S2P Require Import Prelude Utf8 Std Random Cbor Webauthn Auth Login.

Definition ENVELOPE_TTL_SECS : Z := 10 * 60.
Definition CHALLENGE_LEN : Z := 32.
Definition SECRET_LEN : nat := 32.

(** ** Data *)

Record EnvelopeInner := mk_inner {
  env_rp_id : list byte; env_origin : list byte; issued_at : Z; challenge_b64u : list byte;
}.
Record SignedEnvelope := mk_envelope { env_inner : EnvelopeInner; hmac_b64 : list byte }.
Record PasteBlob := mk_blob {
  blob_envelope : SignedEnvelope; blob_response : RegistrationResponse; blob_label : option (list byte);
}.

Inductive EnvelopeError := EvTime | HmacMismatch | Expired (age_secs ttl : Z) | EvDecode.

(** The libraries. *)
Record EnvelopeLib := {
  hmac : list byte -> list byte -> list byte;    (** HMAC-SHA256 of a key and a message *)
  json_of_inner : EnvelopeInner -> list byte;
  json_of_blob : PasteBlob -> list byte;
  blob_of_json : list byte -> option PasteBlob;
}.

(** ** The options for the browser *)

Record CreationOptions := mk_creation {
  co_rp_id : list byte; co_rp_name : list byte;
  co_user_id : list byte; co_user_name : list byte; co_display_name : list byte;
  co_challenge : list byte; co_alg : Z; co_user_verification : list byte; co_attestation : list byte; co_timeout : Z;
}.
Record RequestOptions := mk_request {
  ro_challenge : list byte; ro_timeout : Z; ro_rp_id : list byte; ro_allow : list (list byte); ro_user_verification : list byte;
}.

Section Envelope.
Variables (lib : Crypto) (slib : StoreLib) (elib : EnvelopeLib).

(** [PublicKeyCredentialCreationOptions::build] *)
Definition creation_options (rp_id rp_name user_id_16 user_name display_name challenge : list byte) : CreationOptions :=
  mk_creation rp_id rp_name (b64_encode lib user_id_16) user_name display_name (b64_encode lib challenge) ES256_ALG
    (lit "discouraged") (lit "none") 60000.

(** [PublicKeyCredentialRequestOptions::build] *)
Definition request_options (rp_id challenge : list byte) (allow : list (list byte)) : RequestOptions :=
  mk_request (b64_encode lib challenge) 60000 rp_id (b64_encode lib <$> allow) (lit "discouraged").

(** [Challenge::random]: on Unix; what the system's source answers is given. *)
Definition challenge_random (opens : bool) (answers : list ReadAnswer) : res Empty_set (list byte) :=
  fill_unix opens answers (Z.to_nat CHALLENGE_LEN).
(** [Challenge::to_b64url] *)
Definition challenge_to_b64url (c : list byte) : list byte := b64_encode lib c.
(** [Challenge::from_b64url] *)
Definition challenge_from_b64url (s : list byte) : option (list byte) :=
  v ← b64_decode lib s;
  if len v =? CHALLENGE_LEN then Some v else None.

(** ** Envelopes *)

(** [SignedEnvelope::sign] *)
Definition sign (inner : EnvelopeInner) (key : list byte) : SignedEnvelope :=
  mk_envelope inner (std_encode slib (hmac elib key (json_of_inner elib inner))).

(** [SignedEnvelope::verify]; [now] is the clock in seconds, if it is past the
    epoch. *)
Definition verify (e : SignedEnvelope) (key : list byte) (now : option Z) : res EnvelopeError EnvelopeInner :=
  let expected := hmac elib key (json_of_inner elib (env_inner e)) in
  provided ← ok_or EvDecode (std_decode slib (hmac_b64 e));
  guard_err (negb (constant_time_eq provided expected)) HmacMismatch ;;
  now ← ok_or EvTime now;
  let age := Z.max (now - issued_at (env_inner e)) 0 in
  guard_err (age >? ENVELOPE_TTL_SECS) (Expired age ENVELOPE_TTL_SECS) ;;
  Ok (env_inner e).

(** [s.chars().filter(|c| !c.is_whitespace())], with the length as fuel *)
Fixpoint strip_ws (fuel : nat) (l : list byte) : list byte :=
  match fuel, l with
  | O, _ | _, [] => []
  | S k, b :: l' => match ws_len l with O => b :: strip_ws k l' | n => strip_ws k (drop n l) end
  end.

(** [encode_paste_blob] and [decode_paste_blob] *)
Definition encode_paste_blob (b : PasteBlob) : list byte := std_encode slib (json_of_blob elib b).
Definition decode_paste_blob (s : list byte) : res EnvelopeError PasteBlob :=
  bytes ← ok_or EvDecode (std_decode slib (strip_ws (length s) s));
  ok_or EvDecode (blob_of_json elib bytes).

(** ** The secret ([load_or_create_secret]) *)

Inductive SecretFile := NoSecret | Secret (bytes : list byte) | SecretUnreadable.

(** What comes of creating the file: it fails, the write fails after some
    bytes, or it is written. *)
Inductive Creation := NotCreated | PartlyWritten (n : nat) | Written.

(** [fresh] are the random bytes drawn. *)
Definition load_or_create_secret (fresh : list byte) (created : Creation) (f : SecretFile)
    : SecretFile * res StoreError (list byte) :=
  match f with
  | Secret bytes => (f, if (length bytes <? SECRET_LEN)%nat then Err SIo else Ok (take SECRET_LEN bytes))
  | NoSecret =>
      match created with
      | Written => (Secret fresh, Ok fresh)
      | PartlyWritten n => (Secret (take n fresh), Err SIo)
      | NotCreated => (f, Err SIo)
      end
  | SecretUnreadable => (f, Err SIo)
  end.

(** ** The hub's side ([register_start]) *)

(** [issued_at_now] *)
Definition issued_at_now (now : option Z) : Z := default 0 now.

(** [register_start]: the random values drawn are arguments. *)
Definition register_start (rp_id rp_name origin secret user_id challenge : list byte) (now : option Z)
    : CreationOptions * SignedEnvelope :=
  let user_name := lit "term-admin-" ++ take 8 (b64_encode lib user_id) in
  (creation_options rp_id rp_name user_id user_name (lit "term admin") challenge,
   sign (mk_inner rp_id origin (issued_at_now now) (b64_encode lib challenge)) secret).

(** ** [hub-admin add-passkey] *)

Inductive AdminError :=
| BlobInvalid (e : EnvelopeError) | EnvelopeInvalid (e : EnvelopeError) | ChallengeInvalid
| RegisterFailed (e : WebauthnError) | AdminStore (e : StoreError) | AlreadyRegistered (id : list byte)
| NoMatch | Ambiguous (n : nat) | LockFailed.

(** The credential a blob stands for: everything [cmd_add] does before it
    touches the store. *)
Definition credential_of_blob (blob_text secret : list byte) (now : option Z)
    : res AdminError (list byte * RegisteredCredential) :=
  paste ← map_err BlobInvalid (decode_paste_blob (trim blob_text));
  inner ← map_err EnvelopeInvalid (verify (blob_envelope paste) secret now);
  challenge ← ok_or ChallengeInvalid (challenge_from_b64url (challenge_b64u inner));
  registered ← map_err RegisterFailed (finish_register lib (blob_response paste) challenge (env_rp_id inner) (env_origin inner));
  let id := std_encode slib (rc_credential_id registered) in
  let named := match blob_label paste with
               | Some l => if bool_decide (trim l = []) then None else Some l
               | None => None
               end in
  Ok (default (lit "cred-" ++ take 8 id) named, registered).

(** The changes of the credential file: read, change, write, all under the
    lock. *)
Definition update_store {A} (lock_ok io_ok : bool) (change : CredentialStore -> res AdminError (CredentialStore * A))
    (f : CredFile) : CredFile * res AdminError A :=
  if negb lock_ok then (f, Err LockFailed)
  else
    match (store ← map_err AdminStore (load slib f); change store) with
    | Ok (store, a) =>
        let '(f, r) := save_atomic slib io_ok store f in
        (f, map_err AdminStore (r ;; Ok a))
    | Err e => (f, Err e)
    | Panic => (f, Panic)
    end.

(** [cmd_add]; [added_at] is the text of the current time. *)
Definition add_credential (label added_at : list byte) (c : RegisteredCredential) (store : CredentialStore)
    : res AdminError (CredentialStore * (list byte * list byte)) :=
  let id := std_encode slib (rc_credential_id c) in
  guard_err (existsb (fun s => bool_decide (credential_id_b64 s = id)) store) (AlreadyRegistered id) ;;
  Ok (store ++ [mk_cred label added_at id (std_encode slib (rc_public_key c)) (rc_sign_count c)], (label, id)).
Definition cmd_add (blob_text secret : list byte) (now : option Z) (added_at : list byte) (lock_ok io_ok : bool) (f : CredFile)
    : CredFile * res AdminError (list byte * list byte) :=
  match credential_of_blob blob_text secret now with
  | Ok (label, c) => update_store lock_ok io_ok (add_credential label added_at c) f
  | Err e => (f, Err e)
  | Panic => (f, Panic)
  end.

(** [cmd_remove] on the store: how many credentials go. *)
Definition exact_match (target : list byte) (c : StoredCredential) : bool :=
  bool_decide (label c = target) || bool_decide (credential_id_b64 c = target).
Definition prefix_match (target : list byte) (c : StoredCredential) : bool := starts_with target (credential_id_b64 c).
Definition remove_credential (target : list byte) (store : CredentialStore) : res AdminError (CredentialStore * nat) :=
  let keep (f : StoredCredential -> bool) := List.filter (fun c => negb (f c)) store in
  left ← (if (0 <? length (List.filter (exact_match target) store))%nat then Ok (keep (exact_match target))
          else
            let n := length (List.filter (prefix_match target) store) in
            guard_err (1 <? n)%nat (Ambiguous n) ;; Ok (keep (prefix_match target)));
  let removed := (length store - length left)%nat in
  guard_err (removed =? 0)%nat NoMatch ;;
  Ok (left, removed).
Definition cmd_remove (target : list byte) (lock_ok io_ok : bool) (f : CredFile) : CredFile * res AdminError nat :=
  update_store lock_ok io_ok (remove_credential target) f.

(** [cmd_list]: the lines it prints. *)
Definition cmd_list (f : CredFile) : res StoreError (list (list byte)) :=
  store ← load slib f;
  Ok (match store with
      | [] => [lit "(no credentials registered)"]
      | _ => (fun c => label c ++ x09 :: added_at c ++ x09 :: credential_id_b64 c) <$> store
      end).
End Envelope.
