(* ===== verification/EnvelopeFacts.v ===== *)
(** * EnvelopeFacts: enrolling and removing passkeys

    What a pasted blob must prove before a credential is stored, that a stored
    credential logs in, and what removing takes away. *)

From Stdlib Require Import Strings.Byte.
From stdpp Require Import prelude strings list gmap.
From S2P Require Import Prelude Utf8 Std Random Cbor CborFacts Webauthn WebauthnFacts Auth Login Envelope.

Section Envelope.
Context (lib : Crypto) (slib : StoreLib) (elib : EnvelopeLib).
Hypothesis sha256_len : forall m, len (sha256 lib m) = 32.
Hypothesis b64_roundtrip : forall b, b64_decode lib (b64_encode lib b) = Some b.
Hypothesis std_roundtrip : forall b, std_decode slib (std_encode slib b) = Some b.
Hypothesis json_roundtrip : forall s, store_of_json slib (json_of_store slib s) = Some s.

(** ** Envelopes *)

Lemma verify_Ok e key now i :
  verify slib elib e key now = Ok i <->
  i = env_inner e /\ std_decode slib (hmac_b64 e) = Some (hmac elib key (json_of_inner elib (env_inner e))) /\
  exists t, now = Some t /\ t - issued_at (env_inner e) <= ENVELOPE_TTL_SECS.
Proof.
  unfold verify. split.
  - intros H. inv_res. rewrite Z.gtb_ltb in *. bool_to_prop.
    match goal with H : constant_time_eq _ _ = true |- _ => apply constant_time_eq_spec in H as -> end.
    split; [done|]. split; [done|]. eexists. split; [done|]. unfold ENVELOPE_TTL_SECS in *. lia.
  - intros (-> & -> & t & -> & L). cbn [ok_or mbind res_bind]. rewrite (proj2 (constant_time_eq_spec _ _)) by done.
    cbn [negb guard_err mbind res_bind ok_or]. rewrite guard_pass; [done|]. rewrite Z.gtb_ltb. apply Z.ltb_ge.
    unfold ENVELOPE_TTL_SECS in *. lia.
Qed.

Lemma registered_key_len r challenge rp_id origin c :
  finish_register lib r challenge rp_id origin = Ok c -> len (rc_public_key c) = SEC1_UNCOMPRESSED_LEN.
Proof.
  intros H. apply finish_register_accepts in H; [|done].
  destruct H as (cd & att & ad & a & _ & _ & _ & _ & _ & Ha & _ & _ & ->).
  apply parse_attested_Ok in Ha as (_ & _ & _ & _ & rest & after & _ & Hk & _). cbn.
  by apply (cose_keys_decode (replicate 32 x00) (replicate 32 x00) []) in Hk as [L _].
Qed.

(** What a blob must be for [cmd_add] to take a credential from it. *)
Definition blob_proves (blob_text secret : list byte) (now : option Z) (label : list byte) (c : RegisteredCredential) : Prop :=
  exists paste challenge,
    let e := blob_envelope paste in let i := env_inner e in
    decode_paste_blob slib elib (trim blob_text) = Ok paste /\
    std_decode slib (hmac_b64 e) = Some (hmac elib secret (json_of_inner elib i)) /\
    (exists t, now = Some t /\ t - issued_at i <= ENVELOPE_TTL_SECS) /\
    b64_decode lib (challenge_b64u i) = Some challenge /\ len challenge = CHALLENGE_LEN /\
    registration_ok lib (blob_response paste) challenge (env_rp_id i) (env_origin i) c /\
    label = match blob_label paste with
            | Some l => if bool_decide (trim l = []) then lit "cred-" ++ take 8 (std_encode slib (rc_credential_id c)) else l
            | None => lit "cred-" ++ take 8 (std_encode slib (rc_credential_id c))
            end.

Lemma challenge_from_Some s v : challenge_from_b64url lib s = Some v <-> b64_decode lib s = Some v /\ len v = CHALLENGE_LEN.
Proof.
  unfold challenge_from_b64url. split.
  - intros H. apply bind_Some in H as (w & E & H). destruct (Z.eqb_spec (len w) CHALLENGE_LEN); [|done]. by injection H as <-.
  - intros [-> E]. cbn. by rewrite (proj2 (Z.eqb_eq _ _) E).
Qed.

(** A drawn challenge survives its encoding. *)
Lemma challenge_round_trip opens answers c :
  (forall v, b64_decode lib (b64_encode lib v) = Some v) ->
  challenge_random opens answers = Ok c -> challenge_from_b64url lib (challenge_to_b64url lib c) = Some c.
Proof.
  intros Hb Hc. apply challenge_from_Some. split; [apply Hb|]. unfold challenge_random in Hc.
  pose proof (fill_exact opens answers (Z.to_nat CHALLENGE_LEN)) as L. rewrite Hc in L. unfold len. rewrite L. done.
Qed.

Lemma credential_of_blob_Ok blob_text secret now label c :
  credential_of_blob lib slib elib blob_text secret now = Ok (label, c) <-> blob_proves blob_text secret now label c.
Proof.
  unfold credential_of_blob, blob_proves. split.
  - intros H. apply bind_Ok in H as (paste & Hp & H). apply map_err_Ok in Hp.
    apply bind_Ok in H as (i & Hi & H). apply map_err_Ok, verify_Ok in Hi as (-> & Hh & Ht).
    apply bind_Ok in H as (ch & Hc & H). apply ok_or_Ok, challenge_from_Some in Hc as [Hc Lc].
    apply bind_Ok in H as (r & Hr & H). apply map_err_Ok, finish_register_accepts in Hr; [|done]. injection H as <- <-.
    exists paste, ch. split_and!; try done. destruct (blob_label paste) as [l|]; [|done]. by case_bool_decide.
  - intros (paste & ch & -> & Hh & Ht & Hc & Lc & Hr & ->). cbn [map_err mbind res_bind].
    rewrite (proj2 (verify_Ok _ _ _ _)) by (split; [done|by split]). cbn [map_err mbind res_bind].
    rewrite (proj2 (challenge_from_Some _ _)) by done. cbn [ok_or mbind res_bind].
    rewrite (proj2 (finish_register_accepts _ sha256_len _ _ _ _ _)) by done. cbn [map_err mbind res_bind].
    do 2 f_equal. destruct (blob_label paste) as [l|]; [|done]. by case_bool_decide.
Qed.

(** ** The store *)

Lemma save_then_load io_ok s f :
  let '(f', r) := save_atomic slib io_ok s f in
  (r = Ok tt /\ load slib f' = Ok s) \/ (r = Err SIo /\ f' = f).
Proof. unfold save_atomic. destruct io_ok; [left|by right]. cbn. by rewrite json_roundtrip. Qed.

(** A change of the file either happens as a whole or not at all. *)
Lemma update_store_spec {A} lock_ok io_ok (change : CredentialStore -> res AdminError (CredentialStore * A)) f :
  let '(f', r) := update_store slib lock_ok io_ok change f in
  (match r with
  | Ok a => exists s s', load slib f = Ok s /\ change s = Ok (s', a) /\ load slib f' = Ok s'
  | _ => f' = f
  end).
Proof.
  unfold update_store. destruct lock_ok; [|done]. cbn [negb].
  destruct (load slib f) as [s| |] eqn:El; [|done..]. cbn [map_err mbind res_bind].
  destruct (change s) as [[s' a]| |] eqn:Ec; [|done..].
  pose proof (save_then_load io_ok s' f) as Sv. destruct (save_atomic slib io_ok s' f) as [f' r].
  destruct Sv as [[-> L]|[-> ->]]; cbn; [eauto|done].
Qed.

Lemma update_store_writes {A} (change : CredentialStore -> res AdminError (CredentialStore * A)) f s s' a :
  load slib f = Ok s -> change s = Ok (s', a) ->
  update_store slib true true change f = (File (json_of_store slib s'), Ok a).
Proof. intros El Ec. unfold update_store. rewrite El. cbn. by rewrite Ec. Qed.

Definition ids (s : CredentialStore) : list (list byte) := credential_id_b64 <$> s.

Lemma existsb_id id (s : CredentialStore) :
  existsb (fun c => bool_decide (credential_id_b64 c = id)) s = bool_decide (id ∈ ids s).
Proof.
  apply eq_true_iff_eq. rewrite existsb_exists, bool_decide_eq_true. unfold ids. rewrite list_elem_of_fmap. split.
  - intros (c & Hc & E%bool_decide_eq_true). exists c. by rewrite list_elem_of_In.
  - intros (c & -> & Hc). exists c. rewrite <- list_elem_of_In. split; [done|]. by apply bool_decide_eq_true.
Qed.

Lemma add_credential_Ok label added c s s' r :
  add_credential slib label added c s = Ok (s', r) <->
  (std_encode slib (rc_credential_id c) ∉ ids s) /\
  s' = s ++ [mk_cred label added (std_encode slib (rc_credential_id c)) (std_encode slib (rc_public_key c)) (rc_sign_count c)] /\
  r = (label, std_encode slib (rc_credential_id c)).
Proof.
  unfold add_credential. cbn zeta. rewrite existsb_id. case_bool_decide as E; cbn; split; naive_solver.
Qed.

Lemma std_inj a b : std_encode slib a = std_encode slib b -> a = b.
Proof. intros E. apply (f_equal (std_decode slib)) in E. rewrite !std_roundtrip in E. congruence. Qed.

Lemma find_new id c (s : CredentialStore) :
  credential_id_b64 c = std_encode slib id -> std_encode slib id ∉ ids s -> find_by_id slib id (s ++ [c]) = Some c.
Proof.
  intros E. unfold find_by_id, ids. induction s as [|d s IH]; cbn.
  - intros _. by rewrite bool_decide_true.
  - rewrite not_elem_of_cons. intros [N N']. rewrite bool_decide_false by done. by apply IH.
Qed.

Lemma decode_ids_app a b :
  decode_ids slib (a ++ b) = (x ← decode_ids slib a; y ← decode_ids slib b; Ok (x ++ y)).
Proof.
  induction a as [|c a IH]; cbn [decode_ids app].
  - cbn. by destruct (decode_ids slib b).
  - destruct (map_err BadStoredId (cred_id slib c)); cbn; [|done..]. rewrite IH.
    destruct (decode_ids slib a); cbn; [|done..]. by destruct (decode_ids slib b).
Qed.

(** Only the credential an assertion names is looked up. *)
Lemma assertion_ok_ext r challenge rp_id origin find find' a :
  find (ac_credential_id a) = find' (ac_credential_id a) ->
  assertion_ok lib r challenge rp_id origin find a <-> assertion_ok lib r challenge rp_id origin find' a.
Proof. intros E. unfold assertion_ok. by rewrite E. Qed.

Lemma lookup_enrolled p label added c s :
  len (rc_public_key c) = SEC1_UNCOMPRESSED_LEN -> std_encode slib (rc_credential_id c) ∉ ids s ->
  rc_credential_id c ∈ allowed_ids p ->
  lookup_allowed slib p (s ++ [mk_cred label added (std_encode slib (rc_credential_id c)) (std_encode slib (rc_public_key c)) (rc_sign_count c)])
    (rc_credential_id c) = Some (mk_stored (rc_public_key c) (rc_sign_count c)).
Proof.
  intros L N A. unfold lookup_allowed. rewrite bool_decide_true by done. rewrite find_new by done. cbn.
  unfold cred_public_key. cbn [credential_public_key_b64]. rewrite std_roundtrip. cbn. by rewrite L.
Qed.

(** ** Properties *)

(** [C19] Adding a passkey.  A credential enters the file only if the pasted
    blob carries, under the hub's secret, the HMAC of the very relying party,
    origin, time and challenge its registration response was checked against,
    at most ten minutes old, and its id was not in the file; then the file is
    the old one with that credential at its end.  In every other case, and
    when the file cannot be locked or written, the file is untouched.  And
    whenever all that holds, it is added. *)
Theorem add_passkey_exact blob_text secret now added lock_ok io_ok f :
  let '(f', r) := cmd_add lib slib elib blob_text secret now added lock_ok io_ok f in
  match r with
  | Ok (label, id) => exists c s, blob_proves blob_text secret now label c /\ id = std_encode slib (rc_credential_id c) /\
      load slib f = Ok s /\ (id ∉ ids s) /\
      load slib f' = Ok (s ++ [mk_cred label added id (std_encode slib (rc_public_key c)) (rc_sign_count c)])
  | _ => f' = f
  end /\
  (forall label c s, blob_proves blob_text secret now label c -> load slib f = Ok s ->
     std_encode slib (rc_credential_id c) ∉ ids s -> lock_ok = true -> io_ok = true ->
     r = Ok (label, std_encode slib (rc_credential_id c))).
Proof.
  unfold cmd_add. destruct (credential_of_blob lib slib elib blob_text secret now) as [[label c]| |] eqn:Eb.
  - pose proof (update_store_spec lock_ok io_ok (add_credential slib label added c) f) as U.
    destruct (update_store slib lock_ok io_ok (add_credential slib label added c) f) as [f' r] eqn:Eu. split.
    + destruct r as [[l id]| |]; try done. destruct U as (s & s' & El & Ea & El'). apply add_credential_Ok in Ea as (N & -> & [= -> ->]).
      exists c, s. split_and!; try done. by apply credential_of_blob_Ok.
    + intros l d s B El N -> ->. apply credential_of_blob_Ok in B. rewrite Eb in B. injection B as <- <-.
      rewrite (update_store_writes _ f s _ (label, std_encode slib (rc_credential_id c)) El) in Eu
        by (apply add_credential_Ok; by split_and!). by injection Eu as _ <-.
  - split; [done|]. intros l d s B. apply credential_of_blob_Ok in B. congruence.
  - split; [done|]. intros l d s B. apply credential_of_blob_Ok in B. congruence.
Qed.

(** [C18] A passkey that was enrolled logs in.  Take the envelope the hub issued
    for a challenge, a registration response that is acceptable for that
    challenge, and a blob of the two pasted into [hub-admin] within ten
    minutes, into a file without that credential id: the command succeeds,
    and from then on the hub offers the credential to logins, and accepts
    exactly the assertions that verify under its key for a login that offered
    it. *)
Theorem enrolled_passkey_logs_in rp_id rp_name origin secret user_id challenge issued text now named response c added f s :
  let '(_, envelope) := register_start lib slib elib rp_id rp_name origin secret user_id challenge (Some issued) in
  decode_paste_blob slib elib (trim text) = Ok (mk_blob envelope response named) ->
  len challenge = CHALLENGE_LEN -> now - issued <= ENVELOPE_TTL_SECS ->
  finish_register lib response challenge rp_id origin = Ok c ->
  load slib f = Ok s -> std_encode slib (rc_credential_id c) ∉ ids s ->
  let '(f', r) := cmd_add lib slib elib text secret (Some now) added true true f in
  is_ok r = true /\
  (forall st known chal nonce t0 t1, cred_file st = f' -> decode_ids slib s = Ok known ->
     (base.size (gc t0 pending_expires_at (pending_logins st)) < MAX_PENDING_LOGINS)%nat ->
     (login_start slib chal nonce t0 t1 st).2 = Ok (known ++ [rc_credential_id c])) /\
  (forall p assertion a, rc_credential_id c ∈ allowed_ids p -> ac_credential_id a = rc_credential_id c ->
     verify_login lib slib rp_id origin p assertion f' = Ok a <->
     assertion_ok lib assertion (Login.challenge p) rp_id origin
       (fun id => if bool_decide (id = rc_credential_id c) then Some (mk_stored (rc_public_key c) (rc_sign_count c)) else None) a).
Proof.
  unfold register_start. intros Hd Lc Ht Hr Hl N.
  assert (B : exists l, blob_proves text secret (Some now) l c).
  { eexists. exists (mk_blob (sign slib elib (mk_inner rp_id origin issued (b64_encode lib challenge)) secret) response named), challenge.
    cbn [blob_envelope sign env_inner hmac_b64 blob_response blob_label challenge_b64u env_rp_id env_origin Envelope.issued_at].
    split_and!; eauto. by apply finish_register_accepts. }
  destruct B as [l B]. apply credential_of_blob_Ok in B. unfold cmd_add. rewrite B.
  rewrite (update_store_writes _ f s _ (l, std_encode slib (rc_credential_id c)) Hl) by (by apply add_credential_Ok).
  pose proof (registered_key_len _ _ _ _ _ Hr) as Lk. split; [done|]. split.
  - intros st known chal nonce t0 t1 Ef Hk Hp. unfold login_start. rewrite Ef. cbn [load]. rewrite json_roundtrip. cbn [ok_or map_err mbind res_bind].
    rewrite guard_pass by (rewrite bool_decide_false; [done|by destruct s]). cbn [mbind res_bind].
    rewrite decode_ids_app, Hk. cbn [decode_ids map_err mbind res_bind].
    unfold cred_id at 1. cbn [credential_id_b64]. rewrite std_roundtrip. cbn [ok_or map_err mbind res_bind].
    rewrite bool_decide_false by lia. done.
  - intros p assertion a A E. unfold verify_login. cbn [load]. rewrite json_roundtrip. cbn [ok_or map_err mbind res_bind].
    rewrite map_err_Ok, (finish_authenticate_accepts lib sha256_len).
    apply assertion_ok_ext. rewrite E, bool_decide_true by done. by apply lookup_enrolled.
Qed.

(** Removing. *)
Lemma existsb_filter {X} (g : X -> bool) (l : list X) : existsb g l = (0 <? length (List.filter g l))%nat.
Proof. induction l as [|x l IH]; [done|]. cbn. by destruct (g x). Qed.
Lemma filter_split {X} (g : X -> bool) (l : list X) :
  (length (List.filter g l) + length (List.filter (fun x => negb (g x)) l) = length l)%nat.
Proof. induction l as [|x l IH]; cbn; [done|]. destruct (g x); cbn; lia. Qed.

(** Removing a passkey takes out exactly the credentials whose label or id
    is the target if there are any; otherwise exactly one, the only one whose
    id begins with the target.  A target that matches nothing, a prefix that
    matches several, and a file that cannot be locked, read or written, leave
    the file untouched. *)
Theorem remove_passkey_exact target lock_ok io_ok f :
  let '(f', r) := cmd_remove slib target lock_ok io_ok f in
  match r with
  | Ok n => exists s g, load slib f = Ok s /\ load slib f' = Ok (List.filter (fun c => negb (g c)) s) /\
      n = length (List.filter g s) /\ (0 < n)%nat /\
      (if existsb (exact_match target) s then g = exact_match target else g = prefix_match target /\ n = 1%nat)
  | _ => f' = f
  end.
Proof.
  unfold cmd_remove. pose proof (update_store_spec lock_ok io_ok (remove_credential target) f) as U.
  destruct (update_store slib lock_ok io_ok (remove_credential target) f) as [f' [n| |]]; try done.
  destruct U as (s & s' & El & Er & El'). unfold remove_credential in Er.
  pose proof (filter_split (exact_match target) s) as Fe. pose proof (filter_split (prefix_match target) s) as Fp.
  exists s. destruct (Nat.ltb_spec 0 (length (List.filter (exact_match target) s))) as [L|L]; inv_res; bool_to_prop;
    [exists (exact_match target)|exists (prefix_match target)]; rewrite existsb_filter.
  - rewrite (proj2 (Nat.ltb_lt _ _) L). split_and!; try done; lia.
  - rewrite (proj2 (Nat.ltb_ge _ _) L).
    repeat match goal with H : (_ =? _)%nat = false |- _ => apply Nat.eqb_neq in H | H : (_ <? _)%nat = false |- _ => apply Nat.ltb_ge in H end.
    split_and!; try done; lia.
Qed.

(** What writes the credential file: the administrator and the logins. *)
Inductive FileOp :=
| OpAdd (blob secret : list byte) (now : option Z) (added : list byte) (lock_ok io_ok : bool)
| OpRemove (target : list byte) (lock_ok io_ok : bool)
| OpCounter (lock_ok io_ok : bool) (id : list byte) (n : Z).
Definition file_step (f : CredFile) (o : FileOp) : CredFile :=
  match o with
  | OpAdd b k t a l i => (cmd_add lib slib elib b k t a l i f).1
  | OpRemove t l i => (cmd_remove slib t l i f).1
  | OpCounter l i id n => (persist_counter_update slib l i id n f).1
  end.
Definition file_ok (f : CredFile) : Prop := exists s, load slib f = Ok s /\ NoDup (ids s).

Lemma set_sign_count_ids id n s : ids (set_sign_count slib id n s) = ids s.
Proof. induction s as [|c s IH]; [done|]. cbn. case_bool_decide; [done|]. cbn. by f_equal. Qed.

Lemma filter_nodup (g : StoredCredential -> bool) s : NoDup (ids s) -> NoDup (ids (List.filter g s)).
Proof.
  unfold ids. induction s as [|c s IH]; [done|]. cbn. rewrite NoDup_cons. intros [N Hs]. destruct (g c); [|auto]. cbn.
  apply NoDup_cons. split; [|auto]. rewrite list_elem_of_fmap in N |- *. intros (d & E & Hd). apply N. exists d. split; [done|].
  rewrite list_elem_of_In, filter_In in Hd. apply list_elem_of_In, Hd.
Qed.

Lemma update_store_ok {A} lock_ok io_ok (change : CredentialStore -> res AdminError (CredentialStore * A)) f :
  (forall s s' a, NoDup (ids s) -> change s = Ok (s', a) -> NoDup (ids s')) ->
  file_ok f -> file_ok (update_store slib lock_ok io_ok change f).1.
Proof.
  intros Hc K. pose proof (update_store_spec lock_ok io_ok change f) as U.
  destruct (update_store slib lock_ok io_ok change f) as [f' [a| |]]; cbn [fst]; try (by subst f').
  destruct K as (s0 & E0 & N). destruct U as (s & s' & El & Ec & El'). exists s'. split; [done|]. apply (Hc s s' a); [|done]. congruence.
Qed.

Lemma file_step_ok f o : file_ok f -> file_ok (file_step f o).
Proof.
  intros K. destruct o as [b k t a l i|t l i|l i id n]; cbn [file_step].
  - unfold cmd_add. destruct (credential_of_blob lib slib elib b k t) as [[lbl c]| |]; [|done..].
    apply update_store_ok; [|done]. intros s s' r N H. apply add_credential_Ok in H as (Hn & -> & _).
    unfold ids in *. rewrite fmap_app. apply NoDup_app. split; [done|]. split; [|apply NoDup_singleton].
    intros x Hx. cbn. rewrite list_elem_of_singleton. by intros ->.
  - apply update_store_ok; [|done]. intros s s' r N H. unfold remove_credential in H.
    destruct (0 <? _)%nat; inv_res; by apply filter_nodup.
  - destruct K as (s & El & N). unfold persist_counter_update. destruct (negb l); [by exists s|]. rewrite El.
    destruct (find_by_id slib id s) as [c|]; [|by exists s]. destruct (n >? cred_sign_count c); [|by exists s].
    pose proof (save_then_load i (set_sign_count slib id n s) f) as Sv.
    destruct (save_atomic slib i (set_sign_count slib id n s) f) as [f' r].
    destruct Sv as [[_ E]|[_ ->]]; cbn [fst]; [|by exists s]. exists (set_sign_count slib id n s). by rewrite set_sign_count_ids.
Qed.

(** From an absent file on, whatever commands add and remove passkeys and
    whatever logins update counters, in any order and with any failures to
    lock or write: the credential file can always be read, and no credential
    id is in it twice. *)
Lemma credential_ids_unique ops :
  exists s, load slib (foldl file_step NoFile ops) = Ok s /\ NoDup (ids s).
Proof.
  assert (K : file_ok NoFile) by (exists []; split; [done|constructor]).
  revert K. generalize NoFile. induction ops as [|o ops IH]; intros f K; [done|]. cbn [foldl]. by apply IH, file_step_ok.
Qed.
End Envelope.

(** ** Witnesses *)

(** The library [toy] with a challenge of full length. *)
Definition toy_challenge : list byte := replicate 32 x63.
Definition toy_crypto : Crypto := {|
  b64_encode b := b;
  b64_decode b := Some b;
  json_view cd := Object (fun f =>
    if bool_decide (f = lit "type") then Some (Some cd)
    else if bool_decide (f = lit "challenge") then Some (Some toy_challenge)
    else if bool_decide (f = lit "origin") then Some (Some (lit "https://h")) else None);
  sha256 _ := replicate 32 x00;
  key_of_sec1 k := Some (len k);
  sig_of_der s := Some (len s);
  ecdsa_verify k m s := (k =? 65) && (s =? 3);
|}.
Definition toy_response : RegistrationResponse :=
  honest_registration toy_crypto toy_x toy_x (lit "id") (replicate 16 x00) (lit "h") 7 TYPE_CREATE.
Definition toy_registered : RegisteredCredential := mk_registered (lit "id") (x04 :: toy_x ++ toy_x) 7.

(** The authentication code of a message is the key in front of it. *)
Definition toy_inner : EnvelopeInner := mk_inner (lit "h") (lit "https://h") 100 toy_challenge.
Definition toy_blob : PasteBlob := mk_blob (mk_envelope toy_inner (lit "key" ++ toy_challenge)) toy_response (Some (lit "yubikey")).
Definition toy_elib : EnvelopeLib := {|
  hmac k m := k ++ m;
  json_of_inner i := challenge_b64u i;
  json_of_blob b := lit "blob";
  blob_of_json s := if bool_decide (s = lit "blob") then Some toy_blob else None;
|}.

Lemma toy_finish : finish_register toy_crypto toy_response toy_challenge (lit "h") (lit "https://h") = Ok toy_registered.
Proof. vm_compute. reflexivity. Qed.
Lemma toy_load : load toy_store toy_file = Ok [toy_cred 7].
Proof. unfold toy_file. cbn [load]. by rewrite toy_store_roundtrip. Qed.

Lemma add_passkey_exact_witness :
  let '(f', r) := cmd_add toy_crypto toy_store toy_elib (lit " blob ") (lit "key") (Some 200) (lit "now") true true NoFile in
  r = Ok (lit "yubikey", lit "id") /\ exists s, load toy_store f' = Ok s /\ ids s = [lit "id"].
Proof.
  pose proof (add_passkey_exact toy_crypto toy_store toy_elib ltac:(intros; reflexivity) toy_store_roundtrip
    (lit " blob ") (lit "key") (Some 200) (lit "now") true true NoFile) as W.
  assert (E : (cmd_add toy_crypto toy_store toy_elib (lit " blob ") (lit "key") (Some 200) (lit "now") true true NoFile).2
    = Ok (lit "yubikey", lit "id")) by (vm_compute; reflexivity).
  destruct (cmd_add toy_crypto toy_store toy_elib (lit " blob ") (lit "key") (Some 200) (lit "now") true true NoFile) as [f' r].
  cbn [snd] in E. subst r. split; [reflexivity|]. destruct W as [(c & s & _ & Ei & El & _ & Ef) _].
  cbn in El. injection El as <-. eexists. split; [exact Ef|]. reflexivity.
Defined.

Lemma enrolled_passkey_logs_in_witness :
  let '(f', r) := cmd_add toy_crypto toy_store toy_elib (lit "blob") (lit "key") (Some 200) (lit "now") true true NoFile in
  is_ok r = true /\
  (login_start toy_store (lit "c2") (lit "n") 0 0 (mk_hub ∅ ∅ f')).2 = Ok [lit "id"].
Proof.
  assert (L : len toy_challenge = CHALLENGE_LEN) by reflexivity.
  assert (N : std_encode toy_store (rc_credential_id toy_registered) ∉ ids []) by (apply not_elem_of_nil).
  pose proof (enrolled_passkey_logs_in toy_crypto toy_store toy_elib ltac:(intros; reflexivity) ltac:(intros; reflexivity)
    ltac:(intros; reflexivity) toy_store_roundtrip (lit "h") (lit "term") (lit "https://h") (lit "key") (replicate 16 x75) toy_challenge
    100 (lit "blob") 200 (Some (lit "yubikey")) toy_response toy_registered (lit "now") NoFile []
    ltac:(vm_compute; reflexivity) L ltac:(vm_compute; discriminate) toy_finish ltac:(reflexivity) N) as W.
  destruct (cmd_add toy_crypto toy_store toy_elib (lit "blob") (lit "key") (Some 200) (lit "now") true true NoFile) as [f' r].
  destruct W as (W1 & W2 & _). split; [exact W1|].
  apply (W2 (mk_hub ∅ ∅ f') [] (lit "c2") (lit "n") 0 0 eq_refl eq_refl). vm_compute. lia.
Defined.

Lemma remove_passkey_exact_witness :
  let '(f', r) := cmd_remove toy_store (lit "i") true true toy_file in r = Ok 1%nat /\ exists s, load toy_store f' = Ok s.
Proof.
  pose proof (remove_passkey_exact toy_store toy_store_roundtrip (lit "i") true true toy_file) as W.
  assert (E : (cmd_remove toy_store (lit "i") true true toy_file).2 = Ok 1%nat).
  { unfold cmd_remove, update_store. rewrite toy_load. vm_compute. reflexivity. }
  destruct (cmd_remove toy_store (lit "i") true true toy_file) as [f' r]. cbn [snd] in E. subst r. split; [reflexivity|].
  destruct W as (s & g & _ & Ef & _). eauto.
Defined.

Lemma credential_ids_unique_witness :
  exists s, load toy_store (foldl (file_step toy_crypto toy_store toy_elib) NoFile
    [OpAdd (lit "blob") (lit "key") (Some 200) (lit "now") true true;
     OpAdd (lit "blob") (lit "key") (Some 200) (lit "now") true true; OpCounter true true (lit "id") 9]) = Ok s /\ NoDup (ids s).
Proof. apply (credential_ids_unique toy_crypto toy_store toy_elib toy_store_roundtrip). Defined.
