(* ===== verification/Pem.v ===== *)
(** * Pem: certificates and keys on disk ([common/src/agent_pki/mod.rs],
    [hub/src/tls_files.rs])

    Reading a chain and a private key from PEM, at the agent's start, in
    [hub-admin] and in the hub's certificate reloader.  PEM itself is
    [rustls_pemfile]'s; a file's content is [None] when it cannot be read. *)

From Stdlib Require Import Strings.Byte.
From stdpp Require Import prelude list.
From S2P Require Import Prelude.

(** [PrivateKeyDer] *)
Inductive PrivateKey := Pkcs1Key (der : list byte) | Sec1Key (der : list byte) | Pkcs8Key (der : list byte).
#[export] Instance private_key_eq_dec : EqDecision PrivateKey.
Proof. solve_decision. Defined.

(** The items [rustls_pemfile::certs] yields, up to an error and whether it
    ended in one; the key [private_key] finds, if it does not fail. *)
Record PemLib := {
  pem_certs : list byte -> list (list byte) * bool;
  pem_private_key : list byte -> option (option PrivateKey);
}.

Inductive PemError := PemIo | PemInvalid | NoCertificates | NoPrivateKey | KeyUnsupported.

Section Pem.
Variable lib : PemLib.

(** [load_pem_cert_chain] *)
Definition load_pem_cert_chain (pem : list byte) : res PemError (list (list byte)) :=
  let '(out, failed) := pem_certs lib pem in
  guard_err failed PemInvalid ;;
  guard_err (bool_decide (out = [])) NoCertificates ;;
  Ok out.

(** [load_pem_private_key] *)
Definition load_pem_private_key (pem : list byte) : res PemError PrivateKey :=
  key ← ok_or PemInvalid (pem_private_key lib pem);
  ok_or NoPrivateKey key.

(** [load_cert_files] *)
Definition load_cert_files (cert_file key_file : option (list byte)) : res PemError (list (list byte) * PrivateKey) :=
  cert_bytes ← ok_or PemIo cert_file;
  key_bytes ← ok_or PemIo key_file;
  chain ← load_pem_cert_chain cert_bytes;
  key ← load_pem_private_key key_bytes;
  Ok (chain, key).

(** ** The hub's own certificate ([tls_files.rs]) *)

(** [CertifiedKey]: the chain and the key it is served with.  [supported] is
    [any_supported_type]. *)
Abbreviation CertifiedKey := (list (list byte) * PrivateKey)%type.
Variable supported : PrivateKey -> bool.

Definition load_certified_key (cert_file key_file : option (list byte)) : res PemError CertifiedKey :=
  cert_bytes ← ok_or PemIo cert_file;
  key_bytes ← ok_or PemIo key_file;
  let '(certs, failed) := pem_certs lib cert_bytes in
  guard_err failed PemInvalid ;;
  guard_err (bool_decide (certs = [])) NoCertificates ;;
  key ← ok_or PemInvalid (pem_private_key lib key_bytes);
  key ← ok_or NoPrivateKey key;
  guard_err (negb (supported key)) KeyUnsupported ;;
  Ok (certs, key).

(** One turn of [spawn_reloader], on what the two reads return; the flag says
    whether a rotation is announced. *)
Definition reload_tick (current : CertifiedKey) (files : option (list byte) * option (list byte)) : CertifiedKey * bool :=
  match load_certified_key files.1 files.2 with
  | Ok new => (new, negb (bool_decide (new.1 = current.1)))
  | _ => (current, false)
  end.
Definition reloader (current : CertifiedKey) (reads : list (option (list byte) * option (list byte))) : CertifiedKey :=
  foldl (fun c r => (reload_tick c r).1) current reads.

(** The hub keeps serving: at any time the resolver holds the pair of the
    last reads that loaded, and a failed reload changes nothing. *)
Lemma reloader_keeps_last current reads :
  let good := omap (fun r => match load_certified_key r.1 r.2 with Ok c => Some c | _ => None end) reads in
  reloader current reads = default current (last good).
Proof.
  revert current. induction reads as [|r reads IH]; intros current; [done|]. cbn [reloader foldl]. unfold reloader in IH.
  rewrite IH. unfold reload_tick. cbn [omap list_omap]. destruct (load_certified_key r.1 r.2) as [c| |]; cbn [fst]; [|done..].
  rewrite last_cons. by destruct (last _).
Qed.

(** [DynamicResolver]: the pair a TLS server is asked for at every handshake. *)
Record DynamicResolver := mk_resolver { current_pair : CertifiedKey }.
Definition resolver_load (cert_file key_file : option (list byte)) : res PemError DynamicResolver :=
  ck ← load_certified_key cert_file key_file; Ok (mk_resolver ck).
Definition resolver_replace (ck : CertifiedKey) (r : DynamicResolver) : DynamicResolver := mk_resolver ck.
Definition resolver_resolve (r : DynamicResolver) : option CertifiedKey := Some (current_pair r).
(** A turn of the reloader on the resolver it shares with the server. *)
Definition resolver_tick (r : DynamicResolver) (files : option (list byte) * option (list byte)) : DynamicResolver :=
  match load_certified_key files.1 files.2 with Ok ck => resolver_replace ck r | _ => r end.

(** Once it was loaded, every handshake is given a pair: the last that loaded. *)
Lemma resolver_serves_last cert_file key_file r reads :
  resolver_load cert_file key_file = Ok r ->
  exists ck, load_certified_key cert_file key_file = Ok ck /\
    resolver_resolve (foldl resolver_tick r reads) = Some (reloader ck reads).
Proof.
  unfold resolver_load. destruct (load_certified_key cert_file key_file) as [ck| |]; [|done..]. intros [= <-]. exists ck. split; [done|].
  revert ck. induction reads as [|files reads IH]; intros ck; [done|]. cbn [foldl]. unfold reloader in IH |- *. cbn [foldl]. rewrite <- IH.
  unfold resolver_tick, reload_tick. by destruct (load_certified_key files.1 files.2).
Qed.
End Pem.
