(* ===== verification/HubAdmin.v ===== *)
(** * HubAdmin: the certificates of the agents
    ([hub-admin/src/main.rs], [common/src/issued_certs.rs],
    [common/src/agent_pki/ca.rs])

    Creating the agents' CA, issuing and revoking a machine's certificate: the
    command lines, the files written, and the list of issued certificates the
    hub consults.  X.509 signing, PEM, JSON and the file system's answers are
    arguments. *)

From Stdlib Require Import Strings.Byte.
From stdpp Require Import prelude strings list gmap.
From S2P Require Import Prelude Utf8 Std Cbor Webauthn Auth AgentAuth Pem.

Definition DEFAULT_CA_DAYS : Z := 365 * 10.
Definition DEFAULT_LEAF_DAYS : Z := 365.

(** ** Command lines *)

Inductive CliError :=
| UnknownFlag (f : list byte) | ExpectsValue (f : list byte) | BadDays | IdRequired | SelectorRequired.

(** The variables of the argument loop of [cmd_issue_cert], of
    [cmd_revoke_cert] and of [cmd_init_ca]. *)
Record IssueArgs := mk_issue_args {
  ia_id : option (list byte); ia_label : option (list byte); ia_out_dir : option (list byte); ia_days : Z;
}.
Record RevokeArgs := mk_revoke_args { ra_serial : option (list byte); ra_id : option (list byte) }.

Fixpoint issue_args (args : list (list byte)) (a : IssueArgs) : res CliError IssueArgs :=
  match args with
  | [] => Ok a
  | flag :: rest =>
      let eqf f := bool_decide (flag = lit f) in
      let known := eqf "--id"%string || eqf "--label"%string || eqf "--out-dir"%string || eqf "--days"%string in
      if negb known then Err (UnknownFlag flag)
      else
        match rest with
        | [] => Err (ExpectsValue flag)
        | v :: rest =>
            if eqf "--id"%string then issue_args rest (mk_issue_args (Some v) (ia_label a) (ia_out_dir a) (ia_days a))
            else if eqf "--label"%string then issue_args rest (mk_issue_args (ia_id a) (Some v) (ia_out_dir a) (ia_days a))
            else if eqf "--out-dir"%string then issue_args rest (mk_issue_args (ia_id a) (ia_label a) (Some v) (ia_days a))
            else
              d ← ok_or BadDays (parse_u64 v);
              issue_args rest (mk_issue_args (ia_id a) (ia_label a) (ia_out_dir a) d)
        end
  end.

Fixpoint revoke_args (args : list (list byte)) (a : RevokeArgs) : res CliError RevokeArgs :=
  match args with
  | [] => Ok a
  | flag :: rest =>
      let eqf f := bool_decide (flag = lit f) in
      if negb (eqf "--serial"%string || eqf "--id"%string) then Err (UnknownFlag flag)
      else
        match rest with
        | [] => Err (ExpectsValue flag)
        | v :: rest =>
            if eqf "--serial"%string then revoke_args rest (mk_revoke_args (Some v) (ra_id a))
            else revoke_args rest (mk_revoke_args (ra_serial a) (Some v))
        end
  end.

Fixpoint init_ca_args (args : list (list byte)) (days : Z) : res CliError Z :=
  match args with
  | [] => Ok days
  | flag :: rest =>
      if negb (bool_decide (flag = lit "--days")) then Err (UnknownFlag flag)
      else
        match rest with
        | [] => Err (ExpectsValue flag)
        | v :: rest => d ← ok_or BadDays (parse_u64 v); init_ca_args rest d
        end
  end.

(** ** Issuing ([ca.rs]) *)

Inductive IssueError :=
| ICli (e : CliError) | BadMachineId | OutOfRange | SigningFailed | CaMissing | CaInvalid | CaNotSingle (n : nat)
| IPem (e : PemError)
| AlreadyExists (name : list byte) | IIo | IParse | Duplicate (fp : list byte) | NoMatchingCert.

(** [clock_window]: the validity, from a minute ago; the product wraps around
    in 64 bits, as it does without overflow checks, and a date must lie in
    the years [time] can represent. *)
Definition MIN_TIMESTAMP : Z := -377705116800.
Definition MAX_TIMESTAMP : Z := 253402300799.
Definition in_time (t : Z) : bool := (MIN_TIMESTAMP <=? t) && (t <=? MAX_TIMESTAMP).
Definition as_i64 (z : Z) : Z := let u := as_u64 z in if u <? 2 ^ 63 then u else u - 2 ^ 64.
Definition clock_window (now days : Z) : res IssueError (Z * Z) :=
  let until := now + as_u64 (days * 86400) in
  if until >? U64_MAX then Panic
  else
    let nb := as_i64 now - 60 in
    let na := as_i64 until in
    guard_err (negb (in_time nb)) OutOfRange ;;
    guard_err (negb (in_time na)) OutOfRange ;;
    Ok (nb, na).

(** [random_serial]: 16 random bytes, the first one without its high bit. *)
Definition random_serial (bytes : list byte) : list byte :=
  match bytes with b :: l => byte_of (Z.land (byte_val b) 0x7f) :: l | [] => [] end.
Definition serial_hex_of (s : list byte) : list byte :=
  flat_map (fun b => [hex_digit (byte_val b / 16); hex_digit (byte_val b mod 16)]) s.

(** What [rcgen] is asked to sign, and what it returns; the CA's own
    parameters, and [CaSigner]. *)
Record LeafParams := mk_leaf { lp_san : list byte; lp_cn : list byte; lp_not_before : Z; lp_not_after : Z; lp_serial : list byte }.
Record Signed := mk_signed { s_der : list byte; s_cert_pem : list byte; s_key_pem : list byte }.

Record CaParams := mk_ca_params { cp_not_before : Z; cp_not_after : Z; cp_serial : list byte }.
Record CaSigner := mk_ca { ca_der : list byte; ca_issuer : CaParams; ca_key : list byte }.

(** [struct IssuedCert] *)
Record IssuedCert := mk_issued_cert {
  ic_der : list byte; ic_cert_pem : list byte; ic_key_pem : list byte;
  ic_fingerprint : list byte; ic_serial_hex : list byte; ic_not_after_unix : Z;
}.

(** One row of the list of issued certificates. *)
Record CertRow := mk_row { row_entry : IssuedCertEntry; row_issued_at : list byte; row_label : option (list byte) }.
Abbreviation CertRows := (list CertRow).

(** The files: those of the output directory by directory and name, and
    [issued-certs.json]. *)
Abbreviation Fs := (gmap (list byte * list byte) (list byte)).
Inductive CertsFile := NoCerts | Certs (bytes : list byte) | CertsUnreadable.

(** How far the system lets a new file come: refused, some of the temporary
    file written, or in place under its name. *)
Inductive WriteAnswer := TmpRefused | TmpLeft (n : nat) | InPlace.

(** What the file system answers in one run of a command. *)
Record IoAnswers := mk_io { mkdir_ok : bool; crt_ok : WriteAnswer; key_ok : WriteAnswer; lock_ok : bool; save_ok : bool }.

(** The libraries.  [pki] is what does not depend on the CA; [chains_to] is the
    chain check against a CA's certificate. *)
Record AdminLib := {
  pki : PkiLib;
  pem : PemLib;
  chains_to : list byte -> Z -> list (list byte) -> list byte -> bool;
  self_sign_ca : CaParams -> list byte -> option (list byte * list byte);   (** the certificate, as DER and PEM *)
  key_to_pem : list byte -> list byte;
  ca_params_of_pem : list byte -> option CaParams;
  ca_key_of_pem : list byte -> option (list byte);
  sign_leaf : CaSigner -> LeafParams -> option Signed;
  certs_of_json : list byte -> option CertRows;
  json_of_certs : CertRows -> list byte;
}.

(** The hub's library with its CA loaded ([AgentClientVerifier::new]). *)
Definition pki_with (alib : AdminLib) (ca : list byte) : PkiLib :=
  let p := pki alib in
  {| crypto := crypto p; std_b64_decode := std_b64_decode p; x509_san := x509_san p; x509_spki := x509_spki p;
     sig_of_slice := sig_of_slice p; chains_to_ca := chains_to alib ca |}.

Section HubAdmin.
Variable alib : AdminLib.

(** ** Files *)

(** [write_atomic] and [write_with_mode], the same code twice: a temporary file
    that must not exist yet, renamed over the name. *)
Definition tmp_name (name : list byte) : list byte := "."%byte :: name ++ lit ".tmp".
Definition write_atomic (w : WriteAnswer) (dir name contents : list byte) (fs : Fs) : Fs * res IssueError unit :=
  match fs !! (dir, tmp_name name) with
  | Some _ => (fs, Err IIo)
  | None =>
      match w with
      | TmpRefused => (fs, Err IIo)
      | TmpLeft n => (<[(dir, tmp_name name) := take n contents]> fs, Err IIo)
      | InPlace => (<[(dir, name) := contents]> fs, Ok tt)
      end
  end.
Definition write_with_mode := write_atomic.

(** Two files, the second only after the first. *)
Definition write_pair {A} (io : IoAnswers) (dir crt crt_pem key key_pem : list byte) (a : A) (fs : Fs) : Fs * res IssueError A :=
  match write_atomic (crt_ok io) dir crt crt_pem fs with
  | (fs, Ok _) => let '(fs, r) := write_atomic (key_ok io) dir key key_pem fs in (fs, r ;; Ok a)
  | (fs, Err e) => (fs, Err e)
  | (fs, Panic) => (fs, Panic)
  end.

(** ** The CA ([ca.rs]) *)

Definition AGENT_CA_CERT_FILE : list byte := lit "agent-ca.crt".
Definition AGENT_CA_KEY_FILE : list byte := lit "agent-ca.key".
Definition agent_ca_cert_path (data_dir : list byte) : list byte * list byte := (data_dir, AGENT_CA_CERT_FILE).
Definition agent_ca_key_path (data_dir : list byte) : list byte * list byte := (data_dir, AGENT_CA_KEY_FILE).

(** Refusing to overwrite. *)
Definition must_not_exist (p : list byte * list byte) (fs : Fs) : res IssueError unit :=
  guard_err (bool_decide (is_Some (fs !! p))) (AlreadyExists p.2).

(** [init_ca]; [new_key] is the generated key. *)
Definition init_ca (data_dir : list byte) (days now : Z) (random : list byte) (new_key : option (list byte)) (io : IoAnswers)
    (fs : Fs) : Fs * res IssueError CaSigner :=
  match (must_not_exist (agent_ca_cert_path data_dir) fs ;;
         must_not_exist (agent_ca_key_path data_dir) fs ;;
         guard_err (negb (mkdir_ok io)) IIo ;;
         key ← ok_or SigningFailed new_key;
         '(nb, na) ← clock_window now days;
         let params := mk_ca_params nb na (random_serial random) in
         '(der, cert_pem) ← ok_or SigningFailed (self_sign_ca alib params key);
         Ok (mk_ca der params key, cert_pem)) with
  | Ok (ca, cert_pem) =>
      write_pair io data_dir AGENT_CA_CERT_FILE cert_pem AGENT_CA_KEY_FILE (key_to_pem alib (ca_key ca)) ca fs
  | Err e => (fs, Err e)
  | Panic => (fs, Panic)
  end.
Definition cmd_init_ca (args : list (list byte)) (data_dir : list byte) (now : Z) (random : list byte)
    (new_key : option (list byte)) (io : IoAnswers) (fs : Fs) : Fs * res IssueError CaSigner :=
  match init_ca_args args DEFAULT_CA_DAYS with
  | Ok days => if mkdir_ok io then init_ca data_dir days now random new_key io fs else (fs, Err IIo)
  | Err e => (fs, Err (ICli e))
  | Panic => (fs, Panic)
  end.

(** [load_ca_cert]: the hub's part, without the key. *)
Definition load_ca_cert (data_dir : list byte) (fs : Fs) : res IssueError (list byte) :=
  text ← ok_or CaMissing (fs !! agent_ca_cert_path data_dir);
  chain ← map_err IPem (load_pem_cert_chain (pem alib) text);
  match chain with [der] => Ok der | _ => Err (CaNotSingle (length chain)) end.

(** [load_ca_signer]: [fs::read_to_string] also refuses what is not UTF-8. *)
Definition read_to_string (p : list byte * list byte) (fs : Fs) : res IssueError (list byte) :=
  text ← ok_or CaMissing (fs !! p);
  guard_err (negb (utf8_valid text)) IIo ;;
  Ok text.
Definition load_ca_signer (data_dir : list byte) (fs : Fs) : res IssueError CaSigner :=
  cert_pem ← read_to_string (agent_ca_cert_path data_dir) fs;
  key_pem ← read_to_string (agent_ca_key_path data_dir) fs;
  params ← ok_or CaInvalid (ca_params_of_pem alib cert_pem);
  key ← ok_or CaInvalid (ca_key_of_pem alib key_pem);
  chain ← map_err IPem (load_pem_cert_chain (pem alib) cert_pem);
  match chain with der :: _ => Ok (mk_ca der params key) | [] => Err CaInvalid end.

(** [cmd_show_ca]: what it prints. *)
Definition cmd_show_ca (data_dir : list byte) (fs : Fs) : res IssueError (list byte) :=
  read_to_string (agent_ca_cert_path data_dir) fs.

(** ** A machine's certificate *)

(** [issue_machine_cert] *)
Definition issue_machine_cert (ca : CaSigner) (machine_id : list byte) (days now : Z) (random : list byte)
    : res IssueError IssuedCert :=
  guard_err (negb (validate_machine_id machine_id)) BadMachineId ;;
  '(nb, na) ← clock_window now days;
  let serial := random_serial random in
  s ← ok_or SigningFailed (sign_leaf alib ca (mk_leaf (machine_urn machine_id) machine_id nb na serial));
  Ok (mk_issued_cert (s_der s) (s_cert_pem s) (s_key_pem s) (cert_fingerprint (pki alib) (s_der s))
        (serial_hex_of serial) (Z.max na 0)).

(** [IssuedCertStore::load] and [save_atomic] *)
Definition load_certs (f : CertsFile) : res IssueError CertRows :=
  match f with
  | NoCerts => Ok []
  | Certs bytes => if bool_decide (trim bytes = []) then Ok [] else ok_or IParse (certs_of_json alib bytes)
  | CertsUnreadable => Err IIo
  end.
Definition save_certs (io : IoAnswers) (rows : CertRows) (f : CertsFile) : CertsFile * res IssueError unit :=
  if save_ok io then (Certs (json_of_certs alib rows), Ok tt) else (f, Err IIo).

(** The change of the list of certificates, under its lock. *)
Definition update_certs {A} (io : IoAnswers) (change : CertRows -> res IssueError (CertRows * A)) (f : CertsFile)
    : CertsFile * res IssueError A :=
  if negb (lock_ok io) then (f, Err IIo)
  else
    match (rows ← load_certs f; change rows) with
    | Ok (rows, a) => let '(f, r) := save_certs io rows f in (f, r ;; Ok a)
    | Err e => (f, Err e)
    | Panic => (f, Panic)
    end.

Definition add_row (row : CertRow) (rows : CertRows) : res IssueError (CertRows * unit) :=
  let fp := fingerprint (row_entry row) in
  guard_err (existsb (fun r => bool_decide (fingerprint (row_entry r) = fp)) rows) (Duplicate fp) ;;
  Ok (rows ++ [row], tt).

(** [cmd_issue_cert]: [cwd] is the working directory, [issued_at] the text of
    the current time. *)
Definition crt_name (id : list byte) : list byte := id ++ lit ".crt".
Definition key_name (id : list byte) : list byte := id ++ lit ".key".
Definition cmd_issue_cert (args : list (list byte)) (data_dir cwd issued_at : list byte) (now : Z) (random : list byte)
    (io : IoAnswers) (fs : Fs) (f : CertsFile) : Fs * CertsFile * res IssueError IssuedCert :=
  match (a ← map_err ICli (issue_args args (mk_issue_args None None None DEFAULT_LEAF_DAYS));
         id ← map_err ICli (ok_or IdRequired (ia_id a));
         let dir := default cwd (ia_out_dir a) in
         ca ← load_ca_signer data_dir fs;
         issued ← issue_machine_cert ca id (ia_days a) now random;
         must_not_exist (dir, crt_name id) fs ;;
         must_not_exist (dir, key_name id) fs ;;
         guard_err (negb (mkdir_ok io)) IIo ;;
         Ok (a, id, dir, issued)) with
  | Ok (a, id, dir, issued) =>
      match write_pair io dir (crt_name id) (ic_cert_pem issued) (key_name id) (ic_key_pem issued) tt fs with
      | (fs, Ok _) =>
          let entry := mk_issued id (ic_fingerprint issued) (ic_serial_hex issued) (ic_not_after_unix issued) in
          let '(f, r) := update_certs io (add_row (mk_row entry issued_at (ia_label a))) f in
          (fs, f, r ;; Ok issued)
      | (fs, Err e) => (fs, f, Err e)
      | (fs, Panic) => (fs, f, Panic)
      end
  | Err e => (fs, f, Err e)
  | Panic => (fs, f, Panic)
  end.

(** [cmd_revoke_cert]: how many entries go. *)
Definition revokes (a : RevokeArgs) (e : IssuedCertEntry) : bool :=
  match ra_serial a with Some s => bool_decide (serial_hex e = s) | None => false end
  || match ra_id a with Some m => bool_decide (machine_id e = m) | None => false end.
Definition revoke_rows (a : RevokeArgs) (rows : CertRows) : res IssueError (CertRows * nat) :=
  let left := List.filter (fun r => negb (revokes a (row_entry r))) rows in
  let removed := (length rows - length left)%nat in
  guard_err (removed =? 0)%nat NoMatchingCert ;;
  Ok (left, removed).
Definition cmd_revoke_cert (args : list (list byte)) (io : IoAnswers) (f : CertsFile) : CertsFile * res IssueError nat :=
  match (a ← map_err ICli (revoke_args args (mk_revoke_args None None));
         guard_err (bool_decide (ra_serial a = None) && bool_decide (ra_id a = None)) (ICli SelectorRequired) ;;
         Ok a) with
  | Ok a => update_certs io (revoke_rows a) f
  | Err e => (f, Err e)
  | Panic => (f, Panic)
  end.

(** The hub's snapshot: one reload ([spawn_issued_certs_reloader]); a file that
    cannot be read leaves the old one. *)
Definition reload_certs (f : CertsFile) (snapshot : IssuedCertStore) : IssuedCertStore :=
  match load_certs f with Ok rows => row_entry <$> rows | _ => snapshot end.

(** ** Runs of [hub-admin] *)

(** The commands that write certificates and keys, with what they find. *)
Inductive CaCommand :=
| RunInitCa (args : list (list byte)) (now : Z) (random : list byte) (new_key : option (list byte)) (io : IoAnswers)
| RunIssueCert (args : list (list byte)) (cwd issued_at : list byte) (now : Z) (random : list byte) (io : IoAnswers)
| RunRevokeCert (args : list (list byte)) (io : IoAnswers).
Definition ca_command (data_dir : list byte) (s : Fs * CertsFile) (c : CaCommand) : Fs * CertsFile :=
  match c with
  | RunInitCa args now random new_key io => ((cmd_init_ca args data_dir now random new_key io s.1).1, s.2)
  | RunIssueCert args cwd at_ now random io => (cmd_issue_cert args data_dir cwd at_ now random io s.1 s.2).1
  | RunRevokeCert args io => (s.1, (cmd_revoke_cert args io s.2).1)
  end.
Definition ca_commands (data_dir : list byte) (cs : list CaCommand) (s : Fs * CertsFile) : Fs * CertsFile :=
  foldl (ca_command data_dir) s cs.
End HubAdmin.

(** ** The command line of [hub-admin] *)

(** [data_dir]: the environment, the configuration file, the default.  [toml]
    reads a [HubConfigSlice]. *)
Definition DEFAULT_DATA_DIR : list byte := lit "/var/lib/term-hub".
Definition data_dir (toml : list byte -> option (option (list byte))) (env_dir config : option (list byte)) : list byte :=
  match env_dir with
  | Some d => d
  | None =>
      match config with
      | Some text => match toml text with Some c => default DEFAULT_DATA_DIR c | None => DEFAULT_DATA_DIR end
      | None => DEFAULT_DATA_DIR
      end
  end.

(** [run]: which command the arguments name. *)
Inductive Command :=
| CmdAddPasskey | CmdList | CmdRemove | CmdSecretInfo | CmdInitCa | CmdIssueCert | CmdListCerts | CmdRevokeCert | CmdShowCa
| CmdHelp.
Inductive CommandError := MissingSubcommand | UnknownSubcommand (name : list byte).
Definition commands : list (list byte * Command) := [
  (lit "add-passkey", CmdAddPasskey); (lit "list", CmdList); (lit "remove", CmdRemove); (lit "secret-info", CmdSecretInfo);
  (lit "init-ca", CmdInitCa); (lit "issue-cert", CmdIssueCert); (lit "list-certs", CmdListCerts);
  (lit "revoke-cert", CmdRevokeCert); (lit "show-ca", CmdShowCa);
  (lit "help", CmdHelp); (lit "-h", CmdHelp); (lit "--help", CmdHelp)].
Definition run_command (args : list (list byte)) : res CommandError (Command * list (list byte)) :=
  match args with
  | [] => Err MissingSubcommand
  | name :: rest =>
      match List.find (fun c => bool_decide (c.1 = name)) commands with
      | Some (_, c) => Ok (c, rest)
      | None => Err (UnknownSubcommand name)
      end
  end.
