(* ===== verification/HubAdminFacts.v ===== *)
(** * HubAdminFacts: an agent's certificate from its issue to its revocation *)

From Stdlib Require Import Strings.Byte.
From stdpp Require Import prelude strings list gmap.
From S2P Require Import Prelude Utf8 Std Cbor CborFacts Webauthn WebauthnFacts Auth AgentAuth AgentAuthFacts Pem HubAdmin.

Section Certs.
Context (alib : AdminLib).
Hypothesis certs_roundtrip : forall r, certs_of_json alib (json_of_certs alib r) = Some r.
Hypothesis json_not_blank : forall r, trim (json_of_certs alib r) <> [].

(** A CA's certificate and key read back from their PEM texts. *)
Hypothesis ca_cert_pem : forall p k der text, self_sign_ca alib p k = Some (der, text) ->
  utf8_valid text = true /\ pem_certs (pem alib) text = ([der], false) /\ is_Some (ca_params_of_pem alib text).
Hypothesis ca_key_pem : forall k, utf8_valid (key_to_pem alib k) = true /\ ca_key_of_pem alib (key_to_pem alib k) = Some k.

(** A signed certificate reads back with the name it was signed for, from its
    PEM text with its key, and chains to the CA while it is valid, if the CA's
    certificate is for the key that signed it. *)
Hypothesis leaf_san : forall ca p s, sign_leaf alib ca p = Some s -> x509_san (pki alib) (s_der s) = Some (Some [Uri (lp_san p)]).
Hypothesis leaf_pem : forall ca p s, sign_leaf alib ca p = Some s ->
  pem_certs (pem alib) (s_cert_pem s) = ([s_der s], false) /\
  exists k, pem_private_key (pem alib) (s_key_pem s) = Some (Some (Pkcs8Key k)).
Hypothesis leaf_chain : forall ca p s t params text, sign_leaf alib ca p = Some s ->
  self_sign_ca alib params (ca_key ca) = Some (ca_der ca, text) ->
  lp_not_before p <= t <= lp_not_after p -> chains_to alib (ca_der ca) t [] (s_der s) = true.

Lemma load_saved rows : load_certs alib (Certs (json_of_certs alib rows)) = Ok rows.
Proof. cbn. rewrite bool_decide_false by apply json_not_blank. by rewrite certs_roundtrip. Qed.

Lemma update_certs_spec {A} io (change : CertRows -> res IssueError (CertRows * A)) f :
  let '(f', r) := update_certs alib io change f in
  (match r with
   | Ok a => exists rows rows', load_certs alib f = Ok rows /\ change rows = Ok (rows', a) /\ load_certs alib f' = Ok rows'
   | _ => f' = f
   end).
Proof.
  unfold update_certs. destruct (negb (lock_ok io)); [done|].
  destruct (load_certs alib f) as [rows| |] eqn:El; [|done..]. cbn [mbind res_bind].
  destruct (change rows) as [[rows' a]| |] eqn:Ec; [|done..].
  unfold save_certs. destruct (save_ok io); cbn [mbind res_bind]; [|done]. exists rows, rows'. by rewrite load_saved.
Qed.

(** ** The files *)

(** No write replaces a file: the ones that were there are there, unchanged. *)
Lemma write_atomic_keeps (w : WriteAnswer) (dir name contents : list byte) (fs : Fs) :
  fs !! (dir, name) = None -> fs ⊆ (write_atomic w dir name contents fs).1.
Proof.
  intros N. unfold write_atomic. destruct (fs !! (dir, tmp_name name)) eqn:E; [done|].
  destruct w; cbn [fst]; [done|by apply insert_subseteq..].
Qed.

Lemma write_atomic_other (w : WriteAnswer) (dir name contents : list byte) (fs : Fs) (p : list byte * list byte) :
  p <> (dir, name) -> p <> (dir, tmp_name name) -> (write_atomic w dir name contents fs).1 !! p = fs !! p.
Proof.
  intros N1 N2. unfold write_atomic. destruct (fs !! _); [done|]. destruct w; cbn [fst]; by rewrite ?lookup_insert_ne.
Qed.

Lemma write_atomic_Ok (w : WriteAnswer) (dir name contents : list byte) (fs fs' : Fs) (u : unit) :
  write_atomic w dir name contents fs = (fs', Ok u) -> fs' = <[(dir, name) := contents]> fs.
Proof. unfold write_atomic. destruct (fs !! _); [done|]. destruct w; [done..|]. by intros [= <-]. Qed.

Lemma write_pair_keeps {A} (io : IoAnswers) (dir crt crt_pem key key_pem : list byte) (a : A) (fs : Fs) :
  fs !! (dir, crt) = None -> fs !! (dir, key) = None -> key <> crt -> key <> tmp_name crt ->
  fs ⊆ (write_pair io dir crt crt_pem key key_pem a fs).1.
Proof.
  intros Nc Nk N1 N2. unfold write_pair. pose proof (write_atomic_keeps (crt_ok io) dir crt crt_pem fs Nc) as K.
  pose proof (write_atomic_other (crt_ok io) dir crt crt_pem fs (dir, key)) as O.
  destruct (write_atomic (crt_ok io) _ _ _ _) as [fs1 [| |]]; cbn [fst] in *; [|done..].
  assert (fs1 !! (dir, key) = None) as Nk1 by (rewrite O; congruence).
  pose proof (write_atomic_keeps (key_ok io) dir key key_pem fs1 Nk1) as K2.
  destruct (write_atomic (key_ok io) _ _ _ _) as [fs2 r]. by etrans.
Qed.

Lemma write_pair_Ok {A} (io : IoAnswers) (dir crt crt_pem key key_pem : list byte) (a a' : A) (fs fs' : Fs) :
  write_pair io dir crt crt_pem key key_pem a fs = (fs', Ok a') ->
  a' = a /\ fs' = <[(dir, key) := key_pem]> (<[(dir, crt) := crt_pem]> fs).
Proof.
  unfold write_pair. destruct (write_atomic (crt_ok io) _ _ _ _) as [fs1 [| |]] eqn:E1; [|done..]. apply write_atomic_Ok in E1 as ->.
  destruct (write_atomic (key_ok io) _ _ _ _) as [fs2 [| |]] eqn:E2; [|done..]. apply write_atomic_Ok in E2 as ->.
  cbn. by intros [= <- <-].
Qed.

Lemma key_not_crt id : key_name id <> crt_name id /\ key_name id <> tmp_name (crt_name id).
Proof.
  unfold key_name, crt_name, tmp_name. split.
  - intros E. by apply app_inv_head in E.
  - intros E. apply (f_equal (fun l => last l)) in E. rewrite app_comm_cons, !last_app in E. done.
Qed.

Lemma must_not_exist_Ok (p : list byte * list byte) (fs : Fs) (u : unit) : must_not_exist p fs = Ok u -> fs !! p = None.
Proof. unfold must_not_exist. intros H. apply guard_err_Ok, bool_decide_eq_false in H. by apply eq_None_not_Some. Qed.

(** What [cmd_issue_cert] has done when it succeeds. *)
Lemma issue_Ok (args : list (list byte)) (data_dir cwd at_ : list byte) (now : Z) (random : list byte)
    (io : IoAnswers) (f f' : CertsFile) (issued : IssuedCert) (fs fs' : Fs) :
  cmd_issue_cert alib args data_dir cwd at_ now random io fs f = (fs', f', Ok issued) ->
  exists a id dir ca rows, let crt := (dir, crt_name id) in let key := (dir, key_name id) in
    issue_args args (mk_issue_args None None None DEFAULT_LEAF_DAYS) = Ok a /\ ia_id a = Some id /\
    load_ca_signer alib data_dir fs = Ok ca /\ issue_machine_cert alib ca id (ia_days a) now random = Ok issued /\
    fs !! crt = None /\ fs !! key = None /\ fs' = <[key := ic_key_pem issued]> (<[crt := ic_cert_pem issued]> fs) /\
    load_certs alib f = Ok rows /\
    Forall (fun r => fingerprint (row_entry r) <> ic_fingerprint issued) rows /\
    load_certs alib f' = Ok (rows ++
      [mk_row (mk_issued id (ic_fingerprint issued) (ic_serial_hex issued) (ic_not_after_unix issued)) at_ (ia_label a)]).
Proof.
  unfold cmd_issue_cert. intros H.
  match type of H with match ?m with _ => _ end = _ => destruct m as [[[[a id] dir] i]| |] eqn:E end; [|done..].
  inv_res. repeat match goal with H : map_err _ _ = Ok _ |- _ => apply map_err_Ok in H end. inv_res. bool_to_prop.
  repeat match goal with H : must_not_exist _ _ = Ok _ |- _ => apply must_not_exist_Ok in H end.
  match type of H with match ?m with _ => _ end = _ => destruct m as [fs1 [u| |]] eqn:E1 end; [|done..].
  apply write_pair_Ok in E1 as [-> ->].
  match type of H with context [update_certs alib io ?c f] =>
    pose proof (update_certs_spec io c f) as U; destruct (update_certs alib io c f) as [f2 r] end.
  destruct r as [u| |]; [|done..]. injection H as <- <- <-. destruct U as (rows & rows' & El & Ea & El').
  unfold add_row in Ea. cbn [row_entry fingerprint] in Ea. inv_res.
  eexists a, id, (default cwd (ia_out_dir a)), _, rows. split_and!; try done.
  apply List.Forall_forall. intros r Hr E.
  match goal with H : existsb _ _ = false |- _ => rewrite <- not_true_iff_false, existsb_exists in H; apply H end.
  exists r. split; [done|]. by apply bool_decide_eq_true.
Qed.

(** ** The CA *)

(** What [init_ca] has done when it succeeds. *)
Lemma init_ca_Ok (dir : list byte) (days now : Z) (random : list byte) (new_key : option (list byte)) (io : IoAnswers) (fs fs' : Fs) (ca : CaSigner) :
  init_ca alib dir days now random new_key io fs = (fs', Ok ca) ->
  exists text, self_sign_ca alib (ca_issuer ca) (ca_key ca) = Some (ca_der ca, text) /\
    fs !! agent_ca_cert_path dir = None /\ fs !! agent_ca_key_path dir = None /\
    fs' = <[agent_ca_key_path dir := key_to_pem alib (ca_key ca)]> (<[agent_ca_cert_path dir := text]> fs).
Proof.
  unfold init_ca. intros H.
  match type of H with match ?m with _ => _ end = _ => destruct m as [[c text]| |] eqn:E end; [|done..].
  apply write_pair_Ok in H as [-> ->]. inv_res.
  repeat match goal with H : must_not_exist _ _ = Ok _ |- _ => apply must_not_exist_Ok in H end. by exists text.
Qed.

(** A CA's files, as [init_ca] leaves them, load as that CA, for the hub and
    for issuing. *)
Lemma ca_loads (dir : list byte) (fs : Fs) (ca : CaSigner) (text : list byte) :
  self_sign_ca alib (ca_issuer ca) (ca_key ca) = Some (ca_der ca, text) ->
  fs !! agent_ca_cert_path dir = Some text -> fs !! agent_ca_key_path dir = Some (key_to_pem alib (ca_key ca)) ->
  load_ca_cert alib dir fs = Ok (ca_der ca) /\
  exists ca', load_ca_signer alib dir fs = Ok ca' /\ ca_der ca' = ca_der ca /\ ca_key ca' = ca_key ca.
Proof.
  intros Hs Hc Hk. destruct (ca_cert_pem _ _ _ _ Hs) as (U & C & [p P]). destruct (ca_key_pem (ca_key ca)) as [Uk K].
  assert (L : load_pem_cert_chain (pem alib) text = Ok [ca_der ca]) by (unfold load_pem_cert_chain; by rewrite C).
  unfold load_ca_cert, load_ca_signer, read_to_string. rewrite Hc, Hk. cbn [ok_or mbind res_bind]. rewrite L. split; [done|].
  rewrite U, Uk. cbn [negb guard_err mbind res_bind]. rewrite P, K. cbn [mbind res_bind ok_or]. rewrite L. by eexists.
Qed.

(** No command replaces or removes a certificate or a key. *)
Lemma ca_command_keeps (dir : list byte) (s : Fs * CertsFile) (c : CaCommand) : s.1 ⊆ (ca_command alib dir s c).1.
Proof.
  destruct c; cbn [ca_command fst]; [..|done].
  - unfold cmd_init_ca. destruct (init_ca_args _ _) as [days| |]; [|done..]. destruct (mkdir_ok io); [|done].
    unfold init_ca. match goal with |- context [match ?m with _ => _ end] => destruct m as [[c text]| |] eqn:E end; [|done..].
    inv_res. repeat match goal with H : must_not_exist _ _ = Ok _ |- _ => apply must_not_exist_Ok in H end.
    by apply write_pair_keeps.
  - unfold cmd_issue_cert. match goal with |- context [match ?m with _ => _ end] => destruct m as [[[[a id] d] i]| |] eqn:E end; [|done..].
    inv_res. repeat match goal with H : must_not_exist _ _ = Ok _ |- _ => apply must_not_exist_Ok in H end.
    match goal with |- context [write_pair ?io ?d ?x ?y ?z ?t ?a ?fs] =>
      pose proof (write_pair_keeps io d x y z t a fs) as K; destruct (write_pair io d x y z t a fs) as [fs1 [| |]] end;
      [|by apply K; try apply key_not_crt..].
    destruct (update_certs _ _ _ _) as [f2 r]. by apply K; try apply key_not_crt.
Qed.
Lemma ca_commands_keep (dir : list byte) (cs : list CaCommand) (s : Fs * CertsFile) : s.1 ⊆ (ca_commands alib dir cs s).1.
Proof. revert s. induction cs as [|c cs IH]; intros s; [done|]. etrans; [apply (ca_command_keeps dir s c)|]. apply IH. Qed.

Lemma find_row_last rows row :
  Forall (fun r => fingerprint (row_entry r) <> fingerprint (row_entry row)) rows ->
  find_by_fingerprint (fingerprint (row_entry row)) (row_entry <$> rows ++ [row]) = Some (row_entry row).
Proof.
  unfold find_by_fingerprint. induction 1 as [|r rows N _ IH]; cbn.
  - by rewrite bool_decide_true.
  - by rewrite bool_decide_false.
Qed.

Lemma find_row_none fp rows :
  Forall (fun r => fingerprint (row_entry r) <> fp) rows -> find_by_fingerprint fp (row_entry <$> rows) = None.
Proof. unfold find_by_fingerprint. induction 1 as [|r rows N _ IH]; [done|]. cbn. by rewrite bool_decide_false. Qed.

Lemma urn_of_machine id : urn_ids [Uri (machine_urn id)] = [id].
Proof.
  unfold urn_ids, machine_urn. cbn [omap list_omap].
  assert (S : forall p s, strip_prefix p (p ++ s) = Some s)
    by (induction p as [|b p IH]; intros s; [done|]; cbn; rewrite bool_decide_true by done; apply IH).
  by rewrite S.
Qed.

(** What [issue_machine_cert] made. *)
Lemma issued_Ok ca id days now random i params text :
  self_sign_ca alib params (ca_key ca) = Some (ca_der ca, text) ->
  issue_machine_cert alib ca id days now random = Ok i ->
  validate_machine_id id = true /\ ic_fingerprint i = cert_fingerprint (pki alib) (ic_der i) /\
  extract_machine_id_from_san (pki alib) (ic_der i) = Some id /\
  (exists k, load_cert_files (pem alib) (Some (ic_cert_pem i)) (Some (ic_key_pem i)) = Ok ([ic_der i], Pkcs8Key k)) /\
  exists nb na, clock_window now days = Ok (nb, na) /\ ic_not_after_unix i = Z.max na 0 /\
    forall t, nb <= t <= na -> chains_to alib (ca_der ca) t [] (ic_der i) = true.
Proof.
  intros Hca. unfold issue_machine_cert. intros H. inv_res. bool_to_prop.
  match goal with H : sign_leaf alib ca ?p = Some ?s |- _ =>
    pose proof (leaf_san ca p s H) as Hs; destruct (leaf_pem ca p s H) as [Hp [k Hk]];
    pose proof (fun t => leaf_chain ca p s t params text H Hca) as Hc end.
  cbn [ic_fingerprint ic_der ic_not_after_unix ic_cert_pem ic_key_pem lp_san lp_not_before lp_not_after] in *.
  split; [done|]. split; [done|]. split; [|split].
  - unfold extract_machine_id_from_san. rewrite Hs. cbn [mjoin option_join mbind option_bind].
    rewrite urn_of_machine. match goal with H : validate_machine_id _ = true |- _ => by rewrite H end.
  - exists k. unfold load_cert_files, load_pem_cert_chain, load_pem_private_key. cbn [ok_or mbind res_bind]. by rewrite Hp, Hk.
  - eexists _, _. split; [done|]. split; [done|]. exact Hc.
Qed.

(** A CA whose key could not be written stays that way: [init-ca] writes the
    certificate first and then refuses to overwrite it, and nothing can be
    issued without the key; the hub starts with it nevertheless. *)
Definition half_created (dir : list byte) (fs : Fs) : Prop :=
  is_Some (fs !! agent_ca_cert_path dir) /\ fs !! agent_ca_key_path dir = None.

Lemma half_created_command (dir : list byte) (s : Fs * CertsFile) (c : CaCommand) :
  half_created dir s.1 -> (ca_command alib dir s c).1 = s.1.
Proof.
  intros [Hc Hk]. destruct c; cbn [ca_command fst]; [..|done].
  - unfold cmd_init_ca. destruct (init_ca_args _ _) as [d| |]; [|done..]. destruct (mkdir_ok io); [|done].
    unfold init_ca, must_not_exist. by rewrite (bool_decide_true (is_Some (s.1 !! agent_ca_cert_path dir))).
  - unfold cmd_issue_cert, load_ca_signer, read_to_string. rewrite Hk. destruct Hc as [text ->].
    destruct (map_err _ (issue_args _ _)) as [a| |]; [|done..]. cbn [mbind res_bind].
    destruct (map_err _ (ok_or _ (ia_id a))) as [id| |]; [|done..]. cbn [mbind res_bind ok_or].
    by destruct (negb (utf8_valid text)).
Qed.

Lemma interrupted_init_ca_is_final (dir : list byte) (days now : Z) (random key der text : list byte) (nb na : Z)
    (io : IoAnswers) (fs : Fs) (f : CertsFile) (cs : list CaCommand) :
  fs !! agent_ca_cert_path dir = None -> fs !! agent_ca_key_path dir = None ->
  fs !! (dir, tmp_name AGENT_CA_CERT_FILE) = None -> mkdir_ok io = true -> clock_window now days = Ok (nb, na) ->
  self_sign_ca alib (mk_ca_params nb na (random_serial random)) key = Some (der, text) ->
  crt_ok io = InPlace -> key_ok io = TmpRefused ->
  let fs1 := (init_ca alib dir days now random (Some key) io fs).1 in
  load_ca_cert alib dir fs1 = Ok der /\ (ca_commands alib dir cs (fs1, f)).1 = fs1 /\ half_created dir fs1.
Proof.
  intros Nc Nk Nt Hm Hw Hs Ec Ek fs1.
  assert (E : fs1 = <[agent_ca_cert_path dir := text]> fs).
  { subst fs1. unfold init_ca, must_not_exist. rewrite Nc, Nk, Hm. rewrite bool_decide_false by (by intros []).
    cbn [guard_err mbind res_bind negb ok_or].
    rewrite Hw. cbn [mbind res_bind]. rewrite Hs. cbn [ok_or mbind res_bind]. unfold write_pair, write_atomic. rewrite Nt, Ec.
    rewrite Ek. by destruct (<[_:=_]> fs !! _). }
  assert (H : half_created dir fs1)
    by (rewrite E; split; [by rewrite lookup_insert_eq|by rewrite lookup_insert_ne]).
  split; [|split; [|done]].
  - unfold load_ca_cert, load_pem_cert_chain. rewrite E, lookup_insert_eq. cbn [ok_or mbind res_bind].
    by destruct (ca_cert_pem _ _ _ _ Hs) as (_ & -> & _).
  - clearbody fs1. clear E. revert f. induction cs as [|c cs IH]; intros f; [done|]. cbn [ca_commands foldl].
    pose proof (half_created_command dir (fs1, f) c H) as Ec'. destruct (ca_command alib dir (fs1, f) c) as [fs2 f2].
    cbn [fst] in Ec'. subst fs2. apply IH.
Qed.

(** ** The list *)

(** A hub whose last reload read a list with this row last accepts its
    certificate; after a revocation of the row none does. *)
Lemma row_accepted ca der (rows : CertRows) row f snapshot t :
  load_certs alib f = Ok (rows ++ [row]) ->
  Forall (fun r => fingerprint (row_entry r) <> fingerprint (row_entry row)) rows ->
  fingerprint (row_entry row) = cert_fingerprint (pki alib) der -> chains_to alib ca t [] der = true ->
  t <= not_after_unix (row_entry row) ->
  extract_machine_id_from_san (pki alib) der = Some (machine_id (row_entry row)) ->
  verify_client_cert (pki_with alib ca) der [] t (reload_certs alib f snapshot) = inr (machine_id (row_entry row)).
Proof.
  intros El Nf Ef Hch Ht Es. unfold reload_certs. rewrite El. apply verify_client_cert_iff. split; [done|].
  exists (row_entry row). split; [split; [|done]|split; [done|lia]].
  change (cert_fingerprint (pki_with alib ca) der) with (cert_fingerprint (pki alib) der). rewrite <- Ef. by apply (find_row_last rows row).
Qed.

Lemma row_revoked ca der (rows : CertRows) row argv io f f' n sel snapshot chain t m :
  load_certs alib f = Ok (rows ++ [row]) ->
  Forall (fun r => fingerprint (row_entry r) <> cert_fingerprint (pki alib) der) rows ->
  revoke_args argv (mk_revoke_args None None) = Ok sel ->
  ra_id sel = Some (machine_id (row_entry row)) \/ ra_serial sel = Some (serial_hex (row_entry row)) ->
  cmd_revoke_cert alib argv io f = (f', Ok n) ->
  verify_client_cert (pki_with alib ca) der chain t (reload_certs alib f' snapshot) <> inr m.
Proof.
  intros El Nf Hs Hsel Hr Hv. unfold cmd_revoke_cert in Hr. rewrite Hs in Hr. cbn [map_err mbind res_bind] in Hr.
  match type of Hr with context [guard_err ?c _] => destruct c; cbn [guard_err mbind res_bind] in Hr; [done|] end.
  pose proof (update_certs_spec io (revoke_rows sel) f) as U. rewrite Hr in U. destruct U as (rs & rs' & E1 & E2 & E3).
  rewrite El in E1. injection E1 as <-. unfold revoke_rows in E2. inv_res.
  apply verify_client_cert_iff in Hv as (_ & e & [Hfind _] & _). unfold reload_certs in Hfind. rewrite E3 in Hfind.
  change (cert_fingerprint (pki_with alib ca) der) with (cert_fingerprint (pki alib) der) in Hfind.
  rewrite find_row_none in Hfind; [done|]. apply List.Forall_forall. intros r Hin. apply List.filter_In in Hin as [Hin Hn].
  rewrite <- list_elem_of_In, elem_of_app, list_elem_of_singleton in Hin. destruct Hin as [Hin| ->].
  - rewrite Forall_forall in Nf. by apply Nf.
  - exfalso. apply negb_true_iff in Hn. unfold revokes in Hn.
    destruct Hsel as [E|E]; rewrite E in Hn; rewrite (bool_decide_true (_ = _)) in Hn by done;
      [by rewrite orb_true_r in Hn|done].
Qed.

(** ** Properties *)

(** [C25] An agent's certificate works from its issue until its revocation,
    from the first command on.  Take a CA that [init-ca] created, any commands
    after it, and an [issue-cert] that succeeds: the CA's files are still the
    ones created, the certificate and the key are written under names that
    were free, no other file has changed, and the agent loads them; the list
    has one more row; and from the hub's next reload on, the TLS handshake of a
    hub that loaded this CA accepts that certificate as exactly the machine it
    was issued for, throughout its validity.  And when [revoke-cert] for that
    machine or serial number succeeds on the list, then from the next reload on
    no handshake accepts the certificate at all. *)
Theorem issued_certificate_works_until_revoked
    (data_dir : list byte) (days created : Z) (seed : list byte) (ca_secret : option (list byte)) (io0 : IoAnswers)
    (fs0 fs1 : Fs) (ca : CaSigner) (cs : list CaCommand) (f0 : CertsFile)
    (args : list (list byte)) (cwd at_ : list byte) (now : Z) (random : list byte) (io : IoAnswers)
    (f' : CertsFile) (issued : IssuedCert) (fs' : Fs) :
  init_ca alib data_dir days created seed ca_secret io0 fs0 = (fs1, Ok ca) ->
  let '(fs, f) := ca_commands alib data_dir cs (fs1, f0) in
  cmd_issue_cert alib args data_dir cwd at_ now random io fs f = (fs', f', Ok issued) ->
  load_ca_cert alib data_dir fs' = Ok (ca_der ca) /\ fs1 ⊆ fs /\
  exists id dir nb na rows row,
    let crt := (dir, crt_name id) in let key := (dir, key_name id) in
    validate_machine_id id = true /\ fs !! crt = None /\ fs !! key = None /\
    fs' = <[key := ic_key_pem issued]> (<[crt := ic_cert_pem issued]> fs) /\
    (exists k, load_cert_files (pem alib) (fs' !! crt) (fs' !! key) = Ok ([ic_der issued], Pkcs8Key k)) /\
    load_certs alib f = Ok rows /\ load_certs alib f' = Ok (rows ++ [row]) /\
    machine_id (row_entry row) = id /\ serial_hex (row_entry row) = ic_serial_hex issued /\
    (forall snapshot t, nb <= t <= na ->
       verify_client_cert (pki_with alib (ca_der ca)) (ic_der issued) [] t (reload_certs alib f' snapshot) = inr id) /\
    (exists a, issue_args args (mk_issue_args None None None DEFAULT_LEAF_DAYS) = Ok a /\ ia_id a = Some id /\
       clock_window now (ia_days a) = Ok (nb, na)) /\
    (forall revoke_argv io' f'' n sel, revoke_args revoke_argv (mk_revoke_args None None) = Ok sel ->
       ra_id sel = Some id \/ ra_serial sel = Some (ic_serial_hex issued) ->
       cmd_revoke_cert alib revoke_argv io' f' = (f'', Ok n) ->
       forall snapshot chain t m,
         verify_client_cert (pki_with alib (ca_der ca)) (ic_der issued) chain t (reload_certs alib f'' snapshot) <> inr m).
Proof.
  intros Hinit. destruct (ca_commands alib data_dir cs (fs1, f0)) as [fs f] eqn:Hcs. intros H.
  pose proof (ca_commands_keep data_dir cs (fs1, f0)) as Hkeep. rewrite Hcs in Hkeep. cbn [fst] in Hkeep.
  apply init_ca_Ok in Hinit as (text & Hself & _ & _ & Efs1).
  apply issue_Ok in H as (a & id & dir & ca' & rows & Ha & Hid & Hload & Hi & Hc & Hk & Hfs & El & Nf & El').
  assert (Lc : fs !! agent_ca_cert_path data_dir = Some text)
    by (eapply lookup_weaken, Hkeep; rewrite Efs1, lookup_insert_ne, lookup_insert_eq by done; done).
  assert (Lk : fs !! agent_ca_key_path data_dir = Some (key_to_pem alib (ca_key ca)))
    by (eapply lookup_weaken, Hkeep; rewrite Efs1, lookup_insert_eq; done).
  destruct (ca_loads data_dir fs ca text Hself Lc Lk) as (Hlc & ca2 & Hls & Ed & Ek).
  rewrite Hload in Hls. injection Hls as <-. rewrite <- Ed, <- Ek in Hself.
  destruct (issued_Ok ca' id (ia_days a) now random issued (ca_issuer ca) text Hself Hi)
    as (V & Ef & Es & Hpem & nb & na & Hw & En & Hch).
  rewrite Ed in Hch.
  assert (Sub : fs ⊆ fs').
  { rewrite Hfs. trans (<[(dir, crt_name id) := ic_cert_pem issued]> fs); [by apply insert_subseteq|].
    apply insert_subseteq. rewrite lookup_insert_ne; [done|]. intros [= E]. by destruct (key_not_crt id). }
  split; [|split; [done|]].
  { apply (ca_loads data_dir fs' ca text); [by rewrite <- Ed, <- Ek|by eapply lookup_weaken..]. }
  set (row := mk_row _ at_ (ia_label a)) in *. exists id, dir, nb, na, rows, row.
  split; [done|]. split; [done|]. split; [done|]. split; [done|]. split.
  { rewrite Hfs, lookup_insert_eq, lookup_insert_ne, lookup_insert_eq; [done|]. intros [= E]. by destruct (key_not_crt id). }
  split; [done|]. split; [done|]. split; [done|]. split; [done|].
  split; [|split; [by exists a|]].
  - intros snapshot t Ht. apply (row_accepted _ _ rows row); try done; [by apply Hch|cbn; rewrite En; lia].
  - intros argv io' f'' n sel Hs Hsel Hr snapshot chain t m. rewrite Ef in Nf.
    by apply (row_revoked _ _ rows row argv io' f' f'' n sel).
Qed.
End Certs.

(** The product of a validity of this many days wraps around to nothing: the
    certificate expires as it is issued. *)
Lemma clock_window_wraps :
  clock_window 1000 (2 ^ 57) = Ok (940, 1000) /\ as_u64 (2 ^ 57 * 86400) = 0.
Proof. split; vm_compute; reflexivity. Qed.

(** ** Witnesses *)

#[export] Instance issued_eq_dec : EqDecision IssuedCertEntry.
Proof. solve_decision. Defined.
#[export] Instance row_eq_dec : EqDecision CertRow.
Proof. solve_decision. Defined.
#[export] Program Instance issued_countable : Countable IssuedCertEntry :=
  inj_countable' (fun e => (machine_id e, fingerprint e, serial_hex e, not_after_unix e))
    (fun '(a, b, c, d) => mk_issued a b c d) _.
Next Obligation. by intros []. Qed.
#[export] Program Instance row_countable : Countable CertRow :=
  inj_countable' (fun r => (row_entry r, row_issued_at r, row_label r)) (fun '(a, b, c) => mk_row a b c) _.
Next Obligation. by intros []. Qed.

(** A list as the binary digits of a numbering, behind a bracket. *)
Fixpoint digits (p : positive) : list byte :=
  match p with xH => [] | xO p => "0"%byte :: digits p | xI p => "1"%byte :: digits p end.
Fixpoint of_digits (l : list byte) : positive :=
  match l with
  | [] => xH
  | b :: l => if bool_decide (b = "0"%byte) then xO (of_digits l) else xI (of_digits l)
  end.
Lemma of_digits_digits p : of_digits (digits p) = p.
Proof. induction p as [p IH|p IH|]; cbn; by rewrite ?IH. Qed.
Lemma digits_visible p : Forall visible (digits p).
Proof. induction p; cbn; constructor; try done; unfold visible; cbn; lia. Qed.

Definition row_text (r : CertRows) : list byte := "["%byte :: digits (encode r).

Definition toy_admin : AdminLib := {|
  pki := {| crypto := {| b64_encode := hex_bytes; b64_decode := unhex_bytes; json_view := json_view (crypto toy_pki); sha256 l := l;
                         key_of_sec1 _ := None; sig_of_der _ := None; ecdsa_verify _ _ _ := false |};
            std_b64_decode _ := None; x509_san c := Some (Some [Uri c]);
            x509_spki := x509_spki toy_pki; sig_of_slice := sig_of_slice toy_pki; chains_to_ca _ _ _ := false |};
  pem := {| pem_certs text := ([text], false); pem_private_key _ := Some (Some (Pkcs8Key [])) |};
  chains_to ca _ _ _ := bool_decide (ca = lit "CA");
  self_sign_ca _ _ := Some (lit "CA", lit "CA");
  key_to_pem := hex_bytes;
  ca_params_of_pem _ := Some (mk_ca_params 0 0 []);
  ca_key_of_pem := unhex_bytes;
  sign_leaf ca p := Some (mk_signed (lp_san p) (lp_san p) (lit "key"));
  certs_of_json b := match b with _ :: b => decode (of_digits b) | [] => None end;
  json_of_certs := row_text;
|}.
Lemma toy_certs_roundtrip r : certs_of_json toy_admin (json_of_certs toy_admin r) = Some r.
Proof. cbn. by rewrite of_digits_digits, decode_encode. Qed.
Lemma toy_json_not_blank r : trim (json_of_certs toy_admin r) <> [].
Proof. change (json_of_certs toy_admin r) with (row_text r). rewrite trim_visible; [done|]. unfold row_text. constructor; [unfold visible; cbn; lia|apply digits_visible]. Qed.

Lemma toy_key_pem k : utf8_valid (key_to_pem toy_admin k) = true /\ ca_key_of_pem toy_admin (key_to_pem toy_admin k) = Some k.
Proof.
  split; [|apply unhex_hex]. apply ascii_utf8_valid, forallb_forall. intros b Hb. pose proof (hex_visible k) as [V _].
  rewrite Forall_forall in V. specialize (V b). rewrite list_elem_of_In in V. specialize (V Hb). unfold visible in V.
  unfold is_ascii. lia.
Qed.

Definition toy_io : IoAnswers := mk_io true InPlace InPlace true true.
Definition toy_argv : list (list byte) := [lit "--id"; lit "alpha"].
Definition toy_first : CaCommand := RunIssueCert [lit "--id"; lit "beta"] (lit "/tmp") (lit "then") 1500 (replicate 16 x00) toy_io.
Definition toy_created : Fs * res IssueError CaSigner :=
  init_ca toy_admin (lit "/hub") 3650 1000 (replicate 16 xff) (Some (lit "secret")) toy_io ∅.
Definition toy_before : Fs * CertsFile := ca_commands toy_admin (lit "/hub") [toy_first] (toy_created.1, NoCerts).
Definition toy_issue : Fs * CertsFile * res IssueError IssuedCert :=
  cmd_issue_cert toy_admin toy_argv (lit "/hub") (lit "/tmp") (lit "now") 2000 (replicate 16 xff) toy_io toy_before.1 toy_before.2.

Lemma issued_certificate_works_until_revoked_witness :
  exists issued, toy_issue.2 = Ok issued /\
    forall snapshot, verify_client_cert (pki_with toy_admin (lit "CA")) (ic_der issued) [] 2500
      (reload_certs toy_admin toy_issue.1.2 snapshot) = inr (lit "alpha").
Proof.
  assert (E2 : exists issued, toy_issue.2 = Ok issued) by (vm_compute; eexists; reflexivity).
  destruct E2 as [issued E2]. exists issued. split; [exact E2|].
  destruct toy_issue as [[fs' f'] r] eqn:E. cbn [fst snd] in *. subst r.
  assert (Ei2 : toy_created.2 = Ok (mk_ca (lit "CA") (mk_ca_params 940 315361000 (random_serial (replicate 16 xff))) (lit "secret")))
    by (vm_compute; reflexivity).
  pose proof (surjective_pairing toy_created) as Ei. rewrite Ei2 in Ei.
  pose proof (issued_certificate_works_until_revoked toy_admin toy_certs_roundtrip toy_json_not_blank
    ltac:(intros p k der text [= <- <-]; split; [reflexivity|split; [reflexivity|by eexists]]) toy_key_pem
    ltac:(by intros ca p s [= <-]) ltac:(intros ca p s [= <-]; split; [reflexivity|by eexists])
    ltac:(intros ca p s t params text _ [= <- <-] _; reflexivity)
    (lit "/hub") 3650 1000 (replicate 16 xff) (Some (lit "secret")) toy_io ∅ toy_created.1 _ [toy_first] NoCerts
    toy_argv (lit "/tmp") (lit "now") 2000 (replicate 16 xff) toy_io f' issued fs' Ei) as W.
  fold toy_before in W. rewrite (surjective_pairing toy_before) in W. destruct (W E) as (_ & _ & W').
  destruct W' as (id & dir & nb & na & rows & row & _ & _ & _ & _ & _ & _ & _ & _ & _ & Wv & (a & Ha & Hid & Hw) & _).
  vm_compute in Ha. injection Ha as <-. cbn in Hid. injection Hid as <-. vm_compute in Hw. injection Hw as <- <-.
  intros snapshot. exact (Wv snapshot 2500 ltac:(lia)).
Defined.
