(* ===== verification/FileLock.v ===== *)
(** * FileLock: the lock around the files that several processes change
    ([common/src/flock.rs], [ensure_lock_file] and [save_atomic] of
    [common/src/creds.rs] and [common/src/issued_certs.rs])

    The hub and any number of [hub-admin] commands read, change and replace
    [credentials.json] and [issued-certs.json].  Each is a process that opens
    the lock file, waits for the lock, loads, changes, writes a temporary file,
    renames it over the name and lets go of the lock; it can be killed, or be
    refused by the system, anywhere.  The theorems are about every
    interleaving: what happens to the file, and what each process reports, is
    what happens when the updates run whole, one after the other. *)

From Stdlib Require Import Strings.Byte.
From stdpp Require Import prelude strings list gmap.
From S2P Require Import Prelude Std Cbor Webauthn WebauthnFacts Login Envelope EnvelopeFacts AgentAuth HubAdmin.

(** What [flock] (or [LockFileEx]) promises: an exclusive lock of the file,
    granted when nobody holds it, and gone when its holder lets go or dies. *)
Class ExclusiveLock (L : Type) := {
  unlocked : L;
  holder : L -> option nat;
  try_lock : nat -> L -> option L;
  unlock : nat -> L -> L;
  unlocked_free : holder unlocked = None;
  try_lock_free : forall p l, is_Some (try_lock p l) <-> holder l = None;
  try_lock_takes : forall p l l', try_lock p l = Some l' -> holder l' = Some p;
  unlock_own : forall p l, holder l = Some p -> holder (unlock p l) = None;
  unlock_other : forall p l, holder l <> Some p -> holder (unlock p l) = holder l;
}.

(** ** The processes *)

(** The system's answer to the next call: done, refused, a part written, or
    the process is killed before it. *)
Inductive Answer := Go | Refuse | Short (n : nat) | Kill.

(** How one update as a whole fared: the system did all it was asked, or the
    file could not be read, or the new contents could not be written. *)
Inductive Luck := Fine | NotRead | NotWritten.

Section Machine.
Context {L : Type} `{ExclusiveLock L} {F E R : Type}.
Variables (put : list byte -> F) (lock_err io_err : E).

(** What a process does between loading and saving: fail, or answer, with the
    new contents if there are any. *)
Abbreviation Txn := (F -> res E (option (list byte) * R)).
Variable prog : nat -> Txn.

(** The file itself, the temporary file, whether the lock file exists, and
    its lock. *)
Record Disk := mk_disk { d_file : F; d_tmp : option (list byte); d_lock_file : bool; d_lock : L }.
Definition set_lock_file (d : Disk) : Disk := mk_disk (d_file d) (d_tmp d) true (d_lock d).
Definition set_lock (l : L) (d : Disk) : Disk := mk_disk (d_file d) (d_tmp d) (d_lock_file d) l.
Definition set_tmp (t : option (list byte)) (d : Disk) : Disk := mk_disk (d_file d) t (d_lock_file d) (d_lock d).

(** [ensure_lock_file] *)
Definition ensure_lock_file (a : Answer) (d : Disk) : Disk * res E unit :=
  if d_lock_file d then (d, Ok tt)
  else match a with Go => (set_lock_file d, Ok tt) | _ => (d, Err lock_err) end.

(** [FileLock::acquire_exclusive]: it opens the file, creating it if need be,
    and then waits in [lock] (no value: it still waits). *)
Definition open_lock (a : Answer) (d : Disk) : Disk * res E unit :=
  match a with Go => (set_lock_file d, Ok tt) | _ => (d, Err lock_err) end.
Definition lock (p : nat) (a : Answer) (d : Disk) : option (Disk * res E unit) :=
  match a with
  | Go => l ← try_lock p (d_lock d); Some (set_lock l d, Ok tt)
  | _ => Some (d, Err lock_err)
  end.

(** [Drop for FileLock], and what the system does for a process that dies. *)
Definition drop_lock (p : nat) (d : Disk) : Disk := set_lock (unlock p (d_lock d)) d.

(** [save_atomic], call by call: open (truncating), write, sync, rename. *)
Definition open_tmp (a : Answer) (d : Disk) : Disk * res E unit :=
  match a with Go => (set_tmp (Some []) d, Ok tt) | _ => (d, Err io_err) end.
Definition write_tmp (a : Answer) (body : list byte) (d : Disk) : Disk * res E unit :=
  match a with
  | Go => (set_tmp (Some body) d, Ok tt)
  | Short n => (set_tmp (Some (take n body)) d, Err io_err)
  | _ => (d, Err io_err)
  end.
Definition sync_tmp (a : Answer) (d : Disk) : Disk * res E unit :=
  match a with Go => (d, Ok tt) | _ => (d, Err io_err) end.
Definition rename_tmp (a : Answer) (d : Disk) : Disk * res E unit :=
  match a, d_tmp d with
  | Go, Some bytes => (mk_disk (put bytes) None (d_lock_file d) (d_lock d), Ok tt)
  | _, _ => (d, Err io_err)
  end.

(** [load], the first thing under the lock, and what the process makes of it:
    an error, or the answer, with the new contents if there are any. *)
Definition load_change (p : nat) (a : Answer) (d : Disk) : res E (option (list byte) * R) :=
  match a with Go => prog p (d_file d) | _ => Err io_err end.

(** Where a process is. *)
Inductive Phase :=
| PStart | POpen | PLock
| PLoad | PCreate (body : list byte) (r : R) | PWrite (body : list byte) (r : R) | PSync (body : list byte) (r : R)
| PRename (body : list byte) (r : R) | PLeave (r : res E R)
| PDone (r : res E R) | PDied.

(** The next phase after a call; an error before the lock is held ends the
    process, one after it lets go of the lock first. *)
Definition before_lock (x : Disk * res E unit) (ok : Phase) : Disk * Phase :=
  (x.1, match x.2 with Ok _ => ok | Err e => PDone (Err e) | Panic => PDone Panic end).
Definition under_lock (x : Disk * res E unit) (ok : Phase) : Disk * Phase :=
  (x.1, match x.2 with Ok _ => ok | Err e => PLeave (Err e) | Panic => PLeave Panic end).

(** One step of process [p]. *)
Definition step (p : nat) (a : Answer) (d : Disk) (ph : Phase) : option (Disk * Phase) :=
  match ph, a with
  | PDone _, _ | PDied, _ => None
  | _, Kill => Some (drop_lock p d, PDied)
  | PStart, _ => Some (before_lock (ensure_lock_file a d) POpen)
  | POpen, _ => Some (before_lock (open_lock a d) PLock)
  | PLock, _ => x ← lock p a d; Some (before_lock x PLoad)
  | PLoad, _ =>
      Some (d, match load_change p a d with
               | Ok (Some body, r) => PCreate body r
               | Ok (None, r) => PLeave (Ok r)
               | Err e => PLeave (Err e)
               | Panic => PLeave Panic
               end)
  | PCreate body r, _ => Some (under_lock (open_tmp a d) (PWrite body r))
  | PWrite body r, _ => Some (under_lock (write_tmp a body d) (PSync body r))
  | PSync body r, _ => Some (under_lock (sync_tmp a d) (PRename body r))
  | PRename body r, _ => Some (under_lock (rename_tmp a d) (PLeave (Ok r)))
  | PLeave r, _ => Some (drop_lock p d, PDone r)
  end.

(** All processes on one disk; a step that cannot be made leaves everything
    as it is. *)
Record Config := mk_config { c_disk : Disk; c_phases : gmap nat Phase }.
Definition phase (c : Config) (p : nat) : Phase := default PStart (c_phases c !! p).
Definition exec (c : Config) (e : nat * Answer) : Config :=
  let '(p, a) := e in
  match step p a (c_disk c) (phase c p) with
  | Some (d, ph) => mk_config d (<[p := ph]> (c_phases c))
  | None => c
  end.
Definition run (c : Config) (sched : list (nat * Answer)) : Config := foldl exec c sched.
Definition start (f : F) (tmp : option (list byte)) (lf : bool) : Config := mk_config (mk_disk f tmp lf unlocked) ∅.

(** ** The specification: whole updates *)

(** One update as a whole. *)
Definition apply_txn (k : Luck) (t : Txn) (f : F) : F * res E R :=
  match k with
  | NotRead => (f, Err io_err)
  | _ =>
      match t f with
      | Ok (Some body, r) => match k with NotWritten => (f, Err io_err) | _ => (put body, Ok r) end
      | Ok (None, r) => (f, Ok r)
      | Err e => (f, Err e)
      | Panic => (f, Panic)
      end
  end.

(** The processes of [order], one after the other. *)
Definition serial (f : F) (order : list (nat * Luck)) : F :=
  foldl (fun f '(p, k) => (apply_txn k (prog p) f).1) f order.

(** [p] is in [order], and [r] is what it answers at its place. *)
Definition answers (f : F) (order : list (nat * Luck)) (p : nat) (k : Luck) (r : res E R) : Prop :=
  exists before after, order = before ++ (p, k) :: after /\ r = (apply_txn k (prog p) (serial f before)).2.
End Machine.

(** ** The commands on the credential file *)

(** An advisory lock as the system keeps it. *)
#[export] Program Instance advisory_lock : ExclusiveLock (option nat) := {|
  unlocked := None;
  holder := id;
  try_lock p l := match l with None => Some (Some p) | Some _ => None end;
  unlock p l := if bool_decide (l = Some p) then None else l;
|}.
Next Obligation. reflexivity. Qed.
Next Obligation. intros p [q|]; cbn; split; try done; by intros []. Qed.
Next Obligation. intros p [q|] l' E; by simplify_eq/=. Qed.
Next Obligation. intros p l E. cbn in *. by rewrite bool_decide_true. Qed.
Next Obligation. intros p l E. cbn in *. by rewrite bool_decide_false. Qed.

Section Commands.
Variable slib : StoreLib.

(** What the processes do under the lock of [credentials.json]: [cmd_add] (with
    the credential its blob stands for), [cmd_remove], and
    [persist_counter_update] of the hub. *)
Inductive StoreCmd :=
| CmdAdd (label added_at : list byte) (c : RegisteredCredential)
| CmdRemove (target : list byte)
| CmdCounter (id : list byte) (new_sign_count : Z).
Inductive StoreReply := Added (label id : list byte) | Removed (n : nat) | Counted.

Definition save_change {A} (f : CredFile) (change : CredentialStore -> res AdminError (CredentialStore * A)) (wrap : A -> StoreReply)
    : res AdminError (option (list byte) * StoreReply) :=
  store ← map_err AdminStore (load slib f);
  '(store, a) ← change store;
  Ok (Some (json_of_store slib store), wrap a).

Definition store_txn (c : StoreCmd) (f : CredFile) : res AdminError (option (list byte) * StoreReply) :=
  match c with
  | CmdAdd label added_at c => save_change f (add_credential slib label added_at c) (fun '(l, i) => Added l i)
  | CmdRemove target => save_change f (remove_credential target) Removed
  | CmdCounter id n =>
      store ← map_err AdminStore (load slib f);
      Ok (match find_by_id slib id store with
          | Some c => if n >? cred_sign_count c then Some (json_of_store slib (set_sign_count slib id n store)) else None
          | None => None
          end, Counted)
  end.

(** The same commands as the functions of [Envelope] and [Login]; a file that
    cannot be read stays as it is. *)
Definition run_whole (io_ok : bool) (c : StoreCmd) (f : CredFile) : CredFile * res AdminError StoreReply :=
  match c with
  | CmdAdd label added_at c =>
      let '(f, r) := update_store slib true io_ok (add_credential slib label added_at c) f in
      (f, '(l, i) ← r; Ok (Added l i))
  | CmdRemove target => let '(f, r) := cmd_remove slib target true io_ok f in (f, n ← r; Ok (Removed n))
  | CmdCounter id n => let '(f, r) := persist_counter_update slib true io_ok id n f in (f, map_err AdminStore (r ;; Ok Counted))
  end.
Definition run_cmd (k : Luck) (c : StoreCmd) (f : CredFile) : CredFile * res AdminError StoreReply :=
  match k with
  | Fine => run_whole true c f
  | NotWritten => run_whole false c f
  | NotRead => (f, (run_whole true c Unreadable).2)
  end.

(** The processes of the machine, each with its command. *)
Definition run_stores {L} `{ExclusiveLock L} (cmds : nat -> StoreCmd) (c : Config (L := L) (F := CredFile) (E := AdminError) (R := StoreReply)) (sched : list (nat * Answer)) : Config :=
  run (L := L) File LockFailed (AdminStore SIo) (fun p => store_txn (cmds p)) c sched.
End Commands.

(** The commands on [issued-certs.json]. *)
Section CertCommands.
Variable alib : AdminLib.

Inductive CertCmd := CmdIssue (row : CertRow) | CmdRevoke (a : RevokeArgs).
Definition cert_txn (c : CertCmd) (f : CertsFile) : res IssueError (option (list byte) * option nat) :=
  rows ← load_certs alib f;
  match c with
  | CmdIssue row => '(rows, _) ← add_row row rows; Ok (Some (json_of_certs alib rows), None)
  | CmdRevoke a => '(rows, n) ← revoke_rows a rows; Ok (Some (json_of_certs alib rows), Some n)
  end.
Definition run_certs {L} `{ExclusiveLock L} (cmds : nat -> CertCmd) (c : Config (L := L) (F := CertsFile) (E := IssueError) (R := option nat)) (sched : list (nat * Answer)) : Config :=
  run (L := L) Certs IIo IIo (fun p => cert_txn (cmds p)) c sched.
End CertCommands.

(** ** Every interleaving is a serial run *)

Section Facts.
Context {L : Type} `{ExclusiveLock L} {F E R : Type}.
Variables (put : list byte -> F) (lock_err io_err : E).
Variable prog : nat -> F -> res E (option (list byte) * R).

#[local] Abbreviation serial' := (serial put io_err prog).
#[local] Abbreviation apply_txn' := (apply_txn put io_err).
#[local] Abbreviation answers' := (answers put io_err prog).
#[local] Abbreviation run' := (run put lock_err io_err prog).
#[local] Abbreviation exec' := (exec put lock_err io_err prog).
#[local] Abbreviation step' := (step put lock_err io_err prog).

(** The phases under the lock. *)
Definition held (ph : Phase (E := E) (R := R)) : bool :=
  match ph with
  | PStart | POpen | PLock | PDone _ | PDied => false
  | _ => true
  end.

(** What is known of a process in each phase, [order] being the updates that
    have happened and [bad] the processes the system refused something. *)
Definition phase_ok (f0 : F) (order : list (nat * Luck)) (bad : nat -> Prop) (d : Disk (L := L) (F := F)) (p : nat)
    (ph : Phase (E := E) (R := R)) : Prop :=
  match ph with
  | PStart | POpen | PLock | PLoad => p ∉ order.*1
  | PCreate body r | PWrite body r => (p ∉ order.*1) /\ prog p (d_file d) = Ok (Some body, r)
  | PSync body r | PRename body r => (p ∉ order.*1) /\ prog p (d_file d) = Ok (Some body, r) /\ d_tmp d = Some body
  | PLeave r => exists io, answers' f0 order p io r /\ (io <> Fine -> bad p)
  | PDone r => (r = Err lock_err /\ (p ∉ order.*1) /\ bad p) \/ exists io, answers' f0 order p io r /\ (io <> Fine -> bad p)
  | PDied => True
  end.

Record Sim (f0 : F) (order : list (nat * Luck)) (bad : nat -> Prop) (c : Config (L := L) (F := F) (E := E) (R := R)) : Prop := {
  sim_file : d_file (c_disk c) = serial' f0 order;
  sim_once : NoDup order.*1;
  sim_lock : forall p, held (phase c p) = true <-> holder (d_lock (c_disk c)) = Some p;
  sim_phase : forall p, phase_ok f0 order bad (c_disk c) p (phase c p);
}.

Lemma phase_exec (c : Config (L := L) (F := F) (E := E) (R := R)) p (d : Disk (L := L) (F := F)) ph q :
  phase (mk_config d (<[p := ph]> (c_phases c))) q = if decide (p = q) then ph else phase c q.
Proof. unfold phase. cbn. destruct (decide (p = q)) as [->|N]; [by rewrite lookup_insert_eq|by rewrite lookup_insert_ne]. Qed.

Lemma serial_app f o1 o2 : serial' f (o1 ++ o2) = serial' (serial' f o1) o2.
Proof. apply foldl_app. Qed.

Lemma told_app f o1 o2 p io r : answers' f o1 p io r -> answers' f (o1 ++ o2) p io r.
Proof. intros (b & a & -> & ->). exists b, (a ++ o2). by rewrite <- app_assoc. Qed.

Lemma answers_last f o p io r : r = (apply_txn' io (prog p) (serial' f o)).2 -> answers' f (o ++ [(p, io)]) p io r.
Proof. intros ->. by exists o, []. Qed.

(** Others are not disturbed: what is known of a process depends on the disk
    only while it holds the lock. *)
Lemma phase_ok_other f0 order new (bad bad' : nat -> Prop) d d' p q ph :
  phase_ok f0 order bad d q ph -> q <> p -> (forall x, x ∈ new.*1 -> x = p) -> (forall x, bad x -> bad' x) ->
  (held ph = true -> d_file d' = d_file d /\ d_tmp d' = d_tmp d) ->
  phase_ok f0 (order ++ new) bad' d' q ph.
Proof.
  intros K Hq Hn Hb Hd.
  assert (N : q ∉ order.*1 -> q ∉ (order ++ new).*1).
  { rewrite fmap_app, not_elem_of_app. intros N. split; [done|]. intros X. by apply Hq, Hn. }
  assert (Ha : forall r, (exists io, answers' f0 order q io r /\ (io <> Fine -> bad q)) ->
                    exists io, answers' f0 (order ++ new) q io r /\ (io <> Fine -> bad' q)).
  { intros r (io & Ka & Kb). exists io. auto using told_app. }
  destruct ph; cbn in *; try (destruct (Hd eq_refl) as [E1 E2]; rewrite ?E1, ?E2); intuition auto.
Qed.

Lemma sim_move f0 order new (bad bad' : nat -> Prop) c p d' ph' :
  Sim f0 order bad c ->
  d_file d' = serial' (d_file (c_disk c)) new ->
  (new = [] \/ exists io, new = [(p, io)] /\ p ∉ order.*1) ->
  (held ph' = true <-> holder (d_lock d') = Some p) ->
  (forall q, q <> p -> holder (d_lock d') = Some q <-> holder (d_lock (c_disk c)) = Some q) ->
  (held (phase c p) = false -> d_file d' = d_file (c_disk c) /\ d_tmp d' = d_tmp (c_disk c)) ->
  phase_ok f0 (order ++ new) bad' d' p ph' ->
  (forall q, bad q -> bad' q) ->
  Sim f0 (order ++ new) bad' (mk_config d' (<[p := ph']> (c_phases c))).
Proof.
  intros [Hf Ho Hl Hp] Ef En A B Hd Kp Hb.
  assert (Hn : forall x, x ∈ new.*1 -> x = p).
  { destruct En as [-> |(io & -> & _)]; intros x Hx; [by apply elem_of_nil in Hx|by apply list_elem_of_singleton in Hx]. }
  split; cbn [c_disk].
  - by rewrite serial_app, <- Hf.
  - rewrite fmap_app. destruct En as [-> |(io & -> & N)]; [by rewrite app_nil_r|].
    apply NoDup_app. split; [done|]. split; [|apply NoDup_singleton]. intros x Hx Hx'. apply list_elem_of_singleton in Hx'. by subst.
  - intros q. rewrite phase_exec. destruct (decide (p = q)) as [<-|N]; [done|]. by rewrite Hl, B.
  - intros q. rewrite phase_exec. destruct (decide (p = q)) as [<-|N]; [done|].
    apply (phase_ok_other f0 order new bad bad' (c_disk c) d' p); try done. intros Hh. apply Hd.
    destruct (held (phase c p)) eqn:Ep; [|done]. apply Hl in Ep, Hh. congruence.
Qed.

(** Steps that keep the lock as it is, and steps that let go of it. *)
Lemma sim_keep f0 order new (bad bad' : nat -> Prop) c p d' ph' :
  Sim f0 order bad c ->
  d_lock d' = d_lock (c_disk c) -> held ph' = held (phase c p) ->
  d_file d' = serial' (d_file (c_disk c)) new ->
  (new = [] \/ exists io, new = [(p, io)] /\ p ∉ order.*1) ->
  (held (phase c p) = false -> d_file d' = d_file (c_disk c) /\ d_tmp d' = d_tmp (c_disk c)) ->
  phase_ok f0 (order ++ new) bad' d' p ph' ->
  (forall q, bad q -> bad' q) ->
  Sim f0 (order ++ new) bad' (mk_config d' (<[p := ph']> (c_phases c))).
Proof.
  intros S El Eh. intros. eapply sim_move; try done; rewrite El; [|done]. rewrite Eh. apply (sim_lock _ _ _ _ S).
Qed.

Lemma sim_drop f0 order (bad bad' : nat -> Prop) c p ph' :
  Sim f0 order bad c -> held ph' = false -> phase_ok f0 order bad' (drop_lock p (c_disk c)) p ph' ->
  (forall q, bad q -> bad' q) ->
  Sim f0 order bad' (mk_config (drop_lock p (c_disk c)) (<[p := ph']> (c_phases c))).
Proof.
  intros S Eh K Hb. rewrite <- (app_nil_r order) in K |- *. set (l := d_lock (c_disk c)).
  assert (U : holder (unlock p l) <> Some p /\ forall q, q <> p -> holder (unlock p l) = Some q <-> holder l = Some q).
  { destruct (decide (holder l = Some p)) as [El|N].
    - rewrite (unlock_own p l El). split; [done|]. intros q Hq. rewrite El. split; congruence.
    - by rewrite (unlock_other p l N). }
  apply (sim_move f0 order [] bad bad' c p); try done; [by left| |apply U]. rewrite Eh. cbn. split; [done|]. intros X. by destruct (proj1 U).
Qed.

(** Saving: a call that fails is an update that was not written. *)
Lemma sim_save_fails f0 order bad c p a d' body r :
  Sim f0 order bad c -> held (phase c p) = true -> a <> Go ->
  p ∉ order.*1 -> prog p (d_file (c_disk c)) = Ok (Some body, r) ->
  d_lock d' = d_lock (c_disk c) -> d_file d' = d_file (c_disk c) ->
  exists new, Sim f0 (order ++ new) (fun q => bad q \/ (q = p /\ a <> Go)) (mk_config d' (<[p := PLeave (Err io_err)]> (c_phases c))).
Proof.
  intros S Eh Ha N Ep El Ef. exists [(p, NotWritten)]. pose proof (sim_file _ _ _ _ S) as Es.
  eapply sim_keep; try done.
  - cbn. unfold apply_txn. by rewrite Ep.
  - right. by exists NotWritten.
  - by rewrite Eh.
  - exists NotWritten. split; [|auto]. apply answers_last. unfold apply_txn. by rewrite <- Es, Ep.
  - auto.
Qed.

(** The effect of [bad] on one step. *)
#[local] Abbreviation bad' bad p a := (fun q : nat => bad q \/ (q = p /\ a <> Go)).

Lemma sim_skip f0 order (bad b' : nat -> Prop) c : Sim f0 order bad c -> (forall q, bad q -> b' q) -> Sim f0 order b' c.
Proof.
  intros [? ? ? Hp] Hb. split; try done. intros q. rewrite <- (app_nil_r order).
  apply (phase_ok_other _ _ _ bad _ (c_disk c) _ (Datatypes.S q)); [done|lia| |done|done]. intros x Hx. by apply elem_of_nil in Hx.
Qed.

(** Before the lock. *)
Lemma sim_before f0 order bad c p a x ok :
  Sim f0 order bad c -> p ∉ order.*1 -> held (phase c p) = false -> held ok = false ->
  phase_ok f0 order (bad' bad p a) (c_disk c) p ok ->
  d_file x.1 = d_file (c_disk c) /\ d_tmp x.1 = d_tmp (c_disk c) /\ d_lock x.1 = d_lock (c_disk c) ->
  (match x.2 with Ok _ => ok = POpen \/ ok = PLock | Err e => e = lock_err /\ a <> Go | Panic => False end) ->
  exists new, Sim f0 (order ++ new) (bad' bad p a) (mk_config (before_lock x ok).1 (<[p := (before_lock x ok).2]> (c_phases c))).
Proof.
  intros S N Eh Ek Kp (E1 & E2 & E3) Hx. exists []. unfold before_lock. cbn [fst snd].
  apply (sim_keep f0 order [] bad); [done|done| |by rewrite E1|by left|done| |auto]; rewrite ?app_nil_r, ?Eh.
  - destruct x as [? [|e|]]; cbn in *; done.
  - destruct x as [? [|e|]]; cbn in *; [|left|done].
    + by destruct Hx as [-> | ->].
    + destruct Hx as [-> Ha]. auto.
Qed.

Lemma sim_lock_step f0 order bad c p a d' ph' :
  Sim f0 order bad c -> phase c p = PLock ->
  (x ← lock lock_err p a (c_disk c); Some (before_lock x PLoad)) = Some (d', ph') ->
  exists new, Sim f0 (order ++ new) (bad' bad p a) (mk_config d' (<[p := ph']> (c_phases c))).
Proof.
  intros S Ep Es. pose proof (sim_phase _ _ _ _ S p) as N. rewrite Ep in N. cbn in N.
  unfold before_lock in Es. destruct a as [| | |]; cbn in Es; exists [].
  2-4: injection Es as <- <-; apply (sim_keep f0 order [] bad); try done; rewrite ?Ep, ?app_nil_r; cbn; auto; left; auto.
  destruct (try_lock p (d_lock (c_disk c))) as [l|] eqn:El; cbn in Es; [|done]. injection Es as <- <-.
  pose proof (try_lock_takes p _ _ El) as Et.
  pose proof (proj1 (try_lock_free p (d_lock (c_disk c))) (mk_is_Some _ _ El)) as Ef.
  apply (sim_move f0 order [] bad); cbn; rewrite ?app_nil_r; auto.
  - by rewrite Et.
  - intros q Hq. rewrite Et, Ef. split; congruence.
Qed.

(** Under the lock: loading, and the calls that save. *)
Lemma sim_load f0 order bad c p a :
  Sim f0 order bad c -> phase c p = PLoad ->
  exists new, Sim f0 (order ++ new) (bad' bad p a)
    (mk_config (c_disk c) (<[p := match load_change io_err prog p a (c_disk c) with
                                 | Ok (Some body, r) => PCreate body r
                                 | Ok (None, r) => PLeave (Ok r)
                                 | Err e => PLeave (Err e)
                                 | Panic => PLeave Panic
                                 end]> (c_phases c))).
Proof.
  intros S Ep. pose proof (sim_phase _ _ _ _ S p) as N. rewrite Ep in N. cbn in N. pose proof (sim_file _ _ _ _ S) as Ef.
  assert (Ha : a = Go \/ a <> Go) by (destruct a; auto). destruct Ha as [-> |Ha].
  2: { assert (load_change io_err prog p a (c_disk c) = Err io_err) as -> by by destruct a.
       exists [(p, NotRead)]. apply (sim_keep f0 order _ bad); rewrite ?Ep; eauto.
       exists NotRead. split; [by apply answers_last|auto]. }
  cbn [load_change]. destruct (prog p (d_file (c_disk c))) as [[[body|] r]|e|] eqn:Eg.
  1: exists []; apply (sim_keep f0 order [] bad); rewrite ?Ep, ?app_nil_r; cbn; auto.
  all: exists [(p, Fine)]; apply (sim_keep f0 order _ bad); rewrite ?Ep; eauto.
  all: try (cbn; unfold apply_txn; by rewrite Eg).
  all: exists Fine; split; [|done]; apply answers_last; unfold apply_txn; by rewrite <- Ef, Eg.
Qed.

Lemma sim_save f0 order bad c p a d' ph' :
  Sim f0 order bad c -> a <> Kill ->
  (exists body r, phase c p = PCreate body r /\ (d', ph') = under_lock (open_tmp io_err a (c_disk c)) (PWrite body r)) \/
  (exists body r, phase c p = PWrite body r /\ (d', ph') = under_lock (write_tmp io_err a body (c_disk c)) (PSync body r)) \/
  (exists body r, phase c p = PSync body r /\ (d', ph') = under_lock (sync_tmp io_err a (c_disk c)) (PRename body r)) \/
  (exists body r, phase c p = PRename body r /\ (d', ph') = under_lock (rename_tmp put io_err a (c_disk c)) (PLeave (Ok r))) ->
  exists new, Sim f0 (order ++ new) (bad' bad p a) (mk_config d' (<[p := ph']> (c_phases c))).
Proof.
  intros S Ha Hs. pose proof (sim_phase _ _ _ _ S p) as K. pose proof (sim_file _ _ _ _ S) as Ef.
  destruct Hs as [(body & r & Ep & Ed)|[(body & r & Ep & Ed)|[(body & r & Ep & Ed)|(body & r & Ep & Ed)]]]; rewrite Ep in K; cbn in K.
  1-3: destruct a; cbn in Ed; injection Ed as -> ->; try done;
    first [ (exists []; apply (sim_keep f0 order [] bad); rewrite ?Ep, ?app_nil_r; cbn; intuition done)
          | (eapply sim_save_fails; rewrite ?Ep; cbn; try done; apply K) ].
  destruct K as (N & Eg & Et). unfold rename_tmp in Ed. rewrite Et in Ed. destruct a; cbn in Ed; injection Ed as -> ->; try done.
  2-3: eapply sim_save_fails; rewrite ?Ep; done.
  exists [(p, Fine)]. apply (sim_keep f0 order _ bad); rewrite ?Ep; eauto; try done.
  - cbn. unfold apply_txn. by rewrite Eg.
  - exists Fine. split; [|done]. apply answers_last. unfold apply_txn. by rewrite <- Ef, Eg.
Qed.

(** A step of a process is no update or one. *)
Lemma exec_sim f0 order bad c p a :
  Sim f0 order bad c ->
  exists new, Sim f0 (order ++ new) (bad' bad p a) (exec' c (p, a)).
Proof.
  intros S. pose proof (sim_phase _ _ _ _ S p) as K.
  unfold exec. destruct (step' p a (c_disk c) (phase c p)) as [[d' ph']|] eqn:Es.
  2: { exists []. rewrite app_nil_r. by apply (sim_skip f0 order bad); auto. }
  assert (Hk : a = Kill \/ a <> Kill) by (destruct a; auto).
  destruct Hk as [-> |Ha].
  { exists []. rewrite app_nil_r. assert ((d', ph') = (drop_lock p (c_disk c), PDied)) as [= -> ->] by (destruct (phase c p); by simplify_eq/=).
    by apply (sim_drop f0 order bad); auto. }
  destruct (phase c p) as [| | | |body r|body r|body r|body r|r|r|] eqn:Ep; cbn [step] in Es; try done.
  - assert (Es' : Some (before_lock (ensure_lock_file lock_err a (c_disk c)) POpen) = Some (d', ph')) by by destruct a.
    injection Es' as <- <-. apply sim_before; rewrite ?Ep; try done; unfold ensure_lock_file; destruct (d_lock_file _), a; cbn; auto.
  - assert (Es' : Some (before_lock (open_lock lock_err a (c_disk c)) PLock) = Some (d', ph')) by by destruct a.
    injection Es' as <- <-. apply sim_before; rewrite ?Ep; try done; destruct a; cbn; auto.
  - eapply sim_lock_step; try done. by destruct a.
  - destruct a; try done; injection Es as <- <-; by apply sim_load.
  - apply sim_save; [done..|]. left. exists body, r. destruct a; try done; by injection Es as <- <-.
  - apply sim_save; [done..|]. right; left. exists body, r. destruct a; try done; by injection Es as <- <-.
  - apply sim_save; [done..|]. do 2 right; left. exists body, r. destruct a; try done; by injection Es as <- <-.
  - apply sim_save; [done..|]. do 3 right. exists body, r. destruct a; try done; by injection Es as <- <-.
  - exists []. rewrite app_nil_r. assert (Es' : Some (drop_lock p (c_disk c), PDone r) = Some (d', ph')) by by destruct a.
    injection Es' as <- <-. apply (sim_drop f0 order bad); auto. right. destruct K as (io & ? & ?). exists io. auto.
Qed.

(** The system refused [p] something. *)
Definition refused (sched : list (nat * Answer)) (p : nat) : Prop := exists a, (p, a) ∈ sched /\ a <> Go.

Lemma start_sim f0 tmp lf : Sim f0 [] (refused []) (start f0 tmp lf).
Proof.
  split; cbn; try done; [constructor| |].
  - intros p. rewrite unlocked_free. split; done.
  - intros p. apply not_elem_of_nil.
Qed.

Lemma run_sim f0 s0 sched order c :
  Sim f0 order (refused s0) c -> exists new, Sim f0 (order ++ new) (refused (s0 ++ sched)) (run' c sched).
Proof.
  revert s0 order c. induction sched as [|[p a] sched IH]; intros s0 order c S.
  { exists []. by rewrite !app_nil_r. }
  destruct (exec_sim f0 order (refused s0) c p a S) as [new S1].
  destruct (IH (s0 ++ [(p, a)]) (order ++ new) (exec' c (p, a))) as [new' S2].
  - apply (sim_skip _ _ _ _ _ S1). intros q [(b & Hb & N)|[-> N]]; [exists b|exists a]; (split; [|done]); set_solver.
  - exists (new ++ new'). by rewrite app_assoc, cons_middle, app_assoc.
Qed.

(** Never two processes under the lock. *)
Lemma one_at_a_time f0 tmp lf sched p q :
  let c := run' (start f0 tmp lf) sched in
  held (phase c p) = true -> held (phase c q) = true -> p = q.
Proof.
  intros c Hp Hq. destruct (run_sim f0 [] sched [] _ (start_sim f0 tmp lf)) as [new S].
  apply (sim_lock _ _ _ _ S) in Hp, Hq. congruence.
Qed.

(** ** Nobody waits for ever *)

(** The calls a process still makes. *)
Definition rank (ph : Phase (E := E) (R := R)) : nat :=
  match ph with
  | PStart => 9 | POpen => 8 | PLock => 7 | PLoad => 6 | PCreate _ _ => 5 | PWrite _ _ => 4 | PSync _ _ => 3
  | PRename _ _ => 2 | PLeave _ => 1 | PDone _ | PDied => 0
  end%nat.

Lemma step_alone p (d : Disk) ph :
  ph <> PDied -> (forall r, ph <> PDone r) -> (held ph = true \/ holder (d_lock d) = None) ->
  exists d' ph', step' p Go d ph = Some (d', ph') /\ (rank ph' < rank ph)%nat /\ ph' <> PDied /\
    (held ph' = true \/ holder (d_lock d') = None \/ exists r, ph' = PDone r).
Proof.
  intros Nd Nf Hl. destruct ph as [| | | |body r|body r|body r|body r|r|r|]; cbn in *; try done; try (by destruct (Nf r)).
  - do 2 eexists. split; [reflexivity|]. destruct Hl as [|Hl]; [done|]. unfold ensure_lock_file. destruct (d_lock_file d); cbn; auto with lia.
  - do 2 eexists. split; [reflexivity|]. destruct Hl as [|Hl]; [done|]. cbn. auto with lia.
  - destruct Hl as [|Hl]; [done|]. apply (try_lock_free p) in Hl as [l El]. rewrite El. do 2 eexists. split; [reflexivity|]. cbn. auto with lia.
  - do 2 eexists. split; [reflexivity|]. destruct (prog p (d_file d)) as [[[] ?]|?|]; cbn; auto with lia.
  - do 2 eexists. split; [reflexivity|]. cbn. auto with lia.
  - do 2 eexists. split; [reflexivity|]. cbn. auto with lia.
  - do 2 eexists. split; [reflexivity|]. cbn. auto with lia.
  - do 2 eexists. split; [reflexivity|]. unfold rename_tmp. destruct (d_tmp d); cbn; auto with lia.
  - do 2 eexists. split; [reflexivity|]. cbn. split_and!; [lia|done|]. right; right. by exists r.
Qed.

Lemma finishes_alone f0 order bad c p :
  Sim f0 order bad c -> phase c p <> PDied -> (held (phase c p) = true \/ holder (d_lock (c_disk c)) = None) ->
  exists n r, (n <= rank (phase c p))%nat /\ phase (run' c (replicate n (p, Go))) p = PDone r /\
    (forall q, q <> p -> phase (run' c (replicate n (p, Go))) q = phase c q).
Proof.
  remember (rank (phase c p)) as k eqn:Ek. revert order bad c Ek. induction (lt_wf k) as [k _ IH]. intros order bad c -> S Nd Hl.
  assert (D : (exists r, phase c p = PDone r) \/ forall r, phase c p <> PDone r) by (destruct (phase c p); first [by right|left; eauto]).
  destruct D as [[r Er]|Nf]; [exists 0%nat, r; split_and!; [lia|done|done]|].
  destruct (step_alone p (c_disk c) (phase c p) Nd Nf Hl) as (d' & ph' & Es & Hr & Nd' & Hl').
  destruct (exec_sim _ _ _ _ p Go S) as [new S']. unfold exec in S'. rewrite Es in S'.
  set (c' := mk_config d' (<[p := ph']> (c_phases c))) in *.
  assert (Ep : phase c' p = ph') by (unfold c'; by rewrite phase_exec, decide_True).
  assert (Eq : forall q, q <> p -> phase c' q = phase c q) by (intros q Hq; unfold c'; by rewrite phase_exec, decide_False by done).
  assert (Ec : forall n, run' c (replicate (Datatypes.S n) (p, Go)) = run' c' (replicate n (p, Go))) by (intros n; cbn; by rewrite Es).
  destruct Hl' as [Hl'|[Hl'|[r ->]]].
  3: { exists 1%nat, r. rewrite (Ec 0%nat). split_and!; [lia|done|done]. }
  all: destruct (IH (rank ph') Hr _ _ c' ltac:(by rewrite Ep) S' ltac:(by rewrite Ep) ltac:(rewrite Ep; auto)) as (n & r & Hn & Er & Eo);
    exists (Datatypes.S n), r; rewrite Ec; split_and!; [lia|done|]; intros q Hq; rewrite Eo by done; by apply Eq.
Qed.

(** A process that has not been killed can always come to its end: whoever
    holds the lock finishes first, in at most six calls, and then it has the
    lock to itself. *)
Lemma everyone_can_finish f0 tmp lf sched p :
  let c := run' (start f0 tmp lf) sched in
  phase c p <> PDied ->
  exists rest r, (length rest <= 15)%nat /\ phase (run' c rest) p = PDone r.
Proof.
  intros c Nd. destruct (run_sim f0 [] sched [] _ (start_sim f0 tmp lf)) as [o S]. cbn in S. fold c in S.
  assert (Rk : forall ph, (rank ph <= 9)%nat) by (intros []; cbn; lia).
  destruct (decide (holder (d_lock (c_disk c)) = None)) as [El|Hh].
  { destruct (finishes_alone _ _ _ c p S Nd (or_intror El)) as (n & r & Hn & Er & _). exists (replicate n (p, Go)), r.
    rewrite length_replicate. split; [|done]. specialize (Rk (phase c p)). lia. }
  destruct (holder (d_lock (c_disk c))) as [q|] eqn:El; [|done].
  assert (Hq : held (phase c q) = true) by (by apply (sim_lock _ _ _ _ S)).
  assert (Rq : (rank (phase c q) <= 6)%nat) by (destruct (phase c q); cbn in *; lia || done).
  destruct (finishes_alone _ _ _ c q S ltac:(by destruct (phase c q)) (or_introl Hq)) as (n & r & Hn & Er & Eo).
  destruct (decide (p = q)) as [->|Npq].
  { exists (replicate n (q, Go)), r. rewrite length_replicate. split; [lia|done]. }
  set (c1 := run' c (replicate n (q, Go))) in *.
  destruct (run_sim f0 sched (replicate n (q, Go)) _ c S) as [new S1]. fold c1 in S1.
  assert (Free : holder (d_lock (c_disk c1)) = None).
  { destruct (holder (d_lock (c_disk c1))) as [q'|] eqn:E1; [|done]. apply (sim_lock _ _ _ _ S1) in E1.
    destruct (decide (q' = q)) as [->|N]; [by rewrite Er in E1|]. rewrite Eo in E1 by done. apply (sim_lock _ _ _ _ S) in E1. congruence. }
  destruct (finishes_alone _ _ _ c1 p S1 ltac:(by rewrite Eo) (or_intror Free)) as (m & r' & Hm & Er' & _).
  exists (replicate n (q, Go) ++ replicate m (p, Go)), r'. unfold run. rewrite foldl_app, length_app, !length_replicate.
  split; [|done]. specialize (Rk (phase c1 p)). lia.
Qed.
End Facts.

(** ** The files of the hub *)

Section Stores.
Context {L : Type} `{ExclusiveLock L}.
Variable slib : StoreLib.
Variable cmds : nat -> StoreCmd.

(** The commands of [order] one after the other, each as [Envelope] and [Login]
    define it, as the system let it. *)
Definition commands (f : CredFile) (order : list (nat * Luck)) : CredFile :=
  foldl (fun f '(p, k) => (run_cmd slib k (cmds p) f).1) f order.

(** After the schedule [sched], which led to [c], everything is as if just the
    commands of [order] had run, one after the other.  A process that is done
    has answered what its command answers there, or could not get the lock;
    a file is only ever not read or written by somebody the system refused
    something. *)
Definition as_if_serial (f : CredFile) (sched : list (nat * Answer)) (c : Config (L := L)) (order : list (nat * Luck)) : Prop :=
  NoDup order.*1 /\
  d_file (c_disk c) = commands f order /\
  forall p r, phase c p = PDone r ->
    (r = Err LockFailed /\ (p ∉ order.*1) /\ refused sched p) \/
    exists before k after, order = before ++ (p, k) :: after /\
      r = (run_cmd slib k (cmds p) (commands f before)).2 /\ (k <> Fine -> refused sched p).

Definition written (io_ok : bool) : Luck := if io_ok then Fine else NotWritten.

Lemma apply_save_change {A} io_ok (change : CredentialStore -> res AdminError (CredentialStore * A)) wrap f :
  apply_txn File (AdminStore SIo) (written io_ok) (fun f => save_change slib f change wrap) f =
  (let '(f, r) := update_store slib true io_ok change f in (f, a ← r; Ok (wrap a))).
Proof.
  unfold apply_txn, save_change, update_store, save_atomic. destruct (load slib f) as [s|e|]; cbn; try (by destruct io_ok).
  destruct (change s) as [[s' a]|e|]; cbn; by destruct io_ok.
Qed.

Lemma apply_written io_ok c f :
  apply_txn File (AdminStore SIo) (written io_ok) (store_txn slib c) f = run_whole slib io_ok c f.
Proof.
  destruct c as [l t c|t|id n]; unfold store_txn, run_whole.
  - rewrite apply_save_change. by destruct (update_store slib true io_ok (add_credential slib l t c) f) as [f' [[]|e|]].
  - apply (apply_save_change io_ok (remove_credential t) Removed).
  - unfold apply_txn, persist_counter_update, save_atomic. destruct (load slib f) as [s|e|]; cbn; try (by destruct io_ok).
    destruct (find_by_id slib id s) as [c|]; [|by destruct io_ok]. destruct (n >? cred_sign_count c); by destruct io_ok.
Qed.

Lemma apply_store_txn k c f :
  apply_txn File (AdminStore SIo) k (store_txn slib c) f = run_cmd slib k c f.
Proof. destruct k; [apply (apply_written true)|by destruct c|apply (apply_written false)]. Qed.

Lemma serial_commands f order : serial File (AdminStore SIo) (fun p => store_txn slib (cmds p)) f order = commands f order.
Proof.
  unfold serial, commands. revert f. induction order as [|[p k] order IH]; intros f; [done|]. cbn. by rewrite apply_store_txn.
Qed.

Lemma sim_as_if_serial f0 order sched c :
  Sim File LockFailed (AdminStore SIo) (fun p => store_txn slib (cmds p)) f0 order (refused sched) c -> as_if_serial f0 sched c order.
Proof.
  intros S. split_and!; [apply S|by rewrite <- serial_commands; apply S|]. intros p r Ep.
  pose proof (sim_phase _ _ _ _ _ _ _ _ S p) as K. rewrite Ep in K. destruct K as [K|(io & (b & a & -> & ->) & Kb)]; [by left|right].
  exists b, io, a. split_and!; [done| |done]. by rewrite apply_store_txn, serial_commands.
Qed.

(** [C20] However the hub's counter updates and any number of [hub-admin]
    commands on the passkeys interleave, wherever they are killed or refused
    a call (a read of the file among them): the credential file, and what each of them reports, are what they
    are when the commands run whole, one after the other.  The order is fixed
    as time goes by: a command that is done comes before all that start
    later. *)
Theorem passkey_updates_are_atomic f0 tmp lock_file s1 s2 :
  let c1 := run_stores slib cmds (start f0 tmp lock_file) s1 in
  let c2 := run_stores slib cmds c1 s2 in
  exists o1 o2, as_if_serial f0 s1 c1 o1 /\ as_if_serial f0 (s1 ++ s2) c2 (o1 ++ o2).
Proof.
  intros c1 c2. unfold run_stores in *.
  edestruct (run_sim File LockFailed (AdminStore SIo) (fun p => store_txn slib (cmds p)) f0 [] s1) as [o1 S1]; [apply start_sim|].
  edestruct (run_sim File LockFailed (AdminStore SIo) (fun p => store_txn slib (cmds p)) f0 s1 s2) as [o2 S2]; [apply S1|].
  exists o1, o2. split; by apply sim_as_if_serial.
Qed.

(** ** No passkey is lost *)

Hypothesis json_roundtrip : forall s, store_of_json slib (json_of_store slib s) = Some s.

Definition on_file (id : list byte) (f : CredFile) : Prop := exists s, load slib f = Ok s /\ id ∈ ids s.

Lemma run_whole_keeps io_ok c f id :
  (forall t, c <> CmdRemove t) -> on_file id f -> on_file id (run_whole slib io_ok c f).1.
Proof.
  intros Hc (s & El & Hs). destruct c as [l t c|t|i n]; cbn [run_whole]; [|by destruct (Hc t)|].
  - pose proof (update_store_spec slib json_roundtrip true io_ok (add_credential slib l t c) f) as U.
    destruct (update_store slib true io_ok (add_credential slib l t c) f) as [f' [[x y]|e|]]; cbn in *; [|subst f'; by exists s..].
    destruct U as (s1 & s2 & E1 & Ea & E2). apply add_credential_Ok in Ea as (_ & -> & _). eexists. split; [done|].
    unfold ids in *. rewrite fmap_app, elem_of_app. left. congruence.
  - destruct (persist_cases slib true io_ok i n f) as [E|(s' & c & E1 & _ & _ & E2)];
      destruct (persist_counter_update slib true io_ok i n f) as [f' r]; cbn in *; subst f'; [by exists s|].
    exists (set_sign_count slib i n s'). split; [cbn; by rewrite json_roundtrip|]. rewrite set_sign_count_ids. congruence.
Qed.

Lemma run_cmd_keeps k c f id :
  (forall t, c <> CmdRemove t) -> on_file id f -> on_file id (run_cmd slib k c f).1.
Proof. destruct k; [by apply run_whole_keeps|done|by apply run_whole_keeps]. Qed.

Lemma commands_keep f order id :
  (forall p t, cmds p <> CmdRemove t) -> on_file id f -> on_file id (commands f order).
Proof.
  intros Hc. unfold commands. revert f. induction order as [|[p k] order IH]; intros f K; [done|]. cbn. apply IH, run_cmd_keeps; eauto.
Qed.

Lemma whole_added io_ok c f l id :
  Ok (Added l id) = (run_whole slib io_ok c f).2 -> on_file id (run_whole slib io_ok c f).1.
Proof.
  destruct c as [l' t c|t|i n]; cbn [run_whole].
  - pose proof (update_store_spec slib json_roundtrip true io_ok (add_credential slib l' t c) f) as U.
    destruct (update_store slib true io_ok (add_credential slib l' t c) f) as [f' [[x y]|e|]]; cbn in *; try done.
    intros [= <- <-]. destruct U as (s1 & s2 & E1 & Ead & E2). apply add_credential_Ok in Ead as (_ & -> & [= -> ->]).
    eexists. split; [done|]. unfold ids. rewrite fmap_app, elem_of_app. right. by apply list_elem_of_singleton.
  - by destruct (cmd_remove slib t true io_ok f) as [f' [|e|]].
  - by destruct (persist_counter_update slib true io_ok i n f) as [f' [[]|e|]].
Qed.

(** A passkey that [add-passkey] reports as added is in the file from then on,
    whatever logins update counters and whatever other passkeys are added at
    the same time, as long as nobody removes one. *)
Lemma added_passkey_is_kept f0 tmp lock_file sched p l id :
  let c := run_stores slib cmds (start f0 tmp lock_file) sched in
  (forall q t, cmds q <> CmdRemove t) -> phase c p = PDone (Ok (Added l id)) -> on_file id (d_file (c_disk c)).
Proof.
  intros c Hc Ep.
  edestruct (run_sim File LockFailed (AdminStore SIo) (fun p => store_txn slib (cmds p)) f0 [] sched) as [o S]; [apply start_sim|].
  destruct (sim_as_if_serial _ _ _ _ S) as (_ & Ef & Hp). unfold c, run_stores in *. rewrite Ef.
  destruct (Hp p _ Ep) as [[? _]|(b & k & a & -> & Er & _)]; [done|].
  assert (Ea : commands f0 (b ++ (p, k) :: a) = commands (run_cmd slib k (cmds p) (commands f0 b)).1 a)
    by (unfold commands; by rewrite foldl_app).
  rewrite Ea. apply commands_keep; [done|]. revert Er. destruct k; cbn [run_cmd snd]; intros Er.
  1, 3: by eapply whole_added.
  exfalso. by destruct (cmds p).
Qed.
End Stores.

(** The list of issued certificates, in the same way. *)
Section Certs.
Context {L : Type} `{ExclusiveLock L}.
Variable alib : AdminLib.
Variable cmds : nat -> CertCmd.

Definition cert_io (io_ok : bool) : IoAnswers := mk_io true InPlace InPlace true io_ok.
Definition run_cert_whole (io_ok : bool) (c : CertCmd) (f : CertsFile) : CertsFile * res IssueError (option nat) :=
  match c with
  | CmdIssue row => let '(f, r) := update_certs alib (cert_io io_ok) (add_row row) f in (f, r ;; Ok None)
  | CmdRevoke a => let '(f, r) := update_certs alib (cert_io io_ok) (revoke_rows a) f in (f, n ← r; Ok (Some n))
  end.
Definition run_cert_cmd (k : Luck) (c : CertCmd) (f : CertsFile) : CertsFile * res IssueError (option nat) :=
  match k with
  | Fine => run_cert_whole true c f
  | NotWritten => run_cert_whole false c f
  | NotRead => (f, (run_cert_whole true c CertsUnreadable).2)
  end.
Definition cert_commands (f : CertsFile) (order : list (nat * Luck)) : CertsFile :=
  foldl (fun f '(p, k) => (run_cert_cmd k (cmds p) f).1) f order.

Lemma apply_cert_txn k c f : apply_txn Certs IIo k (cert_txn alib c) f = run_cert_cmd k c f.
Proof.
  assert (W : forall io_ok, apply_txn Certs IIo (written io_ok) (cert_txn alib c) f = run_cert_whole io_ok c f); [intros io_ok|destruct k; [apply (W true)|by destruct c|apply (W false)]].
  destruct c as [row|a]; cbn; unfold apply_txn, cert_txn, update_certs, save_certs; cbn; destruct (load_certs alib f) as [rows|e|]; cbn; try (by destruct io_ok).
  - destruct (add_row row rows) as [[rows' []]|e|]; by destruct io_ok.
  - destruct (revoke_rows a rows) as [[rows' n]|e|]; by destruct io_ok.
Qed.

(** Issuing and revoking certificates interleave like passkey commands: the
    list is at any time what the commands so far make of it one by one. *)
Lemma cert_updates_are_atomic f0 tmp lock_file sched :
  let c := run_certs alib cmds (start (L := L) f0 tmp lock_file) sched in
  exists order, NoDup order.*1 /\ d_file (c_disk c) = cert_commands f0 order /\
    forall p r, phase c p = PDone r -> r = Err IIo \/
      exists before k after, order = before ++ (p, k) :: after /\
        r = (run_cert_cmd k (cmds p) (cert_commands f0 before)).2.
Proof.
  intros c. destruct (run_sim Certs IIo IIo (fun p => cert_txn alib (cmds p)) f0 [] sched [] (start f0 tmp lock_file) (start_sim _ _ _ _ _ _ _)) as [o S].
  change (Sim Certs IIo IIo (fun p => cert_txn alib (cmds p)) f0 o (refused sched) c) in S.
  assert (Es : forall o f, serial Certs IIo (fun p => cert_txn alib (cmds p)) f o = cert_commands f o).
  { intros o'. unfold serial, cert_commands. induction o' as [|[p k] o' IH]; intros f; [done|]. cbn. by rewrite apply_cert_txn. }
  exists o. split_and!; [apply S|by rewrite <- Es; apply S|]. intros p r Ep.
  pose proof (sim_phase _ _ _ _ _ _ _ _ S p) as K. rewrite Ep in K.
  destruct K as [(-> & _ & _)|(io & (b & a & -> & ->) & _)]; [by left|right]. exists b, io, a. by rewrite apply_cert_txn, Es.
Qed.
End Certs.

(** ** A run *)

(** [add-passkey] and a login's counter update at the same time: the second
    waits while the first holds the lock, and both changes are in the file. *)
Definition toy_cmds (p : nat) : StoreCmd :=
  match p with
  | O => CmdAdd (lit "phone") (lit "now") (mk_registered (lit "new") (x04 :: toy_x ++ toy_x) 0)
  | _ => CmdCounter (lit "id") 9
  end.
Definition toy_sched : list (nat * Answer) :=
  [(0, Go); (0, Go); (0, Go); (1, Go); (1, Go); (0, Go); (1, Go); (0, Go); (0, Go); (1, Go); (0, Go); (0, Go); (0, Go)]%nat
  ++ replicate 7 (1%nat, Go).
#[local] Abbreviation toy_run := (run_stores (L := option nat) toy_store toy_cmds (start toy_file None false) toy_sched).

Lemma added_passkey_is_kept_witness :
  phase toy_run 0 = PDone (Ok (Added (lit "phone") (lit "new"))) /\ phase toy_run 1 = PDone (Ok Counted) /\
  counter toy_store (lit "id") (d_file (c_disk toy_run)) = Some 9 /\
  on_file toy_store (lit "new") (d_file (c_disk toy_run)).
Proof.
  assert (E : phase toy_run 0 = PDone (Ok (Added (lit "phone") (lit "new")))) by (vm_compute; reflexivity).
  split_and!; [done|vm_compute; reflexivity|vm_compute; reflexivity|].
  pose proof (added_passkey_is_kept (L := option nat) toy_store toy_cmds toy_store_roundtrip toy_file None false toy_sched 0) as W.
  cbv zeta in W. eapply W; [by intros [] t|exact E].
Defined.
