(* ===== verification/Calendar.v ===== *)
(** * Calendar: the dates of [hub-admin] ([fmt_utc] of [hub-admin/src/main.rs])

    The conversion of a Unix time to a civil date without tables, and its
    equivalence with counting days on the Gregorian calendar. *)

From Stdlib Require Import Strings.Byte.
From stdpp Require Import prelude strings list.
From S2P Require Import Prelude Utf8 Std.

(** ** The code *)

(** The civil date of a day since 1970-01-01, and the time of day; [i64]
    divisions round towards zero. *)
Definition civil_from_days (days : Z) : Z * Z * Z :=
  let z := days + 719468 in
  let era := Z.quot (if 0 <=? z then z else z - 146096) 146097 in
  let doe := z - era * 146097 in
  let yoe := Z.quot (doe - Z.quot doe 1460 + Z.quot doe 36524 - Z.quot doe 146096) 365 in
  let y := yoe + era * 400 in
  let doy := doe - (365 * yoe + Z.quot yoe 4 - Z.quot yoe 100) in
  let mp := Z.quot (5 * doy + 2) 153 in
  let d := doy - Z.quot (153 * mp + 2) 5 + 1 in
  let month := if mp <? 10 then mp + 3 else mp - 9 in
  (if month <=? 2 then y + 1 else y, month, d).
Definition time_of_day (t : Z) : Z * Z * Z :=
  let sod := t mod 86400 in (Z.quot sod 3600, Z.rem (Z.quot sod 60) 60, Z.rem sod 60).

(** [format!("{n:0w$}")] for a non-negative number *)
Definition dec_pad (w : nat) (n : Z) : list byte :=
  let s := dec n in replicate (w - length s) "0"%byte ++ s.
Definition fmt_utc (t : Z) : list byte :=
  let '(y, mo, d) := civil_from_days (t / 86400) in
  let '(h, mi, s) := time_of_day t in
  dec_pad 4 y ++ "-"%byte :: dec_pad 2 mo ++ "-"%byte :: dec_pad 2 d ++ "T"%byte ::
  dec_pad 2 h ++ ":"%byte :: dec_pad 2 mi ++ ":"%byte :: dec_pad 2 s ++ lit "Z".

(** ** The calendar *)

Definition leap (y : Z) : bool := (y mod 4 =? 0) && (negb (y mod 100 =? 0) || (y mod 400 =? 0)).
Definition days_in_month (y m : Z) : Z :=
  if m =? 2 then (if leap y then 29 else 28)
  else if (m =? 4) || (m =? 6) || (m =? 9) || (m =? 11) then 30 else 31.
Definition next_day (date : Z * Z * Z) : Z * Z * Z :=
  let '(y, m, d) := date in
  if d <? days_in_month y m then (y, m, d + 1)
  else if m <? 12 then (y, m + 1, 1) else (y + 1, 1, 1).

(** ** Years that begin in March *)

Ltac divs := Z.to_euclidean_division_equations; lia.

(** The first day of the [y]-th such year of an era of 400. *)
Definition year_start (y : Z) : Z := 365 * y + y / 4 - y / 100.
Definition year_end (y : Z) : Z := year_start (y + 1) + (if y =? 399 then 1 else 0).

Lemma century doe : 0 <= doe < 146097 ->
  doe / 36524 = 0 \/ doe / 36524 = 1 \/ doe / 36524 = 2 \/ doe / 36524 = 3 \/ doe / 36524 = 4.
Proof. intros H. divs. Qed.

Definition year_of_era (doe : Z) : Z := (doe - doe / 1460 + doe / 36524 - doe / 146096) / 365.

Lemma year_of_era_bounds doe :
  0 <= doe < 146097 -> let y := year_of_era doe in 0 <= y <= 399 /\ year_start y <= doe < year_end y.
Proof.
  intros H y. unfold y, year_of_era, year_end, year_start.
  destruct (century doe H) as [C|[C|[C|[C|C]]]]; rewrite C;
    match goal with |- context [?a =? 399] => destruct (Z.eqb_spec a 399) end; divs.
Qed.

Lemma year_start_le a b : 0 <= a -> a <= b -> year_start a <= year_start b.
Proof. intros Ha Hab. unfold year_start. divs. Qed.

Lemma year_of_era_unique doe y :
  0 <= doe < 146097 -> 0 <= y <= 399 -> year_start y <= doe < year_end y -> y = year_of_era doe.
Proof.
  intros Hd Hy H. destruct (year_of_era_bounds doe Hd) as [By B]. set (q := year_of_era doe) in *. unfold year_end in *.
  destruct (Z.lt_trichotomy y q) as [L|[E|L]]; [|done|].
  - pose proof (year_start_le (y + 1) q ltac:(lia) ltac:(lia)). destruct (Z.eqb_spec y 399); lia.
  - pose proof (year_start_le (q + 1) y ltac:(lia) ltac:(lia)). destruct (Z.eqb_spec q 399); lia.
Qed.

(** How long such a year is. *)
Lemma leap_spec y : leap y = true <-> y mod 4 = 0 /\ (y mod 100 <> 0 \/ y mod 400 = 0).
Proof.
  unfold leap. rewrite andb_true_iff, orb_true_iff, negb_true_iff, !Z.eqb_eq, Z.eqb_neq. tauto.
Qed.

Lemma leap_era y era : leap (y + era * 400) = leap y.
Proof.
  unfold leap.
  replace (y + era * 400) with (y + (era * 100) * 4) at 1 by lia. rewrite Z_mod_plus_full.
  replace (y + era * 400) with (y + (era * 4) * 100) at 1 by lia. rewrite Z_mod_plus_full.
  by rewrite Z_mod_plus_full.
Qed.

Lemma year_length y : 0 <= y <= 399 -> year_end y - year_start y = 365 + (if leap (y + 1) then 1 else 0).
Proof.
  intros H. pose proof (leap_spec (y + 1)) as L. unfold year_end, year_start. destruct (Z.eqb_spec y 399) as [->|N]; [done|].
  destruct (leap (y + 1)).
  - destruct (proj1 L eq_refl) as [L1 [L2|L2]]; divs.
  - destruct (decide ((y + 1) mod 4 = 0)); [|divs]. destruct (decide ((y + 1) mod 100 = 0)); [divs|].
    assert (false = true) by (apply L; auto). done.
Qed.

(** ** Days within such a year *)

Definition month_of (doy : Z) : Z := let mp := (5 * doy + 2) / 153 in if mp <? 10 then mp + 3 else mp - 9.
Definition day_of (doy : Z) : Z := doy - (153 * ((5 * doy + 2) / 153) + 2) / 5 + 1.
Definition date_of (y doy : Z) : Z * Z * Z :=
  (if month_of doy <=? 2 then y + 1 else y, month_of doy, day_of doy).

Lemma civil_is_date days :
  let z := days + 719468 in
  let doe := z mod 146097 in
  civil_from_days days = date_of (year_of_era doe + z / 146097 * 400) (doe - year_start (year_of_era doe)).
Proof.
  intros z doe. unfold civil_from_days. fold z.
  assert (E : Z.quot (if 0 <=? z then z else z - 146096) 146097 = z / 146097) by (destruct (Z.leb_spec 0 z); divs).
  rewrite E. replace (z - z / 146097 * 146097) with doe by (unfold doe; divs).
  assert (D : 0 <= doe < 146097) by (unfold doe; divs).
  rewrite !Z.quot_div_nonneg with (a := doe) by lia.
  destruct (year_of_era_bounds doe D) as [Y B]. unfold year_of_era in *.
  set (n := doe - doe / 1460 + doe / 36524 - doe / 146096) in *.
  assert (N : 0 <= n) by (unfold n; divs). rewrite !(Z.quot_div_nonneg n) by lia. set (y := n / 365) in *.
  rewrite !(Z.quot_div_nonneg y) by lia. replace (365 * y + y / 4 - y / 100) with (year_start y) by done.
  set (doy := doe - year_start y) in *. assert (0 <= doy) by lia. unfold date_of, month_of, day_of.
  rewrite !(Z.quot_div_nonneg (5 * doy + 2)) by lia. set (mp := (5 * doy + 2) / 153) in *.
  assert (0 <= mp) by (unfold mp; divs). by rewrite !(Z.quot_div_nonneg (153 * mp + 2)) by lia.
Qed.

(** The table of the days of a year, checked by computation. *)
Definition step_ok (doy : Z) : bool :=
  let m := month_of doy in let d := day_of doy in let m' := month_of (doy + 1) in let d' := day_of (doy + 1) in
  if doy =? 364 then (m =? 2) && (d =? 28) && (m' =? 2) && (d' =? 29)
  else if m =? 2 then (d <? 28) && (m' =? 2) && (d' =? d + 1)
  else if d <? days_in_month 1 m then (m' =? m) && (d' =? d + 1)
  else (1 <=? m) && (m <=? 12) && (d' =? 1) && (m' =? (if m <? 12 then m + 1 else 1)).

Lemma steps_ok doy : 0 <= doy < 365 -> step_ok doy = true.
Proof.
  intros H. assert (F : forallb step_ok (Z.of_nat <$> seq 0 365) = true) by (vm_compute; reflexivity).
  rewrite forallb_forall in F. apply F. apply list_elem_of_In, list_elem_of_fmap. exists (Z.to_nat doy).
  split; [lia|]. apply elem_of_seq. lia.
Qed.

Lemma date_step y doy :
  0 <= doy < 364 + (if leap (y + 1) then 1 else 0) -> next_day (date_of y doy) = date_of y (doy + 1).
Proof.
  intros H. pose proof (steps_ok doy ltac:(destruct (leap (y + 1)); lia)) as S. unfold step_ok in S. unfold date_of, next_day.
  set (m := month_of doy) in *. set (d := day_of doy) in *. set (m' := month_of (doy + 1)) in *. set (d' := day_of (doy + 1)) in *.
  destruct (Z.eqb_spec doy 364).
  - destruct (leap (y + 1)) eqn:L; [|lia]. bool_to_prop. replace m with 2. replace d with 28. replace m' with 2. replace d' with 29.
    cbn [Z.leb Z.compare Pos.compare Pos.compare_cont]. unfold days_in_month. cbn [Z.eqb Pos.eqb]. by rewrite L.
  - destruct (Z.eqb_spec m 2) as [->|M].
    + bool_to_prop. replace m' with 2. replace d' with (d + 1). cbn [Z.leb Z.compare Pos.compare Pos.compare_cont].
      replace (d <? days_in_month (y + 1) 2) with true; [done|]. symmetry. apply Z.ltb_lt. unfold days_in_month. cbn [Z.eqb Pos.eqb].
      destruct (leap (y + 1)); lia.
    + assert (E : forall y, days_in_month y m = days_in_month 1 m) by (intros x; unfold days_in_month; by destruct (Z.eqb_spec m 2)).
      rewrite E. destruct (d <? days_in_month 1 m); bool_to_prop; [by replace m' with m; replace d' with (d + 1)|].
      replace d' with 1. destruct (Z.ltb_spec m 12); bool_to_prop.
      * replace m' with (m + 1). destruct (Z.leb_spec m 2), (Z.leb_spec (m + 1) 2); try done; lia.
      * replace m' with 1. destruct (Z.leb_spec m 2); [lia|done].
Qed.

(** The last day of such a year, and its first. *)
Lemma date_wrap y doy :
  doy = 364 + (if leap (y + 1) then 1 else 0) -> next_day (date_of y doy) = date_of (y + 1) 0.
Proof.
  intros ->. unfold date_of, next_day. destruct (leap (y + 1)) eqn:L;
    [change (month_of (364 + 1)) with 2; change (day_of (364 + 1)) with 29
    |change (month_of (364 + 0)) with 2; change (day_of (364 + 0)) with 28];
    change (month_of 0) with 3; change (day_of 0) with 1; cbn [Z.leb Z.compare Pos.compare Pos.compare_cont];
    unfold days_in_month; cbn [Z.eqb Pos.eqb]; by rewrite L.
Qed.

(** [C40] The dates of [hub-admin] are those of the Gregorian calendar: day 0 is
    1 January 1970, and each day's date is the successor of the previous
    day's, for every day, before 1970 as well; and the time of day counts the
    seconds of the day. *)
Theorem civil_from_days_is_the_calendar :
  civil_from_days 0 = (1970, 1, 1) /\
  (forall days, civil_from_days (days + 1) = next_day (civil_from_days days)) /\
  forall t, let '(h, m, s) := time_of_day t in
    0 <= h < 24 /\ 0 <= m < 60 /\ 0 <= s < 60 /\ t mod 86400 = 3600 * h + 60 * m + s.
Proof.
  split; [reflexivity|]. split; [|intros t; unfold time_of_day; divs]. intros days. rewrite !civil_is_date. cbn zeta.
  replace (days + 1 + 719468) with (days + 719468 + 1) by lia. set (z := days + 719468).
  set (doe := z mod 146097). assert (D : 0 <= doe < 146097) by (unfold doe; divs).
  destruct (year_of_era_bounds doe D) as [Y B]. set (y := year_of_era doe) in *.
  pose proof (year_length y Y) as Ly. rewrite <- (leap_era (y + 1) (z / 146097)) in Ly.
  replace (y + 1 + z / 146097 * 400) with (y + z / 146097 * 400 + 1) in Ly by lia.
  destruct (decide (doe = 146096)) as [E|E].
  - assert (Ez : (z + 1) mod 146097 = 0 /\ (z + 1) / 146097 = z / 146097 + 1) by (unfold doe in E; divs).
    destruct Ez as [-> ->]. assert (y = 399) as Ey by (unfold y; by rewrite E).
    change (year_of_era 0) with 0. change (year_start 0) with 0. change (0 - 0) with 0.
    replace (0 + (z / 146097 + 1) * 400) with (y + z / 146097 * 400 + 1) by lia. symmetry. apply date_wrap.
    rewrite Ey in *. change (year_end 399) with 146097 in *. change (year_start 399) with 145731 in *. lia.
  - assert (Ez : (z + 1) mod 146097 = doe + 1 /\ (z + 1) / 146097 = z / 146097) by (unfold doe in *; divs).
    destruct Ez as [-> ->]. destruct (decide (doe + 1 = year_end y)) as [F|F].
    + assert (y <> 399) as Ny by (intros Ey; rewrite Ey in F; change (year_end 399) with 146097 in F; lia).
      assert (year_end y = year_start (y + 1)) as Es by (unfold year_end; destruct (Z.eqb_spec y 399); lia).
      assert (y + 1 = year_of_era (doe + 1)) as <-.
      { apply year_of_era_unique; [lia..|]. pose proof (year_length (y + 1) ltac:(lia)) as L1. destruct (leap (y + 1 + 1)); lia. }
      rewrite F, Es, Z.sub_diag. replace (y + 1 + z / 146097 * 400) with (y + z / 146097 * 400 + 1) by lia.
      symmetry. apply date_wrap. lia.
    + assert (y = year_of_era (doe + 1)) as <- by (apply year_of_era_unique; lia).
      replace (doe + 1 - year_start y) with (doe - year_start y + 1) by lia. symmetry. apply date_step. lia.
Qed.
