(* ===== verification/Metrics.v ===== *)
(** * Metrics: the hub's exposition for Prometheus ([hub/src/metrics.rs])

    The text of [/metrics]; the uptime is formatted by the standard library
    and arrives as text. *)

From Stdlib Require Import Strings.Byte.
From stdpp Require Import prelude strings list gmap.
From S2P Require Import Prelude Std.

Definition LF : byte := x0a.
Definition QUOTE : byte := x22.
Definition BACKSLASH : byte := x5c.

(** What the scrape reads of one agent's link. *)
Record AgentSample := mk_sample {
  sm_machine_id : list byte; sm_streams : nat;
  sm_bytes_in : Z; sm_bytes_out : Z; sm_frames_in : Z; sm_frames_out : Z;
}.

(** [escape_label] *)
Definition escape_char (b : byte) : list byte :=
  if bool_decide (b = BACKSLASH) then [BACKSLASH; BACKSLASH]
  else if bool_decide (b = QUOTE) then [BACKSLASH; QUOTE]
  else if bool_decide (b = LF) then [BACKSLASH; "n"%byte]
  else [b].
Definition escape_label (s : list byte) : list byte := flat_map escape_char s.

Definition line (s : list byte) : list byte := s ++ [LF].

(** [# HELP] and [# TYPE] of a metric *)
Definition metric_head (name help kind : list byte) : list byte :=
  line (lit "# HELP " ++ name ++ lit " " ++ help) ++ line (lit "# TYPE " ++ name ++ lit " " ++ kind).

(** One number, and one number per agent. *)
Definition single (name help kind value : list byte) : list byte :=
  metric_head name help kind ++ line (name ++ lit " " ++ value) ++ [LF].
Definition sample_line (name : list byte) (value : AgentSample -> Z) (a : AgentSample) : list byte :=
  line (name ++ lit "{machine_id=" ++ QUOTE :: escape_label (sm_machine_id a) ++ QUOTE :: lit "} " ++ dec (value a)).
Definition per_agent (name help kind : list byte) (value : AgentSample -> Z) (agents : list AgentSample) : list byte :=
  metric_head name help kind ++ flat_map (sample_line name value) agents ++ [LF].

(** [handler] behind the bearer check *)
Definition metrics_text (uptime : list byte) (active_sessions pending_logins : nat) (agents : list AgentSample) : list byte :=
  single (lit "term_hub_uptime_seconds") (lit "Hub process uptime in seconds.") (lit "gauge") uptime ++
  single (lit "term_hub_active_bearer_tokens") (lit "Currently-valid bearer tokens (= logged-in browser sessions).")
    (lit "gauge") (dec (Z.of_nat active_sessions)) ++
  single (lit "term_hub_pending_logins") (lit "WebAuthn login ceremonies in flight.") (lit "gauge")
    (dec (Z.of_nat pending_logins)) ++
  single (lit "term_hub_active_agents") (lit "Currently-connected agents.") (lit "gauge")
    (dec (Z.of_nat (length agents))) ++
  match agents with
  | [] => []
  | _ =>
      per_agent (lit "term_hub_active_streams") (lit "Open mux streams per agent.") (lit "gauge")
        (fun a => Z.of_nat (sm_streams a)) agents ++
      per_agent (lit "term_hub_agent_bytes_in_total")
        (lit "Bytes received from each agent (wire frames, header + payload).") (lit "counter") sm_bytes_in agents ++
      per_agent (lit "term_hub_agent_bytes_out_total") (lit "Bytes queued toward each agent.") (lit "counter")
        sm_bytes_out agents ++
      per_agent (lit "term_hub_agent_frames_in_total") (lit "Total wire frames received from each agent.")
        (lit "counter") sm_frames_in agents ++
      per_agent (lit "term_hub_agent_frames_out_total") (lit "Total wire frames queued toward each agent.")
        (lit "counter") sm_frames_out agents
  end.

(** ** Reading a label back *)

(** A scraper's reading of a quoted label value: the value, and what follows
    the closing quote. *)
Fixpoint read_label (s : list byte) : option (list byte * list byte) :=
  match s with
  | [] => None
  | b :: s =>
      if bool_decide (b = QUOTE) then Some ([], s)
      else if bool_decide (b = LF) then None
      else if bool_decide (b = BACKSLASH) then
        match s with
        | c :: s =>
            v ← (if bool_decide (c = "n"%byte) then Some LF
                 else if bool_decide (c = QUOTE) || bool_decide (c = BACKSLASH) then Some c else None);
            '(l, rest) ← read_label s; Some (v :: l, rest)
        | [] => None
        end
      else '(l, rest) ← read_label s; Some (b :: l, rest)
  end.

#[local] Arguments escape_label : simpl never.
Lemma escape_label_cons b s : escape_label (b :: s) = escape_char b ++ escape_label s.
Proof. done. Qed.

Lemma read_escaped s rest : read_label (escape_label s ++ QUOTE :: rest) = Some (s, rest).
Proof.
  induction s as [|b s IH]; [done|]. rewrite escape_label_cons, <- app_assoc. unfold escape_char.
  case_bool_decide as E1; [subst b; cbn; by rewrite IH|].
  case_bool_decide as E2; [subst b; cbn; by rewrite IH|]. case_bool_decide as E3; [subst b; cbn; by rewrite IH|].
  cbn [app read_label]. rewrite !bool_decide_false by done. by rewrite IH.
Qed.

(** Every sample of the exposition names its machine: reading its quoted
    label gives back exactly the machine's id, whatever bytes the id has, and
    what follows the label is the sample's value and the end of the line. *)
Lemma sample_names_its_machine name value a :
  exists before, sample_line name value a = before ++ QUOTE :: escape_label (sm_machine_id a) ++ QUOTE :: lit "} " ++ dec (value a) ++ [LF] /\
  read_label (escape_label (sm_machine_id a) ++ QUOTE :: lit "} " ++ dec (value a) ++ [LF])
  = Some (sm_machine_id a, lit "} " ++ dec (value a) ++ [LF]).
Proof.
  exists (name ++ lit "{machine_id="). split; [|apply read_escaped].
  unfold sample_line, line. rewrite <- !app_assoc. cbn [app]. rewrite <- !app_assoc. cbn [app]. by rewrite <- ?app_assoc.
Qed.
