(* ===== verification/HubConn.v ===== *)
(** * HubConn: the life of one agent's connection on the hub
    ([handle_connection] in [hub/src/agent_link.rs])

    The hello, then two tasks: the reader, whose turns are [Link.reader_turn],
    and the writer, which drains the link's queue.  Both wait on the link's
    [Notify] as well; [notify_waiters] is how a newer connection evicts this
    one and how the teardown stops the writer.  Each waits on a [notified]
    made afresh in every turn of its loop, so what a step does depends on
    which notifications came after that. *)

From Stdlib Require Import Strings.Byte.
From stdpp Require Import prelude strings list gmap.
From S2P Require Import Prelude Tokio Prio Frame Link.

(** ** The hello *)

Inductive HelloError := HelloTimeout | ReadHello (e : FrameError) | EofBeforeHello | FirstNotHello | HelloJson
| VersionMismatch (v : Z).

(** What [reader.recv()] returns: a frame with its size, the end, an error. *)
Abbreviation Recv := (FrameError + option (Frame * Z))%type.

(** [version_of] is the JSON reader of the hello; [None] stands for the
    deadline.  The result is what the hello counts for in [bytes_in]. *)
Definition accept_hello (version_of : list byte -> option Z) (first : option Recv) : HelloError + Z :=
  match first with
  | None => inl HelloTimeout
  | Some (inl e) => inl (ReadHello e)
  | Some (inr None) => inl EofBeforeHello
  | Some (inr (Some (f, n))) =>
      match stream_id f, body f with
      | 0, Bd.Hello b =>
          match version_of b with
          | Some v => if negb (v =? HELLO_VERSION) then inl (VersionMismatch v) else inr n
          | None => inl HelloJson
          end
      | _, _ => inl FirstNotHello
      end
  end.

(** ** The two tasks *)

(** How many times [notify_waiters] was called; a [notified] is made at some
    count and ready once the count is past it.  A task that has not made the
    one of its next turn yet makes it when it is polled. *)
Abbreviation Notify := nat.
Definition made_at (made : option nat) (n : Notify) : nat := default n made.
Definition ready (made : option nat) (n : Notify) : bool := bool_decide (made_at made n < n)%nat.

(** Why the reader ended. *)
Inductive ReadEnd := Eof | ReadFailed (e : FrameError) | IdleTimeout | Evicted | ProtocolError (why : list byte).

(** The reader selects on its [notified] and a frame, or waits for room to
    answer a ping, or is done; the writer selects, or is in [send], or closes
    the transport, or is gone. *)
Inductive ReaderTask := RSelect (made : option nat) | RPong (p : list byte) | RDone (r : ReadEnd).
Inductive WriterTask := WSelect (made : option nat) | WSending (bytes : list byte) | WClosing | WClosed.
Definition closes (w : WriterTask) : Prop := match w with WClosing | WClosed => True | _ => False end.

(** What a poll of [reader.recv()] under its deadline gives. *)
Inductive RecvOutcome := NoFrame | Timeout | Received (r : Recv).

Section Conn.
Context {WCh Sem BCh : Type} `{MpscLaws (Z * list byte) WCh} `{Semaphore Sem} `{Mpsc Body BCh}.

Record AgentConn := mk_aconn {
  alink : AgentLink WCh Sem BCh;
  notify : Notify;
  reader : ReaderTask;
  wtask : WriterTask;
  sent : list (list byte);   (** what the transport was given *)
}.

(** The connection once the hello was accepted. *)
Definition start_conn (hello_bytes_in : Z) : AgentConn := mk_aconn (new_link hello_bytes_in) 0 (RSelect None) (WSelect None) [].

(** [notify_waiters] *)
Definition notify_waiters (c : AgentConn) : AgentConn := mk_aconn (alink c) (S (notify c)) (reader c) (wtask c) (sent c).

(** One poll of the reader's [select!], and the turn a frame gives it. *)
Definition reader_poll (r : RecvOutcome) (c : AgentConn) : AgentConn :=
  match reader c with
  | RSelect made =>
      let finish e := mk_aconn (alink c) (notify c) (RDone e) (wtask c) (sent c) in
      if ready made (notify c) then finish Evicted
      else
        match r with
        | NoFrame => mk_aconn (alink c) (notify c) (RSelect (Some (made_at made (notify c)))) (wtask c) (sent c)
        | Timeout => finish IdleTimeout
        | Received (inr None) => finish Eof
        | Received (inl e) => finish (ReadFailed e)
        | Received (inr (Some (f, n))) =>
            let '(l, t) := reader_turn f n (alink c) in
            mk_aconn l (notify c)
              (match t with
               | Next => RSelect None
               | AwaitWriter => match body f with Bd.Ping p => RPong p | _ => RSelect None end
               | Bail why => RDone (ProtocolError why)
               end) (wtask c) (sent c)
        end
  | _ => c
  end.

(** The wait for room is polled again. *)
Definition pong_poll (c : AgentConn) : AgentConn :=
  match reader c with
  | RPong p =>
      let '(l, r) := send_frame (pong p) (alink c) in
      mk_aconn l (notify c) (match r with Sending => RPong p | _ => RSelect None end) (wtask c) (sent c)
  | _ => c
  end.

(** One poll of the writer's [select!]; what it takes from the queue it starts
    to send. *)
Definition writer_poll (c : AgentConn) : AgentConn :=
  match wtask c with
  | WSelect made =>
      if ready made (notify c) then mk_aconn (alink c) (notify c) (reader c) WClosing (sent c)
      else
        let '(q, r) := prio_recv bytes_recv (writer (alink c)) in
        mk_aconn (set_writer q (alink c)) (notify c) (reader c)
          (match r with Got b => WSending b | Waiting => WSelect (Some (made_at made (notify c))) | GotNone => WClosing end) (sent c)
  | _ => c
  end.

(** The end of [writer.send]. *)
Definition send_done (ok : bool) (c : AgentConn) : AgentConn :=
  match wtask c with
  | WSending b =>
      mk_aconn (alink c) (notify c) (reader c) (if ok then WSelect None else WClosing)
        (if ok then sent c ++ [b] else sent c)
  | _ => c
  end.

(** The end of [writer.close()], and of the task: its receiver is dropped. *)
Definition close_done (c : AgentConn) : AgentConn :=
  match wtask c with
  | WClosing =>
      let q := writer (alink c) in
      mk_aconn (set_writer (mk_prio (bytes_drop_rx (hi q)) (bytes_drop_rx (lo q)) (hi_closed q) (lo_closed q)) (alink c))
        (notify c) (reader c) WClosed (sent c)
  | _ => c
  end.

(** The teardown, once the reader is done: the streams are cleared and the
    writer notified; then the connection waits for the writer. *)
Definition conn_teardown (c : AgentConn) : AgentConn :=
  match reader c with
  | RDone _ => notify_waiters (mk_aconn (clear_streams (alink c)) (notify c) (reader c) (wtask c) (sent c))
  | _ => c
  end.

(** Everything that happens to a connection; [CLink] is what browsers and
    requests do to the link meanwhile. *)
Inductive AgentConnEvent :=
| CNotify
| CReader (r : RecvOutcome)
| CPong
| CWriter
| CSent (ok : bool)
| CClosed
| CTeardown
| CLink (f : AgentLink WCh Sem BCh -> AgentLink WCh Sem BCh).
Definition agent_conn_step (c : AgentConn) (e : AgentConnEvent) : AgentConn :=
  match e with
  | CNotify => notify_waiters c
  | CReader r => reader_poll r c
  | CPong => pong_poll c
  | CWriter => writer_poll c
  | CSent ok => send_done ok c
  | CClosed => close_done c
  | CTeardown => conn_teardown c
  | CLink f => mk_aconn (f (alink c)) (notify c) (reader c) (wtask c) (sent c)
  end.
Definition agent_conn_run (c : AgentConn) (es : list AgentConnEvent) : AgentConn := foldl agent_conn_step c es.

(** ** Properties *)

(** A connection is registered if and only if its first frame comes in time
    and is a hello on stream 0 whose version is the hub's; the hello's bytes
    then count for the link, and every other first frame ends the connection
    before anything is registered. *)
Lemma hello_gate version_of first n :
  accept_hello version_of first = inr n <->
  exists b, first = Some (inr (Some (mk_frame 0 (Bd.Hello b), n))) /\ version_of b = Some HELLO_VERSION.
Proof.
  split.
  - unfold accept_hello. destruct first as [[e|[[[sid b] m]|]]|]; try done. cbn [stream_id body].
    destruct sid; [|done..]. destruct b; try done. destruct (version_of bytes) as [v|] eqn:V; [|done].
    destruct (Z.eqb_spec v HELLO_VERSION) as [->|]; [|done]. intros [= ->]. eauto.
  - intros (b & -> & V). cbn. by rewrite V.
Qed.

Lemma run_cons c e es : agent_conn_run c (e :: es) = agent_conn_run (agent_conn_step c e) es.
Proof. done. Qed.

(** The writer is done, or waits on a [notified] that is ready. *)
Definition writer_stops (c : AgentConn) : Prop :=
  match wtask c with WClosing | WClosed => True | WSelect (Some m) => (m < notify c)%nat | _ => False end.
Definition reader_stops (c : AgentConn) : Prop :=
  match reader c with RDone _ => True | RSelect (Some m) => (m < notify c)%nat | _ => False end.

Lemma ready_some m (n : Notify) : (m < n)%nat -> ready (Some m) n = true.
Proof. intros. by apply bool_decide_eq_true. Qed.

Lemma writer_stops_step c e : writer_stops c -> writer_stops (agent_conn_step c e) /\ sent (agent_conn_step c e) = sent c /\
  (e = CWriter -> closes (wtask (agent_conn_step c e))) /\ (closes (wtask c) -> closes (wtask (agent_conn_step c e))).
Proof.
  intros K. unfold writer_stops in *. destruct e as [|r| | |ok| | |f]; cbn [agent_conn_step].
  - cbn. destruct (wtask c) as [[m|]| | |]; try done. split_and!; try done. lia.
  - unfold reader_poll. destruct (reader c) as [made| |]; try done. destruct (ready made _); [done|].
    destruct r as [| |[x|[[f n]|]]]; try done. destruct (reader_turn f n (alink c)) as [l t]. done.
  - unfold pong_poll. destruct (reader c); try done. destruct (send_frame _ _) as [l r]. done.
  - unfold writer_poll. destruct (wtask c) as [[m|]| | |] eqn:Ew; try done; [|by rewrite Ew..]. rewrite ready_some by done. done.
  - unfold send_done. destruct (wtask c) eqn:Ew; try done; by rewrite Ew.
  - unfold close_done. destruct (wtask c) as [[m|]| | |] eqn:Ew; try done; by rewrite Ew.
  - unfold conn_teardown. destruct (reader c); try done. cbn. destruct (wtask c) as [[m|]| | |]; try done. split_and!; try done. lia.
  - done.
Qed.

Lemma reader_stops_step c e : reader_stops c -> reader_stops (agent_conn_step c e) /\
  (forall r, e = CReader r -> exists why, reader (agent_conn_step c e) = RDone why) /\
  (forall why, reader c = RDone why -> reader (agent_conn_step c e) = RDone why).
Proof.
  intros K. unfold reader_stops in *. destruct e as [|r| | |ok| | |f]; cbn [agent_conn_step].
  - cbn. destruct (reader c) as [[m|]| |]; try done. split_and!; try done. lia.
  - unfold reader_poll. destruct (reader c) as [[m|]| |why] eqn:Er; try done.
    + rewrite ready_some by done. cbn. split_and!; try done. eauto.
    + rewrite Er. split_and!; try done. eauto.
  - unfold pong_poll. destruct (reader c) eqn:Er; try done; by rewrite Er.
  - unfold writer_poll. destruct (wtask c) as [made| | |]; try done. destruct (ready made _); [done|].
    destruct (prio_recv _ _) as [q r]. done.
  - unfold send_done. destruct (wtask c); done.
  - unfold close_done. destruct (wtask c); done.
  - unfold conn_teardown. destruct (reader c) as [[m|]| |] eqn:Er; try done; by rewrite Er.
  - done.
Qed.

Lemma stops_run c es : writer_stops c -> reader_stops c ->
  let c' := agent_conn_run c es in
  sent c' = sent c /\ (closes (wtask c) \/ CWriter ∈ es -> closes (wtask c')) /\
  ((exists why, reader c = RDone why) \/ (exists r, CReader r ∈ es) -> exists why, reader c' = RDone why).
Proof.
  cbn zeta. revert c. induction es as [|e es IH]; intros c W R.
  - cbn. split_and!; [done|intros [?|?]; [done|set_solver]|intros [?|[r ?]]; [done|set_solver]].
  - rewrite run_cons. destruct (writer_stops_step c e W) as (W1 & W2 & W3 & W4). destruct (reader_stops_step c e R) as (R1 & R2 & R3).
    destruct (IH _ W1 R1) as (I1 & I2 & I3). split_and!; [congruence|..].
    + intros [Hc|[<-|Hin]%elem_of_cons]; apply I2; [left; by apply W4|left; by apply W3|by right].
    + intros [[why Hw]|[r [<-|Hin]%elem_of_cons]]; apply I3; [left; exists why; by apply R3|left; by apply (R2 r)|right; by exists r].
Qed.

(** [C39] A newer connection of the same agent ends this one: if both tasks are
    waiting when they are notified, then whatever follows, not one more frame
    is given to the transport, from the writer's next poll on the writer closes it and the
    reader's next poll ends the reader.  A notification that comes while the
    writer is in the middle of a send is lost: when the send ends the writer
    waits for a notification after that one. *)
Theorem eviction_stops_both c es mr mw :
  reader c = RSelect (Some mr) -> wtask c = WSelect (Some mw) -> (mr <= notify c)%nat -> (mw <= notify c)%nat ->
  let c' := agent_conn_run (notify_waiters c) es in
  sent c' = sent c /\ (CWriter ∈ es -> closes (wtask c')) /\
  ((exists r, CReader r ∈ es) -> exists why, reader c' = RDone why) /\
  forall b, let busy := mk_aconn (alink c) (notify c) (reader c) (WSending b) (sent c) in
    wtask (agent_conn_run (notify_waiters busy) [CSent true]) = WSelect None /\
    ready None (notify (agent_conn_run (notify_waiters busy) [CSent true])) = false.
Proof.
  intros Er Ew Hr Hw. cbn zeta.
  destruct (stops_run (notify_waiters c) es) as (S1 & S2 & S3);
    [unfold writer_stops; cbn; rewrite Ew; lia|unfold reader_stops; cbn; rewrite Er; lia|].
  split_and!; [done|intros; apply S2; by right|intros; apply S3; by right|]. intros b. split; [done|].
  unfold ready, made_at. cbn. by apply bool_decide_eq_false, Nat.lt_irrefl.
Qed.
End Conn.

(** ** Witnesses *)

Abbreviation ToyConn := (AgentConn (WCh:=ChanView (Z * list byte)) (Sem:=Z) (BCh:=ChanView Body)).

Lemma eviction_stops_both_witness :
  let c : ToyConn := agent_conn_run (start_conn 20) [CReader NoFrame; CWriter] in
  let c' := agent_conn_run (notify_waiters c) [CLink (fun l => (send_frame (ping []) l).1); CReader NoFrame; CWriter; CWriter] in
  sent c' = [] /\ closes (wtask c') /\ exists why, reader c' = RDone why.
Proof.
  cbn zeta. set (c := agent_conn_run (start_conn 20) [CReader NoFrame; CWriter] : ToyConn).
  pose proof (eviction_stops_both c [CLink (fun l => (send_frame (ping []) l).1); CReader NoFrame; CWriter; CWriter] 0 0
    ltac:(vm_compute; reflexivity) ltac:(vm_compute; reflexivity) ltac:(vm_compute; constructor) ltac:(vm_compute; constructor)) as W.
  cbn zeta in W. destruct W as (W1 & W2 & W3 & _). split_and!.
  - rewrite W1. vm_compute. reflexivity.
  - apply W2. do 2 apply list_elem_of_further. apply list_elem_of_here.
  - apply W3. exists NoFrame. apply list_elem_of_further, list_elem_of_here.
Defined.

(** The teardown can wait for ever: the writer was in a send when the reader
    ended, so it misses the notification, and its own link keeps a sender of
    the queue it then waits on. *)
Lemma teardown_can_wait_forever n :
  let c : ToyConn := mk_aconn (new_link 20) 0 (RDone Eof) (WSending (lit "x")) [] in
  ~ closes (wtask (agent_conn_run c ([CTeardown; CSent true] ++ replicate n CWriter))).
Proof.
  cbn zeta. unfold agent_conn_run. rewrite foldl_app.
  set (d := foldl _ _ [CTeardown; CSent true]).
  assert (F : forall k, foldl agent_conn_step (agent_conn_step d CWriter) (replicate k CWriter) = agent_conn_step d CWriter).
  { induction k as [|k IH]; [done|]. cbn [replicate foldl].
    replace (agent_conn_step (agent_conn_step d CWriter) CWriter) with (agent_conn_step d CWriter) by (vm_compute; reflexivity).
    exact IH. }
  destruct n as [|n]; [vm_compute; tauto|]. cbn [replicate foldl]. rewrite F. vm_compute. tauto.
Qed.
