(* ===== verification/AgentRun.v ===== *)
(** * AgentRun: the life of one connection on the agent ([run_session] in
    [agent/src/main.rs])

    Four kinds of tasks share a connection: the reader, whose turns are
    [Agent.agent_turn], the pinger, the writer, which drains the queue into the
    transport, and the tasks the reader spawned.  The writer ends when the last
    sender of its queue is gone: the reader's own, the pinger's and one per
    spawned task.  Every step happens at an instant; [pinged] and [heard] are
    ghosts. *)

From Stdlib Require Import Strings.Byte.
From stdpp Require Import prelude strings list gmap.
From S2P Require Import Prelude Tokio Timers Prio Frame Manager Link HubConn Agent.

Definition PING_INTERVAL : Z := 30 * SECOND.
Definition IDLE_DEADLINE : Z := 90 * SECOND.

(** Why the reader ended: [read_result]. *)
Inductive AgentReadEnd := AEof | AReadFailed (e : FrameError) | AIdleTimeout | AProtocol (why : list byte).

(** The reader waits for a frame under a deadline made at [since], or for room
    to answer a ping, or has ended. *)
Inductive AgentReader := AReading (since : Z) | APonging (p : list byte) | AEnded (r : AgentReadEnd).
(** The pinger waits for its tick, or for room, or is gone. *)
Inductive Pinger := PWaiting (k : Ticker) | PSending (k : Ticker) | PStopped.
(** The writer waits for a message, or is in [send], or closes the transport,
    or is gone. *)
Inductive AgentWriter := AWReceiving | AWSending (bytes : list byte) | AWClosing | AWClosed.

Section Run.
Context {WCh Sem BCh : Type} `{MpscLaws (Z * list byte) WCh} `{Semaphore Sem} `{Mpsc Body BCh}.

Record AgentRun := mk_run {
  aconn : Conn WCh Sem BCh;
  aread : AgentReader;
  aping : Pinger;
  awrite : AgentWriter;
  own_sender : bool;          (** [write_tx] *)
  ended_tasks : nat;          (** of the spawned ones *)
  given : list (list byte);   (** what the transport took *)
  pinged : list Z;            (** when a ping was queued *)
  heard : list Z;             (** when a frame was read *)
}.

Definition with_conn (c : Conn WCh Sem BCh) (r : AgentRun) : AgentRun :=
  mk_run c (aread r) (aping r) (awrite r) (own_sender r) (ended_tasks r) (given r) (pinged r) (heard r).
Definition with_read (a : AgentReader) (r : AgentRun) : AgentRun :=
  mk_run (aconn r) a (aping r) (awrite r) (own_sender r) (ended_tasks r) (given r) (pinged r) (heard r).
Definition with_ping (p : Pinger) (r : AgentRun) : AgentRun :=
  mk_run (aconn r) (aread r) p (awrite r) (own_sender r) (ended_tasks r) (given r) (pinged r) (heard r).
Definition with_write (w : AgentWriter) (r : AgentRun) : AgentRun :=
  mk_run (aconn r) (aread r) (aping r) w (own_sender r) (ended_tasks r) (given r) (pinged r) (heard r).
Definition both_halves (f : Bytes WCh Sem -> Bytes WCh Sem) (c : Conn WCh Sem BCh) : Conn WCh Sem BCh :=
  let q := cwriter c in set_cwriter (mk_prio (f (hi q)) (f (lo q)) (hi_closed q) (lo_closed q)) c.

(** The spawned tasks that still run, each with a clone of the sender. *)
Definition running_tasks (r : AgentRun) : nat := (length (spawned (aconn r)) - ended_tasks r)%nat.
Definition all_gone (r : AgentRun) : bool :=
  match own_sender r, aping r, running_tasks r with false, PStopped, O => true | _, _, _ => false end.
(** When the last sender goes the queue closes. *)
Definition release_senders (r : AgentRun) : AgentRun :=
  if all_gone r then with_conn (both_halves bytes_drop_tx (aconn r)) r else r.

(** The connection from the hello on; the pinger has not been polled. *)
Definition start_run (json : list byte) (t : Z) : AgentRun :=
  mk_run (send_hello json new_conn).1 (AReading t) (PWaiting (mk_ticker PING_INTERVAL Burst None)) AWReceiving true 0 [] [] [].

(** A poll of the reader; [fut] is what [reader.recv()] gives, if anything. *)
Definition agent_read (t : Z) (fut : option Recv) (r : AgentRun) : AgentRun :=
  match aread r with
  | AReading since =>
      match timeout_poll IDLE_DEADLINE since t fut with
      | NotYet => r
      | TimedOut => with_read (AEnded AIdleTimeout) r
      | InTime (inl e) => with_read (AEnded (AReadFailed e)) r
      | InTime (inr None) => with_read (AEnded AEof) r
      | InTime (inr (Some (f, _))) =>
          let '(c, turn) := agent_turn f (aconn r) in
          mk_run c
            (match turn with
             | TNext => AReading t
             | TAwaitWriter => match body f with Bd.Ping p => APonging p | _ => AReading t end
             | TBail why => AEnded (AProtocol why)
             end) (aping r) (awrite r) (own_sender r) (ended_tasks r) (given r) (pinged r) (t :: heard r)
      end
  | _ => r
  end.

(** The wait for room is polled again. *)
Definition agent_pong (t : Z) (r : AgentRun) : AgentRun :=
  match aread r with
  | APonging p =>
      let '(w, s) := send_frame_to_hub (pong p) (cwriter (aconn r)) in
      with_read (match s with Sending => APonging p | _ => AReading t end) (with_conn (set_cwriter w (aconn r)) r)
  | _ => r
  end.

(** The pinger sends. *)
Definition ping_now (t : Z) (k : Ticker) (r : AgentRun) : AgentRun :=
  let '(c, s) := send_ping (aconn r) in
  let r := with_conn c r in
  match s with
  | SendOk => mk_run (aconn r) (aread r) (PWaiting k) (awrite r) (own_sender r) (ended_tasks r) (given r) (t :: pinged r) (heard r)
  | Sending => with_ping (PSending k) r
  | SendErr _ => release_senders (with_ping PStopped r)
  end.
(** A poll of the pinger. *)
Definition agent_ping (t : Z) (r : AgentRun) : AgentRun :=
  match aping r with
  | PWaiting k => let '(k, ticks) := tick_poll t k in if ticks then ping_now t k r else with_ping (PWaiting k) r
  | PSending k => ping_now t k r
  | PStopped => r
  end.

(** A poll of the writer. *)
Definition agent_write (r : AgentRun) : AgentRun :=
  match awrite r with
  | AWReceiving =>
      let '(q, m) := prio_recv bytes_recv (cwriter (aconn r)) in
      with_write (match m with Got b => AWSending b | Waiting => AWReceiving | GotNone => AWClosing end)
        (with_conn (set_cwriter q (aconn r)) r)
  | _ => r
  end.
(** The end of [writer.send]. *)
Definition agent_sent (ok : bool) (r : AgentRun) : AgentRun :=
  match awrite r with
  | AWSending b =>
      if ok then mk_run (aconn r) (aread r) (aping r) AWReceiving (own_sender r) (ended_tasks r) (given r ++ [b]) (pinged r) (heard r)
      else with_write AWClosing r
  | _ => r
  end.
(** The end of [writer.close()] and of the task. *)
Definition agent_closed (r : AgentRun) : AgentRun :=
  match awrite r with
  | AWClosing => with_write AWClosed (with_conn (both_halves bytes_drop_rx (aconn r)) r)
  | _ => r
  end.

(** A spawned task sends a frame, or ends. *)
Definition task_sends (f : Frame) (r : AgentRun) : AgentRun :=
  match running_tasks r with
  | O => r
  | S _ => with_conn (set_cwriter (send_frame_to_hub f (cwriter (aconn r))).1 (aconn r)) r
  end.
Definition task_ends (r : AgentRun) : AgentRun :=
  match running_tasks r with
  | O => r
  | S _ =>
      release_senders (mk_run (aconn r) (aread r) (aping r) (awrite r) (own_sender r) (S (ended_tasks r)) (given r) (pinged r) (heard r))
  end.

(** Once the reader has ended: the streams are cleared, the pinger aborted and
    the sender dropped; then the connection waits for the writer. *)
Definition run_teardown (r : AgentRun) : AgentRun :=
  match aread r, own_sender r with
  | AEnded _, true =>
      release_senders (mk_run (clear_cstreams (aconn r)) (aread r) PStopped (awrite r) false (ended_tasks r) (given r) (pinged r) (heard r))
  | _, _ => r
  end.
(** What [run_session] returns, and when. *)
Definition run_result (r : AgentRun) : option (AgentReadEnd + unit) :=
  match own_sender r, aread r, awrite r with
  | false, AEnded AEof, AWClosed => Some (inr tt)
  | false, AEnded e, AWClosed => Some (inl e)
  | _, _, _ => None
  end.

Inductive RunEvent :=
| RvRead (fut : option Recv)
| RvPong
| RvPing
| RvWrite
| RvSent (ok : bool)
| RvClosed
| RvTask (f : Frame)
| RvTaskEnd
| RvTeardown
| RvStreams (f : Conn WCh Sem BCh -> Conn WCh Sem BCh).   (** a stream's task at its channel *)

Definition run_step (t : Z) (e : RunEvent) (r : AgentRun) : AgentRun :=
  match e with
  | RvRead fut => agent_read t fut r
  | RvPong => agent_pong t r
  | RvPing => agent_ping t r
  | RvWrite => agent_write r
  | RvSent ok => agent_sent ok r
  | RvClosed => agent_closed r
  | RvTask f => task_sends f r
  | RvTaskEnd => task_ends r
  | RvTeardown => run_teardown r
  | RvStreams f => with_conn (f (aconn r)) r
  end.
Definition agent_run (es : list (Z * RunEvent)) (r : AgentRun) : AgentRun := foldl (fun r te => run_step te.1 te.2 r) r es.

(** ** The end of a connection *)

Lemma agent_run_cons t e es r : agent_run ((t, e) :: es) r = agent_run es (run_step t e r).
Proof. done. Qed.
Lemma agent_run_app es es' r : agent_run (es ++ es') r = agent_run es' (agent_run es r).
Proof. apply foldl_app. Qed.

Lemma release_keeps r :
  aread (release_senders r) = aread r /\ aping (release_senders r) = aping r /\ awrite (release_senders r) = awrite r /\
  own_sender (release_senders r) = own_sender r /\ given (release_senders r) = given r /\
  pinged (release_senders r) = pinged r /\ heard (release_senders r) = heard r.
Proof. unfold release_senders. by repeat case_match. Qed.
Lemma release_own r : own_sender r = true -> release_senders r = r.
Proof. unfold release_senders, all_gone. by intros ->. Qed.

Lemma ping_now_keeps t k r : awrite (ping_now t k r) = awrite r /\ own_sender (ping_now t k r) = own_sender r /\
  given (ping_now t k r) = given r /\ aread (ping_now t k r) = aread r /\ heard (ping_now t k r) = heard r.
Proof.
  unfold ping_now. destruct (send_ping (aconn r)) as [c [| |b]]; [done..|].
  by destruct (release_keeps (with_ping PStopped (with_conn c r))) as (-> & ? & -> & -> & -> & ? & ->).
Qed.

(** Only the end of a send ends a send. *)
Lemma send_ends_with_sent t e r b : awrite r = AWSending b -> (forall ok, e <> RvSent ok) -> awrite (run_step t e r) = AWSending b.
Proof.
  intros E Hn. destruct e as [fut| | | |ok| |f| | |f]; cbn [run_step].
  - unfold agent_read. destruct (aread r); try done. destruct (timeout_poll _ _ _ _) as [| |[x|[[f n]|]]]; try done.
    by destruct (agent_turn f (aconn r)) as [c [| |why]].
  - unfold agent_pong. destruct (aread r); try done. by destruct (send_frame_to_hub _ _) as [w [| |?]].
  - unfold agent_ping. destruct (aping r) as [k|k|]; try done; [destruct (tick_poll t k) as [k' []]|]; try done;
      by rewrite (proj1 (ping_now_keeps _ _ _)).
  - unfold agent_write. by rewrite E.
  - by destruct (Hn ok).
  - unfold agent_closed. by rewrite E.
  - unfold task_sends. by destruct (running_tasks r).
  - unfold task_ends. destruct (running_tasks r); [done|]. rewrite (proj1 (proj2 (proj2 (release_keeps _)))). done.
  - unfold run_teardown. destruct (aread r), (own_sender r); try done. rewrite (proj1 (proj2 (proj2 (release_keeps _)))). done.
  - done.
Qed.

(** A connection whose transport does not finish a send does not end, whatever
    else happens: neither the idle deadline nor the teardown stops the writer. *)
Lemma send_in_progress_holds es b r : awrite r = AWSending b -> (forall t ok, (t, RvSent ok) ∉ es) ->
  awrite (agent_run es r) = AWSending b /\ run_result (agent_run es r) = None.
Proof.
  revert r. induction es as [|[t e] es IH]; intros r E Hn.
  - split; [done|]. unfold run_result. cbn. rewrite E. destruct (own_sender r), (aread r) as [| |[]]; done.
  - rewrite agent_run_cons. apply IH; [|set_solver]. apply send_ends_with_sent; [done|]. intros ok ->. by destruct (Hn t ok); left.
Qed.

(** What is queued for the writer, in the order it takes it. *)
Definition to_send (r : AgentRun) : list (list byte) :=
  let q := cwriter (aconn r) in Prio.held (hi q) ++ Prio.held (lo q).
(** Nobody can queue any more. *)
Definition no_sender (r : AgentRun) : Prop :=
  let q := cwriter (aconn r) in Prio.open (hi q) = false /\ Prio.open (lo q) = false.
(** Whether a sender is left or not, the queue's two flags are right. *)
Definition flags_ok (r : AgentRun) : Prop := closed_ok bytes_recv (cwriter (aconn r)).

(** The writer's polls and sends to the end of the queue and of the task. *)
Fixpoint finish_writing (t : Z) (n : nat) : list (Z * RunEvent) :=
  match n with
  | O => [(t, RvWrite); (t, RvClosed)]
  | S k => (t, RvWrite) :: (t, RvSent true) :: finish_writing t k
  end.

Lemma write_next t r : awrite r = AWReceiving -> flags_ok r -> no_sender r ->
  let r' := run_step t RvWrite r in
  flags_ok r' /\ no_sender r' /\ own_sender r' = own_sender r /\ aread r' = aread r /\ given r' = given r /\
  match to_send r with
  | [] => awrite r' = AWClosing
  | b :: bs => awrite r' = AWSending b /\ to_send r' = bs
  end.
Proof.
  intros Ew K [Oh Ol]. cbn [run_step]. unfold agent_write. rewrite Ew. unfold to_send, flags_ok, no_sender in *.
  destruct (prio_recv_spec bytes_recv _ K) as (q & E & K' & Hq). rewrite E. pose proof (Hq Hi) as [Hh Hoh]. pose proof (Hq Lo) as [Hl Hol].
  cbn [aconn with_write with_conn aread own_sender given awrite half] in *. change (cwriter (set_cwriter q (aconn r))) with q.
  unfold held_after, recv_spec in Hh, Hl |- *. rewrite Oh, Ol in *. cbn [orb half] in *. rewrite Hh, Hl. clear E Hq Hh Hl.
  destruct (Prio.held (hi (cwriter (aconn r)))) as [|b bs], (Prio.held (lo (cwriter (aconn r)))) as [|b' bs'];
    cbn [app tail untag]; by split_and!.
Qed.

(** Once nobody can queue, the writer gives the transport what is left, the
    urgent half first, and closes it. *)
Lemma writer_finishes t r : awrite r = AWReceiving -> flags_ok r -> no_sender r ->
  let r' := agent_run (finish_writing t (length (to_send r))) r in
  awrite r' = AWClosed /\ own_sender r' = own_sender r /\ aread r' = aread r /\ given r' = given r ++ to_send r.
Proof.
  remember (length (to_send r)) as n eqn:En. revert r En. induction n as [|n IH]; intros r En Ew K Hs; cbn zeta; cbn [finish_writing].
  - rewrite 2!agent_run_cons. destruct (write_next t r Ew K Hs) as (_ & _ & Eo & Er & Eg & Ec).
    destruct (to_send r) as [|b bs]; [|done]. set (r1 := run_step t RvWrite r) in *. cbn [run_step agent_run foldl].
    unfold agent_closed. rewrite Ec. cbn. by rewrite app_nil_r.
  - rewrite 2!agent_run_cons. destruct (write_next t r Ew K Hs) as (K1 & Hs1 & Eo & Er & Eg & Ec).
    destruct (to_send r) as [|b bs]; [done|]. destruct Ec as [Ec Et]. injection En as En. set (r1 := run_step t RvWrite r) in *.
    assert (E2 : run_step t (RvSent true) r1 = mk_run (aconn r1) (aread r1) (aping r1) AWReceiving (own_sender r1) (ended_tasks r1)
      (given r1 ++ [b]) (pinged r1) (heard r1)) by (cbn [run_step]; unfold agent_sent; by rewrite Ec).
    rewrite E2. set (r2 := mk_run _ _ _ _ _ _ _ _ _).
    assert (Et2 : to_send r2 = bs) by done. destruct (IH r2) as (-> & -> & -> & ->); [by rewrite Et2|done..|].
    rewrite Et2. split_and!; try done. cbn [given r2]. rewrite Eg. by rewrite <- app_assoc.
Qed.

(** The queue is open as long as a sender is left; the sender of the connection
    itself goes with the teardown, which also stops the pinger. *)
Record run_ok (r : AgentRun) : Prop := {
  run_flags : flags_ok r;
  run_open : forall h, Prio.open (half h (cwriter (aconn r))) = negb (all_gone r);
  run_torn : own_sender r = false -> (exists e, aread r = AEnded e) /\ aping r = PStopped;
}.

Lemma send_keeps_open f (w : Prio (Bytes WCh Sem)) h : Prio.open (half h (send_frame_to_hub f w).1) = Prio.open (half h w).
Proof.
  assert (E : forall m (b : Bytes WCh Sem), Prio.open (bytes_send m b).1 = Prio.open b).
  { intros m b. unfold bytes_send. destruct (_ >? _); [done|]. destruct (sem_acquire _ _) as [s'|]; [|done].
    pose proof (view_send (as_u32 (len m), m) (tx b)) as V. cbn zeta in V. destruct (ch_send _ (tx b)) as [c r]. cbn in V |- *.
    assert (Ev : ch_tx (view c) = ch_tx (view (tx b))) by (destruct (negb _); [|destruct (has_room (view (tx b)))]; by injection V as -> ->).
    by destruct r. }
  unfold send_frame_to_hub. specialize (E (encode f)). destruct (hub_half (ty f)); cbn [half];
    [specialize (E (hi w))|specialize (E (lo w))]; destruct (bytes_send _ _) as [b r]; cbn in *; by destruct h.
Qed.
Lemma send_keeps_flags f (w : Prio (Bytes WCh Sem)) :
  hi_closed (send_frame_to_hub f w).1 = hi_closed w /\ lo_closed (send_frame_to_hub f w).1 = lo_closed w.
Proof. unfold send_frame_to_hub. destruct (hub_half (ty f)); by destruct (bytes_send _ _). Qed.

Lemma closed_ok_open (w : Prio (Bytes WCh Sem)) : (forall h, Prio.open (half h w) = true) ->
  closed_ok bytes_recv w <-> hi_closed w = false /\ lo_closed w = false.
Proof.
  intros O. pose proof (O Hi) as O1. pose proof (O Lo) as O2. cbn [half] in *. unfold closed_ok. rewrite O1, O2. split.
  - intros [K1 K2]. destruct (hi_closed w), (lo_closed w); naive_solver.
  - intros [-> ->]. done.
Qed.
(** Sending on a queue with a sender left. *)
Lemma send_keeps_ok f (w : Prio (Bytes WCh Sem)) : (forall h, Prio.open (half h w) = true) -> closed_ok bytes_recv w ->
  closed_ok bytes_recv (send_frame_to_hub f w).1.
Proof.
  intros O K. apply closed_ok_open; [intros h; by rewrite send_keeps_open|].
  destruct (send_keeps_flags f w) as [-> ->]. by apply closed_ok_open.
Qed.

(** A sender goes, perhaps the last. *)
Lemma release_ok r : flags_ok r -> (forall h, Prio.open (half h (cwriter (aconn r))) = true) ->
  (own_sender r = false -> (exists e, aread r = AEnded e) /\ aping r = PStopped) -> run_ok (release_senders r).
Proof.
  intros K O T. unfold release_senders. destruct (all_gone r) eqn:E.
  - split; [|intros h|done].
    + destruct (proj1 (closed_ok_open _ O) K) as [E1 E2]. unfold flags_ok, closed_ok. cbn. by rewrite E1, E2.
    + unfold all_gone in *. cbn. unfold running_tasks in *. cbn. rewrite E. cbn. destruct h; cbn; by rewrite view_drop_tx.
  - split; [done| |done]. intros h. by rewrite O, E.
Qed.

(** A turn of the reader only ever sends a pong. *)
Lemma turn_keeps_writer f (c : Conn WCh Sem BCh) :
  cwriter (agent_turn f c).1 = cwriter c \/ exists p, cwriter (agent_turn f c).1 = (send_frame_to_hub (pong p) (cwriter c)).1.
Proof.
  assert (U : forall sid (d : Conn WCh Sem BCh), cwriter (unregister sid d) = cwriter d) by (intros; unfold unregister; by case_match).
  unfold agent_turn. destruct (stream_id f =? 0).
  - destruct (body f); try (by left). right.
    match goal with |- context [pong ?p] => exists p; by destruct (send_frame_to_hub (pong p) (cwriter c)) end.
  - assert (R : forall b, cwriter (route_body (stream_id f) b c) = cwriter c).
    { intros b. unfold route_body. destruct (cstreams c !! stream_id f) as [r|]; [|done]. destruct (schans c !! r); [|done].
      destruct (ch_send _ _) as [x []]; by rewrite ?U. }
    left. destruct (body f); cbn [fst]; try apply R. unfold open_session_stream. cbn. apply U.
Qed.

(** What a step may do to the fields the invariant speaks of while the
    connection still holds its own sender. *)
Lemma run_ok_sender r c a p :
  flags_ok r -> (forall h, Prio.open (half h (cwriter (aconn r))) = true) -> own_sender r = true ->
  (cwriter c = cwriter (aconn r) \/ exists f, cwriter c = (send_frame_to_hub f (cwriter (aconn r))).1) ->
  forall w n g l l', run_ok (mk_run c a p w true n g l l').
Proof.
  intros K O Eo Hc w n g l l'.
  assert (O' : forall h, Prio.open (half h (cwriter c)) = true) by (intros h; destruct Hc as [->|[f ->]]; by rewrite ?send_keeps_open).
  split; [|intros h; by rewrite O'|done].
  unfold flags_ok. cbn. destruct Hc as [->|[f ->]]; [done|by apply send_keeps_ok].
Qed.

(** The tasks of the streams leave the writer's queue to the frames they send. *)
Definition streams_only (e : RunEvent) : Prop :=
  match e with RvStreams f => forall c, cwriter (f c) = cwriter c /\ spawned (f c) = spawned c | _ => True end.

Lemma run_ok_step t e r : streams_only e -> run_ok r -> run_ok (run_step t e r).
Proof.
  intros Hs K. pose proof K as [Kf Ko Kt].
  assert (Open : all_gone r = false -> forall h, Prio.open (half h (cwriter (aconn r))) = true) by (intros E h; by rewrite Ko, E).
  assert (Own : own_sender r = false \/ own_sender r = true /\ forall h, Prio.open (half h (cwriter (aconn r))) = true).
  { destruct (own_sender r) eqn:E; [right|by left]. split; [done|]. apply Open. unfold all_gone. by rewrite E. }
  destruct e as [fut| | | |ok| |f| | |f]; cbn [run_step streams_only] in *.
  - unfold agent_read. destruct (aread r) as [since| |] eqn:Ea; [|done..]. destruct Own as [E|[E O]]; [by destruct (Kt E) as [[? ?] _]|].
    assert (End : forall x, run_ok (with_read (AEnded x) r)) by (intros; split; [done|done|cbn; congruence]).
    destruct (timeout_poll _ _ _ _) as [| |[x|[[f n]|]]]; try done.
    pose proof (turn_keeps_writer f (aconn r)) as Hc. destruct (agent_turn f (aconn r)) as [c turn]. cbn [fst] in Hc. rewrite E.
    apply run_ok_sender with (r := r); [done..|]. destruct Hc as [?|[p ?]]; eauto.
  - unfold agent_pong. destruct (aread r) as [|p|] eqn:Ea; [done| |done]. destruct Own as [E|[E O]]; [by destruct (Kt E) as [[? ?] _]|].
    destruct (send_frame_to_hub (pong p) (cwriter (aconn r))) as [w s] eqn:Es. unfold with_read, with_conn. cbn. rewrite E.
    apply run_ok_sender with (r := r); [done..|]. right. exists (pong p). by rewrite Es.
  - assert (P : forall k, aping r <> PStopped -> run_ok (ping_now t k r)).
    { intros k Hp. destruct Own as [E|[E O]]; [by destruct Hp; apply Kt|]. unfold ping_now, send_ping.
      destruct (send_frame_to_hub (ping []) (cwriter (aconn r))) as [w s] eqn:Es. unfold with_ping, with_conn.
      assert (Q : forall a p x n g l l', run_ok (mk_run (set_cwriter w (aconn r)) a p x true n g l l')).
      { intros. apply run_ok_sender with (r := r); [done..|]. right. exists (ping []). by rewrite Es. }
      destruct s; [| |rewrite release_own by done]; cbn; rewrite E; apply Q. }
    unfold agent_ping. destruct (aping r) as [k|k|] eqn:Ep; [|by apply P|done]. destruct (tick_poll t k) as [k' []]; [by apply P|].
    split; [done| |cbn; intros E; by destruct (Kt E)].
    intros h. transitivity (negb (all_gone r)); [apply Ko|]. unfold all_gone. cbn. by rewrite Ep.
  - unfold agent_write. destruct (awrite r); [|done..].
    destruct (prio_recv_spec bytes_recv _ Kf) as (q & E & K' & Hq). rewrite E. split; [done| |done].
    intros h. etrans; [apply (Hq h)|apply Ko].
  - unfold agent_sent. destruct (awrite r); [done| |done..]. by destruct ok.
  - unfold agent_closed. destruct (awrite r); [done..| |done]. destruct Kf as [K1 K2]. split; [|intros h; specialize (Ko h); by destruct h; cbn in *; rewrite view_drop_rx|done].
    split; cbn; intros X; [apply K1 in X|apply K2 in X]; destruct X as [X Y]; cbn in *; by rewrite view_drop_rx.
  - unfold task_sends. destruct (running_tasks r) eqn:En; [done|].
    assert (G : all_gone r = false) by (unfold all_gone; rewrite En; by destruct (own_sender r), (aping r)).
    split; [by apply send_keeps_ok; [apply Open|]|intros h; exact (eq_trans (send_keeps_open f _ h) (Ko h))|done].
  - unfold task_ends. destruct (running_tasks r) eqn:En; [done|].
    assert (G : all_gone r = false) by (unfold all_gone; rewrite En; by destruct (own_sender r), (aping r)).
    apply release_ok; [done|by apply Open|done].
  - unfold run_teardown. destruct (aread r) as [| |x] eqn:Ea; [done..|]. destruct (own_sender r) eqn:Eo; [|done].
    destruct Own as [?|[_ O]]; [done|]. apply release_ok; [done|done|cbn; eauto].
  - destruct (Hs (aconn r)) as [Hw Hsp]. split; [unfold flags_ok; cbn; by rewrite Hw| |done].
    intros h. transitivity (negb (all_gone r)); [rewrite <- (Ko h); cbn; by rewrite Hw|]. unfold all_gone, running_tasks. cbn. by rewrite Hsp.
Qed.

Lemma start_run_ok json t : run_ok (start_run json t).
Proof.
  pose proof (send_keeps_open (hello json) (prio_channel WRITE_HI_BYTES WRITE_LO_BYTES)) as O.
  pose proof (send_keeps_flags (hello json) (prio_channel WRITE_HI_BYTES WRITE_LO_BYTES)) as [F1 F2].
  unfold start_run, send_hello, new_conn. cbn [cwriter]. destruct (send_frame_to_hub (hello json) _) as [w s]. cbn [fst] in *.
  assert (O' : forall h, Prio.open (half h w) = true) by (intros h; rewrite O; destruct h; cbn; by rewrite view_new).
  split; [|exact O'|done]. unfold flags_ok. cbn. apply closed_ok_open; [done|]. by rewrite F1, F2.
Qed.

Lemma run_ok_run es r : (forall t e, (t, e) ∈ es -> streams_only e) -> run_ok r -> run_ok (agent_run es r).
Proof.
  revert r. induction es as [|[t e] es IH]; intros r Hs K; [done|]. rewrite agent_run_cons. apply IH; [set_solver|].
  apply run_ok_step; [by apply (Hs t e); left|done].
Qed.

(** The end of a connection.  Once it was torn down and its tasks are gone, the
    writer's polls and sends give the transport everything that was queued,
    urgent frames first, and [run_session] returns what the reader ended
    with; only a send that does not end keeps it from that. *)
Lemma connection_ends json t0 es t : (forall t e, (t, e) ∈ es -> streams_only e) ->
  let r := agent_run es (start_run json t0) in
  own_sender r = false -> running_tasks r = O ->
  match awrite r with
  | AWReceiving =>
      let r' := agent_run (finish_writing t (length (to_send r))) r in
      given r' = given r ++ to_send r /\
      exists e, aread r = AEnded e /\ run_result r' = Some (match e with AEof => inr tt | _ => inl e end)
  | AWSending b => forall es', (forall t ok, (t, RvSent ok) ∉ es') -> run_result (agent_run es' r) = None
  | AWClosing => is_Some (run_result (run_step t RvClosed r))
  | AWClosed => is_Some (run_result r)
  end.
Proof.
  intros Hs r Eo En. pose proof (run_ok_run es _ Hs (start_run_ok json t0)) as K. fold r in K. destruct K as [Kf Ko Kt].
  destruct (Kt Eo) as [[e Ee] Ep]. destruct (awrite r) as [|b| |] eqn:Ew.
  - assert (Hn : no_sender r).
    { assert (G : all_gone r = true) by (unfold all_gone; by rewrite Eo, Ep, En). split; [specialize (Ko Hi)|specialize (Ko Lo)]; by rewrite G in Ko. }
    destruct (writer_finishes t r Ew Kf Hn) as (E1 & E2 & E3 & E4). cbn zeta. split; [done|]. exists e. split; [done|].
    unfold run_result. rewrite E1, E2, E3, Eo, Ee. by destruct e.
  - intros es' Hn. by apply (send_in_progress_holds es' b r).
  - cbn [run_step]. unfold agent_closed. rewrite Ew. unfold run_result. cbn. rewrite Eo, Ee. destruct e; eauto.
  - unfold run_result. rewrite Ew, Eo, Ee. destruct e; eauto.
Qed.
End Run.
Arguments AgentRun : clear implicits.
