(* ===== verification/KeepAlive.v ===== *)
(** * KeepAlive: pings, pongs and the two idle deadlines

    One agent ([AgentRun]) and its connection on the hub ([HubConn]) on one
    clock.  The pinger of the agent sends a ping every half minute, the hub
    answers each, and either side gives the connection up after a minute and a
    half without a frame.  What the network and the queues in between do is
    left open: [on_schedule] says how late they may be. *)

From Stdlib Require Import Strings.Byte.
From stdpp Require Import prelude strings list gmap.
From S2P Require Import Prelude Tokio Timers Prio Frame Link HubConn Agent AgentRun.

(** [IDLE_DEADLINE] in [hub/src/agent_link.rs] *)
Definition HUB_IDLE_DEADLINE : Z := 90 * SECOND.

Section Pair.
Context {WCh Sem BCh : Type} `{MpscLaws (Z * list byte) WCh} `{Semaphore Sem} `{Mpsc Body BCh}.

(** ** The hub's reader with its deadline *)

(** [waits_since] is when the current turn of the reader began; [pings] and
    [pongs] are ghosts: when a ping was read and when an answer was queued. *)
Record HubRun := mk_hub_run {
  hconn : AgentConn (WCh:=WCh) (Sem:=Sem) (BCh:=BCh);
  waits_since : Z;
  pings : list Z;
  pongs : list Z;
}.

Definition hub_outcome (t since : Z) (fut : option Recv) : RecvOutcome :=
  match timeout_poll HUB_IDLE_DEADLINE since t fut with NotYet => NoFrame | TimedOut => Timeout | InTime r => Received r end.
(** The ping a poll reads. *)
Definition ping_of (fut : option Recv) : option (list byte) :=
  match fut with
  | Some (inr (Some (f, _))) => if stream_id f =? 0 then match body f with Bd.Ping p => Some p | _ => None end else None
  | _ => None
  end.
(** Whether a pong can be queued now. *)
Definition pong_queued (p : list byte) (l : AgentLink WCh Sem BCh) : bool :=
  match (send_frame (pong p) l).2 with SendOk => true | _ => false end.
Definition log_if (b : bool) (t : Z) (l : list Z) : list Z := if b then t :: l else l.

(** A poll of the reader: a turn of the loop that read a frame makes the
    deadline anew. *)
Definition hub_read (t : Z) (fut : option Recv) (h : HubRun) : HubRun :=
  let c := hconn h in
  match reader c with
  | RSelect made =>
      let c' := reader_poll (hub_outcome t (waits_since h) fut) c in
      if ready made (notify c) then mk_hub_run c' (waits_since h) (pings h) (pongs h)
      else
        mk_hub_run c' (match fut with Some _ => t | None => waits_since h end) (log_if (bool_decide (is_Some (ping_of fut))) t (pings h))
          (log_if (match ping_of fut with Some p => pong_queued p (alink c) | None => false end) t (pongs h))
  | _ => h
  end.
(** A poll of the wait for room. *)
Definition hub_pong (t : Z) (h : HubRun) : HubRun :=
  let c := hconn h in
  match reader c with
  | RPong p =>
      let c' := pong_poll c in
      mk_hub_run c' (match reader c' with RPong _ => waits_since h | _ => t end) (pings h) (log_if (pong_queued p (alink c)) t (pongs h))
  | _ => h
  end.
Definition with_hconn (c : AgentConn) (h : HubRun) : HubRun := mk_hub_run c (waits_since h) (pings h) (pongs h).

Inductive HubEvent :=
| HvRead (fut : option Recv)
| HvPong
| HvNotify
| HvWriter
| HvSent (ok : bool)
| HvClosed
| HvTeardown
| HvLink (f : AgentLink WCh Sem BCh -> AgentLink WCh Sem BCh).

Definition hub_step (t : Z) (e : HubEvent) (h : HubRun) : HubRun :=
  match e with
  | HvRead fut => hub_read t fut h
  | HvPong => hub_pong t h
  | HvNotify => with_hconn (agent_conn_step (hconn h) CNotify) h
  | HvWriter => with_hconn (agent_conn_step (hconn h) CWriter) h
  | HvSent ok => with_hconn (agent_conn_step (hconn h) (CSent ok)) h
  | HvClosed => with_hconn (agent_conn_step (hconn h) CClosed) h
  | HvTeardown => with_hconn (agent_conn_step (hconn h) CTeardown) h
  | HvLink f => with_hconn (agent_conn_step (hconn h) (CLink f)) h
  end.

(** ** The two ends *)

Record Pair := mk_pair { agent : AgentRun WCh Sem BCh; hub : HubRun }.
Inductive PairEvent := OnAgent (e : RunEvent (WCh:=WCh) (Sem:=Sem) (BCh:=BCh)) | OnHub (e : HubEvent).
Definition pair_step (t : Z) (e : PairEvent) (p : Pair) : Pair :=
  match e with
  | OnAgent e => mk_pair (run_step t e (agent p)) (hub p)
  | OnHub e => mk_pair (agent p) (hub_step t e (hub p))
  end.
Definition pair_run (es : list (Z * PairEvent)) (p : Pair) : Pair := foldl (fun p te => pair_step te.1 te.2 p) p es.

(** ** Being on schedule *)

(** By [t] the ping of each tick that was due [lag] ago is in the queue. *)
Definition pinger_on_time (lag t : Z) (p : Pinger) : Prop :=
  match p with
  | PWaiting k => on_time lag t k
  | PSending k => on_time (lag - period k) t k
  | PStopped => False
  end.
(** Everything in [from] had an effect in [to] within [d], as far as [t] can tell. *)
Definition followed_within (d t : Z) (from to : list Z) : Prop :=
  forall x, x ∈ from -> x + d < t -> exists y, y ∈ to /\ x <= y <= x + d.

Record timely (lag delivery room t : Z) (p : Pair) : Prop := {
  pings_sent : pinger_on_time lag t (aping (agent p));
  pings_read : followed_within delivery t (pinged (agent p)) (pings (hub p));
  pongs_sent : followed_within room t (pings (hub p)) (pongs (hub p));
  pongs_read : followed_within delivery t (pongs (hub p)) (heard (agent p));
}.
(** A run whose events come in the order of their times, on schedule at each. *)
Fixpoint on_schedule (lag delivery room now : Z) (es : list (Z * PairEvent)) (p : Pair) : Prop :=
  match es with
  | [] => True
  | (t, e) :: es => now <= t /\ timely lag delivery room t p /\ on_schedule lag delivery room t es (pair_step t e p)
  end.

(** The two readers wait for their first frame, the agent's since [r0] and the
    hub's since [h0]; the first ping is due at [due0]. *)
Definition both_started (r0 h0 due0 : Z) (p : Pair) : Prop :=
  aread (agent p) = AReading r0 /\ aping (agent p) = PWaiting (mk_ticker PING_INTERVAL Burst (Some due0)) /\
  pinged (agent p) = [] /\ heard (agent p) = [] /\
  (exists made, reader (hconn (hub p)) = RSelect made) /\ waits_since (hub p) = h0 /\ pings (hub p) = [] /\ pongs (hub p) = [].
Definition timed_out (p : Pair) : Prop :=
  aread (agent p) = AEnded AIdleTimeout \/ reader (hconn (hub p)) = RDone IdleTimeout.

(** ** What a schedule keeps *)

Section Schedule.
Context (lo skew lag : Z).
Hypothesis Hskew : 0 <= skew.

(** After every instant comes a ping, or one is due. *)
Definition covered (next : Z) (sent : list Z) : Prop :=
  forall x, lo <= x -> (exists y, y ∈ sent /\ x < y <= x + PING_INTERVAL + skew + lag) \/ next <= x + PING_INTERVAL + skew.
Definition pinger_ok (now : Z) (a : AgentRun WCh Sem BCh) : Prop :=
  match aping a with
  | PWaiting k => exists next, k = mk_ticker PING_INTERVAL Burst (Some next) /\ covered next (pinged a)
  | PSending k => exists next, k = mk_ticker PING_INTERVAL Burst (Some (next + PING_INTERVAL)) /\ next <= now /\ covered next (pinged a)
  | PStopped => True
  end.

Lemma covered_next next sent t : next <= t <= next + lag -> covered next sent -> covered (next + PING_INTERVAL) (t :: sent).
Proof.
  intros Ht C x Hx. destruct (C x Hx) as [(y & Hy & ?)|Hn]; [left; exists y; split; [by right|done]|].
  destruct (Z.ltb_spec x t); [left; exists t; split; [by left|lia]|right; lia].
Qed.

(** On time, there is a ping in every window that is over. *)
Lemma ping_in_window now a x t : pinger_ok now a -> pinger_on_time lag t (aping a) -> lo <= x -> x + PING_INTERVAL + skew + lag < t ->
  exists y, y ∈ pinged a /\ x < y <= x + PING_INTERVAL + skew + lag.
Proof.
  unfold pinger_ok, pinger_on_time. destruct (aping a) as [k|k|]; [intros (n & -> & C) O|intros (n & -> & Hn & C) O|done]; intros Hx Ht.
  - destruct (C x Hx) as [|Hn]; [done|]. specialize (O n eq_refl). lia.
  - destruct (C x Hx) as [|?]; [done|]. specialize (O _ eq_refl). cbn in O. lia.
Qed.

(** Only the pinger pings. *)
Lemma other_steps_ping t e (a : AgentRun WCh Sem BCh) : e <> RvPing ->
  pinged (run_step t e a) = pinged a /\ (aping (run_step t e a) = aping a \/ aping (run_step t e a) = PStopped).
Proof.
  intros He. destruct e as [fut| | | |ok| |f| | |f]; cbn [run_step]; try done.
  - unfold agent_read. destruct (aread a); auto. destruct (timeout_poll _ _ _ _) as [| |[x|[[f n]|]]]; auto.
    destruct (agent_turn f (aconn a)) as [c [| |why]]; auto.
  - unfold agent_pong. destruct (aread a); auto. destruct (send_frame_to_hub _ _) as [w [| |?]]; auto.
  - unfold agent_write. destruct (awrite a); auto. destruct (prio_recv _ _) as [q m]. auto.
  - unfold agent_sent. destruct (awrite a), ok; auto.
  - unfold agent_closed. destruct (awrite a); auto.
  - unfold task_sends. destruct (running_tasks a); auto.
  - unfold task_ends. destruct (running_tasks a); auto.
    match goal with |- context [release_senders ?r] => destruct (release_keeps r) as (_ & -> & _ & _ & _ & -> & _) end. auto.
  - unfold run_teardown. destruct (aread a), (own_sender a); auto.
    match goal with |- context [release_senders ?r] => destruct (release_keeps r) as (_ & -> & _ & _ & _ & -> & _) end. auto.
  - auto.
Qed.

Lemma ping_now_ok t k next a : k = mk_ticker PING_INTERVAL Burst (Some (next + PING_INTERVAL)) -> next <= t <= next + lag ->
  covered next (pinged a) -> pinger_ok t (ping_now t k a).
Proof.
  intros -> Ht C. unfold ping_now. destruct (send_ping (aconn a)) as [c [| |b]]; unfold pinger_ok.
  - cbn. exists next. split_and!; [done|lia|done].
  - cbn. exists (next + PING_INTERVAL). split; [done|by apply covered_next].
  - destruct (release_keeps (with_ping PStopped (with_conn c a))) as (_ & -> & _). done.
Qed.

Lemma pinger_ok_later now t a : now <= t -> pinger_ok now a -> pinger_ok t a.
Proof.
  intros Ht K. unfold pinger_ok in *. destruct (aping a); [done| |done].
  destruct K as (n & -> & ? & ?). exists n. split_and!; [done|lia|done].
Qed.
Lemma pinger_ok_step now t e a : now <= t -> pinger_on_time lag t (aping a) -> pinger_ok now a -> pinger_ok t (run_step t e a).
Proof.
  intros Ht O K. assert (C : e = RvPing \/ e <> RvPing) by (destruct e; auto). destruct C as [->|He].
  - cbn [run_step]. unfold agent_ping, pinger_ok, pinger_on_time in *. destruct (aping a) as [k|k|] eqn:Ep.
    + destruct K as (n & -> & C). specialize (O n eq_refl). unfold tick_poll. cbn [due period missed next_due].
      destruct (Z.ltb_spec t n).
      * cbn. eauto.
      * by apply (ping_now_ok t _ n a eq_refl).
    + destruct K as (n & -> & Hn & C). specialize (O _ eq_refl). cbn in O. apply (ping_now_ok t _ n a eq_refl); [lia|done].
    + by rewrite Ep.
  - destruct (other_steps_ping t e a He) as [E1 E2]. pose proof (pinger_ok_later now t a Ht K) as K'.
    unfold pinger_ok in *. rewrite E1. by destruct E2 as [->| ->].
Qed.


(** The deadline was made after everything that was heard. *)
Definition fresh (now since : Z) (l : list Z) : Prop := lo <= since <= now /\ forall y, y ∈ l -> y <= since.
Definition agent_awake (now : Z) (a : AgentRun WCh Sem BCh) : Prop :=
  match aread a with
  | AReading s => fresh now s (heard a)
  | APonging _ => fresh now now (heard a)
  | AEnded AIdleTimeout => False
  | AEnded _ => True
  end.
Definition hub_awake (now : Z) (h : HubRun) : Prop :=
  match reader (hconn h) with
  | RSelect _ => fresh now (waits_since h) (pings h)
  | RPong _ => fresh now now (pings h)
  | RDone IdleTimeout => False
  | RDone _ => True
  end.

Lemma fresh_later now t s l : now <= t -> fresh now s l -> fresh t s l.
Proof. intros ? [? ?]. split; [lia|done]. Qed.
Lemma fresh_now now t s l : now <= t -> fresh now s l -> fresh t t l.
Proof. intros ? [? Hl]. split; [lia|]. intros y Hy. specialize (Hl y Hy). lia. Qed.
Lemma fresh_log b now t s l : now <= t -> fresh now s l -> fresh t t (log_if b t l).
Proof.
  intros Ht F. pose proof (fresh_now now t s l Ht F) as [Ha Hl]. split; [done|]. destruct b; [|done].
  intros y [->|Hy]%elem_of_cons; [lia|by apply Hl].
Qed.

Lemma agent_awake_later now t a : now <= t -> agent_awake now a -> agent_awake t a.
Proof. intros ? K. unfold agent_awake in *. destruct (aread a) as [s|p|[]]; try done; [by eapply fresh_later|by eapply fresh_now]. Qed.
Lemma hub_awake_later now t h : now <= t -> hub_awake now h -> hub_awake t h.
Proof. intros ? K. unfold hub_awake in *. destruct (reader (hconn h)) as [m|p|[]]; try done; [by eapply fresh_later|by eapply fresh_now]. Qed.

Lemma agent_cases (e : RunEvent (WCh:=WCh) (Sem:=Sem) (BCh:=BCh)) :
  (exists fut, e = RvRead fut) \/ e = RvPong \/ ((forall fut, e <> RvRead fut) /\ e <> RvPong).
Proof. destruct e; naive_solver. Qed.
Lemma hub_cases (e : HubEvent) : (exists fut, e = HvRead fut) \/ e = HvPong \/ ((forall fut, e <> HvRead fut) /\ e <> HvPong).
Proof. destruct e; naive_solver. Qed.

(** Only the reader hears. *)
Lemma other_steps_hear t e (a : AgentRun WCh Sem BCh) : (forall fut, e <> RvRead fut) -> e <> RvPong ->
  aread (run_step t e a) = aread a /\ heard (run_step t e a) = heard a.
Proof.
  intros He Hp. destruct e as [fut| | | |ok| |f| | |f]; cbn [run_step]; try done; try (by destruct (He fut)).
  - unfold agent_ping. destruct (aping a) as [k|k|]; [destruct (tick_poll t k) as [k' []]| |]; try done;
      match goal with |- context [ping_now ?t ?k ?r] => by destruct (ping_now_keeps t k r) as (_ & _ & _ & -> & ->) end.
  - unfold agent_write. destruct (awrite a); try done. by destruct (prio_recv _ _) as [q m].
  - unfold agent_sent. by destruct (awrite a), ok.
  - unfold agent_closed. by destruct (awrite a).
  - unfold task_sends. by destruct (running_tasks a).
  - unfold task_ends. destruct (running_tasks a); [done|].
    match goal with |- context [release_senders ?r] => by destruct (release_keeps r) as (-> & _ & _ & _ & _ & _ & ->) end.
  - unfold run_teardown. destruct (aread a) eqn:E, (own_sender a); try done.
    match goal with |- context [release_senders ?r] => by destruct (release_keeps r) as (-> & _ & _ & _ & _ & _ & ->) end.
Qed.

Lemma agent_awake_step now t e a : now <= t -> (forall s, aread a = AReading s -> t < s + IDLE_DEADLINE) ->
  agent_awake now a -> agent_awake t (run_step t e a).
Proof.
  intros Ht Hd K. pose proof (agent_awake_later now t a Ht K) as Later.
  destruct (agent_cases e) as [[fut ->]|[->|[He Hp]]].
  - cbn [run_step]. unfold agent_read. unfold agent_awake in K. destruct (aread a) as [s|p|r] eqn:Ea; [|done..]. specialize (Hd s eq_refl).
    destruct fut as [[x|[[f n]|]]|]; cbn [timeout_poll]; [done| |done|].
    + destruct (agent_turn f (aconn a)) as [c turn]. pose proof (fresh_log true now t s _ Ht K) as F. unfold log_if in F.
      unfold agent_awake. cbn. destruct turn; [done| |done]. by destruct (body f).
    + unfold timeout_poll. destruct (Z.leb_spec (s + IDLE_DEADLINE) t); [lia|done].
  - cbn [run_step]. unfold agent_pong. destruct (aread a) eqn:Ea; try done. unfold agent_awake in Later. rewrite Ea in Later.
    destruct (send_frame_to_hub _ _) as [w [| |x]]; exact Later.
  - destruct (other_steps_hear t e a He Hp) as [E1 E2]. unfold agent_awake. by rewrite E1, E2.
Qed.

(** The same for the hub. *)
Lemma other_steps_hub t e (h : HubRun) : (forall fut, e <> HvRead fut) -> e <> HvPong ->
  reader (hconn (hub_step t e h)) = reader (hconn h) /\ waits_since (hub_step t e h) = waits_since h /\
  pings (hub_step t e h) = pings h /\ pongs (hub_step t e h) = pongs h.
Proof.
  intros He Hp. destruct e as [fut| | | |ok| | |f]; cbn [hub_step]; try done; try (by destruct (He fut)); unfold with_hconn; cbn.
  - unfold writer_poll. destruct (wtask (hconn h)); try done. destruct (ready _ _); [done|]. by destruct (prio_recv _ _).
  - unfold send_done. by destruct (wtask (hconn h)).
  - unfold close_done. by destruct (wtask (hconn h)).
  - unfold conn_teardown. destruct (reader (hconn h)) eqn:E; cbn; by rewrite ?E.
Qed.

Lemma hub_awake_step now t e h : now <= t -> (forall m, reader (hconn h) = RSelect m -> t < waits_since h + HUB_IDLE_DEADLINE) ->
  hub_awake now h -> hub_awake t (hub_step t e h).
Proof.
  intros Ht Hd K. pose proof (hub_awake_later now t h Ht K) as Later.
  destruct (hub_cases e) as [[fut ->]|[->|[He Hp]]].
  - cbn [hub_step]. unfold hub_read. unfold hub_awake in K. destruct (reader (hconn h)) as [m|p|r] eqn:Er; [|done..]. specialize (Hd m eq_refl).
    unfold reader_poll. rewrite Er. destruct (ready m (notify (hconn h))); [done|]. unfold hub_outcome.
    destruct fut as [[x|[[f n]|]]|]; cbn [timeout_poll]; [done| |done|].
    + destruct (reader_turn f n (alink (hconn h))) as [l turn].
      pose proof (fresh_log (bool_decide (is_Some (ping_of (Some (inr (Some (f, n))))))) now t _ _ Ht K) as F.
      unfold hub_awake. cbn [hconn reader waits_since pings]. destruct turn; [exact F| |done]. destruct (body f); exact F.
    + unfold timeout_poll. destruct (Z.leb_spec (waits_since h + HUB_IDLE_DEADLINE) t); [lia|]. unfold hub_awake. cbn. by eapply fresh_later.
  - cbn [hub_step]. unfold hub_pong. destruct (reader (hconn h)) as [|p|] eqn:Er; [done| |done]. unfold hub_awake in *. rewrite Er in Later.
    unfold pong_poll. rewrite Er. destruct (send_frame (pong p) (alink (hconn h))) as [l [| |x]]; exact Later.
  - destruct (other_steps_hub t e h He Hp) as (E1 & E2 & E3 & _). unfold hub_awake. by rewrite E1, E2, E3.
Qed.

(** ** Keep-alive *)

Context (delivery room : Z).
Hypothesis Hdel : 0 <= delivery.
Hypothesis Hroom : 0 <= room.
Hypothesis Hsum : skew + lag + 2 * delivery + room < 2 * PING_INTERVAL.

Record alive (now : Z) (p : Pair) : Prop := {
  alive_pinger : pinger_ok now (agent p);
  alive_agent : agent_awake now (agent p);
  alive_hub : hub_awake now (hub p);
}.

Lemma alive_step now t e p : now <= t -> timely lag delivery room t p -> alive now p -> alive t (pair_step t e p).
Proof.
  intros Ht [T1 T2 T3 T4] [K1 K2 K3].
  assert (Win : forall s, lo <= s -> s + IDLE_DEADLINE <= t -> exists y z, y ∈ pings (hub p) /\ s < y /\ z ∈ heard (agent p) /\ s < z).
  { intros s Hs Hd. unfold IDLE_DEADLINE, PING_INTERVAL, SECOND in *.
    destruct (ping_in_window now (agent p) s t K1 T1 Hs) as (x & Hx & Bx); unfold PING_INTERVAL, SECOND in *; [lia|].
    destruct (T2 x Hx) as (y & Hy & By); [lia|]. destruct (T3 y Hy) as (q & Hq & Bq); [lia|].
    destruct (T4 q Hq) as (z & Hz & Bz); [lia|]. exists y, z. split_and!; [done|lia|done|lia]. }
  destruct e as [e|e]; split; cbn [pair_step agent hub]; try (by apply (pinger_ok_step now)).
  - apply (agent_awake_step now); [done| |done]. intros s Es. unfold agent_awake in K2. rewrite Es in K2. destruct K2 as [Hb Hl].
    apply Z.nle_gt. intros Hd. destruct (Win s ltac:(lia) Hd) as (_ & z & _ & _ & Hz & ?). specialize (Hl z Hz). lia.
  - by apply hub_awake_later with now.
  - by apply pinger_ok_later with now.
  - by apply agent_awake_later with now.
  - apply (hub_awake_step now); [done| |done]. intros m Em. unfold hub_awake in K3. rewrite Em in K3. destruct K3 as [Hb Hl].
    apply Z.nle_gt. intros Hd. destruct (Win (waits_since (hub p)) ltac:(lia) Hd) as (y & _ & Hy & ? & _ & _). specialize (Hl y Hy). lia.
Qed.

Lemma alive_run now es p : on_schedule lag delivery room now es p -> alive now p -> exists t, alive t (pair_run es p).
Proof.
  revert now p. induction es as [|[t e] es IH]; intros now p S K; [by exists now|]. destruct S as (Ht & T & S).
  apply (IH t (pair_step t e p)); [done|by apply (alive_step now)].
Qed.

Lemma alive_not_timed_out now p : alive now p -> ~ timed_out p.
Proof. intros [_ K2 K3] [E|E]; [unfold agent_awake in K2; by rewrite E in K2|unfold hub_awake in K3; by rewrite E in K3]. Qed.
End Schedule.

(** ** Silence *)

(** Events of a stretch in which a side is given no frame. *)
Definition agent_hears_nothing (es : list (Z * PairEvent)) : Prop :=
  forall t x, (t, OnAgent (RvRead (Some x))) ∉ es.
Definition hub_hears_nothing (es : list (Z * PairEvent)) : Prop :=
  forall t x, (t, OnHub (HvRead (Some x))) ∉ es.

Lemma agent_read_none t since (a : AgentRun WCh Sem BCh) : aread a = AReading since ->
  run_step t (RvRead None) a = if since + IDLE_DEADLINE <=? t then with_read (AEnded AIdleTimeout) a else a.
Proof. intros E. cbn. unfold agent_read. rewrite E. unfold timeout_poll. by destruct (_ <=? _). Qed.

Lemma agent_waits_or_ends t e since p : aread (agent p) = AReading since -> (forall x, e <> OnAgent (RvRead (Some x))) ->
  aread (agent (pair_step t e p)) = AReading since \/ aread (agent (pair_step t e p)) = AEnded AIdleTimeout.
Proof.
  intros E He. destruct e as [e|e]; cbn [pair_step agent]; [|by left].
  destruct (agent_cases e) as [[[x|] ->]|[->|[C1 C2]]]; [by destruct (He x)|..].
  - rewrite (agent_read_none t since) by done. destruct (_ <=? _); auto.
  - cbn. unfold agent_pong. rewrite E. auto.
  - left. by rewrite (proj1 (other_steps_hear t e (agent p) C1 C2)).
Qed.
Lemma agent_ended_stays t e p r : aread (agent p) = AEnded r -> aread (agent (pair_step t e p)) = AEnded r.
Proof.
  intros E. destruct e as [e|e]; cbn [pair_step agent]; [|done].
  destruct (agent_cases e) as [[fut ->]|[->|[C1 C2]]]; [cbn; unfold agent_read; by rewrite E|cbn; unfold agent_pong; by rewrite E|].
  by rewrite (proj1 (other_steps_hear t e (agent p) C1 C2)).
Qed.

Lemma agent_silence es since t p : agent_hears_nothing es -> aread (agent p) = AReading since ->
  (t, OnAgent (RvRead None)) ∈ es -> since + IDLE_DEADLINE <= t -> aread (agent (pair_run es p)) = AEnded AIdleTimeout.
Proof.
  intros Hn E Hin Ht. assert (Ended : forall es p, aread (agent p) = AEnded AIdleTimeout -> aread (agent (pair_run es p)) = AEnded AIdleTimeout).
  { clear. induction es as [|[t e] es IH]; intros p E; [done|]. apply IH. by apply agent_ended_stays. }
  revert p E. induction es as [|[t' e] es IH]; intros p E; [by apply elem_of_nil in Hin|].
  change (pair_run ((t', e) :: es) p) with (pair_run es (pair_step t' e p)).
  apply elem_of_cons in Hin as [[= <- <-]|Hin].
  - apply Ended. cbn [pair_step agent]. rewrite (agent_read_none t since) by done. by rewrite (proj2 (Z.leb_le _ _) Ht).
  - destruct (agent_waits_or_ends t' e since p E) as [E'|E']; [|apply IH|by apply Ended].
    + intros x ->. apply (Hn t' x). by left.
    + intros t2 x Hx. apply (Hn t2 x). by right.
    + done.
    + done.
Qed.

(** The hub may be told to close as well. *)
Lemma hub_waits_or_ends t e m p : reader (hconn (hub p)) = RSelect m -> (forall x, e <> OnHub (HvRead (Some x))) ->
  let p' := pair_step t e p in
  (exists m', reader (hconn (hub p')) = RSelect m') /\ waits_since (hub p') = waits_since (hub p) \/
  exists why, reader (hconn (hub p')) = RDone why.
Proof.
  intros E He. destruct e as [e|e]; cbn [pair_step hub]; [left; eauto|].
  destruct (hub_cases e) as [[[x|] ->]|[->|[C1 C2]]]; [by destruct (He x)|..].
  - cbn. unfold hub_read. rewrite E. unfold reader_poll. rewrite E. destruct (ready m _); [right; cbn; eauto|].
    unfold hub_outcome, timeout_poll. destruct (_ <=? _); [right; cbn; eauto|left; cbn; eauto].
  - cbn. unfold hub_pong. rewrite E. left. eauto.
  - destruct (other_steps_hub t e (hub p) C1 C2) as (E1 & E2 & _). left. rewrite E1, E2. eauto.
Qed.
Lemma hub_read_late t m (h : HubRun) : reader (hconn h) = RSelect m -> waits_since h + HUB_IDLE_DEADLINE <= t ->
  exists why, reader (hconn (hub_step t (HvRead None) h)) = RDone why.
Proof.
  intros E Ht. cbn. unfold hub_read. rewrite E. unfold reader_poll. rewrite E. destruct (ready m _); [cbn; eauto|].
  unfold hub_outcome, timeout_poll. rewrite (proj2 (Z.leb_le _ _) Ht). cbn. eauto.
Qed.
Lemma hub_ended_stays t e p r : reader (hconn (hub p)) = RDone r -> reader (hconn (hub (pair_step t e p))) = RDone r.
Proof.
  intros E. destruct e as [e|e]; cbn [pair_step hub]; [done|].
  destruct (hub_cases e) as [[fut ->]|[->|[C1 C2]]]; [cbn; unfold hub_read; by rewrite E|cbn; unfold hub_pong; by rewrite E|].
  by rewrite (proj1 (other_steps_hub t e (hub p) C1 C2)).
Qed.

Lemma hub_silence es m t p : hub_hears_nothing es -> reader (hconn (hub p)) = RSelect m ->
  (t, OnHub (HvRead None)) ∈ es -> waits_since (hub p) + HUB_IDLE_DEADLINE <= t -> exists why, reader (hconn (hub (pair_run es p))) = RDone why.
Proof.
  assert (Ended : forall es p, (exists why, reader (hconn (hub p)) = RDone why) -> exists why, reader (hconn (hub (pair_run es p))) = RDone why).
  { clear. induction es as [|[t e] es IH]; intros p [w E]; [eauto|]. apply (IH (pair_step t e p)). exists w. by apply hub_ended_stays. }
  intros Hn. revert m p. induction es as [|[t' e] es IH]; intros m p E Hin Ht; [by apply elem_of_nil in Hin|].
  change (pair_run ((t', e) :: es) p) with (pair_run es (pair_step t' e p)).
  apply elem_of_cons in Hin as [[= <- <-]|Hin].
  - apply Ended. cbn [pair_step hub]. by apply (hub_read_late t m).
  - destruct (hub_waits_or_ends t' e m p E) as [[[m' E'] Ew]|[w E']]; [| |apply Ended; eauto].
    + intros x ->. apply (Hn t' x). by left.
    + apply (IH ltac:(intros t2 x Hx; apply (Hn t2 x); by right) m'); [done|done|by rewrite Ew].
Qed.

(** [C30] A live connection is kept: as long as pings leave within [lag] of
    their ticks, a ping or a pong takes at most [delivery] to the other
    side's reader and the hub finds room for its answer within [room], and
    these with the [skew] of the start come to less than a minute
    ([2 * delivery] for the way there and back), neither side ever gives the
    connection up as idle, whatever else goes over it.  And a dead one is not:
    a side that is given no frame for a minute and a half has ended when it
    was polled after that. *)
Theorem keepalive skew lag delivery room r0 h0 due0 now es p :
  0 <= skew -> 0 <= delivery -> 0 <= room -> skew + lag + 2 * delivery + room < 2 * PING_INTERVAL ->
  both_started r0 h0 due0 p -> r0 <= now -> h0 <= now -> due0 <= Z.min r0 h0 + PING_INTERVAL + skew ->
  on_schedule lag delivery room now es p ->
  let p' := pair_run es p in
  ~ timed_out p' /\
  forall es', let q := pair_run es' p' in
    (forall since t, agent_hears_nothing es' -> aread (agent p') = AReading since ->
       (t, OnAgent (RvRead None)) ∈ es' -> since + IDLE_DEADLINE <= t -> aread (agent q) = AEnded AIdleTimeout) /\
    (forall made t, hub_hears_nothing es' -> reader (hconn (hub p')) = RSelect made ->
       (t, OnHub (HvRead None)) ∈ es' -> waits_since (hub p') + HUB_IDLE_DEADLINE <= t -> exists why, reader (hconn (hub q)) = RDone why).
Proof.
  intros Hs Hd Hr Hsum (Ea & Ep & Epd & Eh & [m Em] & Ew & Epi & Epo) Hr0 Hh0 Hdue S. cbn zeta. split.
  - destruct (alive_run (Z.min r0 h0) skew lag Hs delivery room Hd Hr Hsum now es p S) as [t K]; [|by eapply alive_not_timed_out].
    split.
    + unfold pinger_ok. rewrite Ep, Epd. exists due0. split; [done|]. intros x Hx. right. lia.
    + unfold agent_awake. rewrite Ea, Eh. split; [lia|]. set_solver.
    + unfold hub_awake. rewrite Em, Ew, Epi. split; [lia|]. set_solver.
  - intros es'. split; [intros since t ????; by eapply agent_silence|intros made t ????; by eapply hub_silence].
Qed.

(** While the hub waits for room to answer a ping there is no deadline: no
    poll of the reader and no notification ends it. *)
Lemma pong_wait_has_no_deadline es q (h : HubRun) : reader (hconn h) = RPong q -> (forall t, (t, HvPong) ∉ es) ->
  reader (hconn (foldl (fun h te => hub_step te.1 te.2 h) h es)) = RPong q.
Proof.
  revert h. induction es as [|[t e] es IH]; intros h E Hn; [done|]. apply IH; [|intros t' Hin; by apply (Hn t'); right].
  cbn [fst snd]. destruct (hub_cases e) as [[fut ->]|[->|[C1 C2]]].
  - cbn. unfold hub_read. by rewrite E.
  - by destruct (Hn t); left.
  - by rewrite (proj1 (other_steps_hub t e h C1 C2)).
Qed.

(** A schedule can be checked. *)
Definition pinger_on_time_b (lag t : Z) (p : Pinger) : bool :=
  match p with
  | PWaiting k => match due k with Some d => t <=? d + lag | None => true end
  | PSending k => match due k with Some d => t <=? d + (lag - period k) | None => true end
  | PStopped => false
  end.
Definition followed_within_b (d t : Z) (from to : list Z) : bool :=
  forallb (fun x => (t <=? x + d) || existsb (fun y => (x <=? y) && (y <=? x + d)) to) from.
Fixpoint on_schedule_b (lag delivery room now : Z) (es : list (Z * PairEvent)) (p : Pair) : bool :=
  match es with
  | [] => true
  | (t, e) :: es =>
      (now <=? t) && pinger_on_time_b lag t (aping (agent p)) && followed_within_b delivery t (pinged (agent p)) (pings (hub p)) &&
      followed_within_b room t (pings (hub p)) (pongs (hub p)) && followed_within_b delivery t (pongs (hub p)) (heard (agent p)) &&
      on_schedule_b lag delivery room t es (pair_step t e p)
  end.

Lemma followed_within_check d t from to : followed_within_b d t from to = true -> followed_within d t from to.
Proof.
  unfold followed_within_b, followed_within. rewrite forallb_forall. intros F x Hx Ht.
  apply list_elem_of_In, F, orb_true_iff in Hx. destruct Hx as [?%Z.leb_le|(y & Hy & [Y1 Y2]%andb_true_iff)%existsb_exists]; [lia|].
  exists y. split; [by apply list_elem_of_In|lia].
Qed.
Lemma pinger_on_time_check lag t p : pinger_on_time_b lag t p = true -> pinger_on_time lag t p.
Proof. destruct p as [k|k|]; cbn; unfold on_time; [destruct (due k)..|done]; intros E d [= ->]; lia. Qed.
Lemma on_schedule_check lag delivery room now es p :
  on_schedule_b lag delivery room now es p = true -> on_schedule lag delivery room now es p.
Proof.
  revert now p. induction es as [|[t e] es IH]; intros now p E; [done|]. cbn [on_schedule_b on_schedule] in *.
  apply andb_true_iff in E as [E E6]. apply andb_true_iff in E as [E E5]. apply andb_true_iff in E as [E E4].
  apply andb_true_iff in E as [E E3]. apply andb_true_iff in E as [E1 E2]. split_and!; [lia| |by apply IH].
  split; [by apply pinger_on_time_check|by apply followed_within_check..].
Qed.
End Pair.

(** ** Witness *)

Abbreviation ToyPair := (Pair (WCh:=ChanView (Z * list byte)) (Sem:=Z) (BCh:=ChanView Body)).
Abbreviation ToyEvents := (list (Z * PairEvent (WCh:=ChanView (Z * list byte)) (Sem:=Z) (BCh:=ChanView Body))).

(** A ping every half minute, each a second under way, as is its answer; then
    silence. *)
Definition round (s : Z) : ToyEvents :=
  [(s * SECOND, OnAgent RvPing);
   ((s + 1) * SECOND, OnHub (HvRead (Some (inr (Some (ping [], 9))))));
   ((s + 2) * SECOND, OnAgent (RvRead (Some (inr (Some (pong [], 9))))))].

Lemma keepalive_witness :
  let p : ToyPair := mk_pair (agent_run [(0, RvPing)] (start_run [] 0)) (mk_hub_run (start_conn 20) 0 [] []) in
  let es := round 30 ++ round 60 ++ round 90 ++ [(100 * SECOND, OnAgent (RvRead None)); (101 * SECOND, OnHub (HvRead None))] in
  let es' : ToyEvents := [(181 * SECOND, OnAgent (RvRead None)); (182 * SECOND, OnAgent (RvRead None)); (183 * SECOND, OnHub (HvRead None))] in
  ~ timed_out (pair_run es p) /\ aread (agent (pair_run es' (pair_run es p))) = AEnded AIdleTimeout /\
  exists why, reader (hconn (hub (pair_run es' (pair_run es p)))) = RDone why.
Proof.
  cbn zeta.
  set (p := mk_pair (agent_run [(0, RvPing)] (start_run [] 0)) (mk_hub_run (start_conn 20) 0 [] []) : ToyPair).
  set (es := round 30 ++ round 60 ++ round 90 ++ [(100 * SECOND, OnAgent (RvRead None)); (101 * SECOND, OnHub (HvRead None))]).
  pose proof (keepalive 0 SECOND (2 * SECOND) SECOND 0 0 (30 * SECOND) 0 es p ltac:(lia) ltac:(unfold SECOND; lia) ltac:(unfold SECOND; lia)
    ltac:(unfold PING_INTERVAL, SECOND; lia) ltac:(repeat (split; [vm_compute; reflexivity|]); split; [exists None; vm_compute; reflexivity|repeat split; vm_compute; reflexivity])
    ltac:(lia) ltac:(lia) ltac:(vm_compute; discriminate) ltac:(apply on_schedule_check; vm_compute; reflexivity)) as W.
  cbn zeta in W. destruct W as [W1 W2]. split; [exact W1|].
  specialize (W2 [(181 * SECOND, OnAgent (RvRead None)); (182 * SECOND, OnAgent (RvRead None)); (183 * SECOND, OnHub (HvRead None))]).
  destruct W2 as [Wa Wh]. split.
  - apply (Wa (92 * SECOND) (182 * SECOND)); [|vm_compute; reflexivity| |vm_compute; discriminate].
    + intros t x Hin. repeat (apply elem_of_cons in Hin as [Hin|Hin]; [discriminate Hin|]). by apply elem_of_nil in Hin.
    + apply list_elem_of_further, list_elem_of_here.
  - apply (Wh (Some 0%nat) (183 * SECOND)); [|vm_compute; reflexivity| |vm_compute; discriminate].
    + intros t x Hin. repeat (apply elem_of_cons in Hin as [Hin|Hin]; [discriminate Hin|]). by apply elem_of_nil in Hin.
    + do 2 apply list_elem_of_further. apply list_elem_of_here.
Defined.
