(* ===== verification/Dial.v ===== *)
(** * Dial: how the agent reaches the hub ([agent/src/main.rs],
    [agent/src/wsdial.rs])

    From [agent.toml] to a connection: the resolved configuration, the choice
    of the transport, the upgrade request through a perimeter, the perimeter's
    token with its cache, and the frames of a WebSocket.  URLs, HTTP header
    syntax, base64, JSON and rustls are libraries. *)

From Stdlib Require Import Strings.Byte.
From stdpp Require Import prelude strings list gmap.
From S2P Require Import Prelude Utf8 Std Frame FrameFacts Transport Webauthn Auth Proxy AgentAuth AgentAuthFacts Agent Pem.

(** Durations and times are in nanoseconds. *)
Definition TOKEN_REFRESH_MARGIN : Z := 60 * 1000000000.

(** ** The configuration *)

(** [struct AgentConfig] *)
Record AgentConfig := mk_agent_config {
  hub : list byte;
  cfg_tls : list byte;
  cfg_server_name : option (list byte);
  cfg_shell : option (list byte);
  cfg_tunnel_token_file : option (list byte);
  cfg_tunnel_auth_header : list byte;
  cfg_tunnel_auth_scheme : list byte;
  limits : ConfigLimits;
}.

(** The serde defaults of absent keys. *)
Definition default_tls : list byte := lit "on".
Definition default_tunnel_auth_header : list byte := lit "X-Tunnel-Authorization".
Definition default_tunnel_auth_scheme : list byte := lit "tunnel".

(** [struct ResolvedConfig] without its cache; the key is the signing
    function. *)
Record ResolvedConfig := mk_resolved {
  r_hub : list byte; tls_on : bool; server_name : list byte; r_shell : list byte; r_limits : AgentLimits;
  tunnel_token_file : option (list byte); tunnel_auth_header_name : list byte; tunnel_auth_scheme : list byte;
  cert_chain : list (list byte); sign_key : list byte -> list byte;
}.

Inductive DialError :=
| InvalidTls (v : list byte) | CertFiles | KeyNotPkcs8
| TlsConnector | BadServerName | BadHubUrl | BadScheme (s : list byte) | NoHost | BadRequest
| TokenFile | BadTunnelHeader | BadTunnelValue | NoUriHost | EmptyChain | BadAuthValue.

(** What the operating system answers when the certificate is loaded. *)
Inductive KeyFile := NoKeyFile | OtherKey | Pkcs8 (chain : list (list byte)) (sign : list byte -> list byte).

(** [load_cert_files] in [main]; [sign_with] signs with a PKCS#8 key. *)
Definition load_key_file (lib : PemLib) (sign_with : list byte -> list byte -> list byte) (cert_file key_file : option (list byte))
    : KeyFile :=
  match load_cert_files lib cert_file key_file with
  | Ok (chain, Pkcs8Key k) => Pkcs8 chain (sign_with k)
  | Ok _ => OtherKey
  | _ => NoKeyFile
  end.

(** [hub] is a WebSocket URL. *)
Definition is_ws (hub : list byte) : bool := starts_with (lit "ws://") hub || starts_with (lit "wss://") hub.

(** [struct CachedToken]: the token and when it expires. *)
Abbreviation TokenCache := (option (list byte * Z)).

(** The libraries. *)
Record DialLib := {
  url_host : list byte -> option (option (list byte));   (** [Url::parse], then [host_str] *)
  url_scheme : list byte -> option (list byte);
  client_request : list byte -> option (list (list byte * list byte) * option (list byte));
    (** [into_client_request]: its headers and the host of its URI *)
  header_name : list byte -> option (list byte);         (** [HeaderName::from_bytes] *)
  header_value_ok : list byte -> bool;                   (** [HeaderValue::from_str] *)
  tls_name_ok : list byte -> bool;                       (** [ServerName::try_from] *)
  json_exp : list byte -> option Z;                      (** the member [exp] of a JSON object, as [u64] *)
  dial_pki : PkiLib;
  time_max_secs : Z;                                     (** the last second a [SystemTime] can be *)
}.

Section Dial.
Variable lib : DialLib.

(** [main]: the configuration resolved.  [env_shell] is [$SHELL] and
    [default_shell] the platform's shell. *)
Definition resolve_server_name (c : AgentConfig) : list byte :=
  match cfg_server_name c with
  | Some n => n
  | None =>
      if is_ws (hub c) then default [] (mjoin (url_host lib (hub c)))
      else match position ":" (hub c) with Some i => take i (hub c) | None => hub c end
  end.
Definition resolve_tls (c : AgentConfig) : res DialError bool :=
  if bool_decide (cfg_tls c ∈ [lit "on"; lit "true"]) then Ok true
  else if bool_decide (cfg_tls c ∈ [lit "off"; lit "false"]) then Ok false
  else Err (InvalidTls (cfg_tls c)).
Definition resolve_config (env_shell : option (list byte)) (default_shell : list byte) (key : KeyFile) (c : AgentConfig)
    : res DialError ResolvedConfig :=
  let shell := default default_shell (match cfg_shell c with Some s => Some s | None => env_shell end) in
  tls_on ← resolve_tls c;
  '(chain, sign) ← (match key with
                    | NoKeyFile => Err CertFiles
                    | OtherKey => Err KeyNotPkcs8
                    | Pkcs8 chain sign => Ok (chain, sign)
                    end);
  Ok (mk_resolved (hub c) tls_on (resolve_server_name c) shell (resolve (limits c))
        (cfg_tunnel_token_file c) (cfg_tunnel_auth_header c) (cfg_tunnel_auth_scheme c) chain sign).

(** ** The perimeter's token *)

(** [jwt_exp]; adding to [UNIX_EPOCH] panics past the last representable
    second. *)
Definition jwt_exp (token : list byte) : res DialError (option Z) :=
  match split_on "." token with
  | [_; payload; _] =>
      match (b ← b64_decode (crypto (dial_pki lib)) payload; json_exp lib b) with
      | Some exp => if exp <=? time_max_secs lib then Ok (Some (exp * 1000000000)) else Panic
      | None => Ok None
      end
  | _ => Ok None
  end.

(** [current_token]: [file] is what reading the token file gives, if it is
    read. *)
Definition current_token (now : Z) (file : option (list byte)) (cache : TokenCache) : TokenCache * res DialError (list byte) :=
  let reload :=
    match file with
    | None => (cache, Err TokenFile)
    | Some bytes =>
        let raw := trim bytes in
        match jwt_exp raw with
        | Ok exp => ((fun e => (raw, e)) <$> exp, Ok raw)
        | Err e => (cache, Err e)
        | Panic => (cache, Panic)
        end
    end in
  match cache with
  | Some (raw, expires_at) => if expires_at >? now + TOKEN_REFRESH_MARGIN then (cache, Ok raw) else reload
  | None => reload
  end.

(** [tunnel_auth_header] *)
Definition tunnel_auth_header (c : ResolvedConfig) (now : Z) (file : option (list byte)) (cache : TokenCache)
    : TokenCache * res DialError (option (list byte * list byte)) :=
  match tunnel_token_file c with
  | None => (cache, Ok None)
  | Some _ =>
      let '(cache, token) := current_token now file cache in
      (cache,
       token ← token;
       if bool_decide (token = []) then Ok None
       else
         let value := if bool_decide (tunnel_auth_scheme c = []) then token
                      else tunnel_auth_scheme c ++ lit " " ++ token in
         name ← ok_or BadTunnelHeader (header_name lib (tunnel_auth_header_name c));
         guard_err (negb (header_value_ok lib value)) BadTunnelValue ;;
         Ok (Some (name, value)))
  end.

(** ** The dial *)

(** How the agent connects: raw to [hub], with TLS under a name or without; or
    by an upgrade request, over TLS or not. *)
Inductive Dialled :=
| DialRaw (tls_name : option (list byte))
| DialWs (tls_name : option (list byte)) (headers : list (list byte * list byte)).

(** [agent_auth_headers] with its failures *)
Definition auth_headers (c : ResolvedConfig) (nonce host : list byte) (now_secs : Z) : res DialError (list byte * list byte) :=
  cert ← ok_or EmptyChain (head (cert_chain c));
  let '(ch, ah) := agent_auth_headers (dial_pki lib) cert nonce host now_secs (sign_key c) in
  guard_err (negb (header_value_ok lib ch)) BadAuthValue ;;
  guard_err (negb (header_value_ok lib ah)) BadAuthValue ;;
  Ok (ch, ah).

Definition tls_target (secure : bool) (c : ResolvedConfig) : res DialError (option (list byte)) :=
  if secure then
    guard_err (negb (tls_name_ok lib (server_name c))) BadServerName ;; Ok (Some (server_name c))
  else Ok None.

(** [run_ws] up to the handshake.  The clock is read for the token and, in
    seconds, for the signature; [nonce] is drawn. *)
Definition run_ws (c : ResolvedConfig) (now now_secs : Z) (nonce : list byte) (file : option (list byte)) (cache : TokenCache)
    : TokenCache * res DialError Dialled :=
  match (scheme ← ok_or BadHubUrl (url_scheme lib (r_hub c));
         secure ← (if bool_decide (scheme = lit "wss") then Ok true
                   else if bool_decide (scheme = lit "ws") then Ok false else Err (BadScheme scheme));
         _ ← ok_or NoHost (mjoin (url_host lib (r_hub c)));
         req ← ok_or BadRequest (client_request lib (r_hub c));
         Ok (secure, req)) with
  | Ok (secure, (base, uri_host)) =>
      let '(cache, tunnel) := tunnel_auth_header c now file cache in
      (cache,
       tunnel ← tunnel;
       host ← ok_or NoUriHost uri_host;
       '(ch, ah) ← auth_headers c nonce host now_secs;
       let headers := match tunnel with Some (n, v) => insert_header n v base | None => base end in
       let headers := insert_header HEADER_AGENT_AUTH ah (insert_header HEADER_AGENT_CERT ch headers) in
       name ← tls_target secure c;
       Ok (DialWs name headers))
  | Err e => (cache, Err e)
  | Panic => (cache, Panic)
  end.

(** [build_tls_connector]: the trusted roots are the file's certificates, or
    the built-in ones when no file is configured.  [add_root] and
    [client_auth_ok] are rustls: does it accept a root, a chain with its key.
    The file is read at every attempt. *)
Inductive TrustedRoots := WebPkiRoots | FileRoots (certs : list (list byte)).
Inductive ConnectorError := HubCaUnreadable | HubCaInvalid (e : PemError) | RootRejected | ClientCertRejected.
Definition build_tls_connector (pem : PemLib) (add_root : list byte -> bool) (client_auth_ok : list (list byte) -> bool)
    (hub_ca : option (option (list byte))) (c : ResolvedConfig) : res ConnectorError TrustedRoots :=
  roots ← (match hub_ca with
           | None => Ok WebPkiRoots
           | Some file =>
               bytes ← ok_or HubCaUnreadable file;
               added ← map_err HubCaInvalid (load_pem_cert_chain pem bytes);
               guard_err (negb (forallb add_root added)) RootRejected ;;
               Ok (FileRoots added)
           end);
  guard_err (negb (client_auth_ok (cert_chain c))) ClientCertRejected ;;
  Ok roots.

(** [run_once] up to the connection; [connector_ok] says whether
    [build_tls_connector] succeeds. *)
Definition run_once (c : ResolvedConfig) (connector_ok : bool) (now now_secs : Z) (nonce : list byte)
    (file : option (list byte)) (cache : TokenCache) : TokenCache * res DialError Dialled :=
  if negb connector_ok then (cache, Err TlsConnector)
  else if is_ws (r_hub c) then run_ws c now now_secs nonce file cache
  else (cache, name ← tls_target (tls_on c) c; Ok (DialRaw name)).
End Dial.

(** ** Frames over a WebSocket *)

(** [WsRecv::recv], on both sides: what is left of the messages, and a frame,
    an end, or an error. *)
Fixpoint ws_recv (ms : list WsMessage) : list WsMessage * res FrameError (option (Frame * Z)) :=
  match ms with
  | [] => ([], Ok None)
  | WsBinary data :: ms => (ms, r ← frame_from_ws_payload data; Ok (Some r))
  | (WsClose | WsEnd | WsError) :: ms => (ms, Ok None)
  | (WsPing | WsPong | WsText) :: ms => ws_recv ms
  end.
