(* ===== verification/DialFacts.v ===== *)
(** * DialFacts: which transport the agent takes, which token it sends, and
    which of its upgrades the hub accepts *)

From Stdlib Require Import Strings.Byte.
From stdpp Require Import prelude strings list gmap.
From S2P Require Import Prelude Utf8 Std Frame FrameFacts Transport Webauthn WebauthnFacts Auth Proxy AgentAuth AgentAuthFacts Agent Pem Dial.
Open Scope Z_scope.

Section Facts.
Variable lib : DialLib.

(** ** The token *)

(** The cache after a run of calls, each with its clock and what reading the
    file gave. *)
Definition cache_after (calls : list (Z * option (list byte))) : TokenCache :=
  foldl (fun c '(now, file) => (current_token lib now file c).1) None calls.

(** The cache holds what some call read, with its own expiry. *)
Lemma cache_read calls raw e :
  cache_after calls = Some (raw, e) ->
  exists t f, (t, Some f) ∈ calls /\ raw = trim f /\ jwt_exp lib raw = Ok (Some e).
Proof.
  unfold cache_after. induction calls as [|[now file] calls IH] using rev_ind; [done|]. rewrite foldl_app. cbn [foldl].
  set (c := foldl _ None calls) in *. intros H.
  assert (K : c = Some (raw, e) -> exists t f, (t, Some f) ∈ calls ++ [(now, file)] /\ raw = trim f /\ jwt_exp lib raw = Ok (Some e)).
  { intros E. destruct (IH E) as (t & f & Hin & ?). exists t, f. split; [|done]. apply elem_of_app. by left. }
  assert (R : (match file with
    | None => (c, Err TokenFile)
    | Some bytes => match jwt_exp lib (trim bytes) with
        | Ok exp => ((fun e => (trim bytes, e)) <$> exp, Ok (trim bytes))
        | Err e => (c, Err e) | Panic => (c, Panic) end
    end : TokenCache * res DialError (list byte)).1 = Some (raw, e) ->
    exists t f, (t, Some f) ∈ calls ++ [(now, file)] /\ raw = trim f /\ jwt_exp lib raw = Ok (Some e)).
  { destruct file as [bytes|]; [|exact K]. destruct (jwt_exp lib (trim bytes)) as [exp|x|] eqn:J; [|exact K..].
    destruct exp as [exp|]; [|done]. cbn. intros [= <- <-]. exists now, bytes. split; [|done]. set_solver. }
  unfold current_token in H. destruct c as [[r x]|]; [|by apply R]. destruct (x >? now + TOKEN_REFRESH_MARGIN); [by apply K|by apply R].
Qed.

(** The connector trusts the configured file alone, or the built-in roots
    alone; a file that cannot be read, has no certificate or has one rustls
    does not take stops the attempt (the loop of [main] tries again). *)
Lemma connector_roots pem add_root auth_ok hub_ca c roots :
  build_tls_connector pem add_root auth_ok hub_ca c = Ok roots <->
  auth_ok (cert_chain c) = true /\
  match hub_ca with
  | None => roots = WebPkiRoots
  | Some file => exists bytes certs, file = Some bytes /\ load_pem_cert_chain pem bytes = Ok certs /\
                   Forall (fun r => add_root r = true) certs /\ roots = FileRoots certs
  end.
Proof.
  unfold build_tls_connector. destruct (auth_ok (cert_chain c)) eqn:Ea; cbn [negb].
  2: { split; [|by intros [? _]]. destruct hub_ca as [[bytes|]|]; cbn; [|done..].
       destruct (load_pem_cert_chain pem bytes) as [certs| |]; cbn; [|done..]. by destruct (forallb _ _). }
  destruct hub_ca as [[bytes|]|]; cbn.
  - destruct (load_pem_cert_chain pem bytes) as [certs| |] eqn:El; cbn;
      [|by split; [done|]; intros (_ & ? & ? & [= <-] & E & _); rewrite El in E..].
    assert (Fb : forallb add_root certs = true <-> Forall (fun r => add_root r = true) certs).
    { rewrite forallb_forall, Forall_forall. by setoid_rewrite list_elem_of_In. }
    destruct (forallb add_root certs) eqn:Ef; cbn.
    + split; [|by intros (_ & ? & ? & [= <-] & E & _ & ->); rewrite El in E; injection E as <-].
      intros [= <-]. split; [done|]. exists bytes, certs. by rewrite <- Fb.
    + split; [done|]. intros (_ & bytes' & certs' & [= <-] & E & F & _). rewrite El in E. injection E as <-. by apply Fb in F.
  - by split; [done|]; intros (_ & ? & ? & ? & _).
  - split; [by intros [= <-]|by intros [_ ->]].
Qed.

(** The token the agent sends to a perimeter is the file's content, read now,
    or one it read from the file before whose own expiry lies more than a
    minute ahead; a token of which no expiry can be read is read again every
    time; and as long as the cached token is good the file is not needed. *)
Theorem tunnel_token_is_current calls now file :
  let cache := cache_after calls in
  let '(cache', r) := current_token lib now file cache in
  match r with
  | Ok tok =>
      (exists bytes, file = Some bytes /\ tok = trim bytes) \/
      (exists t f e, (t, Some f) ∈ calls /\ tok = trim f /\ jwt_exp lib tok = Ok (Some e) /\ now + TOKEN_REFRESH_MARGIN < e)
  | Err _ => file = None /\ cache' = cache
  | Panic => exists bytes, file = Some bytes /\ jwt_exp lib (trim bytes) = Panic
  end /\
  match cache with
  | Some (raw, e) => if e >? now + TOKEN_REFRESH_MARGIN then cache' = cache /\ r = Ok raw else
      match file with Some bytes => r = Ok (trim bytes) \/ r = Panic | None => r = Err TokenFile end
  | None => match file with Some bytes => r = Ok (trim bytes) \/ r = Panic | None => r = Err TokenFile end
  end.
Proof.
  cbn zeta. pose proof (cache_read calls) as C. set (c := cache_after calls) in *. unfold current_token.
  assert (Np : forall t, forall e, jwt_exp lib t <> Err e).
  { intros t e. unfold jwt_exp. repeat case_match; done. }
  assert (R : let '(cache', r) := (match file with
    | None => (c, Err TokenFile)
    | Some bytes => match jwt_exp lib (trim bytes) with
        | Ok exp => ((fun e => (trim bytes, e)) <$> exp, Ok (trim bytes))
        | Err e => (c, Err e) | Panic => (c, Panic) end
    end : TokenCache * res DialError (list byte)) in
    match r with
    | Ok tok => (exists bytes, file = Some bytes /\ tok = trim bytes)
    | Err _ => file = None /\ cache' = c
    | Panic => exists bytes, file = Some bytes /\ jwt_exp lib (trim bytes) = Panic
    end /\ match file with Some bytes => r = Ok (trim bytes) \/ r = Panic | None => r = Err TokenFile end).
  { destruct file as [bytes|]; [|done]. destruct (jwt_exp lib (trim bytes)) as [exp|x|] eqn:J; [|by destruct (Np _ _ J)|]; eauto. }
  destruct c as [[raw e]|].
  - destruct (e >? now + TOKEN_REFRESH_MARGIN) eqn:E.
    + split; [|done]. right. destruct (C raw e eq_refl) as (t & f & Hin & -> & J). rewrite Z.gtb_ltb, Z.ltb_lt in E. eauto 10.
    + destruct (match file with Some _ => _ | None => _ end) as [c' []]; naive_solver.
  - destruct (match file with Some _ => _ | None => _ end) as [c' []]; naive_solver.
Qed.

(** ** The upgrade *)

(** The headers as the hub sees them. *)
Definition received (h : list (list byte * list byte)) : Headers := (fun kv => (kv.1, Some kv.2)) <$> h.

Lemma received_get name h :
  Auth.get name (received h) = Some <$> head ((List.filter (fun kv => bool_decide (kv.1 = name)) h).*2).
Proof.
  unfold Auth.get, get_all, received. induction h as [|[k v] h IH]; [done|]. cbn. by case_bool_decide.
Qed.

Lemma received_insert name name' v h :
  Auth.get name (received (insert_header name' v h)) = if bool_decide (name' = name) then Some (Some v) else Auth.get name (received h).
Proof.
  rewrite !received_get. case_bool_decide as E; [subst; by rewrite insert_header_same|by rewrite insert_header_other].
Qed.

(** [C37] What becomes of an upgrade the agent dials through a perimeter: if it is
    listed, its clock is within five minutes and its nonce is fresh, the hub
    accepts it exactly if the signature, which was made over the host of the
    URL, verifies over what the request's [Host] header says.  The two are
    the same text exactly if the URL names no port: with a port the hub
    refuses every upgrade of an agent whose signatures are sound. *)
Theorem perimeter_upgrade c cert rest base uri_host authority now now_secs nonce file cache hub_chain hub_now instant store seen entry :
  let pki := dial_pki lib in
  client_request lib (r_hub c) = Some (base, Some uri_host) ->
  Auth.get (lit "host") (received base) = Some (Some authority) ->
  cert_chain c = cert :: rest ->
  (forall n, header_name lib (tunnel_auth_header_name c) = Some n -> n <> lit "host") ->
  (forall b, b64_decode (crypto pki) (b64_encode (crypto pki) b) = Some b) ->
  (forall b, Forall visible (b64_encode (crypto pki) b) /\ "."%byte ∉ b64_encode (crypto pki) b) ->
  len nonce = WS_AUTH_NONCE_LEN -> u64 now_secs -> Z.abs (now_secs - hub_now) <= WS_AUTH_SKEW_SECS ->
  chains_to_ca pki hub_chain [] cert = true -> cert_allowed pki cert store entry ->
  seen !! (cert_fingerprint pki cert, nonce) = None ->
  let '(ch, ah) := agent_auth_headers pki cert nonce uri_host now_secs (sign_key c) in
  len ch <= MAX_AGENT_CERT_HEADER_BYTES -> len ah <= MAX_AGENT_AUTH_HEADER_BYTES ->
  forall tls headers, (run_ws lib c now now_secs nonce file cache).2 = Ok (DialWs tls headers) ->
  let payload h := ws_auth_payload pki h now_secs nonce in
  (authenticate_ws_upgrade pki (received headers) hub_chain hub_now instant store seen).2 =
  if verify_p256_signature pki cert (payload authority) (sign_key c (payload uri_host))
  then Ok (machine_id entry) else Err BadSignature.
Proof.
  cbn zeta. intros Hcr Hh Hcc Hn Hrt Hvis Ln Hu Hs Hch Hal Hseen. unfold agent_auth_headers. intros Lc La tls headers Hrun.
  unfold run_ws in Hrun. rewrite Hcr in Hrun.
  destruct (scheme ← _; _) as [[secure [b u]]|x|] eqn:E in Hrun; [|done..].
  assert (Eb : b = base /\ u = Some uri_host).
  { clear -E. destruct (url_scheme lib (r_hub c)) as [s|]; [|done]. cbn [ok_or mbind res_bind] in E.
    destruct (if bool_decide (s = lit "wss") then _ else _) as [sec|x|]; [|done..]. cbn [mbind res_bind] in E.
    destruct (mjoin _); [|done]. by injection E as <- <- <-. }
  destruct Eb as [-> ->]. destruct (tunnel_auth_header lib c now file cache) as [cache' tunnel] eqn:Et. cbn [snd] in Hrun.
  apply bind_Ok in Hrun as (tun & -> & Hrun). cbn [ok_or mbind res_bind] in Hrun.
  unfold auth_headers in Hrun. rewrite Hcc in Hrun. cbn [head hd_error ok_or mbind res_bind] in Hrun. unfold agent_auth_headers in Hrun.
  apply bind_Ok in Hrun as ([ch ah] & Ha & Hrun).
  apply bind_Ok in Ha as (? & _ & Ha). apply bind_Ok in Ha as (? & _ & [= <- <-]).
  apply bind_Ok in Hrun as (name & _ & [= _ <-]).
  set (e := b64_encode (crypto (dial_pki lib))) in *.
  unfold authenticate_ws_upgrade.
  rewrite (check_upgrade_shows _ _ _ _ _ entry cert nonce
    (sign_key c (ws_auth_payload (dial_pki lib) uri_host now_secs nonce)) authority now_secs).
  - destruct (verify_p256_signature _ _ _ _); [by rewrite Hseen|done].
  - apply (honest_upgrade_shows (dial_pki lib) _ cert nonce uri_host (sign_key c) now_secs); try done.
    + rewrite received_insert, bool_decide_false by (vm_compute; discriminate). by rewrite received_insert, bool_decide_true.
    + by rewrite received_insert, bool_decide_true.
    + unfold get_str. rewrite !received_insert, !bool_decide_false by (vm_compute; discriminate).
      destruct tun as [[n v]|]; [|by rewrite Hh]. rewrite received_insert, bool_decide_false, Hh; [done|].
      apply Hn. unfold tunnel_auth_header in Et. destruct (tunnel_token_file c); [|done].
      destruct (current_token lib now file cache) as [cc tk]. injection Et as _ Et.
      apply bind_Ok in Et as (t & _ & Et). case_bool_decide; [done|].
      apply bind_Ok in Et as (nm & Hnm & Et). apply ok_or_Ok in Hnm. by apply bind_Ok in Et as (? & _ & [= <- _]).
Qed.

(** ** The transport *)

Lemma tls_target_Ok secure c n : tls_target lib secure c = Ok n -> n = if secure then Some (server_name c) else None.
Proof. unfold tls_target. destruct secure; [|by intros [= <-]]. intros H. by apply bind_Ok in H as (? & _ & [= <-]). Qed.

Lemma resolve_tls_Ok c b :
  resolve_tls c = Ok b ->
  (cfg_tls c ∈ [lit "on"; lit "true"] /\ b = true) \/ (cfg_tls c ∈ [lit "off"; lit "false"] /\ b = false).
Proof.
  unfold resolve_tls. case_bool_decide as H1; [intros [= <-]; by left|].
  case_bool_decide as H2; [intros [= <-]; by right|done].
Qed.

(** Which connection a configuration leads to: a ws or wss URL is dialled as
    a WebSocket, over TLS exactly if its scheme is wss, whatever [tls] says;
    any other hub is dialled raw, over TLS exactly if [tls] is "on" or "true",
    so that "off" does turn TLS off there.  Without a configured name, the
    name checked in a raw dial is the text before the first colon. *)
Lemma dial_plan_exact env_shell default_shell key cfg c connector_ok now now_secs nonce file cache d :
  resolve_config lib env_shell default_shell key cfg = Ok c ->
  (run_once lib c connector_ok now now_secs nonce file cache).2 = Ok d ->
  connector_ok = true /\
  match d with
  | DialWs tls _ => is_ws (hub cfg) = true /\
      exists scheme, url_scheme lib (hub cfg) = Some scheme /\
        ((scheme = lit "wss" /\ tls = Some (server_name c)) \/ (scheme = lit "ws" /\ tls = None))
  | DialRaw tls => is_ws (hub cfg) = false /\
      ((cfg_tls cfg ∈ [lit "on"; lit "true"] /\ tls = Some (server_name c)) \/ (cfg_tls cfg ∈ [lit "off"; lit "false"] /\ tls = None)) /\
      match cfg_server_name cfg with
      | Some n => server_name c = n
      | None => exists port, hub cfg = server_name c ++ port /\ (":"%byte ∉ server_name c) /\ (port = [] \/ head port = Some ":"%byte)
      end
  end.
Proof.
  unfold resolve_config. intros Hc Hd. apply bind_Ok in Hc as (t & Ht & Hc). apply resolve_tls_Ok in Ht.
  apply bind_Ok in Hc as ([chain sign] & _ & [= <-]). unfold run_once in Hd. destruct connector_ok; [|done]. split; [done|].
  cbn [negb r_hub] in Hd. destruct (is_ws (hub cfg)) eqn:W.
  - unfold run_ws in Hd. cbn [r_hub] in Hd.
    destruct (url_scheme lib (hub cfg)) as [scheme|] eqn:Es; [|done]. cbn [ok_or mbind res_bind] in Hd.
    assert (S : exists secure, (scheme = lit "wss" /\ secure = true \/ scheme = lit "ws" /\ secure = false) /\
      (if bool_decide (scheme = lit "wss") then Ok true
       else if bool_decide (scheme = lit "ws") then Ok false else Err (BadScheme scheme)) = Ok secure).
    { case_bool_decide; [exists true; split; [by left|done]|]. case_bool_decide; [exists false; split; [by right|done]|done]. }
    destruct S as (secure & Hs & E). rewrite E in Hd. cbn [mbind res_bind] in Hd.
    destruct (mjoin _); [|done]. cbn [ok_or mbind res_bind] in Hd. destruct (client_request lib (hub cfg)) as [[base uh]|]; [|done].
    cbn [ok_or mbind res_bind] in Hd. destruct (tunnel_auth_header _ _ _ _ _) as [c' tn]. cbn [snd] in Hd.
    apply bind_Ok in Hd as (tun & _ & Hd). apply bind_Ok in Hd as (h & _ & Hd). apply bind_Ok in Hd as ([ch ah] & _ & Hd).
    apply bind_Ok in Hd as (name & Hn & [= <-]). apply tls_target_Ok in Hn. split; [done|]. exists scheme. split; [done|].
    destruct Hs as [[-> ->]|[-> ->]]; subst name; [by left|by right].
  - cbn [snd] in Hd. apply bind_Ok in Hd as (name & Hn & [= <-]). apply tls_target_Ok in Hn. cbn [tls_on server_name] in *.
    split; [done|]. split; [destruct Ht as [[? ->]|[? ->]]; subst name; [by left|by right]|].
    unfold resolve_server_name. destruct (cfg_server_name cfg) as [n|]; [done|]. rewrite W.
    destruct (position ":" (hub cfg)) as [k|] eqn:P.
    + apply position_Some in P as [P1 P2]. exists (drop k (hub cfg)). split; [by rewrite take_drop|]. split; [done|].
      right. replace (drop k (hub cfg)) with (":"%byte :: drop (S k) (hub cfg)); [done|].
      apply (app_inv_head (take k (hub cfg))). by rewrite take_drop.
    + exists []. rewrite app_nil_r. split; [done|]. split; [|by left]. intros Hin. by apply position_None in P.
Qed.
End Facts.

(** ** Witnesses *)

(** A signature is as long as what it signs. *)
Definition toy_dial_pki : PkiLib := {|
  crypto := {| b64_encode := hex_bytes; b64_decode := unhex_bytes; json_view := json_view toy; sha256 := sha256 toy;
               key_of_sec1 := key_of_sec1 toy; sig_of_der := sig_of_der toy; ecdsa_verify _ m s := s =? len m |};
  std_b64_decode _ := None;
  x509_san := x509_san toy_pki; x509_spki := x509_spki toy_pki; sig_of_slice s := Some (len s); chains_to_ca _ _ _ := true;
|}.

(** URLs of a host, with a port or without. *)
Definition url_port : list byte := lit "ws://hub:8443/agent/connect".
Definition toy_dial : DialLib := {|
  url_host _ := Some (Some (lit "hub"));
  url_scheme _ := Some (lit "ws");
  client_request u := Some ([(lit "host", if bool_decide (u = url_port) then lit "hub:8443" else lit "hub")], Some (lit "hub"));
  header_name n := Some (lit "x-tunnel-authorization");
  header_value_ok _ := true;
  tls_name_ok _ := true;
  json_exp _ := Some 1000;
  dial_pki := toy_dial_pki;
  time_max_secs := 2 ^ 62;
|}.
Definition toy_resolved (url : list byte) : ResolvedConfig :=
  mk_resolved url true (lit "hub") (lit "/bin/sh") default_limits None default_tunnel_auth_header default_tunnel_auth_scheme
    [lit "cert"] (fun m => m).

Lemma perimeter_upgrade_witness :
  (exists hs, (run_ws toy_dial (toy_resolved (lit "ws://hub/agent/connect")) 0 1000 toy_nonce None None).2 = Ok (DialWs None hs) /\
     (authenticate_ws_upgrade toy_dial_pki (received hs) 1 900 5 [toy_entry] ∅).2 = Ok (lit "alpha")) /\
  (exists hs, (run_ws toy_dial (toy_resolved url_port) 0 1000 toy_nonce None None).2 = Ok (DialWs None hs) /\
     (authenticate_ws_upgrade toy_dial_pki (received hs) 1 900 5 [toy_entry] ∅).2 = Err BadSignature).
Proof.
  assert (T : forall url authority hs,
    url = lit "ws://hub/agent/connect" /\ authority = lit "hub" \/ url = url_port /\ authority = lit "hub:8443" ->
    (run_ws toy_dial (toy_resolved url) 0 1000 toy_nonce None None).2 = Ok (DialWs None hs) ->
    (authenticate_ws_upgrade toy_dial_pki (received hs) 1 900 5 [toy_entry] ∅).2 =
    if verify_p256_signature toy_dial_pki (lit "cert") (ws_auth_payload toy_dial_pki authority 1000 toy_nonce)
         (ws_auth_payload toy_dial_pki (lit "hub") 1000 toy_nonce)
    then Ok (machine_id toy_entry) else Err BadSignature).
  { intros url authority hs Hu.
    apply (perimeter_upgrade toy_dial (toy_resolved url) (lit "cert") [] [(lit "host", authority)] (lit "hub") authority 0 1000 toy_nonce
      None None 1 900 5 [toy_entry] ∅ toy_entry); try reflexivity; try (vm_compute; discriminate).
    - destruct Hu as [[-> ->]|[-> ->]]; reflexivity.
    - intros n [= <-]. vm_compute. discriminate.
    - apply unhex_hex.
    - apply hex_visible.
    - split; [vm_compute; discriminate|vm_compute; reflexivity].
    - split; vm_compute; reflexivity. }
  split; eexists; (split; [vm_compute; reflexivity|]).
  - etransitivity; [apply (T (lit "ws://hub/agent/connect") (lit "hub")); [left; split; reflexivity|vm_compute; reflexivity]|].
    vm_compute. reflexivity.
  - etransitivity; [apply (T url_port (lit "hub:8443")); [right; split; reflexivity|vm_compute; reflexivity]|].
    vm_compute. reflexivity.
Defined.

Lemma dial_plan_exact_witness :
  let cfg := mk_agent_config (lit "hub:7700") (lit "off") None None None [] [] (mk_config_limits None None None None None) in
  exists c, resolve_config toy_dial None (lit "/bin/sh") (Pkcs8 [lit "cert"] (fun m => m)) cfg = Ok c /\
    (run_once toy_dial c true 0 0 [] None None).2 = Ok (DialRaw None) /\ cfg_tls cfg ∈ [lit "off"; lit "false"].
Proof.
  cbn zeta. eexists. split; [reflexivity|]. split; [reflexivity|].
  pose proof (dial_plan_exact toy_dial None (lit "/bin/sh") (Pkcs8 [lit "cert"] (fun m => m))
    (mk_agent_config (lit "hub:7700") (lit "off") None None None [] [] (mk_config_limits None None None None None))
    _ true 0 0 [] None None _ eq_refl eq_refl) as (_ & _ & [[_ W]|[W _]] & _); [discriminate W|exact W].
Defined.
