(* ===== verification/HubWs.v ===== *)
(** * HubWs: frames over the hub's WebSocket to an agent
    ([hub/src/agent_ws.rs], and its counterpart in [agent/src/wsdial.rs])

    The two ends of an agent's connection behind a perimeter: what one writes,
    the other reads. *)

From Stdlib Require Import Strings.Byte.
From stdpp Require Import prelude list.
From S2P Require Import Prelude Frame FrameFacts Transport Proxy Dial.
Open Scope Z_scope.

(** [WsRecv::recv] of the hub: what is left of the messages, and a frame, the
    end, or an error. *)
Fixpoint hub_ws_recv (ms : list WsMessage) : list WsMessage * res FrameError (option (Frame * Z)) :=
  match ms with
  | WsBinary data :: ms => (ms, (fun r => Some r) <$> frame_from_ws_payload data)
  | (WsPing | WsPong | WsText) :: ms => hub_ws_recv ms
  | (WsClose | WsEnd | WsError) :: ms => (ms, Ok None)
  | [] => ([], Ok None)
  end.

(** [WsSend::send] and [close], the same on both sides: the messages on the
    wire. *)
Definition ws_send (bytes : list byte) (wire : list WsMessage) : list WsMessage := wire ++ [WsBinary bytes].
Definition ws_close (wire : list WsMessage) : list WsMessage := wire ++ [WsClose].

(** Everything a reader gets, up to the end or an error; a read takes at least
    one message. *)
Fixpoint ws_frames (recv : list WsMessage -> list WsMessage * res FrameError (option (Frame * Z))) (fuel : nat)
    (ms : list WsMessage) : list Frame * option FrameError :=
  match fuel with
  | O => ([], None)
  | S fuel =>
      match recv ms with
      | (ms, Ok (Some (f, _))) => let '(fs, e) := ws_frames recv fuel ms in (f :: fs, e)
      | (_, Err e) => ([], Some e)
      | (_, _) => ([], None)
      end
  end.

(** ** Properties *)

(** The two readers are the same. *)
Lemma hub_reads_like_the_agent ms : hub_ws_recv ms = ws_recv ms.
Proof. induction ms as [|[] ms IH]; cbn [hub_ws_recv ws_recv]; try done. Qed.

(** Messages that are no frames, and change nothing. *)
Definition is_noise (m : WsMessage) : bool := match m with WsPing | WsPong | WsText => true | _ => false end.

Lemma hub_ws_recv_noise ms rest : forallb is_noise ms = true -> hub_ws_recv (ms ++ rest) = hub_ws_recv rest.
Proof. induction ms as [|m ms IH]; [done|]. cbn [forallb app]. intros [Hm Hms]%andb_true_iff. destruct m; try done; cbn; by apply IH. Qed.

(** The frames of a wire on which one side sent these, whatever pings, pongs
    and texts are in between, and then closed or stopped. *)
Definition carries (ms : list WsMessage) (fs : list Frame) : Prop :=
  List.filter (fun m => negb (is_noise m)) ms = ((fun f => WsBinary (encode f)) <$> fs) ++ [WsClose].

Lemma sent_is_carried fs : carries (ws_close (foldl (fun w f => ws_send (encode f) w) [] fs)) fs.
Proof.
  unfold carries, ws_close, ws_send.
  assert (E : forall w, foldl (fun w f => w ++ [WsBinary (encode f)]) w fs = w ++ ((fun f => WsBinary (encode f)) <$> fs)).
  { induction fs as [|f fs IH]; intros w; cbn; [by rewrite app_nil_r|]. by rewrite IH, <- app_assoc. }
  rewrite E, app_nil_l, List.filter_app. f_equal. clear E. induction fs as [|f fs IH]; [done|].
  change (WsBinary (encode f) :: List.filter (fun m => negb (is_noise m)) ((fun f => WsBinary (encode f)) <$> fs) =
    WsBinary (encode f) :: ((fun f => WsBinary (encode f)) <$> fs)). by rewrite IH.
Qed.

(** Both ends of the connection hand on exactly the frames that were sent, in
    order, and then the end. *)
Lemma ws_delivers ms fs :
  Forall wf_frame fs -> carries ms fs -> forall fuel, (length ms <= fuel)%nat ->
  ws_frames hub_ws_recv fuel ms = (fs, None) /\ ws_frames ws_recv fuel ms = (fs, None).
Proof.
  intros Hf Hc.
  assert (G : forall fuel, (length ms <= fuel)%nat -> ws_frames hub_ws_recv fuel ms = (fs, None)).
  { revert ms Hc. induction Hf as [|f fs Hf _ IH]; intros ms Hc fuel Hl.
    - assert (exists a b, ms = a ++ WsClose :: b /\ forallb is_noise a = true) as (a & b & -> & Ha).
      { unfold carries in Hc. cbn in Hc. clear Hl. induction ms as [|m ms IH]; [done|]. cbn in Hc. destruct (is_noise m) eqn:Em; cbn in Hc.
        - destruct (IH Hc) as (a & b & -> & Ha). exists (m :: a), b. cbn. by rewrite Em.
        - injection Hc as -> Hc. by exists [], ms. }
      destruct fuel as [|fuel]; [rewrite length_app in Hl; cbn in Hl; lia|]. cbn [ws_frames].
      rewrite hub_ws_recv_noise by done. reflexivity.
    - assert (exists a b, ms = a ++ WsBinary (encode f) :: b /\ forallb is_noise a = true /\ carries b fs) as (a & b & -> & Ha & Hb).
      { unfold carries in *. cbn in Hc. clear Hl IH. induction ms as [|m ms IHm]; [done|]. cbn in Hc. destruct (is_noise m) eqn:Em; cbn in Hc.
        - destruct (IHm Hc) as (a & b & -> & Ha & Hb). exists (m :: a), b. cbn. by rewrite Em.
        - injection Hc as -> Hc. by exists [], ms. }
      destruct fuel as [|fuel]; [rewrite length_app in Hl; cbn in Hl; lia|]. cbn [ws_frames].
      rewrite hub_ws_recv_noise by done. cbn [hub_ws_recv]. rewrite ws_payload_encode by done. cbn.
      rewrite (IH b Hb); [done|]. rewrite length_app in Hl. cbn in Hl. lia. }
  intros fuel Hl. split; [by apply G|]. rewrite <- (G fuel Hl). clear. revert ms.
  induction fuel as [|fuel IH]; intros ms; [done|]. cbn [ws_frames]. rewrite <- (hub_reads_like_the_agent ms).
  destruct (hub_ws_recv ms) as [ms' [[[f n]|]|e|]]; [|done..]. by rewrite IH.
Qed.
