(* ===== verification/FrameLink.v ===== *)
(** * FrameLink: what a connection promises ([FrameRecv] and [FrameSend] of
    [common/src/transport.rs])

    [run_session] and [handle_connection] are generic in their transport.  The
    class states what both rely on, whichever it is: frames arrive whole, in
    order and without loss, and then the end.  The byte stream and the WebSocket
    implement it; what is proved against the class holds for both. *)

From Stdlib Require Import Strings.Byte.
From stdpp Require Import prelude list.
From S2P Require Import Prelude Frame FrameFacts Transport Proxy Dial HubWs.
Open Scope Z_scope.

(** The two traits: a connection that works, one direction of it with both its
    ends. *)
Class FrameSend (W : Type) := { fs_send : list byte -> W -> W; fs_close : W -> W }.
Class FrameRecv (W : Type) := { fr_recv : W -> res FrameError (option (Frame * Z)) * W }.

(** [in_transit w fs closed]: [fs] was sent and not received, and the sender has
    closed or not. *)
Class FrameLink (W : Type) `{FrameSend W, FrameRecv W} := {
  fresh_link : W;
  in_transit : W -> list Frame -> bool -> Prop;
  transit_fresh : in_transit fresh_link [] false;
  transit_send : forall w fs f, wf_frame f -> in_transit w fs false -> in_transit (fs_send (encode f) w) (fs ++ [f]) false;
  transit_close : forall w fs, in_transit w fs false -> in_transit (fs_close w) fs true;
  transit_recv : forall w f fs c, in_transit w (f :: fs) c ->
    exists w', fr_recv w = (Ok (Some (f, len (encode f))), w') /\ in_transit w' fs c;
  transit_end : forall w, in_transit w [] true -> exists w', fr_recv w = (Ok None, w');
}.

(** ** A consumer *)

Section Link.
Context {W : Type} `{FrameLink W}.

(** Sending one frame after the other, and closing. *)
Definition send_frames (fs : list Frame) (w : W) : W := foldl (fun w f => fs_send (encode f) w) w fs.
(** Reading until the end or an error. *)
Fixpoint read_frames (fuel : nat) (w : W) : list Frame * res FrameError bool :=
  match fuel with
  | O => ([], Ok false)
  | S k => match fr_recv w with
           | (Ok (Some (f, _)), w) => let '(fs, e) := read_frames k w in (f :: fs, e)
           | (Ok None, _) => ([], Ok true)
           | (Err e, _) => ([], Err e)
           | (Panic, _) => ([], Panic)
           end
  end.

Lemma send_in_transit fs w gs : Forall wf_frame fs -> in_transit w gs false -> in_transit (send_frames fs w) (gs ++ fs) false.
Proof.
  intros Hf. revert w gs. induction Hf as [|f fs Hf _ IH]; intros w gs Hw; [by rewrite app_nil_r|].
  cbn [send_frames foldl]. change (f :: fs) with ([f] ++ fs). rewrite app_assoc. by apply IH, transit_send.
Qed.

(** On any such connection the peer reads what was sent, frame by frame, and
    then the end. *)
Lemma frames_cross fs : Forall wf_frame fs ->
  read_frames (S (length fs)) (fs_close (send_frames fs fresh_link)) = (fs, Ok true).
Proof.
  intros Hf. pose proof (transit_close _ _ (send_in_transit fs fresh_link [] Hf transit_fresh)) as T. cbn [app] in T.
  revert T. generalize (fs_close (send_frames fs fresh_link)). clear Hf. induction fs as [|f fs IH]; intros w T.
  - cbn. by destruct (transit_end w T) as [w' ->].
  - destruct (transit_recv w f fs true T) as (w' & E & T'). specialize (IH w' T'). cbn [length].
    remember (S (length fs)) as k. cbn [read_frames]. by rewrite E, IH.
Qed.
End Link.

(** ** TCP and TLS: [ByteStreamSend] and [ByteStreamRecv] *)

#[export] Instance byte_stream_send : FrameSend (list byte) := { fs_send bytes w := w ++ bytes; fs_close w := w }.
#[export] Instance byte_stream_recv : FrameRecv (list byte) := { fr_recv w := recv w }.
#[export, refine] Instance byte_stream_link : FrameLink (list byte) := {
  fresh_link := [];
  in_transit w fs _ := Forall wf_frame fs /\ w = concat (map encode fs);
}.
Proof.
  - done.
  - intros w fs f Wf [Hf ->]. split; [by apply Forall_app; split; [|constructor]|]. rewrite map_app, concat_app. cbn. by rewrite app_nil_r.
  - done.
  - intros w f fs _ [Hf ->]. apply Forall_cons in Hf as [Wf Hf].
    destruct (recv_encode (R:=list byte) (encode f ++ concat (map encode fs)) f (concat (map encode fs)) Wf) as (r' & Hr & Er); [done|].
    exists r'. split; [exact Hr|by split].
  - intros w [_ ->]. destruct (recv_eof (R:=list byte) []) as (r' & Hr); [done|]. eauto.
Defined.

(** ** WebSocket: [WsSend] and [WsRecv], of the hub and of the agent

    One message per frame; pings, pongs and texts may come in between. *)

#[export] Instance web_socket_send : FrameSend (list WsMessage) := { fs_send := ws_send; fs_close := ws_close }.
#[export] Instance web_socket_recv : FrameRecv (list WsMessage) := { fr_recv w := let '(w, r) := hub_ws_recv w in (r, w) }.

Definition ws_in_transit (w : list WsMessage) (fs : list Frame) (closed : bool) : Prop :=
  Forall wf_frame fs /\
  List.filter (fun m => negb (is_noise m)) w = ((fun f => WsBinary (encode f)) <$> fs) ++ (if closed then [WsClose] else []).

(** The first message that counts. *)
Lemma first_message w m ms : List.filter (fun m => negb (is_noise m)) w = m :: ms ->
  exists a b, w = a ++ m :: b /\ forallb is_noise a = true /\ List.filter (fun m => negb (is_noise m)) b = ms.
Proof.
  induction w as [|x w IH]; [done|]. cbn. destruct (is_noise x) eqn:Ex; cbn.
  - intros Hw. destruct (IH Hw) as (a & b & -> & Ha & Hb). exists (x :: a), b. cbn. by rewrite Ex.
  - intros [= -> <-]. by exists [], w.
Qed.

#[export, refine] Instance web_socket_link : FrameLink (list WsMessage) := { fresh_link := []; in_transit := ws_in_transit }.
Proof.
  - done.
  - intros w fs f Wf [Hf Hw]. split; [by apply Forall_app; split; [|constructor]|]. cbn. unfold ws_send.
    rewrite List.filter_app, Hw, app_nil_r, fmap_app. cbn. by rewrite app_nil_r.
  - intros w fs [Hf Hw]. split; [done|]. cbn. unfold ws_close. rewrite List.filter_app, Hw, app_nil_r. done.
  - intros w f fs c [Hf Hw]. apply Forall_cons in Hf as [Wf Hf]. rewrite fmap_cons in Hw.
    destruct (first_message _ _ _ Hw) as (a & b & -> & Ha & Hb). exists b.
    unfold fr_recv, web_socket_recv. rewrite hub_ws_recv_noise by done. cbn [hub_ws_recv]. by rewrite ws_payload_encode.
  - intros w [_ Hw]. destruct (first_message _ _ _ Hw) as (a & b & -> & Ha & _). cbn. rewrite hub_ws_recv_noise by done. cbn. eauto.
Defined.
