(* ===== verification/HubMain.v ===== *)
(** * HubMain: what the hub does on its own ([spawn_issued_certs_reloader] and
    [spawn_ws_replay_gc] of [hub/src/main.rs], [spawn_reloader] of
    [hub/src/tls_files.rs])

    Three tasks of a running hub wake on an interval: one reads the list of
    issued certificates again, one sweeps the replay cache, one reads the TLS
    files again.  They share their data with the TLS handshakes and the
    WebSocket upgrades of agents.  Here they run together, on one clock (in
    nanoseconds), with the events of the runtime in any order; what the
    theorems assume of the runtime is only that it polls a task that is due
    within some time [lag]. *)

From Stdlib Require Import Strings.Byte.
From stdpp Require Import prelude strings list gmap.
From S2P Require Import Prelude Utf8 Std Timers Webauthn Auth AgentAuth AgentAuthFacts Pem HubConfig HubAdmin HubAdminFacts.

(** ** The tasks and what they share *)

Record Background := mk_background {
  issued_certs : IssuedCertStore;
  ws_replay : ReplayCache;
  resolver : option (list (list byte) * PrivateKey);   (** the pair served, where TLS comes from files *)
  certs_tick : Ticker;
  gc_tick : Ticker;
  tls_tick : option Ticker;                            (** no task without TLS files, or with a period of 0 *)
}.

(** The tasks [main] and [serve_files] spawn, on what they loaded. *)
Definition spawn_tasks (served : Served) (store : IssuedCertStore) (served_pair : option (list (list byte) * PrivateKey)) : Background :=
  mk_background store ∅ served_pair (mk_ticker (30 * SECOND) Burst None) (mk_ticker (60 * SECOND) Burst None)
    ((fun p => mk_ticker (p * SECOND) Skip None) <$> sv_reload served).

Section Hub.
Variables (alib : AdminLib) (ca : list byte) (supported : PrivateKey -> bool) (min_instant : Z).
Let lib := pki_with alib ca.

(** What happens to a running hub: the runtime polls one of the tasks, which
    would find these files; an agent's TLS handshake with these certificates;
    an agent's upgrade with these headers.  [now] is the system clock in
    seconds. *)
Inductive BackgroundEvent :=
| PollCerts (file : CertsFile)
| PollGc
| PollTls (files : option (list byte) * option (list byte))
| RawConnect (certs : list (list byte)) (now : Z)
| WsConnect (h : Headers) (now_chain now : Z).

(** The event at instant [t]. *)
Definition background_step (s : Background) (te : Z * BackgroundEvent) : Background :=
  let '(t, e) := te in
  match e with
  | PollCerts file =>
      let '(k, runs) := tick_poll t (certs_tick s) in
      mk_background (if runs then reload_certs alib file (issued_certs s) else issued_certs s)
        (ws_replay s) (resolver s) k (gc_tick s) (tls_tick s)
  | PollGc =>
      let '(k, runs) := tick_poll t (gc_tick s) in
      mk_background (issued_certs s) (if runs then gc_ws_replay min_instant t (ws_replay s) else ws_replay s)
        (resolver s) (certs_tick s) k (tls_tick s)
  | PollTls files =>
      match tls_tick s, resolver s with
      | Some k, Some ck =>
          let '(k, runs) := tick_poll t k in
          mk_background (issued_certs s) (ws_replay s)
            (Some (if runs then (reload_tick (pem alib) supported ck files).1 else ck))
            (certs_tick s) (gc_tick s) (Some k)
      | _, _ => s
      end
  | RawConnect _ _ => s
  | WsConnect h nc now =>
      mk_background (issued_certs s) (authenticate_ws_upgrade lib h nc now t (issued_certs s) (ws_replay s)).1
        (resolver s) (certs_tick s) (gc_tick s) (tls_tick s)
  end.
Definition hub_run (es : list (Z * BackgroundEvent)) (s : Background) : Background := foldl background_step s es.

(** The machine a connection is let in as. *)
Definition raw_answer (s : Background) (certs : list (list byte)) (now : Z) : option (list byte) :=
  accept_raw lib certs now (issued_certs s).
Definition ws_answer (s : Background) (t : Z) (h : Headers) (nc now : Z) : res UpgradeRejection (list byte) :=
  (authenticate_ws_upgrade lib h nc now t (issued_certs s) (ws_replay s)).2.

(** ** Properties *)

Record tasks_ok (tls_period : option Z) (now : Z) (s : Background) : Prop := {
  ok_certs : ticker_ok now (certs_tick s) /\ period (certs_tick s) = 30 * SECOND;
  ok_gc : ticker_ok now (gc_tick s) /\ period (gc_tick s) = 60 * SECOND;
  ok_tls : (forall k, tls_tick s = Some k -> ticker_ok now k) /\ period <$> tls_tick s = tls_period;
}.

Lemma spawn_tasks_ok now served store ck :
  tasks_ok ((fun p => p * SECOND) <$> sv_reload served) now (spawn_tasks served store ck).
Proof. split; (split; [|by destruct served as [? [|] ?]]); [done..|]. intros k Hk. by destruct served as [? [|] ?]; simplify_eq/=. Qed.

Lemma hub_step_ok p T s te : te.1 <= T -> tasks_ok p T s -> tasks_ok p T (background_step s te).
Proof.
  destruct te as [t e]. cbn [fst]. intros Ht [[H1 P1] [H2 P2] [H3 P3]]. unfold background_step.
  destruct e as [file| |files|certs now|h nc now].
  - pose proof (tick_poll_ok T t _ Ht H1). pose proof (tick_poll_period t (certs_tick s)).
    destruct (tick_poll t (certs_tick s)). split; try done. split; [done|]. cbn in *. congruence.
  - pose proof (tick_poll_ok T t _ Ht H2). pose proof (tick_poll_period t (gc_tick s)).
    destruct (tick_poll t (gc_tick s)). split; try done. split; [done|]. cbn in *. congruence.
  - destruct (tls_tick s) as [k|] eqn:Ek; [|by split; rewrite ?Ek]. destruct (resolver s); [|by split; rewrite ?Ek].
    pose proof (tick_poll_ok T t _ Ht (H3 k eq_refl)). pose proof (tick_poll_period t k). destruct (tick_poll t k).
    split; try done. cbn in *. split; [by intros ? [= <-]|congruence].
  - done.
  - done.
Qed.
Lemma hub_run_ok p T es s : Forall (fun te => te.1 <= T) es -> tasks_ok p T s -> tasks_ok p T (hub_run es s).
Proof.
  intros Hes. revert s. induction Hes as [|te es Ht _ IH]; intros s Hs; [done|]. cbn [hub_run foldl]. by apply IH, hub_step_ok.
Qed.

(** What the body of a task establishes holds unless its timer still stands. *)
Lemma hub_run_keeps (P : Background -> Prop) es s :
  Forall (fun te => forall s, P s -> P (background_step s te)) es -> P s -> P (hub_run es s).
Proof.
  intros Hes. revert s. induction Hes as [|te es Hte _ IH]; intros s Hs; [done|]. cbn [hub_run foldl]. by apply IH, Hte.
Qed.
Lemma catches_up (P : Background -> Prop) (sel : Background -> option Z) es s d :
  Forall (fun te => forall s, P s -> P (background_step s te)) es ->
  Forall (fun te => forall s, sel s <> None -> sel (background_step s te) = sel s \/ P (background_step s te)) es ->
  sel s = Some d -> P (hub_run es s) \/ sel (hub_run es s) = Some d.
Proof.
  intros Hk Hes. revert s. induction Hes as [|te es Hte _ IH]; intros s Hd; [by right|].
  apply Forall_cons in Hk as [Hk1 Hk]. cbn [hub_run foldl].
  destruct (Hte s) as [E|HP]; [by rewrite Hd|apply (IH Hk); by rewrite E|]. left. by apply (hub_run_keeps P es).
Qed.

(** Each datum is written by its own task only, but for the nonces of the
    upgrades. *)
Lemma hub_step_frame s te :
  match te.2 with
  | PollCerts _ => True
  | _ => issued_certs (background_step s te) = issued_certs s /\ certs_tick (background_step s te) = certs_tick s
  end /\
  match te.2 with
  | PollGc => True
  | WsConnect _ _ _ => gc_tick (background_step s te) = gc_tick s
  | _ => ws_replay (background_step s te) = ws_replay s /\ gc_tick (background_step s te) = gc_tick s
  end /\
  match te.2 with
  | PollTls _ => True
  | _ => resolver (background_step s te) = resolver s /\ tls_tick (background_step s te) = tls_tick s
  end.
Proof.
  destruct te as [t [file| |files|certs now|h nc now]]; cbn [snd background_step].
  - by destruct (tick_poll t (certs_tick s)).
  - by destruct (tick_poll t (gc_tick s)).
  - destruct (tls_tick s), (resolver s); try done. by destruct (tick_poll t _).
  - done.
  - done.
Qed.

(** *** The list of issued certificates *)

(** The certificate an upgrade presents. *)
Definition presented (h : Headers) : option (list byte) :=
  match bounded_header HEADER_AGENT_CERT h MAX_AGENT_CERT_HEADER_BYTES MissingCert CertNotAscii CertTooLong with
  | Ok text => match b64_decode (crypto lib) text with Some c => Some c | None => std_b64_decode lib text end
  | _ => None
  end.

(** What a store says about other certificates does not matter. *)
Lemma verify_client_cert_store cert chain now store store' :
  find_by_fingerprint (cert_fingerprint lib cert) store = find_by_fingerprint (cert_fingerprint lib cert) store' ->
  verify_client_cert lib cert chain now store = verify_client_cert lib cert chain now store'.
Proof. unfold verify_client_cert. by intros ->. Qed.
Lemma upgrade_store h nc now t cert store store' cache :
  presented h = Some cert ->
  find_by_fingerprint (cert_fingerprint lib cert) store = find_by_fingerprint (cert_fingerprint lib cert) store' ->
  authenticate_ws_upgrade lib h nc now t store cache = authenticate_ws_upgrade lib h nc now t store' cache.
Proof.
  unfold authenticate_ws_upgrade, check_upgrade, presented. intros Hp Hf.
  destruct (bounded_header HEADER_AGENT_CERT _ _ _ _ _) as [text|e|]; [|done..]. cbn [mbind res_bind].
  destruct (bounded_header HEADER_AGENT_AUTH _ _ _ _ _); [|done..]. cbn [mbind res_bind]. rewrite Hp. cbn [ok_or mbind res_bind].
  by rewrite Hf.
Qed.

Definition says (fp : list byte) (found : option IssuedCertEntry) (s : Background) : Prop :=
  find_by_fingerprint fp (issued_certs s) = found.
Definition reads_say (fp : list byte) (found : option IssuedCertEntry) (te : Z * BackgroundEvent) : Prop :=
  match te.2 with
  | PollCerts file => exists rows, load_certs alib file = Ok rows /\ find_by_fingerprint fp (row_entry <$> rows) = found
  | _ => True
  end.

Lemma list_is_read fp found es s d :
  Forall (reads_say fp found) es -> due (certs_tick s) = Some d ->
  says fp found (hub_run es s) \/ due (certs_tick (hub_run es s)) = Some d.
Proof.
  intros Hes. apply (catches_up (says fp found) (fun s => due (certs_tick s)));
    (eapply Forall_impl; [exact Hes|]); intros te Hr s' Hs; unfold says; destruct (hub_step_frame s' te) as (F & _ & _);
    destruct te as [t [file| |files|certs now|h nc now]]; try (rewrite ?(proj1 F), ?(proj2 F); auto; fail);
    destruct Hr as (rows & El & Ef); cbn [background_step].
  - destruct (tick_poll t (certs_tick s')) as [k [|]]; [|done]. cbn [issued_certs]. unfold reload_certs. by rewrite El.
  - destruct (tick_poll_started t _ Hs) as [->|Hruns]; [by left|]. destruct (tick_poll t (certs_tick s')) as [k r].
    cbn in Hruns. subst r. right. cbn [issued_certs]. unfold reload_certs. by rewrite El.
Qed.

(** *** The replay cache *)

(** Every nonce the cache remembers was seen at [T] or later. *)
Definition seen_since (T : Z) (s : Background) : Prop := forall key t, ws_replay s !! key = Some t -> T <= t.

Lemma upgrade_seen T h nc now t s :
  T <= t -> seen_since T s -> forall key i,
  (authenticate_ws_upgrade lib h nc now t (issued_certs s) (ws_replay s)).1 !! key = Some i -> T <= i.
Proof.
  intros Ht Hs key i. unfold authenticate_ws_upgrade.
  destruct (check_upgrade lib h nc now (issued_certs s)) as [[[e fp] n]|e|]; [|apply Hs..].
  destruct (ws_replay s !! (fp, n)); [apply Hs|]. cbn [fst]. rewrite lookup_insert.
  case_decide; [by intros [= <-]|apply Hs].
Qed.

Lemma sweep_forgets T t c key i :
  min_instant <= T -> T <= t - WS_REPLAY_TTL_SECS * SECOND -> gc_ws_replay min_instant t c !! key = Some i -> T <= i.
Proof.
  intros Hm Ht. unfold gc_ws_replay. fold SECOND. rewrite (proj2 (Z.leb_le min_instant _)) by lia.
  rewrite map_lookup_filter_Some. cbn. lia.
Qed.

Lemma cache_is_swept T es s d :
  min_instant <= T - WS_REPLAY_TTL_SECS * SECOND -> Forall (fun te => T <= te.1) es -> due (gc_tick s) = Some d ->
  seen_since (T - WS_REPLAY_TTL_SECS * SECOND) (hub_run es s) \/ due (gc_tick (hub_run es s)) = Some d.
Proof.
  intros Hm Hes.
  apply (catches_up (seen_since (T - WS_REPLAY_TTL_SECS * SECOND)) (fun s => due (gc_tick s)));
    (eapply Forall_impl; [exact Hes|]); intros te Ht s' Hs; destruct (hub_step_frame s' te) as (_ & F & _);
    destruct te as [t e]; cbn [fst] in Ht.
  - destruct e as [file| |files|certs now|h nc now]; try (intros key i; rewrite (proj1 F); apply Hs).
    + cbn [background_step]. destruct (tick_poll t (gc_tick s')) as [k [|]]; [|done]. intros key i. apply sweep_forgets; [done|lia].
    + intros key i. cbn [background_step ws_replay]. apply upgrade_seen; [|done]. unfold WS_REPLAY_TTL_SECS, WS_AUTH_SKEW_SECS, SECOND. lia.
  - destruct e as [file| |files|certs now|h nc now]; try (left; first [by rewrite F | by rewrite (proj2 F)]).
    cbn [background_step]. destruct (tick_poll_started t _ Hs) as [->|Hruns]; [by left|]. right.
    destruct (tick_poll t (gc_tick s')) as [k r]. cbn in Hruns. subst r. intros key i. apply sweep_forgets; [done|lia].
Qed.

(** *** The TLS files *)

Definition serves (ck : list (list byte) * PrivateKey) (s : Background) : Prop := resolver s = Some ck.
Definition reads_pair (ck : list (list byte) * PrivateKey) (te : Z * BackgroundEvent) : Prop :=
  match te.2 with PollTls files => load_certified_key (pem alib) supported files.1 files.2 = Ok ck | _ => True end.

Lemma pair_is_read ck es s d :
  Forall (reads_pair ck) es -> tls_tick s ≫= due = Some d ->
  (serves ck (hub_run es s) \/ resolver (hub_run es s) = None) \/ tls_tick (hub_run es s) ≫= due = Some d.
Proof.
  intros Hes. apply (catches_up (fun s => serves ck s \/ resolver s = None) (fun s => tls_tick s ≫= due));
    (eapply Forall_impl; [exact Hes|]); intros te Hr s' Hs; unfold serves in *; destruct (hub_step_frame s' te) as (_ & _ & F);
    destruct te as [t [file| |files|certs now|h nc now]]; try (rewrite ?(proj1 F), ?(proj2 F); auto; fail);
    unfold reads_pair in Hr; cbn [snd] in Hr; cbn [background_step]; destruct (tls_tick s') as [k|], (resolver s') as [c|] eqn:Er; auto.
  - destruct Hs as [[= ->]|]; [|done]. destruct (tick_poll t k) as [k' [|]]; [|by left]. left. cbn [resolver].
    unfold reload_tick. by rewrite Hr.
  - cbn in Hs. destruct (tick_poll_started t k Hs) as [->|Hruns]; [by left|]. right; left. destruct (tick_poll t k) as [k' r].
    cbn in Hruns. subst r. cbn [resolver]. unfold reload_tick. by rewrite Hr.
  - by destruct Hs.
Qed.

(** *** When a change takes effect

    A hub is spawned with what it loaded and runs until [T]; from then on it
    runs to an instant [t] at which the task in question is not late by more
    than [lag]. *)


Context (served : Served) (store : IssuedCertStore) (ck0 : option (list (list byte) * PrivateKey)).
Context (es1 es2 : list (Z * BackgroundEvent)) (T lag t : Z).
Hypothesis before : Forall (fun te => te.1 <= T) es1.
Let s1 := hub_run es1 (spawn_tasks served store ck0).
Let s2 := hub_run es2 s1.

Lemma running : tasks_ok ((fun p => p * SECOND) <$> sv_reload served) T s1.
Proof. apply hub_run_ok, spawn_tasks_ok. exact before. Qed.

(** [C17] What the list on disk says about a certificate decides within half a
    minute, and the runtime's lag, about every connection with it: if all
    reads of the list after [T] find the same about its fingerprint, an entry or none, then
    later than that every TLS handshake with this certificate and every upgrade
    that presents it is answered as if the list held just that; in particular,
    if its entry is gone, neither is let in. *)
Theorem list_changes_take_effect cert found :
  Forall (reads_say (cert_fingerprint lib cert) found) es2 ->
  due (certs_tick s1) <> None -> on_time lag t (certs_tick s2) -> T + 30 * SECOND + lag < t ->
  (forall chain now, raw_answer s2 (cert :: chain) now = accept_raw lib (cert :: chain) now (option_list found)) /\
  (forall h nc now, presented h = Some cert ->
     ws_answer s2 t h nc now = (authenticate_ws_upgrade lib h nc now t (option_list found) (ws_replay s2)).2) /\
  (found = None ->
     (forall chain now, raw_answer s2 (cert :: chain) now = None) /\
     (forall h nc now id, presented h = Some cert -> ws_answer s2 t h nc now <> Ok id)).
Proof.
  intros Hr Hd Hlag Ht. destruct (due (certs_tick s1)) as [d|] eqn:Ed; [|done].
  destruct (ok_certs _ _ _ running) as [Hk Hp]. unfold ticker_ok in Hk. rewrite Hp in Hk.
  assert (Hd30 : d <= T + 30 * SECOND) by (apply Hk; [unfold SECOND; lia|done]).
  destruct (list_is_read _ _ es2 s1 d Hr Ed) as [Hs|Hs]; [|specialize (Hlag d Hs); lia].
  assert (F : find_by_fingerprint (cert_fingerprint lib cert) (issued_certs s2) =
    find_by_fingerprint (cert_fingerprint lib cert) (option_list found)).
  { change (find_by_fingerprint (cert_fingerprint lib cert) (issued_certs s2) = found) in Hs. rewrite Hs.
    destruct found as [e|]; [|done]. unfold find_by_fingerprint in Hs. apply List.find_some in Hs as [_ E].
    cbn. by rewrite E. }
  assert (A : forall chain now, raw_answer s2 (cert :: chain) now = accept_raw lib (cert :: chain) now (option_list found)).
  { intros chain now. unfold raw_answer, accept_raw. by rewrite (verify_client_cert_store _ _ _ _ _ F). }
  assert (B : forall h nc now, presented h = Some cert ->
     ws_answer s2 t h nc now = (authenticate_ws_upgrade lib h nc now t (option_list found) (ws_replay s2)).2).
  { intros h nc now Hh. unfold ws_answer. by rewrite (upgrade_store _ _ _ _ _ _ _ _ Hh F). }
  split; [done|]. split; [done|]. intros ->. split.
  - intros chain now. rewrite A. unfold accept_raw, verify_client_cert. by destruct (chains_to_ca _ _ _ _).
  - intros h nc now id Hh H. rewrite B in H by done. apply upgrade_accepted_iff in H as (e & fp & n & Hu & _).
    destruct Hu as (? & ? & ? & ? & ? & ? & _ & _ & _ & _ & _ & _ & [Hf _] & _). done.
Qed.

(** The replay cache forgets: it holds no nonce seen more than ten minutes, the
    minute between two sweeps and the runtime's lag ago. *)
Lemma nonces_are_forgotten key i :
  min_instant <= T - WS_REPLAY_TTL_SECS * SECOND -> Forall (fun te => T <= te.1) es2 ->
  due (gc_tick s1) <> None -> on_time lag t (gc_tick s2) -> T + 60 * SECOND + lag < t ->
  ws_replay s2 !! key = Some i -> T - WS_REPLAY_TTL_SECS * SECOND <= i.
Proof.
  intros Hm Hes Hd Hlag Ht. destruct (due (gc_tick s1)) as [d|] eqn:Ed; [|done].
  destruct (ok_gc _ _ _ running) as [Hk Hp]. unfold ticker_ok in Hk. rewrite Hp in Hk.
  assert (Hd60 : d <= T + 60 * SECOND) by (apply Hk; [unfold SECOND; lia|done]).
  destruct (cache_is_swept T es2 s1 d Hm Hes Ed) as [Hs|Hs]; [|specialize (Hlag d Hs); lia]. apply Hs.
Qed.

Lemma resolver_stays es s : resolver s <> None -> resolver (hub_run es s) <> None.
Proof.
  apply (hub_run_keeps (fun s => resolver s <> None)), Forall_forall. intros te _ s' Hs.
  destruct (hub_step_frame s' te) as (_ & _ & F). destruct te as [t' [file| |files|certs now|h nc now]]; cbn [snd] in F;
    try (by rewrite (proj1 F)).
  cbn [background_step]. destruct (tls_tick s'); [|done]. destruct (resolver s') eqn:E; [by destruct (tick_poll t' _)|by rewrite E].
Qed.

(** A renewed pair of TLS files is served within the configured period and the
    runtime's lag. *)
Lemma renewed_pair_is_served p k ck :
  sv_reload served = Some p -> 0 < p -> ck0 <> None -> Forall (reads_pair ck) es2 ->
  tls_tick s1 = Some k -> due k <> None -> (forall k', tls_tick s2 = Some k' -> on_time lag t k') -> T + p * SECOND + lag < t ->
  serves ck s2.
Proof.
  intros Hp Hpos Hck Hr Ek Hd Hlag Ht. destruct (due k) as [d|] eqn:Ed; [|done].
  destruct (ok_tls _ _ _ running) as [Hk E]. rewrite Ek, Hp in E. injection E as E. specialize (Hk k Ek). unfold ticker_ok in Hk.
  rewrite E in Hk. assert (Hdp : d <= T + p * SECOND) by (apply Hk; [unfold SECOND; lia|done]).
  destruct (pair_is_read ck es2 s1 d Hr) as [[Hs|Hs]|Hs]; [by rewrite Ek|done|by destruct (resolver_stays es2 s1 (resolver_stays es1 (spawn_tasks served store ck0) Hck))|].
  fold s2 in Hs. destruct (tls_tick s2) as [k'|]; [|done]. specialize (Hlag k' eq_refl d Hs). lia.
Qed.

(** With a period of zero there is no reader of the TLS files: the pair loaded
    at the start is served for good. *)
Lemma pair_is_never_renewed es s : tls_tick s = None -> resolver (hub_run es s) = resolver s /\ tls_tick (hub_run es s) = None.
Proof.
  revert s. induction es as [|te es IH]; intros s Hs; [done|]. cbn [hub_run foldl].
  destruct (hub_step_frame s te) as (_ & _ & F).
  assert (E : resolver (background_step s te) = resolver s /\ tls_tick (background_step s te) = None).
  { destruct te as [t' [file| |files|certs now|h nc now]]; cbn [snd] in F; rewrite <- ?Hs; [exact F..| |exact F|exact F].
    cbn [background_step]. by rewrite Hs. }
  destruct (IH (background_step s te)) as [E1 E2]; [apply E|]. unfold hub_run in *. rewrite E1, E2. by rewrite (proj1 E).
Qed.
End Hub.

Definition alpha_cert : list byte := lit "urn:term-agent:alpha".
Definition alpha_store : IssuedCertStore := [mk_issued (lit "alpha") (cert_fingerprint (pki toy_admin) alpha_cert) (lit "01") 0].

(** The certificate's entry goes at 40 s; at 72 s, after the reads due by
    then, it is let in no longer. *)
Lemma list_changes_take_effect_witness :
  let run := hub_run toy_admin (lit "CA") (fun _ => true) 0 in
  let s1 := run [(0, PollCerts CertsUnreadable)] (spawn_tasks (mk_served None None false) alpha_store None) in
  let s2 := run [(60 * SECOND, PollCerts NoCerts); (60 * SECOND, PollCerts NoCerts)] s1 in
  raw_answer toy_admin (lit "CA") s1 [alpha_cert] 0 = Some (lit "alpha") /\
  raw_answer toy_admin (lit "CA") s2 [alpha_cert] 0 = None.
Proof.
  cbn zeta. split; [vm_compute; reflexivity|].
  refine (proj1 (proj2 (proj2 (list_changes_take_effect toy_admin (lit "CA") (fun _ => true) 0 (mk_served None None false)
    alpha_store None [(0, PollCerts CertsUnreadable)] [(60 * SECOND, PollCerts NoCerts); (60 * SECOND, PollCerts NoCerts)] (40 * SECOND) SECOND (72 * SECOND)
    _ alpha_cert None _ _ _ _)) eq_refl) [] 0).
  - constructor; [vm_compute; discriminate|constructor].
  - constructor; [exists []; split; reflexivity|]. constructor; [exists []; split; reflexivity|constructor].
  - vm_compute. discriminate.
  - intros d E. vm_compute in E. injection E as <-. vm_compute. discriminate.
  - vm_compute. reflexivity.
Defined.
