(* ===== verification/HubRoutes.v ===== *)
(** * HubRoutes: what the hub answers over HTTP ([hub/src/main.rs],
    [api_routes.rs], [webauthn_routes.rs], [metrics.rs], [static_assets.rs],
    [edge.rs], [proxy.rs] and [agent_ws.rs])

    One request, from the middleware through the route table to the handler.
    Matching a path against the table and the extractors of JSON bodies, path
    parameters and WebSocket upgrades are axum's; a handler that waits for an
    agent ends its first part in [Waiting], and [rpc_reply] is the rest.
    Every clock read and random value is a field of [Env]. *)

From Stdlib Require Import Strings.Byte.
From stdpp Require Import prelude strings list gmap.
From S2P Require Import Prelude Utf8 Std Tokio Prio Frame Cbor Webauthn Auth Login Link Proxy AgentAuth HubConfig Envelope Metrics.

(** ** The route tables *)

Inductive Method := GET | HEAD | POST | DELETE | OtherMethod.
#[export] Instance Method_eq_dec : EqDecision Method.
Proof. solve_decision. Defined.

Inductive Handler :=
| HRegisterStart | HLoginStart | HLoginFinish | HMachines | HListSessions | HKillSession
| HMe | HMode | HLogout | HMetrics | HTermWs | HConnect.

(** A route: its pattern, the method it is registered for, its handler. *)
Record Route := mk_route { pattern : list byte; route_method : Method; handler : Handler }.

(** [build_authed_router] *)
Definition authed_routes : list Route := [
  mk_route (lit "/webauthn/register/start") POST HRegisterStart;
  mk_route (lit "/webauthn/login/start") POST HLoginStart;
  mk_route (lit "/webauthn/login/finish") POST HLoginFinish;
  mk_route (lit "/api/machines") GET HMachines;
  mk_route (lit "/api/machines/{machine_id}/sessions") GET HListSessions;
  mk_route (lit "/api/machines/{machine_id}/sessions/{session_id}") DELETE HKillSession;
  mk_route (lit "/api/me") GET HMe;
  mk_route (lit "/api/mode") GET HMode;
  mk_route (lit "/api/logout") POST HLogout;
  mk_route (lit "/metrics") GET HMetrics;
  mk_route (lit "/ws/term/{machine_id}") GET HTermWs;
  mk_route (lit "/agent/connect") GET HConnect].

(** [build_no_auth_router] *)
Definition no_auth_routes : list Route := [
  mk_route (lit "/api/machines") GET HMachines;
  mk_route (lit "/api/machines/{machine_id}/sessions") GET HListSessions;
  mk_route (lit "/api/machines/{machine_id}/sessions/{session_id}") DELETE HKillSession;
  mk_route (lit "/api/me") GET HMe;
  mk_route (lit "/api/mode") GET HMode;
  mk_route (lit "/ws/term/{machine_id}") GET HTermWs;
  mk_route (lit "/agent/connect") GET HConnect].

Definition routes_of (mode : ListenerMode) : list Route := if no_auth mode then no_auth_routes else authed_routes.

(** axum: [get] also answers [HEAD]. *)
Definition answers (r m : Method) : bool :=
  bool_decide (r = m) || (bool_decide (r = GET) && bool_decide (m = HEAD)).

(** ** Requests and answers *)

Record Request := mk_req { req_method : Method; req_path : list byte; req_headers : Headers; req_body : list byte }.

(** [SessionInfo], as the agent's JSON is decoded and sent on. *)
Record SessionInfo := mk_session_info {
  si_id : list byte; si_idle_secs : Z; si_attached : Z; si_has_controller : bool;
}.

(** What an answer carries. *)
Inductive Content :=
| CText (t : list byte)
| CRejected                     (** an extractor's own answer *)
| CLoginError (e : LoginError)
| CUpgradeError (e : UpgradeRejection)
| CRegister (ccr : CreationOptions) (envelope : SignedEnvelope) (rp origin : list byte) (ttl_secs : Z)
| CLoginStart (nonce : list byte) (rcr : RequestOptions)
| CToken (token : list byte) (expires_in_secs : Z)
| CMachines (ms : list MachineConfig)
| COk
| CMode (no_auth : bool)
| CSessions (ss : list SessionInfo)
| CKilled (killed : bool)
| CMetrics (text : list byte)
| CFile (data : list byte)
| CNothing.
Record Response := mk_resp { status : Z; resp_headers : list (list byte * list byte); content : Content }.

Definition reply (status : Z) (c : Content) : Response := mk_resp status [] c.

(** ** The edge ([edge.rs]) *)

Definition CSP : list byte := lit ("default-src 'self'; script-src 'self'; style-src 'self' 'unsafe-inline'; " ++
  "img-src 'self' data: blob:; font-src 'self'; connect-src 'self' ws: wss:; worker-src 'self' blob:; " ++
  "frame-ancestors 'none'; base-uri 'none'; object-src 'none'; form-action 'none'")%string.

(** The headers [middleware] puts on what the routes answer. *)
Definition security_headers : list (list byte * list byte) := [
  (lit "content-security-policy", CSP);
  (lit "x-content-type-options", lit "nosniff");
  (lit "x-frame-options", lit "DENY");
  (lit "referrer-policy", lit "no-referrer")].
Definition secure (r : Response) : Response :=
  mk_resp (status r) (foldl (fun h kv => insert_header kv.1 kv.2 h) (resp_headers r) security_headers) (content r).

(** ** Static files ([static_assets.rs]) *)

(** [trim_start_matches('/')] *)
Fixpoint trim_slashes (p : list byte) : list byte :=
  match p with b :: p' => if bool_decide (b = "/"%byte) then trim_slashes p' else p | [] => [] end.
Definition static_candidate (path : list byte) : list byte :=
  let raw := trim_slashes path in
  if bool_decide (raw = []) || ends_with (lit "/") raw then raw ++ lit "index.html" else raw.

(** [handler]; [get] are the embedded files, with their media types. *)
Definition static_handler (get : list byte -> option (list byte * list byte)) (path : list byte) : Response :=
  match get (static_candidate path) with
  | Some (mime, data) => mk_resp 200 [(lit "content-type", mime)] (CFile data)
  | None => reply 404 CNothing
  end.

(** ** Answers of agents ([agent_link.rs]) *)

(** [BodyKind::kind] *)
Definition body_kind (b : Body) : list byte :=
  lit match b with
  | Bd.Data _ => "Data" | Bd.Resize _ _ => "Resize" | Bd.Open _ _ => "Open" | Bd.Close => "Close"
  | Bd.Ping _ => "Ping" | Bd.Pong _ => "Pong" | Bd.Hello _ => "Hello" | Bd.PasteBegin _ _ _ _ _ => "PasteBegin"
  | Bd.PasteChunk _ _ => "PasteChunk" | Bd.PasteEnd _ _ => "PasteEnd" | Bd.PasteReject _ _ => "PasteReject"
  | Bd.DownloadBegin _ _ _ => "DownloadBegin" | Bd.DownloadChunk _ _ => "DownloadChunk"
  | Bd.DownloadEnd _ _ => "DownloadEnd" | Bd.AcquireControl => "AcquireControl"
  | Bd.ReleaseControl => "ReleaseControl" | Bd.TakeControl => "TakeControl"
  | Bd.ControllerChanged _ => "ControllerChanged" | Bd.ListSessions _ => "ListSessions"
  | Bd.SessionList _ _ => "SessionList" | Bd.KillSession _ _ => "KillSession"
  | Bd.KillSessionAck _ _ => "KillSessionAck"
  end.

(** The texts of [rpc]'s errors. *)
Definition rpc_error_text (e : RpcError) : list byte :=
  match e with
  | WriterClosed => lit "agent link writer closed"
  | AgentDropped => lit "agent dropped before responding"
  | NoAnswer => lit "agent did not respond within 5s"
  | UnexpectedResponse => lit "unexpected RPC response"
  end.
Definition unexpected_text (b : Body) : list byte :=
  lit "unexpected RPC response: " ++ QUOTE :: body_kind b ++ [QUOTE].

(** What a request waits for. *)
Inductive RpcKind := KList | KKill (session_id : list byte).

(** ** The handlers *)

(** axum: the route whose pattern matches a path, with the decoded path
    parameters or the answer of their extractor; the other extractors' own
    answers. *)
Record Axum := {
  match_path : list (list byte) -> list byte -> option (list byte * (Z + list (list byte)));
  register_body : list byte -> Headers -> option Z;
  login_body : list byte -> Headers -> Z + (list byte * AuthenticationResponse);
  ws_upgrade : Request -> option Z;
}.

(** The rest of what is not the hub's code: the embedded files and the JSON of
    an agent's session list. *)
Record HubLib := {
  assets : list byte -> option (list byte * list byte);
  sessions_of_json : list byte -> option (list SessionInfo);
  axum : Axum;
  pki : PkiLib;
  stores : StoreLib;
  envelopes : EnvelopeLib;
}.

(** What one request reads of the clocks and draws at random, and what happens
    meanwhile. *)
Record Env := mk_env {
  t_gc : Z; t_now : Z; t_gc' : Z; t_now' : Z;      (** system clock, nanoseconds *)
  s_chain : Z; s_now : Z; s_issued : option Z;     (** system clock, seconds *)
  instant : Z;                                     (** monotonic clock *)
  uptime : list byte;
  rnd_user : list byte; rnd_challenge : list byte; rnd_token : list byte;
  lock_ok : bool; io_ok : bool;
  between1 : HubState -> HubState; between2 : HubState -> HubState; between3 : HubState -> HubState;
  one_shot : Ref;
}.

Section Hub.
Context {WCh Sem BCh : Type} `{Mpsc (Z * list byte) WCh} `{Semaphore Sem} `{Mpsc Body BCh}.
Variables (lib : HubLib) (cfg : HubConfig) (secret : list byte).

(** [AppStateInner], with the links its registry points to. *)
Record Hub := mk_hub_state {
  logins : HubState;
  agents : Agents;
  links : gmap Ref (AgentLink WCh Sem BCh);
  issued : IssuedCertStore;
  ws_replay : ReplayCache;
}.
Definition set_logins (s : HubState) (h : Hub) : Hub := mk_hub_state s (agents h) (links h) (issued h) (ws_replay h).
Definition set_tokens (s : Sessions) (h : Hub) : Hub :=
  set_logins (mk_hub (pending_logins (logins h)) s (cred_file (logins h))) h.
Definition set_link (r : Ref) (l : AgentLink WCh Sem BCh) (h : Hub) : Hub :=
  mk_hub_state (logins h) (agents h) (<[r := l]> (links h)) (issued h) (ws_replay h).
Definition set_replay (c : ReplayCache) (h : Hub) : Hub := mk_hub_state (logins h) (agents h) (links h) (issued h) c.

(** How the first part of a request ends. *)
Inductive Outcome :=
| Reply (r : Response)
| Waiting (k : RpcKind) (link : Ref) (who : Ref) (id : Z) (sent : SendPoll)
| Terminal (r : Response) (link : Ref)
| AgentMux (r : Response) (machine_id : list byte)
| Crashed.

Definition rejected (status : Z) : Outcome := Reply (reply status CRejected).
Definition text (status : Z) (t : list byte) : Outcome := Reply (reply status (CText t)).

(** The status codes of the WebAuthn routes. *)
Definition login_status (e : LoginError) : Z :=
  match e with
  | LoadFailed _ | BadStoredId _ => 500
  | NoCredentials => 412
  | TooManyLogins => 503
  | UnknownNonce | AuthFailed _ => 401
  end.
Definition login_failed (e : LoginError) : Outcome := Reply (reply (login_status e) (CLoginError e)).

(** The handlers of [webauthn_routes.rs] *)
Definition handle_register_start (e : Env) (req : Request) (h : Hub) : Hub * Outcome :=
  match register_body (axum lib) (req_body req) (req_headers req) with
  | Some code => (h, rejected code)
  | None =>
      let o := HubConfig.origin cfg in
      let '(ccr, envelope) := register_start (crypto (pki lib)) (stores lib) (envelopes lib) (HubConfig.rp_id cfg) (rp_name cfg) o secret
                       (rnd_user e) (rnd_challenge e) (s_issued e) in
      (h, Reply (reply 200 (CRegister ccr envelope (HubConfig.rp_id cfg) o ENVELOPE_TTL_SECS)))
  end.
Definition handle_login_start (e : Env) (h : Hub) : Hub * Outcome :=
  let '(s, r) := login_start (stores lib) (rnd_challenge e) (rnd_token e) (t_gc e) (t_now e) (logins h) in
  (set_logins s h,
   match r with
   | Ok allowed => Reply (reply 200 (CLoginStart (rnd_token e) (request_options (crypto (pki lib)) (HubConfig.rp_id cfg) (rnd_challenge e) allowed)))
   | Err x => login_failed x
   | Panic => Crashed
   end).
Definition handle_login_finish (e : Env) (req : Request) (h : Hub) : Hub * Outcome :=
  match login_body (axum lib) (req_body req) (req_headers req) with
  | inl code => (h, rejected code)
  | inr (nonce, resp) =>
      let '(s, r) := login_finish (crypto (pki lib)) (stores lib) (HubConfig.rp_id cfg) (HubConfig.origin cfg) nonce (rnd_token e) resp
                       (t_gc e) (t_now e) (t_gc' e) (lock_ok e) (io_ok e) (between1 e) (between2 e) (between3 e) (logins h) in
      (set_logins s h,
       match r with
       | Ok (token, expires_at) => Reply (reply 200 (CToken token (ttl_secs expires_at (t_now' e))))
       | Err x => login_failed x
       | Panic => Crashed
       end)
  end.

(** A handler behind the [Bearer] extractor. *)
Definition with_bearer (mode : ListenerMode) (e : Env) (req : Request) (k : list byte -> Hub -> Hub * Outcome) (h : Hub)
    : Hub * Outcome :=
  let '(s, r) := bearer (Some mode) (req_headers req) (t_gc e) (t_now e) (sessions (logins h)) in
  let h := set_tokens s h in
  match r with
  | inr token => k token h
  | inl MissingBearer => (h, text 401 (lit "missing bearer"))
  | inl InvalidBearer => (h, text 401 (lit "invalid bearer"))
  end.

(** A request to the machine's agent, up to the wait for its answer. *)
Definition ask_agent (e : Env) (machine_id : list byte) (kind : RpcKind) (build : Z -> Frame) (h : Hub) : Hub * Outcome :=
  match r ← agents h !! machine_id; l ← links h !! r; Some (r, l) with
  | None => (h, text 503 (lit "agent not connected"))
  | Some (r, l) =>
      let '(l, (id, sent)) := rpc_start (one_shot e) build l in
      (set_link r l h,
       match sent with
       | SendErr _ => text 504 (rpc_error_text WriterClosed)
       | _ => Waiting kind r (one_shot e) id sent
       end)
  end.

(** [list_sessions] and [kill_session] of [api_routes.rs] behind the extractors *)
Definition handle_list_sessions (e : Env) (params : Z + list (list byte)) (h : Hub) : Hub * Outcome :=
  match params with
  | inr [machine_id] => ask_agent e machine_id KList list_sessions h
  | inr _ => (h, rejected 500)
  | inl code => (h, rejected code)
  end.
Definition handle_kill_session (e : Env) (params : Z + list (list byte)) (h : Hub) : Hub * Outcome :=
  match params with
  | inr [machine_id; session_id] => ask_agent e machine_id (KKill session_id) (fun id => kill_session id session_id) h
  | inr _ => (h, rejected 500)
  | inl code => (h, rejected code)
  end.

(** [metrics::handler] behind the bearer check.  The registry is a hash map:
    its agents come in no order of their own, here in that of [map_to_list]. *)
Definition samples (order : list (list byte * Ref)) (h : Hub) : list AgentSample :=
  omap (fun '(id, r) =>
    l ← links h !! r; Some (mk_sample id (stream_count l) (bytes_in l) (bytes_out l) (frames_in l) (frames_out l))) order.
Definition handle_metrics (e : Env) (h : Hub) : Hub * Outcome :=
  (h, Reply (mk_resp 200 [(lit "content-type", lit "text/plain; version=0.0.4; charset=utf-8")]
        (CMetrics (metrics_text (uptime e) (base.size (sessions (logins h))) (base.size (pending_logins (logins h)))
          (samples (map_to_list (agents h)) h))))).

(** [term_ws] and [connect] *)
Definition upgrade_refused (e : UpgradeError) : Outcome :=
  match e with
  | BadOrigin => text 403 (lit "bad origin")
  | MissingSubprotocol => text 401 (lit "missing bearer subprotocol")
  | BadToken => text 401 (lit "invalid bearer")
  | AgentNotConnected => text 503 (lit "agent not connected")
  | StreamLimitReached => text 503 (lit "agent stream limit reached")
  end.
Definition handle_term_ws (mode : ListenerMode) (e : Env) (req : Request) (params : Z + list (list byte)) (h : Hub) : Hub * Outcome :=
  match ws_upgrade (axum lib) req, params with
  | Some code, _ | None, inl code => (h, rejected code)
  | None, inr [machine_id] =>
      let count r := match links h !! r with Some l => stream_count l | None => O end in
      let '(s, r) := term_ws machine_id mode (req_headers req) (t_gc e) (t_now e) (agents h) count (sessions (logins h)) in
      (set_tokens s h,
       match r with
       | inl x => upgrade_refused x
       | inr (link, sp) =>
           Terminal (mk_resp 101 (match sp with Some p => [(lit "sec-websocket-protocol", p)] | None => [] end) CNothing) link
       end)
  | None, inr _ => (h, rejected 500)
  end.
Definition handle_connect (e : Env) (req : Request) (h : Hub) : Hub * Outcome :=
  match ws_upgrade (axum lib) req with
  | Some code => (h, rejected code)
  | None =>
      let '(c, r) := authenticate_ws_upgrade (pki lib) (req_headers req) (s_chain e) (s_now e) (instant e) (issued h) (ws_replay h) in
      (set_replay c h,
       match r with
       | Ok id => AgentMux (reply 101 CNothing) id
       | Err x => Reply (reply 401 (CUpgradeError x))
       | Panic => Crashed
       end)
  end.

(** A handler on a request. *)
Definition handle (hd : Handler) (mode : ListenerMode) (e : Env) (req : Request) (params : Z + list (list byte)) (h : Hub)
    : Hub * Outcome :=
  let authed := with_bearer mode e req in
  match hd with
  | HRegisterStart => handle_register_start e req h
  | HLoginStart => handle_login_start e h
  | HLoginFinish => handle_login_finish e req h
  | HMachines => authed (fun _ h => (h, Reply (reply 200 (CMachines (machines cfg))))) h
  | HListSessions => authed (fun _ => handle_list_sessions e params) h
  | HKillSession => authed (fun _ => handle_kill_session e params) h
  | HMe => authed (fun _ h => (h, Reply (reply 200 COk))) h
  | HMode => (h, Reply (reply 200 (CMode (no_auth mode))))
  | HLogout => authed (fun token h => (set_tokens (drop_token token (sessions (logins h))) h, Reply (reply 200 COk))) h
  | HMetrics => authed (fun _ => handle_metrics e) h
  | HTermWs => handle_term_ws mode e req params h
  | HConnect => handle_connect e req h
  end.

(** The router: the table, then the static files. *)
Definition route (mode : ListenerMode) (e : Env) (req : Request) (h : Hub) : Hub * Outcome :=
  match match_path (axum lib) (pattern <$> routes_of mode) (req_path req) with
  | None => (h, Reply (static_handler (assets lib) (req_path req)))
  | Some (p, params) =>
      match List.find (fun r => bool_decide (pattern r = p) && answers (route_method r) (req_method req)) (routes_of mode) with
      | Some r => handle (handler r) mode e req params h
      | None => (h, Reply (reply 405 CNothing))
      end
  end.

Definition map_response (f : Response -> Response) (o : Outcome) : Outcome :=
  match o with
  | Reply r => Reply (f r)
  | Terminal r link => Terminal (f r) link
  | AgentMux r id => AgentMux (f r) id
  | o => o
  end.

(** A listener: [edge::middleware] around the router. *)
Definition listener (mode : ListenerMode) (e : Env) (req : Request) (h : Hub) : Hub * Outcome :=
  if edge_allows (mode_origin mode) (req_headers req) then
    let '(h, o) := route mode e req h in (h, map_response secure o)
  else (h, text 403 (lit "bad origin")).

(** ** The rest of a request that waits *)

(** [list_sessions] and [kill_session] of [agent_link.rs] on what [rpc] returns,
    with the answer of the route. *)
Definition rpc_answer (k : RpcKind) (r : RpcError + Body) : Response :=
  match r, k with
  | inl x, _ => reply 504 (CText (rpc_error_text x))
  | inr (Bd.SessionList _ json), KList =>
      match sessions_of_json lib json with
      | Some ss => reply 200 (CSessions ss)
      | None => reply 504 (CText (lit "decode SessionList JSON"))
      end
  | inr b, KList => reply 504 (CText (unexpected_text b))
  | inr b, KKill _ =>
      match kill_session_result b with
      | inr killed => reply 200 (CKilled killed)
      | inl _ => reply 504 (CText (unexpected_text b))
      end
  end.
Definition rpc_reply (k : RpcKind) (link who : Ref) (id : Z) (timed_out : bool) (h : Hub) : Hub * Response :=
  match links h !! link with
  | None => (h, secure (rpc_answer k (inl AgentDropped)))
  | Some l => let '(l, r) := rpc_finish who id timed_out l in (set_link link l h, secure (rpc_answer k r))
  end.
End Hub.
Arguments Hub : clear implicits.
