(* ===== verification/HubFacts.v ===== *)
(** * HubFacts: what a request can reach

    Properties of [HubRoutes.listener] for every path, method, header and
    body, and of sequences of requests. *)

From Stdlib Require Import Strings.Byte.
From stdpp Require Import prelude strings list gmap.
From S2P Require Import Prelude Utf8 Std Tokio Prio Frame FrameFacts Transport Cbor CborFacts Webauthn WebauthnFacts Auth Login Session Manager Link LinkFacts Proxy AgentAuth AgentAuthFacts HubConfig Envelope EnvelopeFacts Metrics Agent AgentFacts HubRoutes.
Open Scope Z_scope.

(** ** Answers *)

(** What an answer may carry without a token. *)
Definition is_public (c : Content) : bool :=
  match c with CMachines _ | COk | CSessions _ | CKilled _ | CMetrics _ => false | _ => true end.
(** What only the listener with authentication has. *)
Definition is_account (c : Content) : bool :=
  match c with
  | CLoginError _ | CRegister _ _ _ _ _ | CLoginStart _ _ | CToken _ _ | CMetrics _ => true
  | _ => false
  end.

(** The answer a first part ends in, if it does. *)
Definition answer (o : Outcome) : option Response :=
  match o with Reply r | Terminal r _ | AgentMux r _ => Some r | Waiting _ _ _ _ _ | Crashed => None end.

Lemma answer_map f o : answer (map_response f o) = f <$> answer o.
Proof. by destruct o. Qed.

(** ** The edge *)

(** The values of a header of an answer. *)
Definition values (name : list byte) (r : Response) : list (list byte) :=
  (List.filter (fun kv => bool_decide (kv.1 = name)) (resp_headers r)).*2.

Lemma secure_values name value r :
  (name, value) ∈ security_headers -> values name (secure r) = [value].
Proof.
  unfold values, secure, security_headers. cbn [resp_headers foldl fst snd]. rewrite !elem_of_cons, elem_of_nil.
  intros [[= -> ->]|[[= -> ->]|[[= -> ->]|[[= -> ->]|[]]]]];
    repeat first [rewrite insert_header_same; done | rewrite insert_header_other by (apply (bool_decide_unpack _); vm_compute; exact I)].
Qed.
Lemma secure_other name r : name ∉ security_headers.*1 -> values name (secure r) = values name r.
Proof.
  unfold values, secure, security_headers. cbn [resp_headers foldl fst snd fmap list_fmap].
  rewrite !not_elem_of_cons. intros (H1 & H2 & H3 & H4 & _).
  by rewrite !insert_header_other by congruence.
Qed.

Section Routes.
Context {WCh Sem BCh : Type} `{Mpsc (Z * list byte) WCh} `{Semaphore Sem} `{Mpsc Body BCh}.
Abbreviation HubT := (Hub WCh Sem BCh).
Variables (lib : HubLib) (cfg : HubConfig) (secret : list byte).
Abbreviation listenerT := (listener (WCh:=WCh) (Sem:=Sem) (BCh:=BCh) lib cfg secret).
Abbreviation handleT := (handle (WCh:=WCh) (Sem:=Sem) (BCh:=BCh) lib cfg secret).

(** A request is answered by the middleware, a handler of the listener's
    table, the static files, or as a method not allowed. *)
Lemma listener_cases mode e req (h : HubT) :
  (edge_allows (mode_origin mode) (req_headers req) = false /\
   listenerT mode e req h = (h, text 403 (lit "bad origin"))) \/
  (edge_allows (mode_origin mode) (req_headers req) = true /\
   exists h' o, listenerT mode e req h = (h', map_response secure o) /\
     ((exists r params, r ∈ routes_of mode /\ answers (route_method r) (req_method req) = true /\
         (h', o) = handleT (handler r) mode e req params h) \/
      (h' = h /\ (o = Reply (static_handler (assets lib) (req_path req)) \/ o = Reply (reply 405 CNothing))))).
Proof.
  unfold listener. destruct (edge_allows _ _); [right|by left]. split; [done|]. unfold route.
  destruct (match_path _ _ _) as [[p params]|]; [|by eexists h, _; split; [done|right; eauto]].
  destruct (List.find _ _) as [r|] eqn:F; [|by eexists h, _; split; [done|right; eauto]].
  apply List.find_some in F as [F1 F2]. apply andb_true_iff in F2 as [_ F2]. apply list_elem_of_In in F1.
  destruct (handleT (handler r) mode e req params h) as [h' o] eqn:Eh. exists h', o. split; [done|]. left. by exists r, params.
Qed.

(** ** What handlers keep *)

(** The parts of the state no request of a browser writes outside of a
    request to an agent. *)
Definition same_links (a b : HubT) : Prop := agents a = agents b /\ links a = links b /\ issued a = issued b.

#[local] Instance same_links_equiv : Equivalence same_links.
Proof. split; repeat intro; unfold same_links in *; intuition congruence. Qed.

Lemma tokens_same_links s (h : HubT) : same_links (set_tokens s h) h.
Proof. done. Qed.

(** The token of the [Authorization] header, and whether the hub knows it. *)
Definition auth_token (h : Headers) : option (list byte) :=
  v ← get_str (lit "authorization") h; strip_prefix (lit "Bearer ") v.
Definition live (e : Env) (s : Sessions) (token : list byte) : Prop :=
  exists x, s !! token = Some x /\ t_gc e < x /\ t_now e < x.

Lemma live_valid e s token : live e s token <-> (validate_token (t_gc e) (t_now e) token s).2 = true.
Proof.
  unfold live, validate_token. cbn [snd]. split.
  - intros (x & Hx & Hg & Hn). rewrite (proj2 (gc_lookup (t_gc e) id s token x)) by done. by apply Z.ltb_lt.
  - destruct (gc (t_gc e) id s !! token) as [x|] eqn:E; [|done]. apply gc_lookup in E as [E1 E2]. rewrite Z.ltb_lt. eauto.
Qed.

Lemma bearer_cases mode e hs s :
  (no_auth mode = true /\ bearer (Some mode) hs (t_gc e) (t_now e) s = (s, inr [])) \/
  (no_auth mode = false /\
   ((exists token, auth_token hs = Some token /\ live e s token /\
       bearer (Some mode) hs (t_gc e) (t_now e) s = (gc (t_gc e) id s, inr token)) \/
    (exists s' r, (s' = s \/ s' = gc (t_gc e) id s) /\ (forall token, auth_token hs = Some token -> ~ live e s token) /\
       bearer (Some mode) hs (t_gc e) (t_now e) s = (s', inl r)))).
Proof.
  unfold bearer. fold (auth_token hs). destruct (no_auth mode); [by left|right]. split; [done|].
  destruct (auth_token hs) as [token|]; [|right; by eexists s, _; split_and!; [left|..]].
  destruct ((validate_token (t_gc e) (t_now e) token s).2) eqn:E.
  - left. exists token. split; [done|]. split; [by apply live_valid|]. unfold validate_token in *. cbn [snd] in E. by rewrite E.
  - right. eexists (gc (t_gc e) id s), _. split; [by right|]. split.
    + intros ? [= <-] L. apply live_valid in L. congruence.
    + unfold validate_token in *. cbn [snd] in E. by rewrite E.
Qed.

(** A handler behind the extractor: refused with 401, or run. *)
Lemma with_bearer_cases mode e req k (h : HubT) :
  (exists s why, with_bearer mode e req k h = (set_tokens s h, text 401 why) /\ no_auth mode = false /\
     (s = sessions (logins h) \/ s = gc (t_gc e) id (sessions (logins h))) /\
     forall token, auth_token (req_headers req) = Some token -> ~ live e (sessions (logins h)) token) \/
  (no_auth mode = true /\ with_bearer mode e req k h = k [] h) \/
  (exists token, no_auth mode = false /\ auth_token (req_headers req) = Some token /\ live e (sessions (logins h)) token /\
     with_bearer mode e req k h = k token (set_tokens (gc (t_gc e) id (sessions (logins h))) h)).
Proof.
  unfold with_bearer. destruct (bearer_cases mode e (req_headers req) (sessions (logins h)))
    as [[Hm ->]|[Hm [(token & Ht & L & ->)|(s' & r & Hs & Hn & ->)]]].
  - right. left. split; [done|]. by destruct h as [[]].
  - right. right. by exists token.
  - left. destruct r; eauto 8.
Qed.

(** The upgrade of a terminal, likewise. *)
Lemma handle_term_ws_cases mode e req params (h : HubT) :
  (exists s r, handle_term_ws lib mode e req params h = (set_tokens s h, Reply r) /\
     is_public (content r) = true /\ is_account (content r) = false /\
     (s = sessions (logins h) \/ no_auth mode = false /\ s = gc (t_gc e) id (sessions (logins h)))) \/
  (exists s r link, handle_term_ws lib mode e req params h = (set_tokens s h, Terminal r link) /\ content r = CNothing /\
     (s = sessions (logins h) /\ no_auth mode = true \/
      s = gc (t_gc e) id (sessions (logins h)) /\ no_auth mode = false /\
      exists token raw, token_from_ws_protocol (req_headers req) = Some (token, raw) /\ live e (sessions (logins h)) token)).
Proof.
  assert (Self : set_tokens (sessions (logins h)) h = h) by (by destruct h as [[]]).
  assert (Refused : forall r, is_public (content r) = true -> is_account (content r) = false ->
    exists s r', (h, Reply r) = (set_tokens s h, Reply r') /\ is_public (content r') = true /\ is_account (content r') = false /\
     (s = sessions (logins h) \/ no_auth mode = false /\ s = gc (t_gc e) id (sessions (logins h)))).
  { intros r ? ?. exists (sessions (logins h)), r. rewrite Self. eauto. }
  unfold handle_term_ws. destruct (ws_upgrade _ _) as [code|]; [left; by apply Refused|].
  destruct params as [code|[|m [|]]]; [left; by apply Refused..| |left; by apply Refused].
  unfold term_ws. destruct (check_origin _ _); cbn [negb]; [|left; rewrite Self; by apply Refused].
  assert (G : forall s sp,
    let '(s', r) := match agents h !! m with
      | None => (s, inl AgentNotConnected)
      | Some link => if bool_decide (MAX_STREAMS_PER_AGENT <= match links h !! link with Some l => stream_count l | None => O end)%nat
          then (s, inl StreamLimitReached) else (s, inr (link, sp)) end : Sessions * (UpgradeError + (Ref * option (list byte))) in
    s' = s /\ match r with inl x => exists r, upgrade_refused x = Reply r /\ is_public (content r) = true /\ is_account (content r) = false
              | inr _ => True end).
  { intros s sp. destruct (agents h !! m); [|cbn; eauto]. case_bool_decide; cbn; eauto. }
  destruct (no_auth mode) eqn:Hm.
  - specialize (G (sessions (logins h)) (snd <$> token_from_ws_protocol (req_headers req))).
    destruct (match agents h !! m with Some _ => _ | None => _ end) as [s' [x|[link sp]]]; destruct G as [-> G].
    + left. destruct G as (r & -> & ? & ?). eauto 8.
    + right. by eexists _, _, link; split_and!; [done..|left].
  - destruct (token_from_ws_protocol _) as [[token raw]|] eqn:Et; [|left; rewrite Self; by apply Refused].
    pose proof (live_valid e (sessions (logins h)) token) as L. unfold validate_token in *. cbn [snd] in L.
    destruct (match gc (t_gc e) id (sessions (logins h)) !! token with Some _ => _ | None => _ end) eqn:Ev;
      [|left; eexists _, _; split_and!; [done..|]; right; done].
    specialize (G (gc (t_gc e) id (sessions (logins h))) (Some raw)).
    destruct (match agents h !! m with Some _ => _ | None => _ end) as [s' [x|[link sp]]]; destruct G as [-> G].
    + left. destruct G as (r & -> & ? & ?). eexists _, _. split_and!; eauto.
    + right. eexists _, _, link. split_and!; [done..|]. right. split_and!; [done..|]. exists token, raw. split; [done|by apply L].
Qed.

Lemma handle_connect_cases e req (h : HubT) :
  let '(h', o) := handle_connect lib e req h in
  same_links h' h /\ logins h' = logins h /\
  match o with Reply r | AgentMux r _ => is_public (content r) = true /\ is_account (content r) = false | _ => False end.
Proof.
  unfold handle_connect. destruct (ws_upgrade _ _); [done|].
  unfold authenticate_ws_upgrade.
  assert (Np : check_upgrade (pki lib) (req_headers req) (s_chain e) (s_now e) (issued h) <> Panic).
  { unfold check_upgrade, bounded_header, parse_ws_auth_header.
    repeat first [apply ok_or_no_panic | apply guard_err_no_panic | apply map_err_no_panic
      | apply bind_no_panic; [|intros ? ?] | done | case_match]. }
  destruct (check_upgrade _ _ _ _ _) as [[[entry fp] nonce]|x|]; [destruct (ws_replay h !! _)|..]; done.
Qed.

Lemma register_start_answers e req (h : HubT) :
  let '(h', o) := handle_register_start lib cfg secret e req h in
  same_links h' h /\ exists r, o = Reply r /\ is_public (content r) = true.
Proof. unfold handle_register_start. destruct (register_body _ _ _); cbn; split_and!; try done; by eexists. Qed.

Lemma login_start_answers e (h : HubT) :
  let '(h', o) := handle_login_start lib cfg e h in
  same_links h' h /\ exists r, o = Reply r /\ is_public (content r) = true.
Proof.
  unfold handle_login_start, login_start.
  assert (Nd : forall s, decode_ids (stores lib) s <> Panic).
  { induction s as [|c s IH]; [done|]. cbn [decode_ids]. unfold cred_id.
    repeat first [apply map_err_no_panic, ok_or_no_panic | apply bind_no_panic; [|intros ? ?] | done]. }
  assert (Np : (store ← map_err LoadFailed (load (stores lib) (cred_file (logins h)));
         guard_err (bool_decide (store = [])) NoCredentials ;; decode_ids (stores lib) store) <> Panic).
  { unfold load. repeat first [apply Nd | apply guard_err_no_panic | apply ok_or_no_panic | apply map_err_no_panic
      | apply bind_no_panic; [|intros ? ?] | done | case_match]. }
  destruct (_ ≫= _) as [allowed|x|]; [case_bool_decide|..]; cbn; split_and!; try done; by eexists.
Qed.

Lemma login_finish_answers e req (h : HubT) :
  let '(h', o) := handle_login_finish lib cfg e req h in
  same_links h' h /\ exists r, o = Reply r /\ is_public (content r) = true.
Proof.
  unfold handle_login_finish. destruct (login_body _ _ _) as [code|[nonce r]]; [split; [done|by eexists]|].
  unfold login_finish, take_pending.
  destruct (gc _ _ _ !! nonce) as [p|]; [|split; [done|by eexists]].
  match goal with |- context [verify_login _ _ _ _ _ _ ?f] => set (file := f) end.
  assert (Np : verify_login (crypto (pki lib)) (stores lib) (HubConfig.rp_id cfg) (HubConfig.origin cfg) p r file <> Panic).
  { unfold verify_login, load. apply bind_no_panic; [|intros store _; apply map_err_no_panic, finish_authenticate_no_panic].
    apply map_err_no_panic. case_match; try done. apply ok_or_no_panic. }
  destruct (verify_login _ _ _ _ _ _ _) as [auth|x|]; [|split; [done|by eexists]|done].
  cbn [store_token]. split; [done|by eexists].
Qed.

(** Handlers behind the extractor, once it let the request through. *)
Definition behind_bearer (hd : Handler) : bool :=
  match hd with HMachines | HListSessions | HKillSession | HMe | HLogout | HMetrics => true | _ => false end.

(** A request without a live token gets nothing private. *)
Lemma no_live_token mode e req (h : HubT) :
  no_auth mode = false ->
  (forall token, auth_token (req_headers req) = Some token \/ (fst <$> token_from_ws_protocol (req_headers req)) = Some token ->
     ~ live e (sessions (logins h)) token) ->
  let '(h', o) := listenerT mode e req h in
  agents h' = agents h /\ links h' = links h /\ issued h' = issued h /\
  match o with Reply r | AgentMux r _ => is_public (content r) = true | _ => False end.
Proof.
  intros Hm Hno. destruct (listener_cases mode e req h) as [[_ ->]|(_ & h' & o & -> & C)]; [done|].
  enough (G : same_links h' h /\ match o with Reply r | AgentMux r _ => is_public (content r) = true | _ => False end)
    by (destruct G as [(G1 & G2 & G3) G]; split_and!; [done..|]; by destruct o).
  destruct C as [(r & params & _ & _ & E)|(-> & [-> | ->])];
    [|split; [done|]; unfold static_handler; destruct (assets lib _) as [[]|]; done|done].
  assert (B : behind_bearer (handler r) = true -> same_links h' h /\ match o with Reply r | AgentMux r _ => is_public (content r) = true | _ => False end).
  { intros Hb. assert (W : exists k, (h', o) = with_bearer mode e req k h)
      by (destruct (handler r); try done; by eexists).
    destruct W as [k W]. destruct (with_bearer_cases mode e req k h) as [(s & why & Ew & _)|[[? _]|(t & _ & Ht & L & _)]]; [|congruence|].
    - rewrite Ew in W. injection W as -> ->. done.
    - exfalso. by apply (Hno t); [left|]. }
  destruct (handler r) eqn:Eh; try (by apply B); cbn [handle] in E.
  - pose proof (register_start_answers e req h) as L. rewrite <- E in L. by destruct L as (? & x & -> & ?).
  - pose proof (login_start_answers e h) as L. rewrite <- E in L. by destruct L as (? & x & -> & ?).
  - pose proof (login_finish_answers e req h) as L. rewrite <- E in L. by destruct L as (? & x & -> & ?).
  - by injection E as -> ->.
  - destruct (handle_term_ws_cases mode e req params h) as [(s & x & Ew & P & _)|(s & x & link & _ & _ & [[_ ?]|(_ & _ & t & raw & Et & L)])];
      [|congruence|].
    + rewrite Ew in E. injection E as -> ->. done.
    + exfalso. apply (Hno t); [right; by rewrite Et|done].
  - pose proof (handle_connect_cases e req h) as L. rewrite <- E in L. destruct L as (? & _ & L).
    split; [done|]. destruct o; try done; by destruct L.
Qed.

(** ** Properties *)

(** [C1] On the listener with authentication, a request that carries no live token,
    neither in its [Authorization] header nor as a WebSocket subprotocol,
    whatever its path, method, headers and body: no agent's link, no entry of
    the registry of agents and no certificate is touched, no request is sent
    to an agent and no terminal opened, and what it is answered shows neither
    machines nor sessions nor counters.  Every such request is answered. *)
Theorem private_needs_token mode e req (h : HubT) :
  no_auth mode = false ->
  (forall token, auth_token (req_headers req) = Some token \/ (fst <$> token_from_ws_protocol (req_headers req)) = Some token ->
     ~ live e (sessions (logins h)) token) ->
  let '(h', o) := listenerT mode e req h in
  agents h' = agents h /\ links h' = links h /\ issued h' = issued h /\
  match o with Reply r | AgentMux r _ => is_public (content r) = true | _ => False end.
Proof. apply no_live_token. Qed.

(** [C13] The listener without authentication is exactly the terminal surface: no
    request to it, whatever its path, method, headers and body, reads or
    changes tokens, pending logins or credentials, and none is answered with
    a registration, a login, a token or the counters of [/metrics]. *)
Theorem no_auth_surface mode e req (h : HubT) :
  no_auth mode = true ->
  let '(h', o) := listenerT mode e req h in
  logins h' = logins h /\ match answer o with Some r => is_account (content r) = false | None => True end.
Proof.
  intros Hm. destruct (listener_cases mode e req h) as [[_ ->]|(_ & h' & o & -> & C)]; [done|].
  rewrite answer_map.
  enough (G : logins h' = logins h /\ match answer o with Some r => is_account (content r) = false | None => True end)
    by (destruct G as [G1 G2]; split; [done|]; by destruct (answer o)).
  destruct C as [(r & params & Hr & _ & E)|(-> & [-> | ->])];
    [|split; [done|]; cbn; unfold static_handler; by destruct (assets lib _) as [[]|]|done].
  assert (Hh : handler r ∈ [HMachines; HListSessions; HKillSession; HMe; HMode; HTermWs; HConnect]).
  { unfold routes_of in Hr. rewrite Hm in Hr. apply (list_elem_of_fmap_2 handler) in Hr. exact Hr. }
  assert (A : forall id k build, let '(h', o) := ask_agent e id k build h in
    logins h' = logins h /\ match answer o with Some r => is_account (content r) = false | None => True end).
  { intros id k build. unfold ask_agent. destruct (_ ≫= _) as [[q l]|]; [|done].
    destruct (rpc_start _ _ l) as [l' [i sent]]. split; [done|]. by destruct sent. }
  assert (B : forall k, (h', o) = with_bearer mode e req k h -> (h', o) = k [] h).
  { intros k ->. unfold with_bearer, bearer. rewrite Hm. by destruct h as [[]]. }
  rewrite !elem_of_cons, elem_of_nil in Hh.
  destruct (handler r); try (exfalso; naive_solver); cbn [handle] in E.
  - apply B in E. by injection E as -> ->.
  - apply B in E. unfold handle_list_sessions in E. destruct params as [|[|? [|]]]; try (injection E as -> ->; done).
    specialize (A l KList Frame.list_sessions). by rewrite <- E in A.
  - apply B in E. unfold handle_kill_session in E. destruct params as [|[|? [|? [|]]]]; try (injection E as -> ->; done).
    specialize (A l (KKill l0) (fun id => Frame.kill_session id l0)). by rewrite <- E in A.
  - apply B in E. by injection E as -> ->.
  - by injection E as -> ->.
  - destruct (handle_term_ws_cases mode e req params h) as [(s & x & Ew & _ & P & [-> |[? _]])|(s & x & link & Ew & P & [[-> _]|(_ & ? & _)])];
      try congruence; rewrite Ew in E; injection E as -> ->; (split; [by destruct h as [[]]|cbn; by rewrite ?P]).
  - pose proof (handle_connect_cases e req h) as L. rewrite <- E in L. destruct L as (_ & -> & L).
    split; [done|]. destruct o; try done; by destruct L.
Qed.

(** [C24] Every answer of the hub is guarded: a request from a foreign origin gets
    403 and changes nothing; any other answer, including that of a request
    that waited for an agent, is its handler's with each of the four security
    headers exactly once and the other headers as they were; and no request
    makes a handler panic. *)
Theorem every_answer_is_guarded mode e req (h : HubT) :
  let '(h', o) := listenerT mode e req h in
  o <> Crashed /\
  (if edge_allows (mode_origin mode) (req_headers req) then
     let '(h'', o'') := route lib cfg secret mode e req h in
     h' = h'' /\ o = map_response secure o'' /\
     match answer o with
     | Some r => (forall name value, (name, value) ∈ security_headers -> values name r = [value]) /\
         exists r'', answer o'' = Some r'' /\ status r = status r'' /\ content r = content r'' /\
           forall name, name ∉ security_headers.*1 -> values name r = values name r''
     | None => True
     end
   else h' = h /\ o = Reply (reply 403 (CText (lit "bad origin")))) /\
  forall k link who id timed_out name value, (name, value) ∈ security_headers ->
    values name (rpc_reply lib k link who id timed_out h').2 = [value].
Proof.
  assert (Nc : (listenerT mode e req h).2 <> Crashed).
  { destruct (listener_cases mode e req h) as [[_ ->]|(_ & h' & o & -> & C)]; [done|]. cbn [snd].
    enough (o <> Crashed) by (by destruct o).
    destruct C as [(r & params & _ & _ & E)|(-> & [-> | ->])]; [|done..].
    assert (A : forall id k build (h : HubT), (ask_agent e id k build h).2 <> Crashed).
    { intros id k build h0. unfold ask_agent. destruct (_ ≫= _) as [[q l]|]; [|done].
      destruct (rpc_start _ _ l) as [l' [i sent]]. by destruct sent. }
    assert (B : forall k, (forall t (h : HubT), (k t h).2 <> Crashed) -> (with_bearer mode e req k h).2 <> Crashed).
    { intros k Hk. destruct (with_bearer_cases mode e req k h) as [(s & why & -> & _)|[[_ ->]|(t & _ & _ & _ & ->)]]; [done|apply Hk..]. }
    change o with (snd (h', o)). rewrite E. destruct (handler r); cbn [handle]; try done; try (by apply B).
    - pose proof (register_start_answers e req h) as L. destruct (handle_register_start _ _ _ _ _ _). by destruct L as (? & x & -> & ?).
    - pose proof (login_start_answers e h) as L. destruct (handle_login_start _ _ _ _). by destruct L as (? & x & -> & ?).
    - pose proof (login_finish_answers e req h) as L. destruct (handle_login_finish _ _ _ _ _). by destruct L as (? & x & -> & ?).
    - apply B. intros _ h0. unfold handle_list_sessions. destruct params as [|[|? [|]]]; try done; apply A.
    - apply B. intros _ h0. unfold handle_kill_session. destruct params as [|[|? [|? [|]]]]; try done; apply A.
    - destruct (handle_term_ws_cases mode e req params h) as [(s & x & -> & _)|(s & x & link & -> & _)]; done.
    - pose proof (handle_connect_cases e req h) as L. destruct (handle_connect _ _ _ _) as [? []]; by destruct L as (? & _ & ?). }
  destruct (listenerT mode e req h) as [h' o] eqn:El. split; [done|]. split.
  - unfold listener in El. destruct (edge_allows _ _); [|by injection El as <- <-].
    destruct (route lib cfg secret mode e req h) as [h'' o'']. injection El as <- <-. split_and!; [done..|].
    rewrite answer_map. destruct (answer o'') as [r''|]; [|done]. cbn. split; [intros; by apply secure_values|].
    exists r''. split_and!; try done. intros. by apply secure_other.
  - intros. unfold rpc_reply. destruct (links h' !! link) as [l|]; [|by apply secure_values].
    destruct (rpc_finish who id timed_out l). by apply secure_values.
Qed.

(** ** Tokens over sequences of requests *)

(** The route a request takes. *)
Definition routed (mode : ListenerMode) (req : Request) (hd : Handler) (params : Z + list (list byte)) : Prop :=
  edge_allows (mode_origin mode) (req_headers req) = true /\
  exists p r, match_path (axum lib) (pattern <$> routes_of mode) (req_path req) = Some (p, params) /\
    List.find (fun r => bool_decide (pattern r = p) && answers (route_method r) (req_method req)) (routes_of mode) = Some r /\
    handler r = hd.

Lemma listener_routed mode e req hd params (h : HubT) :
  routed mode req hd params ->
  listenerT mode e req h = let '(h', o) := handleT hd mode e req params h in (h', map_response secure o).
Proof. intros (He & p & r & Hp & Hf & <-). unfold listener, route. by rewrite He, Hp, Hf. Qed.

(** What happens to the hub: requests on its listeners, the ends of those that
    wait, and what the tasks of agents and the background tasks do to the
    links, the certificates and the replay cache. *)
Inductive HubEvent :=
| EvRequest (mode : ListenerMode) (e : Env) (req : Request)
| EvReply (k : RpcKind) (link who : Ref) (id : Z) (timed_out : bool)
| EvTasks (a : Agents) (ls : gmap Ref (AgentLink WCh Sem BCh)) (certs : IssuedCertStore) (c : ReplayCache).
Definition hub_step (h : HubT) (ev : HubEvent) : HubT :=
  match ev with
  | EvRequest mode e req => (listenerT mode e req h).1
  | EvReply k link who id t => (rpc_reply lib k link who id t h).1
  | EvTasks a ls certs c => mk_hub_state (logins h) a ls certs c
  end.

(** No login of the event draws the token [tok]. *)
Definition never_mints (tok : list byte) (ev : HubEvent) : Prop :=
  match ev with
  | EvRequest _ e _ => rnd_token e <> tok /\
      forall b s, b ∈ [between1 e; between2 e; between3 e] -> sessions s !! tok = None -> sessions (b s) !! tok = None
  | _ => True
  end.

Definition unknown (tok : list byte) (h : HubT) : Prop := sessions (logins h) !! tok = None.

Lemma gc_unknown (now : Z) (tok : list byte) (s : Sessions) : s !! tok = None -> gc now id s !! tok = None.
Proof.
  intros Hs. destruct (gc now id s !! tok) eqn:E; [|done]. apply gc_lookup in E as [E _]. congruence.
Qed.

Lemma login_finish_unknown e req (tok : list byte) (h : HubT) :
  never_mints tok (EvRequest (mk_mode false []) e req) -> unknown tok h -> unknown tok (handle_login_finish lib cfg e req h).1.
Proof.
  intros [Hne Hb] U. unfold handle_login_finish, unknown in *. destruct (login_body _ _ _) as [code|[nonce r]]; [done|].
  unfold login_finish, take_pending. destruct (gc _ _ _ !! nonce) as [p|]; [|done].
  match goal with |- context [between1 e ?x] => set (st1 := x) end.
  assert (U1 : sessions (between1 e st1) !! tok = None) by (apply Hb; [set_solver|done]).
  destruct (verify_login _ _ _ _ _ _ _) as [a|x|]; [|done..].
  assert (U2 : sessions (between2 e (between1 e st1)) !! tok = None) by (apply Hb; [set_solver|done]).
  unfold store_token. cbn [fst set_logins logins sessions]. rewrite lookup_insert_ne by done. apply gc_unknown, Hb; [set_solver|done].
Qed.

Lemma unknown_step (tok : list byte) (h : HubT) ev : never_mints tok ev -> unknown tok h -> unknown tok (hub_step h ev).
Proof.
  intros N U. destruct ev as [mode e req|k link who i t|a ls certs c]; cbn [hub_step]; [|unfold rpc_reply|done].
  2: { destruct (links h !! link) as [l|]; [|done]. by destruct (rpc_finish who i t l). }
  destruct (listener_cases mode e req h) as [[_ ->]|(_ & h' & o & -> & C)]; [done|]. cbn [fst].
  destruct C as [(r & params & _ & _ & E)|(-> & _)]; [|done]. change h' with (fst (h', o)). rewrite E. clear E.
  assert (A : forall id k build (h : HubT), unknown tok h -> unknown tok (ask_agent e id k build h).1).
  { intros id k build h0 U0. unfold ask_agent. destruct (_ ≫= _) as [[q l]|]; [|done]. by destruct (rpc_start _ _ l) as [l' [j sent]]. }
  assert (B : forall k, (forall t (h : HubT), unknown tok h -> unknown tok (k t h).1) -> unknown tok (with_bearer mode e req k h).1).
  { intros k Hk. destruct (with_bearer_cases mode e req k h) as [(s & why & -> & _ & [-> | ->] & _)|[[_ ->]|(t & _ & _ & _ & ->)]];
      [done|by apply gc_unknown|by apply Hk|]. apply Hk. by apply gc_unknown. }
  destruct (handler r); cbn [handle]; try done; try (by apply B).
  - unfold handle_register_start. by destruct (register_body _ _ _).
  - unfold handle_login_start, login_start. destruct (_ ≫= _); [|done..]. by case_bool_decide.
  - by apply login_finish_unknown.
  - apply B. intros _ h0 U0. unfold handle_list_sessions. destruct params as [|[|? [|]]]; try done. by apply A.
  - apply B. intros _ h0 U0. unfold handle_kill_session. destruct params as [|[|? [|? [|]]]]; try done. by apply A.
  - apply B. intros t h0 U0. unfold unknown in *. cbn [fst set_tokens set_logins logins sessions]. unfold drop_token.
    rewrite lookup_delete_None. by right.
  - destruct (handle_term_ws_cases mode e req params h) as [(s & x & -> & _ & _ & [-> |[_ ->]])|(s & x & link & -> & _ & [[-> _]|(-> & _)])];
      first [done|by apply gc_unknown].
  - pose proof (handle_connect_cases e req h) as L. destruct (handle_connect _ _ _ _) as [h0 o0].
    destruct L as (_ & E & _). unfold unknown in *. cbn [fst]. by rewrite E.
Qed.

(** After a logout the token is unknown, whatever follows. *)
Lemma logged_out tok mode e req params (h : HubT) es :
  no_auth mode = false -> routed mode req HLogout params -> auth_token (req_headers req) = Some tok ->
  live e (sessions (logins h)) tok -> Forall (never_mints tok) es ->
  let '(h1, o1) := listenerT mode e req h in
  o1 = Reply (secure (reply 200 COk)) /\ unknown tok (foldl hub_step h1 es).
Proof.
  intros Hm Hr Ht Hl Hes. rewrite (listener_routed _ _ _ _ _ _ Hr). cbn [handle].
  destruct (with_bearer_cases mode e req (fun token h => (set_tokens (drop_token token (sessions (logins h))) h, Reply (reply 200 COk))) h)
    as [(s & why & _ & _ & _ & Hn)|[[? _]|(t & _ & Et & _ & ->)]]; [by destruct (Hn tok)|congruence|].
  rewrite Ht in Et. injection Et as <-. cbn [set_tokens set_logins logins sessions map_response].
  split; [done|]. match goal with |- context [foldl hub_step ?x es] => set (h1 := x) end.
  assert (U1 : unknown tok h1) by apply lookup_delete_eq. clearbody h1. clear -Hes U1.
  revert h1 U1. induction Hes as [|ev es Hev _ IH]; intros h1 U1; [done|]. cbn [foldl]. by apply IH, unknown_step.
Qed.

Lemma unknown_not_live tok e (h : HubT) : unknown tok h -> ~ live e (sessions (logins h)) tok.
Proof. intros U (x & Hx & _). unfold unknown in U. congruence. Qed.

(** [C23] Logging out is final: a request to log out with a live token is answered
    with success, and from then on, whatever requests, answers of agents and
    background tasks follow (short of a login drawing the same random token
    again): a request that reaches a route behind authentication with that
    token in its [Authorization] header is refused with 401 and reaches no
    handler; and no request on the authenticated listener that carries no
    other token - whatever its origin, path and method, and whether it has the
    token in that header or as the subprotocol of a WebSocket - opens a
    terminal, has anything sent to an agent, or is answered with machines,
    sessions or counters. *)
Theorem logout_is_final tok mode e req params (h : HubT) es mode' e' req' :
  no_auth mode = false -> routed mode req HLogout params -> auth_token (req_headers req) = Some tok ->
  live e (sessions (logins h)) tok ->
  Forall (never_mints tok) es ->
  no_auth mode' = false ->
  let '(h1, o1) := listenerT mode e req h in
  let h2 := foldl hub_step h1 es in
  o1 = Reply (secure (reply 200 COk)) /\
  (forall hd params', routed mode' req' hd params' -> behind_bearer hd = true -> auth_token (req_headers req') = Some tok ->
     listenerT mode' e' req' h2
     = (set_tokens (gc (t_gc e') id (sessions (logins h2))) h2, Reply (secure (reply 401 (CText (lit "invalid bearer")))))) /\
  ((forall token, auth_token (req_headers req') = Some token \/ (fst <$> token_from_ws_protocol (req_headers req')) = Some token ->
      token = tok) ->
   let '(h', o) := listenerT mode' e' req' h2 in
   agents h' = agents h2 /\ links h' = links h2 /\ issued h' = issued h2 /\
   match o with Reply r | AgentMux r _ => is_public (content r) = true | _ => False end).
Proof.
  intros Hm Hr Ht Hl Hes Hm'. pose proof (logged_out tok mode e req params h es Hm Hr Ht Hl Hes) as L.
  destruct (listenerT mode e req h) as [h1 o1]. destruct L as [-> U2]. split; [done|].
  generalize dependent (foldl hub_step h1 es). intros h2 U2. split.
  - intros hd params' Hr' Hb Ht'. rewrite (listener_routed _ _ _ _ _ _ Hr').
    assert (W : forall k, with_bearer mode' e' req' k h2
      = (set_tokens (gc (t_gc e') id (sessions (logins h2))) h2, text 401 (lit "invalid bearer"))).
    { intros k. unfold with_bearer, bearer. fold (auth_token (req_headers req')). rewrite Hm', Ht'. unfold validate_token.
      by rewrite (gc_unknown _ _ _ U2). }
    destruct hd; try done; cbn [handle]; by rewrite W.
  - intros Hall. apply no_live_token; [done|]. intros token Htok. rewrite (Hall token Htok). by apply unknown_not_live.
Qed.

(** ** Killing a session over HTTP *)

Definition in_frame (session_id : list byte) : list byte := take (Z.to_nat MAX_SESSION_ID_LEN) session_id.

Lemma encode_kill i sid : encode (Frame.kill_session i sid) = encode (Frame.kill_session i (in_frame sid)).
Proof.
  unfold encode, Frame.kill_session, in_frame. cbn [body payload stream_id ty].
  change (Z.to_nat MAX_SESSION_ID_LEN) with 64%nat. rewrite length_take.
  replace (Nat.min (Nat.min 64 (length sid)) 64) with (Nat.min (length sid) 64) by lia.
  rewrite take_take. by replace (Nat.min (Nat.min (length sid) 64) 64) with (Nat.min (length sid) 64) by lia.
Qed.

(** Frames with one encoding have one type and one payload. *)
Lemma encode_parts g f : encode g = encode f -> ty g = ty f /\ payload (body g) = payload (body f).
Proof.
  unfold encode. intros E. apply (app_inj_1 _ _ _ _) in E as [_ E]; [|by rewrite !length_be_enc].
  pose proof (f_equal hd_error E) as Eb. apply (f_equal tail) in E. cbn [hd_error tail] in Eb, E.
  apply (app_inj_1 _ _ _ _) in E as [_ E]; [|by rewrite !length_be_enc]. split; [|done].
  injection Eb as Eb. apply (f_equal byte_val) in Eb. rewrite !byte_val_type_byte in Eb. by destruct (ty g), (ty f).
Qed.

Lemma kill_frame_refused i sid g n :
  is_valid_session_id (in_frame sid) = false -> frame_from_ws_payload (encode (Frame.kill_session i sid)) <> Ok (g, n).
Proof.
  intros V D. rewrite encode_kill in D. apply ws_payload_inv in D as (W & E & _).
  apply encode_parts in E as [T E]. symmetry in T.
  destruct g as [gs gb]. unfold ty in T. cbn [body] in T, E. destruct gb as [| | | | | | | | | | | | | | | | | | | |j s|]; try done.
  destruct W as [_ _ [Tj _] Wl]. cbn in Wl.
  unfold Frame.kill_session in E. cbn [body payload] in E. apply (app_inj_1 _ _ _ _) in E as [_ E]; [|by rewrite !length_be_enc].
  assert (L : (length s <= 64)%nat).
  { unfold is_valid_session_id in Wl. destruct (_ || _) eqn:Eo in Wl; [done|]. bool_to_prop. unfold len, MAX_SESSION_ID_LEN in *. lia. }
  injection E as _ E. unfold in_frame in *. change (Z.to_nat MAX_SESSION_ID_LEN) with 64%nat in *.
  rewrite (take_ge s) in E by lia. rewrite take_take, length_take in E.
  replace (Nat.min (Nat.min (64 `min` length sid) 64) 64)%nat with (64 `min` length sid)%nat in E by lia.
  assert (E' : take 64 sid = s).
  { rewrite <- E. destruct (Nat.le_gt_cases 64 (length sid)); [by rewrite Nat.min_l by lia|].
    by rewrite Nat.min_r, !take_ge by lia. }
  congruence.
Qed.

(** Asking over HTTP to kill a session, on a request that is let through: with
    no connected agent the answer is 503 and nothing is sent; otherwise
    exactly one request frame goes to the link of that machine and no other
    link changes, and the answer is 504 if the link is closed, else it waits
    for the agent.  The agent answers "killed" or "not found", and 504 stands
    for anything else.  The route does not check the session id: an id that,
    cut to 64 bytes, is not valid makes a frame no decoder accepts, which
    ends the agent's connection; a longer id addresses the session its first
    64 bytes name. *)
Lemma kill_route_exact mode e req machine sid (h : HubT) :
  routed mode req HKillSession (inr [machine; sid]) ->
  (no_auth mode = false -> exists tok, auth_token (req_headers req) = Some tok /\ live e (sessions (logins h)) tok) ->
  (let '(h', o) := listenerT mode e req h in
   agents h' = agents h /\
   match (r ← agents h !! machine; l ← links h !! r; Some (r, l)) with
   | None => links h' = links h /\ o = Reply (secure (reply 503 (CText (lit "agent not connected"))))
   | Some (r, l) =>
       let '(l', (id, sent)) := rpc_start (one_shot e) (fun id => Frame.kill_session id sid) l in
       links h' = <[r := l']> (links h) /\
       o = match sent with
           | SendErr _ => Reply (secure (reply 504 (CText (lit "agent link writer closed"))))
           | _ => Waiting (KKill sid) r (one_shot e) id sent
           end
   end) /\
  (forall r : RpcError + Body,
     let a := rpc_answer lib (KKill sid) r in
     (content a = CKilled true <-> exists id, r = inr (Bd.KillSessionAck id KILL_STATUS_OK)) /\
     (content a = CKilled false <-> exists id st, r = inr (Bd.KillSessionAck id st) /\ st <> KILL_STATUS_OK) /\
     (status a = 200 <-> exists id st, r = inr (Bd.KillSessionAck id st)) /\ (status a = 200 \/ status a = 504)) /\
  forall id, u32 id ->
    let f := Frame.kill_session id (in_frame sid) in
    encode (Frame.kill_session id sid) = encode f /\
    if is_valid_session_id (in_frame sid) then frame_from_ws_payload (encode f) = Ok (f, len (encode f))
    else forall g n, frame_from_ws_payload (encode f) <> Ok (g, n).
Proof.
  intros Hr Hl. split_and!.
  - rewrite (listener_routed _ _ _ _ _ _ Hr). cbn [handle].
    assert (W : exists s, with_bearer mode e req (fun _ => handle_kill_session e (inr [machine; sid])) h
        = handle_kill_session e (inr [machine; sid]) (set_tokens s h)).
    { destruct (with_bearer_cases mode e req (fun _ => handle_kill_session e (inr [machine; sid])) h)
        as [(s & why & _ & Hm & _ & Hn)|[[_ ->]|(t & _ & _ & _ & ->)]]; [|exists (sessions (logins h)); by destruct h as [[]]|by eexists].
      destruct (Hl Hm) as (tok & Ht & L). by destruct (Hn tok). }
    destruct W as [s ->]. unfold handle_kill_session, ask_agent. cbn [set_tokens set_logins agents links].
    destruct (_ ≫= _) as [[q l]|]; [|done]. destruct (rpc_start _ _ l) as [l' [i sent]]. split; [done|]. split; [done|]. by destruct sent.
  - intros [x|b]; cbn zeta; unfold rpc_answer, kill_session_result.
    { split_and!; try (cbn; naive_solver). }
    destruct b; cbn -[KILL_STATUS_OK Z.eqb]; split_and!; try naive_solver.
    + split; [intros [= E%Z.eqb_eq]; subst; eauto|intros (i & [= -> ->]); by rewrite Z.eqb_refl].
    + split; [intros [= E%Z.eqb_neq]; eauto|intros (i & st & [= -> ->] & ?); by rewrite (proj2 (Z.eqb_neq _ _))].
  - intros i U f. split; [apply encode_kill|]. destruct (is_valid_session_id (in_frame sid)) eqn:V.
    + apply ws_payload_encode, kill_session_wf; done.
    + intros g n. unfold f. rewrite <- encode_kill. by apply kill_frame_refused.
Qed.
End Routes.

(** ** Witnesses *)

(** Paths without parameters match themselves; one path names a session, one a
    terminal. *)
Definition toy_axum : Axum := {|
  match_path pats path :=
    if bool_decide (path = lit "/api/machines/m/sessions/a b")
    then Some (lit "/api/machines/{machine_id}/sessions/{session_id}", inr [lit "m"; lit "a b"])
    else if bool_decide (path = lit "/ws/term/m") then Some (lit "/ws/term/{machine_id}", inr [lit "m"])
    else p ← List.find (fun p => bool_decide (p = path)) pats; Some (p, inr []);
  register_body _ _ := None;
  login_body _ _ := inl 400;
  ws_upgrade req := if bool_decide (req_path req = lit "/ws/term/m") then None else Some 400;
|}.
Definition toy_hub_lib : HubLib := {|
  assets _ := None; sessions_of_json _ := None; axum := toy_axum; pki := toy_pki; stores := toy_store;
  envelopes := toy_elib |}.
Definition toy_cfg : HubConfig :=
  mk_config (lit "h") (lit "h") (lit "term") Off None false None None None (lit "/d") None (lit "[::]:7700") None None
    [mk_machine (lit "m") (lit "M")].
Definition toy_env : Env :=
  mk_env 10 10 10 10 0 0 None 0 (lit "1.000") [] (lit "chal") (lit "nonce") true true
    (fun s => s) (fun s => s) (fun s => s) 7.
Definition toy_mode (open : bool) : ListenerMode := mk_mode open (lit "https://h").
Definition toy_request (m : Method) (path : string) (token : option (list byte)) : Request :=
  mk_req m (lit path) (match token with Some t => [(lit "authorization", Some (lit "Bearer " ++ t))] | None => [] end) [].
Abbreviation ToyHub := (Hub (ChanView (Z * list byte)) Z (ChanView Body)).
Definition toy_state : ToyHub :=
  mk_hub_state (mk_hub ∅ {[lit "tok" := 1000]} NoFile) {[lit "m" := 3%nat]} {[3%nat := new_link 20]} [] ∅.

Lemma private_needs_token_witness :
  (listener toy_hub_lib toy_cfg [] (toy_mode false) toy_env (toy_request GET "/api/machines" (Some (lit "guess"))) toy_state).2
    = Reply (secure (reply 401 (CText (lit "invalid bearer")))) /\
  match (listener toy_hub_lib toy_cfg [] (toy_mode false) toy_env (toy_request GET "/api/machines" (Some (lit "guess"))) toy_state).2 with
  | Reply r | AgentMux r _ => is_public (content r) = true | _ => False end.
Proof.
  split; [vm_compute; reflexivity|].
  pose proof (private_needs_token toy_hub_lib toy_cfg [] (toy_mode false) toy_env
    (toy_request GET "/api/machines" (Some (lit "guess"))) toy_state eq_refl) as W.
  assert (N : forall token, auth_token (req_headers (toy_request GET "/api/machines" (Some (lit "guess")))) = Some token \/
    (fst <$> token_from_ws_protocol (req_headers (toy_request GET "/api/machines" (Some (lit "guess"))))) = Some token ->
     ~ live toy_env (sessions (logins toy_state)) token).
  { intros token [Ht|Ht]; vm_compute in Ht; [|discriminate Ht]. injection Ht as <-. intros (x & Hx & _). vm_compute in Hx. discriminate Hx. }
  specialize (W N). destruct (listener toy_hub_lib toy_cfg [] (toy_mode false) toy_env
    (toy_request GET "/api/machines" (Some (lit "guess"))) toy_state) as [h' o]. exact (proj2 (proj2 (proj2 W))).
Defined.

Lemma no_auth_surface_witness :
  (listener toy_hub_lib toy_cfg [] (toy_mode true) toy_env (toy_request GET "/metrics" (Some (lit "tok"))) toy_state).2
    = Reply (secure (reply 404 CNothing)) /\
  logins (listener toy_hub_lib toy_cfg [] (toy_mode true) toy_env (toy_request GET "/metrics" (Some (lit "tok"))) toy_state).1
    = logins toy_state.
Proof.
  split; [vm_compute; reflexivity|].
  pose proof (no_auth_surface toy_hub_lib toy_cfg [] (toy_mode true) toy_env
    (toy_request GET "/metrics" (Some (lit "tok"))) toy_state eq_refl) as W.
  destruct (listener toy_hub_lib toy_cfg [] (toy_mode true) toy_env (toy_request GET "/metrics" (Some (lit "tok"))) toy_state) as [h' o].
  exact (proj1 W).
Defined.

Lemma toy_routed open m path tok hd :
  (exists p r, match_path toy_axum (pattern <$> routes_of (toy_mode open)) (lit path) = Some (p, inr []) /\
    List.find (fun r => bool_decide (pattern r = p) && answers (route_method r) m) (routes_of (toy_mode open)) = Some r /\ handler r = hd) ->
  routed toy_hub_lib (toy_mode open) (toy_request m path (Some tok)) hd (inr []).
Proof. intros W. split; [reflexivity|exact W]. Qed.

(** A terminal, with the token as subprotocol: it opens before the logout. *)
Definition toy_terminal : Request :=
  mk_req GET (lit "/ws/term/m") [(lit "origin", Some (lit "https://h")); (lit "sec-websocket-protocol", Some (lit "bearer.tok"))] [].
Example toy_terminal_opens : exists r,
  (listener toy_hub_lib toy_cfg [] (toy_mode false) toy_env toy_terminal toy_state).2 = Terminal r 3.
Proof. eexists. vm_compute. reflexivity. Qed.

Lemma logout_is_final_witness :
  let h := toy_state in
  let '(h1, o1) := listener toy_hub_lib toy_cfg [] (toy_mode false) toy_env (toy_request POST "/api/logout" (Some (lit "tok"))) h in
  let h2 := foldl (hub_step toy_hub_lib toy_cfg []) h1 [EvRequest (toy_mode false) toy_env (toy_request GET "/api/me" (Some (lit "tok")))] in
  o1 = Reply (secure (reply 200 COk)) /\
  match (listener toy_hub_lib toy_cfg [] (toy_mode false) toy_env toy_terminal h2).2 with
  | Reply r | AgentMux r _ => is_public (content r) = true | _ => False end.
Proof.
  assert (R1 : routed toy_hub_lib (toy_mode false) (toy_request POST "/api/logout" (Some (lit "tok"))) HLogout (inr []))
    by (apply toy_routed; do 2 eexists; split; [vm_compute; reflexivity|]; split; vm_compute; reflexivity).
  assert (L : live toy_env (sessions (logins toy_state)) (lit "tok"))
    by (exists 1000; split; [vm_compute; reflexivity|]; split; reflexivity).
  assert (M : Forall (never_mints (lit "tok"))
    [EvRequest (WCh:=ChanView (Z * list byte)) (Sem:=Z) (BCh:=ChanView Body) (toy_mode false) toy_env (toy_request GET "/api/me" (Some (lit "tok")))]).
  { constructor; [|constructor]. split; [vm_compute; discriminate|]. intros b s Hb Hs.
    rewrite !elem_of_cons, elem_of_nil in Hb. destruct Hb as [->|[->|[->|[]]]]; exact Hs. }
  pose proof (logout_is_final toy_hub_lib toy_cfg [] (lit "tok") (toy_mode false) toy_env
    (toy_request POST "/api/logout" (Some (lit "tok"))) (inr []) toy_state
    [EvRequest (toy_mode false) toy_env (toy_request GET "/api/me" (Some (lit "tok")))]
    (toy_mode false) toy_env toy_terminal eq_refl R1 eq_refl L M eq_refl) as W. cbn zeta.
  destruct (listener toy_hub_lib toy_cfg [] (toy_mode false) toy_env (toy_request POST "/api/logout" (Some (lit "tok"))) toy_state) as [h1 o1].
  destruct W as (W1 & _ & W2). split; [exact W1|].
  assert (N : forall token, auth_token (req_headers toy_terminal) = Some token \/
    (fst <$> token_from_ws_protocol (req_headers toy_terminal)) = Some token -> token = lit "tok").
  { intros token [Ht|Ht]; vm_compute in Ht; [discriminate Ht|]. by injection Ht as <-. }
  specialize (W2 N). destruct (listener toy_hub_lib toy_cfg [] (toy_mode false) toy_env toy_terminal _) as [h' o]. exact (proj2 (proj2 (proj2 W2))).
Defined.

Lemma kill_route_exact_witness :
  let req := toy_request DELETE "/api/machines/m/sessions/a b" (Some (lit "tok")) in
  (exists r who id, (listener toy_hub_lib toy_cfg [] (toy_mode false) toy_env req toy_state).2 = Waiting (KKill (lit "a b")) r who id SendOk) /\
  forall g n, frame_from_ws_payload (encode (Frame.kill_session 1 (lit "a b"))) <> Ok (g, n).
Proof.
  split; [do 3 eexists; vm_compute; reflexivity|].
  assert (R : routed toy_hub_lib (toy_mode false) (toy_request DELETE "/api/machines/m/sessions/a b" (Some (lit "tok"))) HKillSession
    (inr [lit "m"; lit "a b"]))
    by (split; [reflexivity|]; do 2 eexists; split; [vm_compute; reflexivity|]; split; vm_compute; reflexivity).
  assert (L : no_auth (toy_mode false) = false -> exists tok,
    auth_token (req_headers (toy_request DELETE "/api/machines/m/sessions/a b" (Some (lit "tok")))) = Some tok /\
    live toy_env (sessions (logins toy_state)) tok).
  { intros _. exists (lit "tok"). split; [vm_compute; reflexivity|]. exists 1000. split; [vm_compute; reflexivity|]. split; reflexivity. }
  exact (proj2 (proj2 (proj2 (kill_route_exact toy_hub_lib toy_cfg [] (toy_mode false) toy_env _ (lit "m") (lit "a b") toy_state R L))
    1 ltac:(split; [discriminate|reflexivity]))).
Defined.
