(* ===== verification/Testing.v ===== *)
(** * Testing: the vocabulary of the repository's unit tests

    The tests of the sources, transcribed, run on the model (files named
    [...Tests]): what the authors expect of the code holds of the definitions
    that stand for it.  A test is a boolean, true when it passes; a panic, as of
    [unwrap], is [false]. *)

From Stdlib Require Import Strings.Byte.
From stdpp Require Import prelude strings list.
From S2P Require Import Prelude Utf8.

(** [u32::from_be_bytes] of four bytes from [i] on, and one byte. *)
Definition u32_at (l : list byte) (i : nat) : Z := be_dec (take 4 (drop i l)).
Definition byte_at (l : list byte) (i : nat) : Z := default (-1) (byte_val <$> l !! i).

(** [assert_eq!] *)
Definition assert_eq {A} `{EqDecision A} (a b : A) : bool := bool_decide (a = b).

(** [unwrap] and [unwrap_err], with what the test goes on to say. *)
Definition unwrap {E A} (m : res E A) (p : A -> bool) : bool := match m with Ok a => p a | _ => false end.
Definition unwrap_err {E A} (m : res E A) (p : E -> bool) : bool := match m with Err e => p e | _ => false end.
Definition unwrap_opt {A} (m : option A) (p : A -> bool) : bool := match m with Some a => p a | None => false end.

(** [(0u8..=255).cycle().take(n)] *)
Definition cycle_bytes (n : nat) : list byte := (fun k => byte_of (Z.of_nat k mod 256)) <$> seq 0 n.
(** [s.repeat(n)] *)
Definition repeat_str (s : list byte) (n : nat) : list byte := concat (replicate n s).

(** Tests that all pass. *)
Definition all_pass (tests : list bool) : bool := forallb (fun t => t) tests.

(** A string between quotes, as JSON writes a plain one. *)
Definition quoted (s : list byte) : list byte := x22 :: s ++ [x22].

(** ** The libraries, as far as the tests need them *)

(** Base64 with the URL-safe alphabet and no padding. *)
Definition b64_char (n : Z) : byte :=
  byte_of (if n <? 26 then 65 + n else if n <? 52 then 71 + n else if n <? 62 then n - 4 else if n =? 62 then 45 else 95).
Definition b64_value (b : byte) : option Z :=
  let v := byte_val b in
  if in_range 65 90 v then Some (v - 65) else if in_range 97 122 v then Some (v - 71)
  else if in_range 48 57 v then Some (v + 4) else if v =? 45 then Some 62 else if v =? 95 then Some 63 else None.
(** The sextets of a number of [6 * n] bits. *)
Fixpoint sextets (n : nat) (v : Z) : list byte :=
  match n with O => [] | S k => b64_char (Z.land (Z.shiftr v (6 * Z.of_nat k)) 63) :: sextets k v end.
Fixpoint b64url_encode (l : list byte) : list byte :=
  match l with
  | [] => []
  | [a] => sextets 2 (byte_val a * 2 ^ 4)
  | [a; b] => sextets 3 (be_dec [a; b] * 2 ^ 2)
  | a :: b :: c :: l => sextets 4 (be_dec [a; b; c]) ++ b64url_encode l
  end.
(** The number a group of characters spells. *)
Definition group_value (l : list byte) : option Z :=
  foldl (fun acc b => match acc, b64_value b with Some a, Some v => Some (64 * a + v) | _, _ => None end) (Some 0) l.
(** The bytes of a last, short group, whose spare bits must be 0. *)
Definition short_group (n : nat) (spare : Z) (l : list byte) : option (list byte) :=
  match group_value l with
  | Some v => if v mod 2 ^ spare =? 0 then Some (be_enc n (v / 2 ^ spare)) else None
  | None => None
  end.
Fixpoint b64url_decode (l : list byte) : option (list byte) :=
  match l with
  | [] => Some []
  | [_] => None
  | [a; b] => short_group 1 4 [a; b]
  | [a; b; c] => short_group 2 2 [a; b; c]
  | a :: b :: c :: d :: l =>
      match group_value [a; b; c; d], b64url_decode l with
      | Some v, Some r => Some (be_enc 3 v ++ r)
      | _, _ => None
      end
  end.

(** [strip_prefix], and what follows the first occurrence of [needle]. *)
Fixpoint strips (p s : list byte) : option (list byte) :=
  match p, s with
  | [], _ => Some s
  | a :: p, b :: s => if bool_decide (a = b) then strips p s else None
  | _, _ => None
  end.
Fixpoint after (needle s : list byte) : option (list byte) :=
  match strips needle s, s with
  | Some r, _ => Some r
  | None, _ :: s => after needle s
  | None, [] => None
  end.
Definition contains (needle s : list byte) : bool := match after needle s with Some _ => true | None => false end.

(** The bytes up to a double quote. *)
Fixpoint until_quote (s : list byte) : list byte :=
  match s with b :: s => if bool_decide (b = x22) then [] else b :: until_quote s | [] => [] end.

(** A flat JSON object of strings, [None] where a member is missing; a string
    holds no escapes. *)
Definition json_pair (k v : list byte) : list byte := quoted k ++ lit ":" ++ quoted v.
Definition json_string (cd k : list byte) : option (list byte) := until_quote <$> after (quoted k ++ lit ":" ++ [x22]) cd.

(** SHA-256 (FIPS 180-4), on 32-bit words. *)
Module Sha256.
(** The largest [r + x] with [x < 2^n] whose cube is at most [m]. *)
Fixpoint cube_root (n : nat) (r m : Z) : Z :=
  match n with
  | O => r
  | S n => let r' := r + 2 ^ Z.of_nat n in cube_root n (if r' ^ 3 <=? m then r' else r) m
  end.
Definition is_prime (p : nat) : bool := forallb (fun d => negb (p mod d =? 0)%nat) (seq 2 (p - 2)).
Definition primes : list Z := Z.of_nat <$> List.filter is_prime (seq 2 310).
(** The first 32 bits of the fractional parts of the cube roots of the first 64
    primes, and of the square roots of the first 8. *)
Definition K : list Z := Eval vm_compute in (fun p => as_u32 (cube_root 36 0 (p * 2 ^ 96))) <$> primes.
Definition H0 : list Z := Eval vm_compute in (fun p => as_u32 (Z.sqrt (p * 2 ^ 64))) <$> take 8 primes.
Definition rotr (n x : Z) : Z := Z.lor (Z.shiftr x n) (as_u32 (Z.shiftl x (32 - n))).
Definition xor3 (a b c : Z) : Z := Z.lxor a (Z.lxor b c).
(** The message schedule, the newest word first. *)
Definition next_word (w : list Z) : Z :=
  let at_ i := nth (i - 1) w 0 in
  let s0 := let x := at_ 15%nat in xor3 (rotr 7 x) (rotr 18 x) (Z.shiftr x 3) in
  let s1 := let x := at_ 2%nat in xor3 (rotr 17 x) (rotr 19 x) (Z.shiftr x 10) in
  as_u32 (at_ 16%nat + s0 + at_ 7%nat + s1).
Fixpoint schedule (n : nat) (w : list Z) : list Z := match n with O => w | S n => schedule n (next_word w :: w) end.
Definition round (v : list Z) (kw : Z * Z) : list Z :=
  match v with
  | [a; b; c; d; e; f; g; h] =>
      let s1 := xor3 (rotr 6 e) (rotr 11 e) (rotr 25 e) in
      let ch := Z.lxor (Z.land e f) (Z.land (0xffffffff - e) g) in
      let t1 := h + s1 + ch + kw.1 + kw.2 in
      let s0 := xor3 (rotr 2 a) (rotr 13 a) (rotr 22 a) in
      let maj := xor3 (Z.land a b) (Z.land a c) (Z.land b c) in
      [as_u32 (t1 + s0 + maj); a; b; c; as_u32 (d + t1); e; f; g]
  | _ => v
  end.
Fixpoint words (n : nat) (l : list byte) : list Z := match n with O => [] | S n => be_dec (take 4 l) :: words n (drop 4 l) end.
Definition block (h : list Z) (l : list byte) : list Z :=
  let w := rev (schedule 48 (rev (words 16 l))) in
  zip_with (fun a b => as_u32 (a + b)) h (foldl round h (zip K w)).
Fixpoint blocks (n : nat) (h : list Z) (l : list byte) : list Z :=
  match n with O => h | S n => blocks n (block h (take 64 l)) (drop 64 l) end.
Definition padded (l : list byte) : list byte :=
  l ++ [x80] ++ replicate (Z.to_nat ((55 - len l) mod 64)) x00 ++ be_enc 8 (8 * len l).
Definition hash (l : list byte) : list byte :=
  let m := padded l in flat_map (be_enc 4) (blocks (length m / 64) H0 m).
End Sha256.

(** A stand-in for SHA-256: the text itself, cut or filled to 32 bytes. *)
Definition digest32 (s : list byte) : list byte := take 32 (s ++ replicate 32 x00).
(** A number that stands for a text. *)
Definition text_number (s : list byte) : Z := foldl (fun a b => a * 256 + byte_val b) 1 s.
