(* ===== verification/FrameTests.v ===== *)
(** * FrameTests: the unit tests of [common/src/frame.rs] and
    [common/src/transport.rs], run on the model *)

From Stdlib Require Import Strings.Byte.
From stdpp Require Import prelude strings list.
From S2P Require Import Prelude Utf8 Frame Transport Testing.

(** [Frame::validate_header] on the header of encoded bytes, with the length
    field read from them; [Frame::from_payload] on the rest. *)
Definition header_of (sid : Z) (enc : list byte) : res FrameError (FrameType * Z) :=
  validate_header sid (byte_at enc 4) (u32_at enc 5).
Definition rest_of (sid : Z) (ty : FrameType) (enc : list byte) : res FrameError Frame := from_payload sid ty (drop 9 enc).

(** Both passes: the type and the length of the header, and the body. *)
Definition reread (sid : Z) (enc : list byte) (p : FrameType -> Z -> Body -> bool) : bool :=
  unwrap (header_of sid enc) (fun '(ty, l) => unwrap (rest_of sid ty enc) (fun f => p ty l (body f))).
(** The second pass only. *)
Definition reread_as (sid : Z) (ty : FrameType) (enc : list byte) (p : Body -> bool) : bool :=
  unwrap (rest_of sid ty enc) (fun f => p (body f)).

Definition test_round_trip_data : bool :=
  let bytes := encode (data 7 (lit "hi")) in
  assert_eq (len bytes) (HEADER_LEN + 2) && assert_eq (u32_at bytes 0) 7 &&
  assert_eq (byte_at bytes 4) (type_byte Ty.Data) && assert_eq (u32_at bytes 5) 2.

Definition test_round_trip_resize : bool :=
  let bytes := encode (resize 3 24 80) in
  unwrap (validate_header 3 (byte_at bytes 4) 4) (fun '(ty, l) =>
    assert_eq ty Ty.Resize && assert_eq l 4 &&
    reread_as 3 ty bytes (fun b => match b with Bd.Resize r c => assert_eq (r, c) (24, 80) | _ => false end)).

Definition test_rejects_data_on_control_stream : bool :=
  unwrap_err (validate_header 0 (type_byte Ty.Data) 1) (fun e => match e with DataOnControlStream => true | _ => false end).
Definition test_rejects_ping_on_data_stream : bool :=
  unwrap_err (validate_header 5 (type_byte Ty.Ping) 0) (fun e => match e with ControlOnDataStream s => assert_eq s 5 | _ => false end).
Definition test_rejects_oversized_data : bool :=
  unwrap_err (validate_header 1 0 (MAX_DATA_LEN + 1)) (fun e => match e with PayloadTooLarge _ _ _ => true | _ => false end).
Definition test_rejects_bad_resize_len : bool :=
  unwrap_err (validate_header 1 1 6) (fun e => match e with InvalidResizeLen l => assert_eq l 6 | _ => false end).
Definition test_rejects_unknown_type : bool :=
  unwrap_err (validate_header 1 99 0) (fun e => match e with UnknownType b => assert_eq b 99 | _ => false end).

Definition test_open_session_validation : bool :=
  is_valid_session_id (lit "abc-123_XYZ") && negb (is_valid_session_id []) && negb (is_valid_session_id (lit "a b")) &&
  negb (is_valid_session_id (lit "a;b")) && negb (is_valid_session_id (repeat_str (lit "x") 65)).

(** The payload is the JSON of a [HelloPayload], here as [serde_json] writes it. *)
Definition test_hello_round_trip : bool :=
  let bytes := lit "{" ++ quoted (lit "version") ++ lit ":2}" in
  let enc := encode (hello bytes) in
  unwrap (validate_header 0 (byte_at enc 4) (len bytes)) (fun '(ty, _) =>
    assert_eq ty Ty.Hello && reread_as 0 ty enc (fun b => match b with Bd.Hello j => assert_eq j bytes | _ => false end)).

(** ** Pastes *)

Definition test_paste_begin_round_trip : bool :=
  let enc := encode (paste_begin 11 0xdeadbeef 1234567 0xabcd 3 (lit "screenshot.png")) in
  reread (u32_at enc 0) enc (fun ty _ b => assert_eq ty Ty.PasteBegin &&
    match b with
    | Bd.PasteBegin paste_id total_size group_id group_size name =>
        assert_eq paste_id 0xdeadbeef && assert_eq total_size 1234567 && assert_eq group_id 0xabcd &&
        assert_eq group_size 3 && assert_eq name (lit "screenshot.png")
    | _ => false
    end).
Definition test_paste_begin_empty_name : bool :=
  reread_as 2 Ty.PasteBegin (encode (paste_begin 2 0 0 0 1 [])) (fun b =>
    match b with Bd.PasteBegin _ _ _ _ name => assert_eq name [] | _ => false end).
Definition test_paste_begin_max_name : bool :=
  let name := repeat_str (lit "a") 255 in
  reread_as 2 Ty.PasteBegin (encode (paste_begin 2 1 100 0 1 name)) (fun b =>
    match b with Bd.PasteBegin _ _ _ _ n => assert_eq n name | _ => false end).
Definition party : list byte := [xf0; x9f; x8e; x89].
Definition test_paste_begin_utf8_safe_truncation : bool :=
  reread_as 2 Ty.PasteBegin (encode (paste_begin 2 1 1 0 1 (repeat_str party 255))) (fun b =>
    match b with
    | Bd.PasteBegin _ _ _ _ name =>
        is_char_boundary name (length name) && assert_eq name (repeat_str party (length name / 4)) && (len name <=? MAX_PASTE_NAME_LEN)
    | _ => false
    end).
Definition test_paste_begin_rejected_on_control_stream : bool :=
  unwrap_err (validate_header 0 (type_byte Ty.PasteBegin) 21) (fun e => match e with DataOnControlStream => true | _ => false end).
Definition test_paste_begin_rejects_truncated : bool :=
  unwrap_err (validate_header 1 (type_byte Ty.PasteBegin) 20) (fun e => match e with PasteBeginTruncated l => assert_eq l 20 | _ => false end).
Definition test_paste_begin_rejects_oversize_total : bool :=
  let p := be_enc 4 0 ++ be_enc 8 (MAX_PASTE_TOTAL_BYTES + 1) ++ be_enc 4 0 ++ be_enc 4 1 ++ [x00] in
  unwrap_err (from_payload 1 Ty.PasteBegin p) (fun e => match e with PasteBeginTotalSize _ => true | _ => false end).
Definition test_paste_begin_rejects_zero_group_size : bool :=
  let p := be_enc 4 0 ++ be_enc 8 0 ++ be_enc 4 0 ++ be_enc 4 0 ++ [x00] in
  unwrap_err (from_payload 1 Ty.PasteBegin p) (fun e => match e with PasteBeginGroupSizeZero n => assert_eq n 0 | _ => false end).
Definition test_paste_begin_rejects_name_len_mismatch : bool :=
  let p := be_enc 4 0 ++ be_enc 8 0 ++ be_enc 4 0 ++ be_enc 4 1 ++ [x0a] in
  unwrap_err (from_payload 1 Ty.PasteBegin p) (fun e => match e with PasteBeginTruncated _ => true | _ => false end).

Definition test_paste_chunk_round_trip : bool :=
  let bytes := cycle_bytes (Z.to_nat 8192) in
  reread 5 (encode (paste_chunk 5 0xcafebabe bytes)) (fun ty _ b => assert_eq ty Ty.PasteChunk &&
    match b with Bd.PasteChunk paste_id bs => assert_eq paste_id 0xcafebabe && assert_eq bs bytes | _ => false end).
Definition test_paste_chunk_zero_bytes_is_legal : bool :=
  let enc := encode (paste_chunk 1 0 []) in
  assert_eq (u32_at enc 5) 4 &&
  reread_as 1 Ty.PasteChunk enc (fun b => match b with Bd.PasteChunk _ bytes => assert_eq bytes [] | _ => false end).
Definition test_paste_chunk_rejects_oversize : bool :=
  unwrap_err (validate_header 1 (type_byte Ty.PasteChunk) (MAX_PASTE_CHUNK_LEN + 1))
    (fun e => match e with PayloadTooLarge _ _ _ => true | _ => false end).
Definition test_paste_chunk_rejects_missing_paste_id : bool :=
  unwrap_err (validate_header 1 (type_byte Ty.PasteChunk) 3) (fun e => match e with PasteChunkTruncated l => assert_eq l 3 | _ => false end).

Definition test_paste_end_round_trip_ok : bool :=
  let enc := encode (paste_end 7 42 PASTE_STATUS_OK) in
  assert_eq (u32_at enc 5) PASTE_END_LEN &&
  reread 7 enc (fun _ _ b => match b with Bd.PasteEnd i st => assert_eq i 42 && assert_eq st PASTE_STATUS_OK | _ => false end).
Definition test_paste_end_cancel_round_trips : bool :=
  reread_as 7 Ty.PasteEnd (encode (paste_end 7 42 PASTE_STATUS_CANCEL)) (fun b =>
    match b with Bd.PasteEnd _ st => assert_eq st PASTE_STATUS_CANCEL | _ => false end).
Definition test_paste_end_rejects_wrong_len : bool :=
  unwrap_err (validate_header 1 (type_byte Ty.PasteEnd) 4) (fun e => match e with PasteEndLen l => assert_eq l 4 | _ => false end) &&
  unwrap_err (validate_header 1 (type_byte Ty.PasteEnd) 6) (fun e => match e with PasteEndLen l => assert_eq l 6 | _ => false end).
Definition test_paste_end_rejects_bad_status : bool :=
  unwrap_err (from_payload 1 Ty.PasteEnd (be_enc 4 1 ++ [x07])) (fun e => match e with PasteEndStatus s => assert_eq s 7 | _ => false end).
Definition test_paste_end_rejected_on_control_stream : bool :=
  unwrap_err (validate_header 0 (type_byte Ty.PasteEnd) 5) (fun e => match e with DataOnControlStream => true | _ => false end).

Definition test_paste_reject_round_trip : bool :=
  let enc := encode (paste_reject 7 0x1234 PASTE_REJECT_REGISTRY_FULL) in
  assert_eq (u32_at enc 5) PASTE_REJECT_LEN &&
  reread 7 enc (fun ty _ b => assert_eq ty Ty.PasteReject &&
    match b with Bd.PasteReject i r => assert_eq i 0x1234 && assert_eq r PASTE_REJECT_REGISTRY_FULL | _ => false end).
Definition test_paste_reject_all_reasons_decode : bool :=
  forallb (fun r => reread_as 1 Ty.PasteReject (encode (paste_reject 1 0 r)) (fun b =>
    match b with Bd.PasteReject _ reason => assert_eq reason r | _ => false end))
    (Z.of_nat <$> seq 0 (S (Z.to_nat PASTE_REJECT_MAX_REASON))).
Definition test_paste_reject_rejects_unknown_reason : bool :=
  unwrap_err (from_payload 1 Ty.PasteReject (be_enc 4 1 ++ [byte_of (PASTE_REJECT_MAX_REASON + 1)]))
    (fun e => match e with PasteRejectReason _ => true | _ => false end).
Definition test_paste_reject_rejects_wrong_len : bool :=
  unwrap_err (validate_header 1 (type_byte Ty.PasteReject) 4) (fun e => match e with PasteRejectLen l => assert_eq l 4 | _ => false end).
Definition test_paste_reject_rejected_on_control_stream : bool :=
  unwrap_err (validate_header 0 (type_byte Ty.PasteReject) 5) (fun e => match e with DataOnControlStream => true | _ => false end).

(** ** Downloads *)

Definition test_download_begin_round_trip : bool :=
  let enc := encode (download_begin 5 0xfeedface 42 (lit "report.pdf")) in
  reread (u32_at enc 0) enc (fun ty _ b => assert_eq ty Ty.DownloadBegin &&
    match b with
    | Bd.DownloadBegin i n name => assert_eq i 0xfeedface && assert_eq n 42 && assert_eq name (lit "report.pdf")
    | _ => false
    end).
Definition test_download_begin_rejects_oversize_total : bool :=
  let p := be_enc 4 0 ++ be_enc 8 (MAX_PASTE_TOTAL_BYTES + 1) ++ [x00] in
  unwrap_err (from_payload 1 Ty.DownloadBegin p) (fun e => match e with DownloadBeginTotalSize _ => true | _ => false end).
Definition test_download_begin_rejects_truncated : bool :=
  unwrap_err (validate_header 1 (type_byte Ty.DownloadBegin) 12) (fun e => match e with DownloadBeginTruncated l => assert_eq l 12 | _ => false end).
Definition test_download_chunk_round_trip : bool :=
  let bytes := cycle_bytes 2048 in
  reread_as 2 Ty.DownloadChunk (encode (download_chunk 2 7 bytes)) (fun b =>
    match b with Bd.DownloadChunk i bs => assert_eq i 7 && assert_eq bs bytes | _ => false end).
Definition test_encode_download_chunk_matches_frame_encode : bool :=
  let bytes := cycle_bytes (Z.to_nat 5000) in
  let direct := encode_download_chunk 9 0x12345678 bytes in
  assert_eq direct (encode (download_chunk 9 0x12345678 bytes)) &&
  reread 9 direct (fun _ _ b =>
    match b with Bd.DownloadChunk i bs => assert_eq i 0x12345678 && assert_eq bs bytes | _ => false end).
Definition test_download_chunk_rejects_oversize : bool :=
  unwrap_err (validate_header 1 (type_byte Ty.DownloadChunk) (MAX_DOWNLOAD_CHUNK_LEN + 1))
    (fun e => match e with PayloadTooLarge _ _ _ => true | _ => false end).
Definition test_download_chunk_rejects_truncated : bool :=
  unwrap_err (validate_header 1 (type_byte Ty.DownloadChunk) 3) (fun e => match e with DownloadChunkTruncated l => assert_eq l 3 | _ => false end).
Definition test_download_end_round_trip_ok_and_cancel : bool :=
  forallb (fun st => reread_as 2 Ty.DownloadEnd (encode (download_end 2 5 st)) (fun b =>
    match b with Bd.DownloadEnd i s => assert_eq i 5 && assert_eq s st | _ => false end)) [DOWNLOAD_STATUS_OK; DOWNLOAD_STATUS_CANCEL].
Definition test_download_end_rejects_bad_status : bool :=
  unwrap_err (from_payload 1 Ty.DownloadEnd (be_enc 4 1 ++ [x07])) (fun e => match e with DownloadEndStatus s => assert_eq s 7 | _ => false end).
Definition test_download_end_rejects_wrong_len : bool :=
  unwrap_err (validate_header 1 (type_byte Ty.DownloadEnd) 4) (fun e => match e with DownloadEndLen l => assert_eq l 4 | _ => false end).
Definition test_download_frames_rejected_on_control_stream : bool :=
  forallb (fun '(ty, l) => unwrap_err (validate_header 0 (type_byte ty) l) (fun e => match e with DataOnControlStream => true | _ => false end))
    [(Ty.DownloadBegin, 13); (Ty.DownloadChunk, 4); (Ty.DownloadEnd, 5)].

(** ** The controller frames, and the size a stream opens with *)

Definition test_open_with_size_round_trips : bool :=
  let enc := encode (open 7 (lit "abc-123") (24, 80)) in
  assert_eq (u32_at enc 5) (7 + 4) &&
  reread 7 enc (fun _ _ b =>
    match b with Bd.Open id size => assert_eq id (lit "abc-123") && assert_eq size (24, 80) | _ => false end).
Definition test_open_64byte_id_with_size_works : bool :=
  let id := repeat_str (lit "a") (Z.to_nat MAX_SESSION_ID_LEN) in
  reread_as 7 Ty.Open (encode (open 7 id (50, 200))) (fun b =>
    match b with Bd.Open i size => assert_eq i id && assert_eq size (50, 200) | _ => false end).
Definition test_open_rejects_too_short : bool :=
  unwrap_err (validate_header 7 (type_byte Ty.Open) 4) (fun e => match e with PayloadTooLarge _ _ _ => true | _ => false end).
Definition test_open_rejects_oversize : bool :=
  unwrap_err (validate_header 7 (type_byte Ty.Open) (MAX_OPEN_LEN + 1)) (fun e => match e with PayloadTooLarge _ _ _ => true | _ => false end).
Definition test_open_rejects_invalid_session_id : bool :=
  unwrap_err (from_payload 7 Ty.Open (lit "a b" ++ be_enc 2 1 ++ be_enc 2 2))
    (fun e => match e with InvalidSessionId => true | _ => false end).

Definition test_control_frames_round_trip : bool :=
  forallb (fun '(ctor, expected_ty) =>
    let enc := encode (ctor 3) in
    assert_eq (u32_at enc 5) 0 &&
    unwrap (header_of 3 enc) (fun '(t, _) => assert_eq t expected_ty &&
      unwrap (from_payload 3 t []) (fun back => assert_eq (ty back) expected_ty)))
    [(acquire_control, Ty.AcquireControl); (release_control, Ty.ReleaseControl); (take_control, Ty.TakeControl)].
Definition test_control_frames_reject_nonempty_payload : bool :=
  unwrap_err (validate_header 3 (type_byte Ty.AcquireControl) 1) (fun e => match e with ControlFrameNonEmpty _ _ => true | _ => false end).
Definition test_control_frames_rejected_on_control_stream : bool :=
  forallb (fun ty => unwrap_err (validate_header 0 (type_byte ty) 0) (fun e => match e with DataOnControlStream => true | _ => false end))
    [Ty.AcquireControl; Ty.ReleaseControl; Ty.TakeControl].

Definition test_controller_changed_round_trip : bool :=
  forallb (fun st =>
    let enc := encode (controller_changed 5 st) in
    assert_eq (u32_at enc 5) CONTROLLER_CHANGED_LEN &&
    reread 5 enc (fun ty _ b => assert_eq ty Ty.ControllerChanged &&
      match b with Bd.ControllerChanged status => assert_eq status st | _ => false end))
    [CONTROLLER_STATUS_NONE; CONTROLLER_STATUS_SELF; CONTROLLER_STATUS_OTHER].
Definition test_controller_changed_rejects_wrong_len : bool :=
  unwrap_err (validate_header 5 (type_byte Ty.ControllerChanged) 4) (fun e => match e with ControllerChangedLen l => assert_eq l 4 | _ => false end).
Definition test_controller_changed_rejects_bad_status : bool :=
  unwrap_err (from_payload 5 Ty.ControllerChanged [x07]) (fun e => match e with ControllerChangedStatus s => assert_eq s 7 | _ => false end).

(** ** The session-admin calls *)

Definition test_list_sessions_round_trip : bool :=
  let enc := encode (list_sessions 0xdeadbeef) in
  assert_eq (u32_at enc 0) 0 && assert_eq (u32_at enc 5) LIST_SESSIONS_LEN &&
  reread 0 enc (fun ty _ b => assert_eq ty Ty.ListSessions &&
    match b with Bd.ListSessions request_id => assert_eq request_id 0xdeadbeef | _ => false end).
Definition test_list_sessions_rejected_on_data_stream : bool :=
  unwrap_err (validate_header 7 (type_byte Ty.ListSessions) 4) (fun e => match e with ControlOnDataStream s => assert_eq s 7 | _ => false end).
Definition test_list_sessions_rejects_wrong_len : bool :=
  unwrap_err (validate_header 0 (type_byte Ty.ListSessions) 3) (fun e => match e with ListSessionsLen l => assert_eq l 3 | _ => false end).

Definition session_list_json : list byte :=
  lit "{" ++ quoted (lit "sessions") ++ lit ":[{" ++ quoted (lit "id") ++ lit ":" ++ quoted (lit "abc") ++ lit "," ++
  quoted (lit "idle_secs") ++ lit ":12," ++ quoted (lit "attached") ++ lit ":2," ++ quoted (lit "has_controller") ++ lit ":true}]}".
Definition test_session_list_round_trip : bool :=
  reread 0 (encode (session_list 42 session_list_json)) (fun _ _ b =>
    match b with Bd.SessionList request_id j => assert_eq request_id 42 && assert_eq j session_list_json | _ => false end).
Definition test_session_list_rejects_mismatched_json_len : bool :=
  unwrap_err (from_payload 0 Ty.SessionList (be_enc 4 1 ++ be_enc 4 100 ++ lit "abcd"))
    (fun e => match e with SessionListJsonLen _ _ _ => true | _ => false end).
Definition test_session_list_huge_json_len_does_not_panic : bool :=
  unwrap_err (from_payload 0 Ty.SessionList (be_enc 4 1 ++ be_enc 4 (2 ^ 32 - 1) ++ lit "abcd"))
    (fun e => match e with SessionListJsonLen _ _ _ => true | _ => false end).
Definition test_resize_from_payload_rejects_short_payload : bool :=
  unwrap_err (from_payload 3 Ty.Resize [x00; x00; x00]) (fun e => match e with InvalidResizeLen l => assert_eq l 3 | _ => false end).

Definition test_kill_session_round_trip : bool :=
  reread 0 (encode (kill_session 7 (lit "alpha-1"))) (fun ty _ b => assert_eq ty Ty.KillSession &&
    match b with Bd.KillSession request_id id => assert_eq request_id 7 && assert_eq id (lit "alpha-1") | _ => false end).
Definition test_kill_session_rejects_invalid_session_id : bool :=
  unwrap_err (from_payload 0 Ty.KillSession (be_enc 4 1 ++ x03 :: lit "a b"))
    (fun e => match e with InvalidSessionId => true | _ => false end).
Definition test_kill_session_ack_round_trip : bool :=
  forallb (fun st => reread_as 0 Ty.KillSessionAck (encode (kill_session_ack 11 st)) (fun b =>
    match b with Bd.KillSessionAck request_id status => assert_eq request_id 11 && assert_eq status st | _ => false end))
    [KILL_STATUS_OK; KILL_STATUS_NOT_FOUND].
Definition test_kill_session_ack_rejects_bad_status : bool :=
  unwrap_err (from_payload 0 Ty.KillSessionAck (be_enc 4 1 ++ [x63])) (fun e => match e with KillSessionAckStatus s => assert_eq s 99 | _ => false end).

(** Every test of the file. *)
Definition frame_tests : list bool :=
  [test_round_trip_data; test_round_trip_resize; test_rejects_data_on_control_stream;
   test_rejects_ping_on_data_stream; test_rejects_oversized_data; test_rejects_bad_resize_len;
   test_rejects_unknown_type; test_open_session_validation; test_hello_round_trip;
   test_paste_begin_round_trip; test_paste_begin_empty_name; test_paste_begin_max_name;
   test_paste_begin_utf8_safe_truncation; test_paste_begin_rejected_on_control_stream;
   test_paste_begin_rejects_truncated; test_paste_begin_rejects_oversize_total;
   test_paste_begin_rejects_zero_group_size; test_paste_begin_rejects_name_len_mismatch;
   test_paste_chunk_round_trip; test_paste_chunk_zero_bytes_is_legal; test_paste_chunk_rejects_oversize;
   test_paste_chunk_rejects_missing_paste_id; test_paste_end_round_trip_ok; test_paste_end_cancel_round_trips;
   test_paste_end_rejects_wrong_len; test_paste_end_rejects_bad_status;
   test_paste_end_rejected_on_control_stream; test_paste_reject_round_trip;
   test_paste_reject_all_reasons_decode; test_paste_reject_rejects_unknown_reason;
   test_paste_reject_rejects_wrong_len; test_paste_reject_rejected_on_control_stream;
   test_download_begin_round_trip; test_download_begin_rejects_oversize_total;
   test_download_begin_rejects_truncated; test_download_chunk_round_trip;
   test_encode_download_chunk_matches_frame_encode; test_download_chunk_rejects_oversize;
   test_download_chunk_rejects_truncated; test_download_end_round_trip_ok_and_cancel;
   test_download_end_rejects_bad_status; test_download_end_rejects_wrong_len;
   test_download_frames_rejected_on_control_stream; test_open_with_size_round_trips;
   test_open_64byte_id_with_size_works; test_open_rejects_too_short; test_open_rejects_oversize;
   test_open_rejects_invalid_session_id; test_control_frames_round_trip;
   test_control_frames_reject_nonempty_payload; test_control_frames_rejected_on_control_stream;
   test_controller_changed_round_trip; test_controller_changed_rejects_wrong_len;
   test_controller_changed_rejects_bad_status; test_list_sessions_round_trip;
   test_list_sessions_rejected_on_data_stream; test_list_sessions_rejects_wrong_len;
   test_session_list_round_trip; test_session_list_rejects_mismatched_json_len;
   test_session_list_huge_json_len_does_not_panic; test_resize_from_payload_rejects_short_payload;
   test_kill_session_round_trip; test_kill_session_rejects_invalid_session_id;
   test_kill_session_ack_round_trip; test_kill_session_ack_rejects_bad_status].

Lemma frame_tests_pass : all_pass frame_tests = true.
Proof. vm_compute. reflexivity. Qed.
