(* ===== verification/CommonTests.v ===== *)
(** * CommonTests: the unit tests of [common/src/osc.rs], [transport.rs],
    [prio.rs] and [webauthn/{cbor,cose,authdata}.rs], run on the model

    The two tests of [osc.rs] that overflow its 64 KiB buffer are proved from
    the grammar instead of evaluated: the list model takes a copy for every
    byte. *)

From Stdlib Require Import Strings.Byte.
From stdpp Require Import prelude strings list.
From S2P Require Import Prelude Utf8 Frame Transport Osc Tokio Prio Cbor Webauthn Testing.

(** ** The OSC scanner *)

Definition run (input : list byte) : Osc.emitted := (Osc.feed Osc.new input).2.
(** [ESC] and what follows it; an OSC closed by [BEL], and by [ST]. *)
Definition esc (s : list byte) : list byte := ESC :: s.
Definition osc_bel (s : list byte) : list byte := esc (lit "]" ++ s ++ [BEL]).
Definition osc_st (s : list byte) : list byte := esc (lit "]" ++ s ++ [ESC] ++ lit "\").
Definition runs (input fwd : list byte) (caps : list (list byte)) : bool := assert_eq (run input) (fwd, caps).

Definition test_passthrough_plain_bytes : bool :=
  runs (lit "hello world" ++ [x0a]) (lit "hello world" ++ [x0a]) [].
Definition test_captures_5111_osc_with_bel : bool :=
  runs (lit "before" ++ osc_bel (lit "5111;dl;/tmp/foo.txt") ++ lit "after") (lit "beforeafter") [lit "dl;/tmp/foo.txt"].
Definition test_captures_5111_osc_with_st : bool :=
  runs (lit "x" ++ osc_st (lit "5111;dl;/a") ++ lit "y") (lit "xy") [lit "dl;/a"].
Definition test_forwards_non_5111_osc_unchanged : bool :=
  let input := lit "X" ++ osc_bel (lit "0;my title") ++ lit "Y" in runs input input [].
Definition test_forwards_non_5111_osc_with_st_terminator : bool :=
  let input := lit "X" ++ osc_st (lit "0;title") ++ lit "Y" in runs input input [].
Definition test_forwards_osc_52_clipboard_unchanged : bool :=
  let input := osc_bel (lit "52;c;SGVsbG8=") in runs input input [].
Definition test_stray_esc_passes_through : bool :=
  let input := lit "a" ++ esc (lit "cb") in runs input input [].
Definition test_csi_passes_through : bool :=
  let input := esc (lit "[31mred") ++ esc (lit "[0m") in runs input input [].
(** One byte to each [feed]. *)
Definition test_split_across_feeds_is_robust : bool :=
  let full := lit "pre" ++ osc_bel (lit "5111;dl;/foo") ++ lit "post" in
  let '(_, total) := foldl (fun '(s, e) b => let '(s, e') := Osc.feed s [b] in (s, emit_app e e')) (Osc.new, ([], [])) full in
  assert_eq total (lit "prepost", [lit "dl;/foo"]).
Definition test_multiple_captures_in_one_feed : bool :=
  runs (lit "a" ++ osc_bel (lit "5111;dl;/x") ++ lit "b" ++ osc_bel (lit "5111;dl;/y") ++ lit "c")
    (lit "abc") [lit "dl;/x"; lit "dl;/y"].
Definition test_mix_5111_with_other_oscs : bool :=
  runs (lit "X" ++ osc_bel (lit "0;title") ++ lit "Y" ++ osc_bel (lit "5111;dl;/p") ++ lit "Z" ++ osc_bel (lit "52;c;Zm9v") ++ lit "W")
    (lit "X" ++ osc_bel (lit "0;title") ++ lit "YZ" ++ osc_bel (lit "52;c;Zm9v") ++ lit "W") [lit "dl;/p"].
Definition test_empty_5111_payload : bool := runs (osc_bel (lit "5111;") ++ lit "x") (lit "x") [[]].
Definition test_esc_inside_osc_payload_is_kept : bool :=
  runs (osc_bel (lit "5111;dl;a" ++ esc (lit "xb"))) [] [lit "dl;a" ++ esc (lit "xb")].

Definition filler (n : Z) : list byte := replicate (Z.to_nat n) "a"%byte.
Definition overflow_with_stale_esc_does_not_leak_tail_bytes : Prop :=
  run (esc (lit "]5111;") ++ filler MAX_OSC_LEN ++ [ESC] ++ lit "NEEDLE_THAT_SHOULD_NOT_LEAK" ++ [BEL] ++ lit "after") = (lit "after", []).
Definition osc_overflow_drops_silently : Prop :=
  run (lit "X" ++ esc (lit "]5111;") ++ filler (MAX_OSC_LEN + 100) ++ [BEL] ++ lit "Y") = (lit "XY", []).

Lemma filler_add n m : 0 <= n -> 0 <= m -> filler (n + m) = filler n ++ filler m.
Proof. intros. unfold filler. by rewrite Z2Nat.inj_add, replicate_add. Qed.
Lemma filler_payload p n : osc_payload p -> osc_payload (p ++ filler n).
Proof.
  intros Hp. unfold filler. induction (Z.to_nat n) as [|k IH]; [by rewrite app_nil_r|].
  rewrite replicate_S_end, app_assoc. by apply op_byte.
Qed.
Lemma overlong_more q l : overlong false q -> forallb (fun b => negb (bool_decide (b = BEL)) && negb (bool_decide (b = ESC))) l = true -> overlong false (q ++ l).
Proof.
  revert q. induction l as [|b l IH]; intros q Hq; [by rewrite app_nil_r|]. cbn [forallb]. rewrite !andb_true_iff. intros [[H1 H2] H3]. bool_to_prop.
  change (b :: l) with ([b] ++ l). rewrite app_assoc. apply IH; [by apply ov_more|done].
Qed.
Lemma filler_plain n : forallb (fun b => negb (bool_decide (b = BEL)) && negb (bool_decide (b = ESC))) (filler n) = true.
Proof. unfold filler. by induction (Z.to_nat n). Qed.
Lemma filler_len n : 0 <= n -> len (filler n) = n.
Proof. intros. unfold len, filler. rewrite length_replicate. lia. Qed.

(** The prefix and as many bytes as the buffer has room for, and then more. *)
Lemma filler_overlong n : MAX_OSC_LEN - 5 < n -> overlong false (lit "5111;" ++ filler n).
Proof.
  intros Hn. assert (Hm : 0 <= MAX_OSC_LEN - 5) by (unfold MAX_OSC_LEN; lia).
  replace n with ((MAX_OSC_LEN - 5) + (1 + (n - MAX_OSC_LEN + 4))) by lia. rewrite !filler_add by lia. rewrite !app_assoc.
  apply overlong_more; [|apply filler_plain]. change (filler 1) with ["a"%byte].
  apply ov_byte; [|  |done..].
  - apply filler_payload. by apply op_plain.
  - unfold len in *. rewrite length_app. pose proof (filler_len (MAX_OSC_LEN - 5) Hm) as L. unfold len in L.
    change (length (lit "5111;")) with 5%nat. lia.
Qed.

(** A terminated overlong OSC between plain bytes is dropped. *)
Lemma run_overlong before q after :
  overlong false q -> Forall (fun b => b <> ESC) before -> Forall (fun b => b <> ESC) after ->
  run (before ++ introducer ++ q ++ [BEL] ++ after) = (before ++ after, []).
Proof.
  intros Hq Hb Ha. assert (P : forall l, segs_raw (Plain <$> l) = l /\ segs_out (Plain <$> l) = (l, [])).
  { induction l as [|b l [I1 I2]]; [done|]. unfold segs_raw, segs_out in *. cbn in *. injection I2 as I2 I3. by rewrite I1, I2, I3. }
  pose proof (feed_follows_the_grammar ((Plain <$> before) ++ [LongOsc q Bel] ++ (Plain <$> after))) as F.
  destruct (segs_app (Plain <$> before) ([LongOsc q Bel] ++ (Plain <$> after))) as [E1 E2].
  destruct (segs_app [LongOsc q Bel] (Plain <$> after)) as [E3 E4]. destruct (segs_one (LongOsc q Bel)) as [E5 E6].
  rewrite E1, E2, E3, E4, E5, E6, (proj1 (P before)), (proj1 (P after)), (proj2 (P before)), (proj2 (P after)) in F.
  unfold emit_app in F. cbn [seg_raw seg_out fst snd term_bytes] in F. rewrite <- !app_assoc, !app_nil_l in F. unfold run. rewrite F; [done|].
  apply Forall_app. split; [by apply Forall_fmap|]. constructor; [done|by apply Forall_fmap].
Qed.

Lemma osc_overflow_tests_pass : overflow_with_stale_esc_does_not_leak_tail_bytes /\ osc_overflow_drops_silently.
Proof.
  split.
  - assert (Hq : overlong false ((((lit "5111;" ++ filler MAX_OSC_LEN) ++ [ESC]) ++ ["N"%byte]) ++ lit "EEDLE_THAT_SHOULD_NOT_LEAK")).
    { apply overlong_more; [|done]. apply ov_back; [|done..]. apply (ov_esc _ false), filler_overlong. unfold MAX_OSC_LEN. lia. }
    pose proof (run_overlong [] _ (lit "after") Hq ltac:(constructor) ltac:(repeat constructor; done)) as R.
    unfold overflow_with_stale_esc_does_not_leak_tail_bytes. rewrite <- !app_assoc in R. exact R.
  - pose proof (run_overlong (lit "X") _ (lit "Y") (filler_overlong (MAX_OSC_LEN + 100) ltac:(unfold MAX_OSC_LEN; lia))
      ltac:(repeat constructor; done) ltac:(repeat constructor; done)) as R.
    unfold osc_overflow_drops_silently. rewrite <- !app_assoc in R. exact R.
Qed.

(** ** Transport: the in-memory reader is [Cursor] *)

Definition test_byte_stream_round_trips_frames : bool :=
  let f1 := data 7 (lit "hello") in
  let f2 := resize 7 24 80 in
  let '(g1, r) := recv (encode f1 ++ encode f2) in
  let '(g2, r) := recv r in
  let '(g3, _) := recv r in
  unwrap g1 (fun o => unwrap_opt o (fun '(g, n) => assert_eq n (len (encode f1)) && assert_eq (body g) (Bd.Data (lit "hello")))) &&
  unwrap g2 (fun o => unwrap_opt o (fun '(g, _) => assert_eq (body g) (Bd.Resize 24 80))) &&
  unwrap g3 (fun o => assert_eq o None).
Definition test_ws_payload_decodes_one_frame : bool :=
  let bytes := encode (data 3 (lit "xyz")) in
  unwrap (frame_from_ws_payload bytes) (fun '(g, n) =>
    assert_eq n (len bytes) && assert_eq (stream_id g) 3 && assert_eq (body g) (Bd.Data (lit "xyz"))).
Definition test_ws_payload_rejects_short_and_mismatched : bool :=
  unwrap_err (frame_from_ws_payload (replicate 4 x00)) (fun _ => true) &&
  unwrap_err (frame_from_ws_payload (encode (data 1 (lit "ab")) ++ [xff])) (fun _ => true).

(** ** Priority channels: a step is one poll, so a send that "is still
    waiting" is one whose poll says [Sending] *)

Abbreviation TestBytes := (Bytes (ChanView (Z * list byte)) Z).
Abbreviation TestPrio := (Prio TestBytes).

(** [send(..).await.unwrap()] *)
Definition sends (bytes : list byte) (b : TestBytes) (k : TestBytes -> bool) : bool :=
  match bytes_send bytes b with (b, SendOk) => k b | _ => false end.
(** [recv().await], the message in hand. *)
Definition receives (b : TestBytes) (k : TestBytes -> list byte -> bool) : bool :=
  match bytes_recv b with (b, Got m) => k b m | _ => false end.

Definition test_bytes_channel_round_trips : bool :=
  sends (lit "hi") (bytes_channel 16) (fun b => sends (lit "there") b (fun b =>
    receives b (fun b m1 => receives b (fun _ m2 => assert_eq m1 (lit "hi") && assert_eq m2 (lit "there"))))).
Definition test_bytes_channel_enforces_byte_cap : bool :=
  let four := replicate 4 x00 in
  sends four (bytes_channel 8) (fun b => sends four b (fun b =>
    match bytes_send four b with
    | (b, Sending) => receives b (fun b got => assert_eq (len got) 4 && sends four b (fun _ => true))
    | _ => false
    end)).
Definition test_bytes_channel_rejects_oversize_payload : bool :=
  match bytes_send (replicate 9 x00) (bytes_channel 8 : TestBytes) with (_, SendErr _) => true | _ => false end.

Definition prio_sends (h : Half) (bytes : list byte) (p : TestPrio) (k : TestPrio -> bool) : bool :=
  sends bytes (half h p) (fun b => k (set_half h b p)).
Definition prio_receives (p : TestPrio) (k : TestPrio -> list byte -> bool) : bool :=
  match prio_recv bytes_recv p with (p, Got m) => k p m | _ => false end.
(** [while let Some(v) = rx.recv().await { seen.push(v) }], [fuel] turns at most. *)
Fixpoint drains {H E} (poll : H -> H * RecvPoll E) (fuel : nat) (p : Prio H) (seen : list E) : option (Prio H * list E) :=
  match fuel, prio_recv poll p with
  | S k, (p, Got v) => drains poll k p (seen ++ [v])
  | _, (p, GotNone) => Some (p, seen)
  | _, _ => None
  end.
Definition drop_tx (p : TestPrio) : TestPrio :=
  mk_prio (bytes_drop_tx (hi p)) (bytes_drop_tx (lo p)) (hi_closed p) (lo_closed p).

Definition test_prio_channel_prefers_hi : bool :=
  prio_sends Lo (lit "low") (prio_channel 64 64) (fun p => prio_sends Hi (lit "high") p (fun p =>
    prio_receives p (fun p first => prio_receives p (fun _ second =>
      assert_eq first (lit "high") && assert_eq second (lit "low"))))).
Definition test_prio_channel_drains_both_after_close : bool :=
  prio_sends Hi (lit "a") (prio_channel 64 64) (fun p => prio_sends Lo (lit "b") p (fun p => prio_sends Hi (lit "c") p (fun p =>
    unwrap_opt (drains bytes_recv 10 (drop_tx p) []) (fun '(p, seen) =>
      assert_eq (length seen) 3%nat && match (prio_recv bytes_recv p).2 with GotNone => true | _ => false end)))).
Definition test_prio_channel_independent_budgets : bool :=
  Nat.iter 10 (fun k p => prio_sends Lo (replicate 100 x00) p k)
    (fun p => prio_sends Hi (lit "hi!") p (fun p => prio_receives p (fun _ first => assert_eq first (lit "hi!"))))
    (prio_channel 16 1024).

Definition item_sends (h : Half) (v : Z) (p : Prio (ChanView Z)) : Prio (ChanView Z) :=
  set_half h (ch_send v (half h p)).1 p.
Definition test_item_prio_channel_prefers_hi_and_drains : bool :=
  let p := item_sends Hi 11 (item_sends Hi 10 (item_sends Lo 2 (item_sends Lo 1 (item_prio_channel 4 4)))) in
  unwrap_opt (drains item_recv 10 (mk_prio (ch_drop_tx (hi p)) (ch_drop_tx (lo p)) false false) []) (fun '(p, seen) =>
    assert_eq seen [10; 11; 1; 2] && match (prio_recv item_recv p).2 with GotNone => true | _ => false end).

(** ** CBOR *)

Definition reads {A} `{EqDecision A} (m : cbor_res A) (v : A) : bool := unwrap m (fun '(a, _) => assert_eq a v).

Definition test_read_small_uint : bool := reads (read_uint [x05]) 5.
Definition test_read_uint_24 : bool := reads (read_uint [x18; xff]) 255.
Definition test_read_uint_64bit : bool := reads (read_uint [x1b; x00; x00; x00; x00; x00; x00; x01; x00]) 256.
Definition test_read_negative_int : bool := reads (read_int [x26]) (-7) && reads (read_int [x20]) (-1).
Definition test_read_byte_string : bool := reads (read_bytes [x43; xaa; xbb; xcc]) [xaa; xbb; xcc].
Definition test_read_text_string : bool := reads (read_text (x63 :: lit "abc")) (lit "abc").
Definition test_read_text_long : bool :=
  let s := lit "abcdefghijklmnopqrstuvwx" in reads (read_text (x78 :: x18 :: s)) s.
Definition test_read_map_two_entries : bool :=
  unwrap (read_map_header [xa1; x01; x02]) (fun '(n, b) => assert_eq n 1 &&
    unwrap (read_uint b) (fun '(k, b) => assert_eq k 1 && reads (read_uint b) 2)).
Definition test_skip_value_handles_nested_map : bool :=
  unwrap (skip_value [xa2; x00; xa1; x01; x82; x02; x03; x04; x05]) (fun b => assert_eq b []).
Definition test_skip_value_steps_past_byte_string : bool :=
  unwrap (skip_value ([xa1; x61] ++ lit "a" ++ [x42; xaa; xbb; xff])) (fun b => assert_eq b [xff]).
Definition test_eof_short_byte_string : bool :=
  unwrap_err (read_bytes [x43; xaa]) (fun e => match e with Eof n => assert_eq n 2 | _ => false end).
Definition test_rejects_too_large_string : bool :=
  unwrap_err (read_bytes [x5b; x00; x00; x00; x00; x00; x10; x00; x00]) (fun e => match e with TooLarge _ _ => true | _ => false end).
Definition test_rejects_wrong_major : bool :=
  unwrap_err (read_bytes [x05]) (fun e => match e with WrongMajor _ _ => true | _ => false end).
Definition test_rejects_indefinite_length : bool :=
  unwrap_err (skip_value [x9f; xff]) (fun e => match e with UnsupportedInfo _ _ => true | _ => false end).

(** ** COSE keys *)

(** A coordinate under label [l], of the length the header claims. *)
Definition coord (l : byte) (v : list byte) : list byte := l :: x58 :: byte_of (len v) :: v.
Definition fill32 (b : byte) : list byte := replicate 32 b.
Definition build_cose (x y : list byte) : list byte :=
  [xa5; x01; x02; x03; x26; x20; x01] ++ coord x21 x ++ coord x22 y.

Definition test_decodes_canonical_es256 : bool :=
  let '(x, y) := (fill32 x01, fill32 x02) in
  unwrap (decode_es256 (build_cose x y)) (fun sec1 =>
    assert_eq (byte_at sec1 0) 4 && assert_eq (take 32 (drop 1 sec1)) x && assert_eq (take 32 (drop 33 sec1)) y).
Definition test_ignores_extra_fields : bool :=
  let '(x, y) := (fill32 x01, fill32 x02) in
  let v := [xa6; x01; x02; x03; x26; x18; x63; x62] ++ lit "hi" ++ [x20; x01] ++ coord x21 x ++ coord x22 y in
  unwrap (decode_es256 v) (fun sec1 => assert_eq (take 32 (drop 1 sec1)) x).
(** The last of the maps the test builds: its header promises five entries. *)
Definition test_rejects_wrong_alg : bool :=
  let v := [xa5; x01; x02; x03; x27; x20; x01] ++ coord x21 (fill32 x05) ++ coord x22 (fill32 x06) in
  unwrap_err (decode_es256 v) (fun e => match e with UnsupportedAlg n => assert_eq n (-8) | _ => false end).
Definition test_rejects_missing_x : bool :=
  unwrap_err (decode_es256 ([xa4; x01; x02; x03; x26; x20; x01] ++ coord x22 (fill32 x07)))
    (fun e => match e with CoseMissingField f => assert_eq f (lit "x") | _ => false end).
Definition test_rejects_short_y : bool :=
  unwrap_err (decode_es256 ([xa5; x01; x02; x03; x26; x20; x01] ++ coord x21 (fill32 x01) ++ coord x22 (replicate 16 x02)))
    (fun e => match e with BadCoordLen f n => assert_eq f (lit "y") && assert_eq n 16 | _ => false end).

(** ** Authenticator data *)

Definition build (rp_hash : list byte) (flags sign_count : Z) (cred_id x y : list byte) : list byte :=
  rp_hash ++ byte_of flags :: be_enc 4 sign_count ++ replicate 16 x00 ++ be_enc 2 (len cred_id) ++ cred_id ++ build_cose x y.
Definition FLAG_ED : Z := 128.

Definition test_parses_prefix : bool :=
  let fl := Z.lor FLAG_UP FLAG_AT in
  unwrap (parse_prefix (build (fill32 x09) fl 42 [x01; x02; x03] (fill32 x07) (fill32 x08))) (fun p =>
    assert_eq (rp_id_hash p) (fill32 x09) && assert_eq (flags p) fl && assert_eq (sign_count p) 42 &&
    user_present p && attested_cred_data p).
Definition test_parses_attested_credential_data : bool :=
  let cred_id := lit "my-credential-id" in
  let '(x, y) := (fill32 x0b, fill32 x0c) in
  unwrap (parse_attested (build (fill32 x00) (Z.lor FLAG_UP FLAG_AT) 1 cred_id x y)) (fun p =>
    assert_eq (credential_id p) cred_id && assert_eq (aaguid p) (replicate 16 x00) &&
    assert_eq (take 32 (drop 1 (credential_public_key p))) x && assert_eq (take 32 (drop 33 (credential_public_key p))) y &&
    assert_eq (sign_count (prefix p)) 1).
Definition test_rejects_missing_at_flag : bool :=
  let data := take (Z.to_nat AD_HEADER_LEN) (build (fill32 x00) FLAG_UP 0 [x01; x02] (fill32 x01) (fill32 x02)) in
  unwrap_err (parse_attested data) (fun e => match e with MissingAttestedCredData => true | _ => false end).
Definition test_rejects_too_short : bool :=
  unwrap_err (parse_prefix (replicate 36 x00)) (fun e => match e with TooShort _ => true | _ => false end).
Definition test_tolerates_trailing_ed_bytes : bool :=
  let data := build (fill32 x00) (Z.lor (Z.lor FLAG_UP FLAG_AT) FLAG_ED) 7 [x01] (fill32 x03) (fill32 x04) ++ [xa0] in
  unwrap (parse_attested data) (fun p => assert_eq (credential_id p) [x01]).

(** Every test of the file. *)
Definition common_tests : list bool :=
  [test_passthrough_plain_bytes; test_captures_5111_osc_with_bel; test_captures_5111_osc_with_st;
   test_forwards_non_5111_osc_unchanged; test_forwards_non_5111_osc_with_st_terminator;
   test_forwards_osc_52_clipboard_unchanged; test_stray_esc_passes_through; test_csi_passes_through;
   test_split_across_feeds_is_robust; test_multiple_captures_in_one_feed; test_mix_5111_with_other_oscs;
   test_empty_5111_payload; test_esc_inside_osc_payload_is_kept; test_byte_stream_round_trips_frames;
   test_ws_payload_decodes_one_frame; test_ws_payload_rejects_short_and_mismatched;
   test_bytes_channel_round_trips; test_bytes_channel_enforces_byte_cap;
   test_bytes_channel_rejects_oversize_payload; test_prio_channel_prefers_hi;
   test_prio_channel_drains_both_after_close; test_prio_channel_independent_budgets;
   test_item_prio_channel_prefers_hi_and_drains; test_read_small_uint; test_read_uint_24;
   test_read_uint_64bit; test_read_negative_int; test_read_byte_string; test_read_text_string;
   test_read_text_long; test_read_map_two_entries; test_skip_value_handles_nested_map;
   test_skip_value_steps_past_byte_string; test_eof_short_byte_string; test_rejects_too_large_string;
   test_rejects_wrong_major; test_rejects_indefinite_length; test_decodes_canonical_es256;
   test_ignores_extra_fields; test_rejects_wrong_alg; test_rejects_missing_x; test_rejects_short_y;
   test_parses_prefix; test_parses_attested_credential_data; test_rejects_missing_at_flag;
   test_rejects_too_short; test_tolerates_trailing_ed_bytes].

Lemma common_tests_pass : all_pass common_tests = true.
Proof. vm_compute. reflexivity. Qed.
