(* ===== verification/AgentTests.v ===== *)
(** * AgentTests: the unit tests of [agent/src/session.rs], [pty.rs],
    [main.rs] and [wsdial.rs], run on the model

    Where a test starts a real shell, what that shell prints is given. *)

From Stdlib Require Import Strings.Byte.
From stdpp Require Import prelude strings list gmap.
From S2P Require Import Prelude Utf8 Frame Std Tokio Prio Osc Session Manager Webauthn WebauthnFacts AgentAuth AgentAuthFacts Agent Pty Dial DialFacts Testing CommonTests.

(** ** [session.rs] *)

Definition test_ring_drains_on_overflow : bool :=
  let r := ring_extend (ring_extend (ring_new 8) (lit "abcd")) (lit "efghij") in
  assert_eq (length (ring_buf r)) 8%nat && assert_eq (ring_snapshot r) (lit "cdefghij").
Definition test_ring_handles_single_huge_push : bool :=
  let r := ring_extend (ring_new 4) (lit "0123456789") in
  assert_eq (length (ring_buf r)) 4%nat && assert_eq (ring_snapshot r) (lit "6789").

Definition test_parse_dl_osc_extracts_token_and_path : bool :=
  assert_eq (parse_dl_osc (lit "dl;TOK123;/tmp/foo")) (Some (lit "TOK123", lit "/tmp/foo")) &&
  assert_eq (parse_dl_osc (lit "dl;;/tmp/foo")) (Some ([], lit "/tmp/foo")) &&
  assert_eq (parse_dl_osc (lit "dl;TOK;/tmp/a;b;c")) (Some (lit "TOK", lit "/tmp/a;b;c")) &&
  assert_eq (parse_dl_osc (lit "xx;TOK;/tmp/foo")) None &&
  assert_eq (parse_dl_osc (lit "nosemicolon")) None && assert_eq (parse_dl_osc (lit "dl;onlyonesemi")) None.

Definition is_plain (s : PasteStyle) : bool := match s with PlainStyle => true | Bracketed => false end.
(** The assertion for Windows paths apart. *)
Definition test_paste_style_picks_plain_for_cmd_exe : bool :=
  forallb (fun s => is_plain (from_shell (lit s))) ["cmd.exe"; "CMD.EXE"; "cmd /K prompt $G"]%string.
Definition test_paste_style_picks_bracketed_for_real_shells : bool :=
  forallb (fun s => negb (is_plain (from_shell (lit s))))
    ["/bin/bash"; "/bin/bash -l"; "/usr/bin/zsh"; "fish"; "powershell.exe -NoLogo"; "pwsh.exe";
     "C:\Program Files\PowerShell\7\pwsh.exe"; ""]%string.

Abbreviation TestSession := (Session (list SessionEvent)).
Definition test_session : TestSession :=
  mk_session (mk_inner None (24, 80) ∅ (ring_new (Z.to_nat 65536)) 0 false) [] [] [].
Definition attached_count (s : TestSession) : nat := base.size (attached (inner s)).
(** An operation with its effects. *)
Definition attaches (sid : Z) (s : TestSession) : TestSession * AttachResult nat :=
  let '(s, r, es) := attach_locked 0 sid (24, 80) s in (run_effects es s, r).
Definition detaches (sid : Z) (s : TestSession) : TestSession := let '(s, es) := detach_locked 0 sid s in run_effects es s.

Definition test_detach_clears_controller_so_reattach_can_acquire : bool :=
  let '(s, a1) := attaches 1 test_session in
  became_controller a1 && assert_eq (attached_count s) 1%nat && assert_eq (controller (inner s)) (Some 1) &&
  let s := detaches 1 s in
  assert_eq (attached_count s) 0%nat && assert_eq (controller (inner s)) None &&
  let '(s, a2) := attaches 2 s in
  became_controller a2 && assert_eq (controller (inner s)) (Some 2).

(** The limits of the test, and a manager without sessions. *)
Definition test_limits : Limits := {| max_sessions := 2; idle_ttl := 3600; scrollback_cap_bytes := Z.to_nat 65536 |}.
Definition opens (id : string) (m : SessionManager) : SessionManager * (OpenError + Ref) :=
  lookup_or_spawn test_limits 0 true (lit id) (24, 80) m.
Definition test_session_manager_enforces_max_sessions : bool :=
  let '(m, s1) := opens "cap-a" (mk_manager ∅ ∅ O []) in
  let '(m, s2) := opens "cap-b" m in
  let '(m, s3) := opens "cap-c" m in
  let '(_, s1_again) := opens "cap-a" m in
  match s1, s2, s3, s1_again with
  | inr r1, inr _, inl _, inr r1' => assert_eq r1 r1'
  | _, _, _, _ => false
  end.

(** *** With a shell

    What the shell prints is given: the terminal echoes the line that was
    typed, and then comes its output.  The reader task scans it. *)

Definition crlf (s : list byte) : list byte := s ++ [x0d; x0a].
Definition ends_line (s : list byte) : list byte := s ++ [x0a].
Definition types (sid : Z) (line : list byte) (s : TestSession) : TestSession := write_input_from sid (ends_line line) true s.
(** The reader task on what the shell printed for the last line it was given,
    if it was given one; and the downloads it starts. *)
Definition shell_prints (dl_token : list byte) (line output : list byte) (s : TestSession) : TestSession * list (list byte) :=
  match last (pty s) with
  | Some (PtyInput l) =>
      if bool_decide (l = ends_line line) then
        let '(_, fwd, paths) := reader_chunk dl_token Osc.new (crlf line ++ output) in (forward_locked fwd s, paths)
      else (s, [])
  | _ => (s, [])
  end.
(** The events a receiver has been sent since it subscribed. *)
Definition events_of (rx : nat) (s : TestSession) : list SessionEvent := drop rx (broadcast_tx s).
Definition collect_data (evs : list SessionEvent) : list byte := flat_map (fun e => match e with SE.Data b => b | _ => [] end) evs.

Definition test_session_attach_writes_and_reads : bool :=
  let '(s, attach) := attaches 1 test_session in
  became_controller attach &&
  let s := types 1 (lit "echo TEST_NEEDLE") s in
  let '(s, _) := shell_prints (lit "T") (lit "echo TEST_NEEDLE") (crlf (lit "TEST_NEEDLE")) s in
  contains (lit "TEST_NEEDLE") (collect_data (events_of (event_rx attach) s)).

Definition printf_line (token path : list byte) : list byte := lit "printf '\033]5111;dl;" ++ token ++ lit ";" ++ path ++ lit "\07'".
Definition printed_osc (token path : list byte) : list byte := osc_bel (lit "5111;dl;" ++ token ++ lit ";" ++ path).
(** The events on the download channel. *)
Definition downloads (paths : list (list byte)) (file : FileAccess) : list DownloadEvent :=
  flat_map (fun p => download_task 1 p file []) paths.
Definition is_begin (e : DownloadEvent) : bool := match e with DE.Begin _ _ _ => true | _ => false end.
Definition is_good_end (e : DownloadEvent) : bool := match e with DE.End _ status => status =? DOWNLOAD_STATUS_OK | _ => false end.
Definition test_session_dl_token_mismatch_silently_drops : bool :=
  let tmp := lit "/tmp/term-agent-dl-test" in
  let content := lit "file-contents-for-test" in
  let file := mk_file true (Some (true, len content)) [Some content; Some []] in
  let dl_token := lit "GOOD_TOKEN" in
  let '(s, _) := attaches 1 test_session in
  let wrong := printf_line (lit "WRONG_TOKEN") tmp in
  let '(s, paths) := shell_prints dl_token wrong (printed_osc (lit "WRONG_TOKEN") tmp) (types 1 wrong s) in
  negb (existsb is_begin (downloads paths file)) &&
  let right := printf_line dl_token tmp in
  let '(s, paths) := shell_prints dl_token right (printed_osc dl_token tmp) (types 1 right s) in
  existsb is_begin (downloads paths file) && existsb is_good_end (downloads paths file).

Definition test_session_reattach_replays_scrollback : bool :=
  let '(s, _) := attaches 1 test_session in
  let s := types 1 (lit "echo REPLAY_NEEDLE") s in
  let '(s, _) := shell_prints (lit "T") (lit "echo REPLAY_NEEDLE") (crlf (lit "REPLAY_NEEDLE")) s in
  let s := detaches 1 s in
  let '(_, attach2) := attaches 2 s in
  contains (lit "REPLAY_NEEDLE") (replay attach2).

(** ** [pty.rs] *)

Definition run_dsr (input : list byte) : list byte * list (list byte) := (Dsr.feed Dsr.new input).2.
Definition dsr (input : list byte) (fwd : list byte) (replies : list (list byte)) : bool := assert_eq (run_dsr input) (fwd, replies).
Definition row_one : list byte := esc (lit "[1;1R").

Definition test_dsr_passthrough_plain_bytes : bool :=
  let input := lit "hello world" ++ [x0a] in dsr input input [].
Definition test_dsr_intercepts_cursor_position_request : bool :=
  dsr (lit "before" ++ esc (lit "[6nafter")) (lit "beforeafter") [row_one].
Definition test_dsr_does_not_intercept_status_request : bool :=
  let input := lit "x" ++ esc (lit "[5ny") in dsr input input [].
Definition test_dsr_does_not_intercept_dec_private : bool := let input := esc (lit "[?6n") in dsr input input [].
Definition test_dsr_passes_through_color_csi : bool :=
  let input := esc (lit "[31mred") ++ esc (lit "[0m") in dsr input input [].
Definition test_dsr_handles_split_across_feeds : bool :=
  assert_eq (Dsr.feeds Dsr.new ((fun b => [b]) <$> (lit "pre" ++ esc (lit "[6npost")))).2 (lit "prepost", [row_one]).
Definition test_dsr_intercepts_multiple_queries : bool :=
  dsr (lit "a" ++ esc (lit "[6nb") ++ esc (lit "[6nc")) (lit "abc") [row_one; row_one].
Definition test_dsr_stray_esc_passes_through : bool := let input := lit "a" ++ esc (lit "cb") in dsr input input [].

(** What the terminal gives the reader thread is given, and what [try_wait]
    answers once the shell is gone. *)
Definition test_spawn_echo_round_trip : bool :=
  let '(sent, ended) := pty_reader_thread [(RData (lit "h"), true); (RData (lit "i"), true); (REof, true)] in
  contains (lit "hi") (concat sent) && ended && async_exited (ExitStatus 0).

Definition test_split_shell_basic : bool :=
  assert_eq (split_shell (lit "/bin/bash")) (lit "/bin/bash", []) &&
  assert_eq (split_shell (lit "/bin/bash -l")) (lit "/bin/bash", [lit "-l"]) &&
  assert_eq (split_shell (lit "powershell -NoLogo -NoProfile")) (lit "powershell", [lit "-NoLogo"; lit "-NoProfile"]) &&
  assert_eq (split_shell (lit "   leading")) (lit "leading", []) &&
  let '(prog, args) := split_shell [] in negb (bool_decide (prog = [])) && bool_decide (args = []).

(** ** [main.rs]: the frames of a download keep their order *)

Definition queues (f : Frame) (w : TestPrio) (k : TestPrio -> bool) : bool :=
  match send_frame_to_hub f w with (w, SendOk) => k w | _ => false end.
(** The kind of a frame, from its bytes. *)
Definition sent_type (bytes : list byte) : option FrameType :=
  let sid := u32_at bytes 0 in
  match ('(t, _) ← validate_header sid (byte_at bytes 4) (u32_at bytes 5); from_payload sid t (drop 9 bytes)) with
  | Ok f => Some (ty f)
  | _ => None
  end.
Definition test_download_frames_preserve_order : bool :=
  queues (download_begin 1 42 200000 (lit "x.bin")) (prio_channel (1024 * 1024) (16 * 1024 * 1024)) (fun w =>
  queues (download_chunk 1 42 (replicate (Z.to_nat 200000) x00)) w (fun w =>
  queues (download_end 1 42 0) w (fun w =>
    unwrap_opt (drains bytes_recv 10 (drop_tx w) []) (fun '(_, seen) =>
      assert_eq (sent_type <$> seen) [Some Ty.DownloadBegin; Some Ty.DownloadChunk; Some Ty.DownloadEnd])))).

(** ** [wsdial.rs]: base64 is the real one, and a payload is [{"exp":<secs>}] *)

Definition exp_of (json : list byte) : option Z :=
  match after (quoted (lit "exp") ++ lit ":") json with
  | Some rest => parse_u64 (take (pred (length rest)) rest)
  | None => None
  end.
Definition test_crypto : Crypto := {|
  b64_encode := b64url_encode; b64_decode := b64url_decode; json_view := json_view toy; sha256 := digest32;
  key_of_sec1 := key_of_sec1 toy; sig_of_der := sig_of_der toy; ecdsa_verify := ecdsa_verify toy |}.
Definition test_dial : DialLib := {|
  url_host := url_host toy_dial; url_scheme := url_scheme toy_dial; client_request := client_request toy_dial;
  header_name := header_name toy_dial; header_value_ok := header_value_ok toy_dial; tls_name_ok := tls_name_ok toy_dial;
  json_exp := exp_of; time_max_secs := time_max_secs toy_dial;
  dial_pki := {| crypto := test_crypto; std_b64_decode := std_b64_decode toy_pki; x509_san := x509_san toy_pki;
                 x509_spki := x509_spki toy_pki; sig_of_slice := sig_of_slice toy_pki; chains_to_ca := chains_to_ca toy_pki |} |}.

Definition make_jwt (exp_secs : Z) : list byte :=
  b64url_encode (lit "{" ++ json_pair (lit "alg") (lit "none") ++ lit "}") ++ lit "." ++
  b64url_encode (lit "{" ++ quoted (lit "exp") ++ lit ":" ++ dec exp_secs ++ lit "}") ++ lit ".sig".
(** The time of the tests, in seconds; [current_token] is asked a moment later. *)
Definition unix_now : Z := 1700000000.
Definition token_at (file : option (list byte)) (cache : TokenCache) (k : TokenCache -> list byte -> bool) : bool :=
  let '(cache, t) := current_token test_dial (unix_now * 1000000000) file cache in unwrap t (k cache).

Definition test_jwt_exp_parses_and_rejects : bool :=
  let exp := unix_now + 3600 in
  unwrap (jwt_exp test_dial (make_jwt exp)) (fun o => assert_eq o (Some (exp * 1000000000))) &&
  forallb (fun s => unwrap (jwt_exp test_dial (lit s)) (fun o => assert_eq o None)) ["not-a-jwt"; "only.two"; "a.b.c.d"]%string.
Definition test_token_cache_reuses_until_expiry : bool :=
  token_at (Some (make_jwt (unix_now + 3600))) None (fun c t1 => token_at None c (fun _ t2 => assert_eq t1 t2)).
Definition test_token_cache_refreshes_when_expired : bool :=
  let fresh := make_jwt (unix_now + 3600) in
  token_at (Some (make_jwt (unix_now - 10))) None (fun c _ => token_at (Some fresh) c (fun _ got => assert_eq got fresh)).
Definition test_non_jwt_token_is_not_cached : bool :=
  token_at (Some (lit "opaque-token-v1")) None (fun c t => assert_eq t (lit "opaque-token-v1") &&
    token_at (Some (lit "opaque-token-v2")) c (fun _ t => assert_eq t (lit "opaque-token-v2"))).

(** Every test of the file. *)
Definition agent_tests : list bool :=
  [test_ring_drains_on_overflow; test_ring_handles_single_huge_push;
   test_parse_dl_osc_extracts_token_and_path; test_paste_style_picks_plain_for_cmd_exe;
   test_paste_style_picks_bracketed_for_real_shells; test_detach_clears_controller_so_reattach_can_acquire;
   test_session_manager_enforces_max_sessions; test_session_attach_writes_and_reads;
   test_session_dl_token_mismatch_silently_drops; test_session_reattach_replays_scrollback;
   test_dsr_passthrough_plain_bytes; test_dsr_intercepts_cursor_position_request;
   test_dsr_does_not_intercept_status_request; test_dsr_does_not_intercept_dec_private;
   test_dsr_passes_through_color_csi; test_dsr_handles_split_across_feeds;
   test_dsr_intercepts_multiple_queries; test_dsr_stray_esc_passes_through; test_spawn_echo_round_trip;
   test_split_shell_basic; test_download_frames_preserve_order; test_jwt_exp_parses_and_rejects;
   test_token_cache_reuses_until_expiry; test_token_cache_refreshes_when_expired;
   test_non_jwt_token_is_not_cached].

Lemma agent_tests_pass : all_pass agent_tests = true.
Proof. vm_compute. reflexivity. Qed.
