(* ===== verification/HubTests.v ===== *)
(** * HubTests: the unit tests of [common/src/webauthn/{mod,client_data}.rs],
    [agent_pki/{mod,ca}.rs], [issued_certs.rs] and of the hub, run on the model

    Base64 is the real one; a hash, a signature, a certificate and axum are
    stand-ins that tell the inputs of the tests apart. *)

From Stdlib Require Import Strings.Byte.
From stdpp Require Import prelude strings list gmap.
From S2P Require Import Prelude Utf8 Std Tokio Prio Frame Cbor Webauthn WebauthnFacts Auth Login Link Proxy AgentAuth AgentAuthFacts HubConfig Envelope EnvelopeFacts Metrics HubRoutes HubFacts Testing CommonTests.

(** ** The libraries of the tests *)

(** A signature is the signed message, kept as a number. *)
Definition verify_text (k : Z) (m : list byte) (s : Z) : bool := s =? text_number m.
Definition hub_crypto : Crypto := {|
  b64_encode := b64url_encode; b64_decode := b64url_decode;
  json_view cd := match cd with
                  | x7b :: _ => Object (fun f => Some <$> json_string cd f)
                  | _ => NotAnObject
                  end;
  sha256 := digest32; key_of_sec1 k := if len k =? 65 then Some 1 else None;
  sig_of_der s := Some (text_number s); ecdsa_verify := verify_text |}.

(** ** Client data *)

Definition client_data (ty challenge origin : list byte) : list byte :=
  lit "{" ++ json_pair (lit "type") ty ++ lit "," ++ json_pair (lit "challenge") challenge ++ lit "," ++
  json_pair (lit "origin") origin ++ lit "}".
Definition cd_error (body ty chal origin : list byte) (p : ClientDataError -> bool) : bool :=
  unwrap_err (validate hub_crypto body ty chal origin) p.

Definition test_accepts_minimum_create : bool :=
  unwrap (validate hub_crypto (client_data TYPE_CREATE (lit "abc123") (lit "https://example.com")) TYPE_CREATE (lit "abc123")
    (lit "https://example.com")) (fun _ => true).
Definition test_accepts_extra_fields : bool :=
  let body := lit "{ " ++ json_pair (lit "type") TYPE_GET ++ lit ", " ++ json_pair (lit "challenge") (lit "chal") ++ lit ", " ++
    json_pair (lit "origin") (lit "https://x.com") ++ lit ", " ++ quoted (lit "crossOrigin") ++ lit ":false, " ++
    quoted (lit "tokenBinding") ++ lit ":{" ++ json_pair (lit "status") (lit "present") ++ lit "," ++
    json_pair (lit "id") (lit "foo") ++ lit "}, " ++ quoted (lit "extraField") ++ lit ":42 }" in
  unwrap (validate hub_crypto body TYPE_GET (lit "chal") (lit "https://x.com")) (fun _ => true).
Definition test_rejects_wrong_type : bool :=
  cd_error (client_data TYPE_CREATE (lit "c") (lit "https://x.com")) TYPE_GET (lit "c") (lit "https://x.com")
    (fun e => match e with CdWrongType _ _ => true | _ => false end).
Definition test_rejects_challenge_mismatch : bool :=
  cd_error (client_data TYPE_GET (lit "xxx") (lit "https://x.com")) TYPE_GET (lit "yyy") (lit "https://x.com")
    (fun e => match e with ChallengeMismatch => true | _ => false end).
Definition test_rejects_origin_mismatch : bool :=
  cd_error (client_data TYPE_GET (lit "c") (lit "https://evil.com")) TYPE_GET (lit "c") (lit "https://good.com")
    (fun e => match e with OriginMismatch _ _ => true | _ => false end).
Definition test_rejects_missing_origin : bool :=
  cd_error (lit "{" ++ json_pair (lit "type") TYPE_GET ++ lit "," ++ json_pair (lit "challenge") (lit "c") ++ lit "}")
    TYPE_GET (lit "c") (lit "https://x.com") (fun e => match e with CdMissingField f => assert_eq f (lit "origin") | _ => false end).
Definition test_rejects_non_object : bool :=
  cd_error (lit "[" ++ quoted (lit "not") ++ lit "," ++ quoted (lit "an") ++ lit "," ++ quoted (lit "object") ++ lit "]")
    TYPE_GET (lit "c") (lit "https://x.com") (fun e => match e with NotObject => true | _ => false end).

(** ** Registration and login *)

Definition build_attestation_object (auth_data : list byte) : list byte :=
  let n := len auth_data in
  xa3 :: x63 :: lit "fmt" ++ x64 :: lit "none" ++ x67 :: lit "attStmt" ++ xa0 :: x68 :: lit "authData" ++
  (if n <=? 23 then [byte_of (0x40 + n)] else if n <=? 255 then [x58; byte_of n] else x59 :: be_enc 2 n) ++ auth_data.
Definition build_auth_data (rp_id : list byte) (flags sign_count : Z) (cred_id cose_key : list byte) : list byte :=
  digest32 rp_id ++ byte_of flags :: be_enc 4 sign_count ++
  (if Z.land flags 64 =? 0 then [] else replicate 16 x00 ++ be_enc 2 (len cred_id) ++ cred_id ++ cose_key).

Definition test_extract_auth_data_pulls_inner_bytes : bool :=
  let auth_data := replicate 50 xaa in
  unwrap (extract_auth_data (build_attestation_object auth_data)) (fun got => assert_eq got auth_data).

Definition rp : list byte := lit "term.xyz.com".
Definition rp_origin : list byte := lit "https://term.xyz.com".
Definition test_finish_register_happy_path : bool :=
  let challenge := fill32 x05 in
  let '(x, y) := (fill32 x0b, fill32 x0c) in
  let cred_id := lit "my-credential" in
  let att_obj := build_attestation_object (build_auth_data rp 65 0 cred_id (build_cose x y)) in
  let resp := mk_registration (lit "public-key") (b64url_encode (client_data TYPE_CREATE (b64url_encode challenge) rp_origin))
                (b64url_encode att_obj) in
  unwrap (finish_register hub_crypto resp challenge rp rp_origin) (fun reg =>
    assert_eq (rc_credential_id reg) cred_id && assert_eq (take 32 (drop 1 (rc_public_key reg))) x &&
    assert_eq (take 32 (drop 33 (rc_public_key reg))) y && assert_eq (rc_sign_count reg) 0).

(** A login whose signature is over [msg_of] of what it should be over. *)
Definition sec1 : list byte := x04 :: replicate 64 x07.
Definition test_assertion (rp_id origin challenge raw_id : list byte) (sign_count : Z) (msg_of : list byte -> list byte)
    : AuthenticationResponse :=
  let auth_data := build_auth_data rp_id 1 sign_count [] [] in
  let cd := client_data TYPE_GET (b64url_encode challenge) origin in
  mk_authentication (lit "public-key") (b64url_encode raw_id) (b64url_encode cd) (b64url_encode auth_data)
    (b64url_encode (msg_of (auth_data ++ digest32 cd))).
Definition test_finish_authenticate_round_trip : bool :=
  let challenge := fill32 x09 in
  let cred_id := lit "cred-1" in
  unwrap (finish_authenticate hub_crypto (test_assertion rp rp_origin challenge cred_id 7 (fun m => m)) challenge rp rp_origin
    (fun id => if bool_decide (id = cred_id) then Some (mk_stored sec1 6) else None)) (fun ok =>
    assert_eq (ac_credential_id ok) cred_id && assert_eq (ac_new_sign_count ok) 7 && ac_sign_count_advanced ok).
Definition test_finish_authenticate_rejects_bad_signature : bool :=
  let challenge := fill32 x09 in
  unwrap_err (finish_authenticate hub_crypto (test_assertion rp rp_origin challenge (lit "id") 1 (fun _ => lit "different message"))
    challenge rp rp_origin (fun _ => Some (mk_stored sec1 0))) (fun e => match e with SignatureInvalid => true | _ => false end).
Definition test_finish_authenticate_rejects_unknown_credential : bool :=
  let challenge := fill32 x00 in
  unwrap_err (finish_authenticate hub_crypto (test_assertion (lit "x.com") (lit "https://x.com") challenge (lit "id") 0 (fun _ => []))
    challenge (lit "x.com") (lit "https://x.com") (fun _ => None)) (fun e => match e with UnknownCredential => true | _ => false end).
Definition test_check_rp_id_hash_matches : bool := unwrap (check_rp_id_hash hub_crypto (digest32 rp) rp) (fun _ => true).
Definition test_check_rp_id_hash_rejects_mismatch : bool :=
  unwrap_err (check_rp_id_hash hub_crypto (digest32 (lit "other")) rp) (fun e => match e with RpIdHashMismatch => true | _ => false end).

(** ** Agents' certificates: a certificate is its URI, signed by the CA when
    the URI is one of an agent *)

Definition CA_CERT : list byte := lit "ca".
Definition leaf_of (id : list byte) : list byte := machine_urn id.
Definition hub_pki : PkiLib := {|
  crypto := hub_crypto; std_b64_decode _ := None;
  x509_san c := if bool_decide (c = CA_CERT) then Some None else Some (Some [Uri c]);
  x509_spki := x509_spki toy_pki; sig_of_slice s := Some (text_number s);
  chains_to_ca _ _ c := starts_with MACHINE_URN_PREFIX c |}.
Definition sample (fp id : string) : IssuedCertEntry := mk_issued (lit id) (lit fp) (lit "deadbeef") 9999999999.

Definition test_find_by_fingerprint : bool :=
  let s := [sample "aaa" "x"; sample "bbb" "y"] in
  unwrap_opt (find_by_fingerprint (lit "bbb") s) (fun e => assert_eq (AgentAuth.machine_id e) (lit "y")) &&
  match find_by_fingerprint (lit "zzz") s with None => true | Some _ => false end.
Definition test_remove_where_returns_count : bool :=
  let '(s, n) := remove_where (fun c => bool_decide (AgentAuth.machine_id c = lit "x")) [sample "aaa" "x"; sample "bbb" "x"; sample "ccc" "y"] in
  assert_eq n 2%nat && assert_eq (length s) 1%nat && unwrap_opt (head s) (fun c => assert_eq (fingerprint c) (lit "ccc")).

Definition test_machine_urn_round_trip : bool :=
  let u := machine_urn (lit "alpha-1") in
  starts_with MACHINE_URN_PREFIX u && assert_eq (drop (length MACHINE_URN_PREFIX) u) (lit "alpha-1").
Definition test_ws_auth_payload_includes_all_inputs : bool :=
  let p := ws_auth_payload hub_pki (lit "hub.example.com") 1700000000 [x01; x02; x03; x04] in
  utf8_valid p && starts_with WS_AUTH_DOMAIN p && contains (lit "hub.example.com") p && contains (lit "1700000000") p &&
  ends_with (lit "AQIDBA") p.
Definition test_ws_auth_payload_changes_when_any_input_changes : bool :=
  let base := ws_auth_payload hub_pki (lit "h") 1 (lit "n") in
  forallb (fun other => negb (bool_decide (base = other)))
    [ws_auth_payload hub_pki (lit "h2") 1 (lit "n"); ws_auth_payload hub_pki (lit "h") 2 (lit "n");
     ws_auth_payload hub_pki (lit "h") 1 (lit "n2")].

Definition test_validate_machine_id_rules : bool :=
  validate_machine_id (lit "abc-123_XYZ") && negb (validate_machine_id []) && negb (validate_machine_id (repeat_str (lit "x") 33)) &&
  negb (validate_machine_id (lit "bad name")) && negb (validate_machine_id (lit "bad/name")).
Definition test_timestamp_window : bool :=
  let now := 1700000000 in
  check_ws_auth_timestamp now now && check_ws_auth_timestamp now (now + WS_AUTH_SKEW_SECS) &&
  check_ws_auth_timestamp now (now - WS_AUTH_SKEW_SECS) && negb (check_ws_auth_timestamp now (now + WS_AUTH_SKEW_SECS + 1)) &&
  negb (check_ws_auth_timestamp now (now - (WS_AUTH_SKEW_SECS + 1))).
Definition test_extract_machine_id_rejects_certs_without_san : bool :=
  assert_eq (extract_machine_id_from_san hub_pki CA_CERT) None.
Definition test_parse_ws_auth_header_round_trip : bool :=
  let nonce := xab :: replicate 15 x00 in
  let value := lit "1700000000." ++ b64url_encode nonce ++ lit "." ++ b64url_encode (replicate 64 x00) in
  unwrap (parse_ws_auth_header hub_pki value) (fun '(ts, n, s) =>
    assert_eq ts 1700000000 && assert_eq n nonce && assert_eq (len s) 64).
Definition test_parse_ws_auth_header_rejects_malformed : bool :=
  let extra := lit "1." ++ b64url_encode (replicate 16 x00) ++ lit "." ++ b64url_encode (replicate 64 x00) ++ lit ".extra" in
  forallb (fun v => unwrap_err (parse_ws_auth_header hub_pki v) (fun _ => true))
    [[]; lit "abc.def"; lit "notanumber.nonce.sig"; extra].

(** ** [client_verifier.rs] *)

Definition issued_leaf : list byte := leaf_of (lit "alpha").
Definition entry_for (id : string) : IssuedCertEntry := mk_issued (lit id) (cert_fingerprint hub_pki issued_leaf) (lit "01") 9999999999.
Definition test_fingerprint_allowlist_gates_verification : bool :=
  match verify_client_cert hub_pki issued_leaf [] 1700000000 [entry_for "alpha"], verify_client_cert hub_pki issued_leaf [] 1700000000 [] with
  | inr id, inl NotAllowed => assert_eq id (lit "alpha")
  | _, _ => false
  end.
Definition test_san_machine_id_must_match_issued_cert_entry : bool :=
  match verify_client_cert hub_pki issued_leaf [] 1700000000 [entry_for "beta"] with inl SanDiffers => true | _ => false end.

(** ** [agent_ws.rs] *)

Definition ws_now : Z := 1700000000.
(** The headers of an agent whose signature is the payload it signs. *)
Definition headers_for (leaf host : list byte) (ts : Z) (nonce : list byte) : Headers :=
  let '(cert, auth) := agent_auth_headers hub_pki leaf nonce host ts (fun p => p) in
  [(lit "host", Some host); (HEADER_AGENT_CERT, Some cert); (HEADER_AGENT_AUTH, Some auth)].
Definition nonce_of (b : byte) : list byte := replicate 16 b.
Definition hub_host : list byte := lit "hub.example.com".
Definition upgrade (h : Headers) (store : IssuedCertStore) (cache : ReplayCache) : ReplayCache * res UpgradeRejection (list byte) :=
  authenticate_ws_upgrade hub_pki h ws_now ws_now 1000000000000 store cache.

Definition test_happy_path_returns_machine_id : bool :=
  unwrap (upgrade (headers_for issued_leaf hub_host ws_now (nonce_of x01)) [entry_for "alpha"] ∅).2 (fun id => assert_eq id (lit "alpha")).
Definition test_missing_cert_header_is_401 : bool :=
  unwrap_err (upgrade [] [entry_for "alpha"] ∅).2 (fun e => match e with MissingCert => true | _ => false end).
Definition test_stale_timestamp_rejected : bool :=
  unwrap_err (upgrade (headers_for issued_leaf hub_host (ws_now - (WS_AUTH_SKEW_SECS + 10)) (nonce_of x02)) [entry_for "alpha"] ∅).2
    (fun e => match e with StaleTimestamp => true | _ => false end).
Definition test_host_mismatch_rejected : bool :=
  unwrap_err (upgrade (insert_header (lit "host") (Some hub_host)
    (headers_for issued_leaf (lit "evil.example.com") ws_now (nonce_of x03))) [entry_for "alpha"] ∅).2
    (fun e => match e with BadSignature => true | _ => false end).
Definition test_replayed_nonce_rejected : bool :=
  let h := headers_for issued_leaf hub_host ws_now (nonce_of x04) in
  let '(cache, first) := upgrade h [entry_for "alpha"] ∅ in
  unwrap first (fun _ => true) && unwrap_err (upgrade h [entry_for "alpha"] cache).2 (fun e => match e with Replayed => true | _ => false end).
Definition test_fingerprint_not_in_allowlist_rejected : bool :=
  unwrap_err (upgrade (headers_for issued_leaf hub_host ws_now (nonce_of x05)) [] ∅).2 (fun e => match e with NotIssued => true | _ => false end).
Definition test_gc_ws_replay_evicts_old_entries : bool :=
  let now := 10000 * 1000000000 in
  let key (fp : string) := (lit fp, nonce_of x00) in
  let old := now - (WS_REPLAY_TTL_SECS + 10) * 1000000000 in
  let cache := gc_ws_replay 0 now (<[key "fp2" := now]> (<[key "fp1" := old]> (∅ : ReplayCache))) in
  assert_eq (base.size cache) 1%nat && match cache !! key "fp2" with Some _ => true | None => false end.

(** ** [config.rs] *)

Definition cfg_with (no_auth : option NoAuthConfig) : HubConfig :=
  mk_config (lit "term.example.com") (lit "example.com") (lit "term") Off None false None None None (lit "/tmp") None
    (lit "[::]:7700") None no_auth [].
Definition na : NoAuthConfig := mk_no_auth (lit "[::]:18080") (lit "https://example.devtunnels.ms").
Definition effective (env : option string) (o : option NoAuthConfig) (p : option NoAuthConfig -> bool) : bool :=
  unwrap (effective_no_auth (lit <$> env) (cfg_with o)) p.
Definition some {A} (o : option A) : bool := match o with Some _ => true | None => false end.

Definition test_no_auth_present_unset_env_returns_some : bool := effective None (Some na) some.
Definition test_no_auth_absent_unset_env_returns_none : bool := effective None None (fun o => negb (some o)).
Definition test_no_auth_env_off_disables_even_when_configured : bool :=
  forallb (fun v => effective (Some v) (Some na) (fun o => negb (some o))) ["off"; "0"; "false"; "no"]%string.
Definition test_no_auth_env_on_requires_config_block : bool :=
  unwrap_err (effective_no_auth (Some (lit "on")) (cfg_with None)) (fun _ => true).
Definition test_no_auth_env_on_passes_through_when_configured : bool :=
  forallb (fun v => effective (Some v) (Some na) some) ["on"; "1"; "true"; "yes"]%string.
Definition test_no_auth_env_garbage_is_rejected : bool :=
  unwrap_err (effective_no_auth (Some (lit "maybe")) (cfg_with (Some na))) (fun _ => true).

(** ** [main.rs]: requests to the two routers, without an [Origin] *)

Definition asks (open : bool) (m : Method) (path : string) (p : Response -> bool) : bool :=
  match (listener toy_hub_lib toy_cfg [] (toy_mode open) toy_env (toy_request m path None) toy_state).2 with
  | Reply r => p r
  | _ => false
  end.
Definition is_status (s : Z) (r : Response) : bool := assert_eq (status r) s.

Definition test_authed_machines_without_bearer_is_401 : bool := asks false GET "/api/machines" (is_status 401).
Definition test_no_auth_machines_without_bearer_is_200 : bool :=
  asks true GET "/api/machines" (fun r => is_status 200 r && match content r with CMachines _ => true | _ => false end).
Definition test_no_auth_logout_is_absent : bool := asks true POST "/api/logout" (is_status 404).
Definition test_no_auth_webauthn_is_absent : bool := asks true POST "/webauthn/login/start" (is_status 404).
Definition test_no_auth_metrics_is_absent : bool := asks true GET "/metrics" (fun r => negb (is_status 200 r)).
Definition test_mode_endpoint_reports_authed_listener : bool :=
  asks false GET "/api/mode" (fun r => is_status 200 r && match content r with CMode b => negb b | _ => false end).
Definition test_mode_endpoint_reports_no_auth_listener : bool :=
  asks true GET "/api/mode" (fun r => is_status 200 r && match content r with CMode b => b | _ => false end).

(** An address is a text that begins with a bracket. *)
Definition test_addr (s : list byte) : option (list byte) := match s with x5b :: _ => Some s | _ => None end.
Definition test_equal_socket_addr_matches_canonical_forms : bool :=
  let eq (a b : string) := equal_socket_addr test_addr (lit a) (lit b) in
  eq "[::]:8080" "[::]:8080" && negb (eq "[::]:8080" "[::]:18080") && negb (eq "[::]:8080" "[::1]:8080") &&
  eq "bogus" "bogus" && negb (eq "bogus" "different-bogus").

(** ** [metrics.rs] *)

Definition test_escape_handles_backslash_and_quote : bool :=
  assert_eq (escape_label (lit "a" ++ x22 :: lit "b\c")) (lit "a\" ++ x22 :: lit "b\\c") &&
  assert_eq (escape_label (lit "line" ++ x0a :: lit "break")) (lit "line\nbreak") &&
  assert_eq (escape_label (lit "normal_id-42")) (lit "normal_id-42").

(** Every test of the file. *)
Definition hub_tests : list bool :=
  [test_accepts_minimum_create; test_accepts_extra_fields; test_rejects_wrong_type;
   test_rejects_challenge_mismatch; test_rejects_origin_mismatch; test_rejects_missing_origin;
   test_rejects_non_object; test_extract_auth_data_pulls_inner_bytes; test_finish_register_happy_path;
   test_finish_authenticate_round_trip; test_finish_authenticate_rejects_bad_signature;
   test_finish_authenticate_rejects_unknown_credential; test_check_rp_id_hash_matches;
   test_check_rp_id_hash_rejects_mismatch; test_find_by_fingerprint; test_remove_where_returns_count;
   test_machine_urn_round_trip; test_ws_auth_payload_includes_all_inputs;
   test_ws_auth_payload_changes_when_any_input_changes; test_validate_machine_id_rules; test_timestamp_window;
   test_extract_machine_id_rejects_certs_without_san; test_parse_ws_auth_header_round_trip;
   test_parse_ws_auth_header_rejects_malformed; test_fingerprint_allowlist_gates_verification;
   test_san_machine_id_must_match_issued_cert_entry; test_happy_path_returns_machine_id;
   test_missing_cert_header_is_401; test_stale_timestamp_rejected; test_host_mismatch_rejected;
   test_replayed_nonce_rejected; test_fingerprint_not_in_allowlist_rejected;
   test_gc_ws_replay_evicts_old_entries; test_no_auth_present_unset_env_returns_some;
   test_no_auth_absent_unset_env_returns_none; test_no_auth_env_off_disables_even_when_configured;
   test_no_auth_env_on_requires_config_block; test_no_auth_env_on_passes_through_when_configured;
   test_no_auth_env_garbage_is_rejected; test_authed_machines_without_bearer_is_401;
   test_no_auth_machines_without_bearer_is_200; test_no_auth_logout_is_absent;
   test_no_auth_webauthn_is_absent; test_no_auth_metrics_is_absent;
   test_mode_endpoint_reports_authed_listener; test_mode_endpoint_reports_no_auth_listener;
   test_equal_socket_addr_matches_canonical_forms; test_escape_handles_backslash_and_quote].

Lemma hub_tests_pass : all_pass hub_tests = true.
Proof. vm_compute. reflexivity. Qed.
