(* ===== verification/SessionList.v ===== *)
(** * SessionList: the list of sessions, from the route to the agent and back

    [list_sessions] of [hub/src/api_routes.rs] through [rpc] of
    [agent_link.rs], both codecs, the agent's task for the request
    ([build_session_list_json] in [agent/src/main.rs]) and back to the answer
    of exactly that request. *)

From Stdlib Require Import Strings.Byte.
From stdpp Require Import prelude strings list gmap.
From S2P Require Import Prelude Utf8 Std Tokio Prio Frame FrameFacts Transport Auth Login Session SessionFacts Manager Link LinkFacts Proxy AgentAuth AgentAuthFacts HubConfig Envelope EnvelopeFacts HubAdmin HubAdminFacts Metrics Agent AgentFacts HubRoutes HubFacts.
Open Scope Z_scope.

Section SessionList.
Context {HCh HSem HBCh WCh Sem BCh : Type}.
Context `{MpscLaws (Z * list byte) HCh} `{SemaphoreLaws HSem} `{Mpsc Body HBCh}.
Context `{Mpsc (Z * list byte) WCh} `{Semaphore Sem} `{Mpsc Body BCh}.
Variables (lib : HubLib) (json_of : list Info -> list byte).
Abbreviation HubT := (Hub HCh HSem HBCh).

(** A row of the agent as the hub reads and passes it on. *)
Definition row_of (i : Info) : SessionInfo :=
  mk_session_info (info_id i) (idle_secs i) (Z.of_nat (info_attached i)) (has_controller i).
(** [serde_json] reads back what it wrote. *)
Hypothesis json_back : forall rows, sessions_of_json lib (json_of rows) = Some (row_of <$> rows).

Lemma list_sessions_wf id : u32 id -> wf_frame (Frame.list_sessions id).
Proof. intros U. by split; cbn. Qed.
Lemma session_list_wf id json : u32 id -> len json <= MAX_SESSION_LIST_JSON_LEN -> wf_frame (session_list id json).
Proof. intros U L. by split; cbn. Qed.

(** A list too long for its frame is refused by the hub's decoder. *)
Lemma long_list_refused id json g n :
  len json > MAX_SESSION_LIST_JSON_LEN -> frame_from_ws_payload (encode (session_list id json)) <> Ok (g, n).
Proof.
  intros L D. apply ws_payload_inv in D as (W & E & _). apply encode_parts in E as [T E]. symmetry in T.
  destruct g as [gs gb]. unfold ty in T. cbn [body] in T, E. destruct gb as [| | | | | | | | | | | | | | | | | | |j js| |]; try done.
  destruct W as [_ _ _ Wl]. cbn in Wl. apply (f_equal length) in E. cbn [body session_list payload] in E.
  rewrite !length_app, !length_be_enc in E. unfold len in *. lia.
Qed.

(** ** The rows *)

(** One row for each registered session. *)
Lemma rows_are_the_sessions now reads m :
  let ids := info_id <$> session_infos now reads m in
  NoDup ids /\ forall sid, sid ∈ ids <-> is_Some (Manager.map m !! sid).
Proof.
  assert (E : info_id <$> session_infos now reads m = (map_to_list (Manager.map m)).*1).
  { unfold session_infos. rewrite <- list_fmap_compose. apply list_fmap_ext. intros i [id r] _. cbn. unfold session_info.
    by destruct (reads r) as [[a b] c]. }
  cbn zeta. rewrite E. split; [apply NoDup_fst_map_to_list|]. intros sid. rewrite list_elem_of_fmap. split.
  - intros ([k r] & -> & Hin). apply elem_of_map_to_list in Hin. by exists r.
  - intros [r Hr]. exists (sid, r). split; [done|]. by apply elem_of_map_to_list.
Qed.

(** What a row says was true of its session at the moments its lock was taken;
    when all three found the same, a controller is one of the streams counted. *)
Lemma row_is_true now reads m i :
  i ∈ session_infos now reads m -> exists r i1 i2 i3,
    Manager.map m !! info_id i = Some r /\ reads r = (i1, i2, i3) /\
    idle_secs i = Z.max (now - last_attached_at i1) 0 / 1000000000 /\ info_attached i = base.size (attached i2) /\
    (has_controller i = true <-> exists s, controller i3 = Some s) /\
    (i2 = i3 -> (forall s, controller i3 = Some s -> is_Some (attached i3 !! s)) -> has_controller i = true ->
     (0 < info_attached i)%nat).
Proof.
  intros ([id r] & -> & Hin)%list_elem_of_fmap. apply elem_of_map_to_list in Hin. unfold session_info.
  destruct (reads r) as [[i1 i2] i3] eqn:E. cbn [info_id idle_secs info_attached has_controller].
  exists r, i1, i2, i3. do 4 (split; [done|]). destruct (controller i3) as [s|].
  - split; [split; eauto|]. intros -> Hc _. destruct (Hc s eq_refl) as [x Hx].
    assert (base.size (attached i3) <> O); [|lia]. intros Hz. apply map_size_empty_inv in Hz. by rewrite Hz in Hx.
  - split; [split; [done|by intros [? [=]]]|done].
Qed.

(** [C16] The list of a machine's sessions, all the way: a request that was
    accepted for sending is queued behind what the link's control half held;
    the agent decodes it and spawns the task for it; the task's answer has
    exactly one row for each session of the registry; and when its text fits
    the frame, the hub, as long as the request still waits, decodes the answer,
    hands it to exactly that request, and answers 200 with those rows.  A text
    that does not fit, which the agent does not check, makes a frame the hub
    cannot decode. *)
Theorem session_list_end_to_end e machine (h : HubT) q l (c : Conn WCh Sem BCh) m now reads :
  agents h !! machine = Some q -> links h !! q = Some l -> bytes_ok (hi (writer l)) -> u32 (next_request_id l) ->
  let '(h1, o) := handle_list_sessions e (inr [machine]) h in
  let id := next_request_id l in
  let request := Frame.list_sessions id in
  let rows := session_infos now reads m in
  let ack := list_sessions_task json_of id now reads m in
  o = Waiting KList q (one_shot e) id SendOk ->
  (exists l1, links h1 = <[q := l1]> (links h) /\ held (hi (writer l1)) = held (hi (writer l)) ++ [encode request] /\
     pending_rpcs l1 !! id = Some (one_shot e)) /\
  frame_from_ws_payload (encode request) = Ok (request, len (encode request)) /\
  agent_turn request c = (spawn_task (SpListSessions id) c, TNext) /\
  (NoDup (info_id <$> rows) /\ forall sid, sid ∈ info_id <$> rows <-> is_Some (Manager.map m !! sid)) /\
  if len (json_of rows) <=? MAX_SESSION_LIST_JSON_LEN then
    frame_from_ws_payload (encode ack) = Ok (ack, len (encode ack)) /\
    forall (h' : HubT) l' n, links h' !! q = Some l' -> pending_rpcs l' !! id = Some (one_shot e) ->
      let '(l2, t) := reader_turn ack n l' in
      t = Next /\ (rpc_reply lib KList q (one_shot e) id false (set_link q l2 h')).2 = secure (reply 200 (CSessions (row_of <$> rows)))
  else forall g n, frame_from_ws_payload (encode ack) <> Ok (g, n).
Proof.
  intros Ha Hl K U. unfold handle_list_sessions, ask_agent. rewrite Ha. cbn [mbind option_bind]. rewrite Hl. cbn [mbind option_bind].
  pose proof (rpc_sent (one_shot e) Frame.list_sessions l K eq_refl) as S.
  destruct (rpc_start (one_shot e) Frame.list_sessions l) as [l1 [id sent]]. destruct S as [-> S].
  cbv beta iota zeta. intros Ho. assert (sent = SendOk) as -> by (destruct sent; [inversion Ho|done|inversion Ho]).
  destruct (S eq_refl) as [Sq Sp]. split; [by exists l1|]. split; [by apply ws_payload_encode, list_sessions_wf|].
  split; [done|]. split; [apply rows_are_the_sessions|]. destruct (Z.leb_spec (len (json_of (session_infos now reads m))) MAX_SESSION_LIST_JSON_LEN) as [L|L].
  - split; [by apply ws_payload_encode, session_list_wf|]. intros h' l' n Hl' Hp.
    pose proof (rpc_returned (one_shot e) (next_request_id l) (list_sessions_task json_of (next_request_id l) now reads m) n l' eq_refl eq_refl Hp) as R.
    destruct (reader_turn _ n l') as [l2 t]. destruct R as (-> & _ & R). split; [done|].
    unfold rpc_reply. cbn [set_link links]. rewrite lookup_insert_eq, R. cbn [snd rpc_answer]. unfold rpc_answer.
    cbn [body list_sessions_task session_list]. by rewrite json_back.
  - intros g n. apply long_list_refused. lia.
Qed.
End SessionList.

(** Between two of the reads a stream attaches: the row names a controller and
    counts nobody. *)
Lemma torn_row :
  let before := spawn (Ch:=list SessionEvent) 0 (24, 80) 100 [] in
  let after := (attach_locked 5 7 (24, 80) before).1.1 in
  session_info 9 (lit "s") (inner before, inner before, inner after) = mk_info (lit "s") 0 0 true.
Proof. vm_compute. reflexivity. Qed.

(** ** Witness *)

#[export] Instance info_eq_dec : EqDecision Info.
Proof. solve_decision. Defined.
#[export] Program Instance info_countable : Countable Info :=
  inj_countable' (fun i => (info_id i, idle_secs i, info_attached i, has_controller i))
    (fun '(a, b, c, d) => mk_info a b c d) _.
Next Obligation. by intros []. Qed.
Definition toy_rows (rows : list Info) : list byte := digits (countable.encode (A:=list Info) rows).
Definition toy_list_lib : HubLib := {|
  assets := assets toy_hub_lib; sessions_of_json b := option_map (List.map row_of) (countable.decode (A:=list Info) (of_digits b)); axum := toy_axum;
  pki := toy_pki; stores := toy_store; envelopes := toy_elib |}.

Lemma toy_rows_back rows : sessions_of_json toy_list_lib (toy_rows rows) = Some (row_of <$> rows).
Proof. cbn. unfold toy_rows. by rewrite of_digits_digits, decode_encode. Qed.

Definition toy_inner : SessionInner := inner (spawn (Ch:=list SessionEvent) 2000000000 (24, 80) 100 []).
Definition toy_manager : SessionManager := mk_manager {[lit "main" := 4%nat]} {[4%nat := toy_inner]} 5 [].

Lemma session_list_end_to_end_witness :
  let rows := session_infos 9000000000 (fun _ => (toy_inner, toy_inner, toy_inner)) toy_manager in
  (row_of <$> rows) = [mk_session_info (lit "main") 7 0 false] /\
  let ack := list_sessions_task toy_rows 1 9000000000 (fun _ => (toy_inner, toy_inner, toy_inner)) toy_manager in
  frame_from_ws_payload (encode ack) = Ok (ack, len (encode ack)).
Proof.
  cbn zeta. split; [vm_compute; reflexivity|].
  assert (K : bytes_ok (hi (writer sample_hub))) by (apply channel_ok; discriminate).
  assert (U : u32 (next_request_id sample_hub)) by (split; reflexivity || discriminate).
  pose proof (session_list_end_to_end toy_list_lib toy_rows toy_rows_back toy_env (lit "m")
    (mk_hub_state (mk_hub ∅ ∅ NoFile) {[lit "m" := 3%nat]} {[3%nat := sample_hub]} [] ∅) 3%nat sample_hub
    (new_conn (WCh:=ChanView (Z * list byte)) (Sem:=Z) (BCh:=ChanView Body)) toy_manager 9000000000
    (fun _ => (toy_inner, toy_inner, toy_inner)) eq_refl eq_refl K U) as W.
  destruct (handle_list_sessions _ _ _) as [h1 o] eqn:E.
  assert (Eo : o = Waiting KList 3 (one_shot toy_env) (next_request_id sample_hub) SendOk)
    by (rewrite <- (f_equal snd E : _ = o); vm_compute; reflexivity).
  destruct (W Eo) as (_ & _ & _ & _ & V).
  assert (L : (len (toy_rows (session_infos 9000000000 (fun _ => (toy_inner, toy_inner, toy_inner)) toy_manager)) <=? MAX_SESSION_LIST_JSON_LEN) = true)
    by (vm_compute; reflexivity).
  rewrite L in V. exact (proj1 V).
Defined.
