(* ===== verification/AdminReports.v ===== *)
(** * AdminReports: what [hub-admin] only shows ([hub-admin/src/main.rs])

    [list-certs] and [secret-info], the current time as text, and the exit code.
    Text is padded by characters, not bytes. *)

From Stdlib Require Import Strings.Byte.
From stdpp Require Import prelude strings list gmap.
From S2P Require Import Prelude Utf8 Std Webauthn Auth Login AgentAuth Pem Envelope HubAdmin HubAdminFacts Calendar.
Open Scope Z_scope.

(** ** Text *)

(** [str::chars]: a character is a byte that does not continue one, with the
    bytes that continue it. *)
Definition continues (b : byte) : bool := in_range 128 191 (byte_val b).
Definition char_count (s : list byte) : nat := length (List.filter (fun b => negb (continues b)) s).

(** [chars().take(n).collect()] *)
Fixpoint take_chars (n : nat) (s : list byte) : list byte :=
  match s with
  | [] => []
  | b :: s =>
      if continues b then b :: take_chars n s
      else match n with O => [] | S n => b :: take_chars n s end
  end.

(** [format!("{s:<w$}")] *)
Definition pad (w : nat) (s : list byte) : list byte := s ++ replicate (w - char_count s) " "%byte.

(** ** Commands *)

Section Reports.
Variables (alib : AdminLib) (b64 : list byte -> list byte).

(** One line of [list-certs] *)
Definition cert_line (machine_id issued_at serial fingerprint : list byte) : list byte :=
  pad 32 machine_id ++ pad 24 issued_at ++ pad 14 serial ++ pad 64 fingerprint.
Definition shown_serial (serial_hex : list byte) : list byte := take_chars 12 serial_hex.

(** [cmd_list_certs]: the lines it prints. *)
Definition cmd_list_certs (f : CertsFile) : res IssueError (list (list byte)) :=
  rows ← load_certs alib f;
  Ok (match rows with
      | [] => [lit "(no agent certs issued)"]
      | _ =>
          cert_line (lit "machine_id") (lit "issued_at") (lit "serial(8)") (lit "fingerprint") ::
          ((fun r => let e := row_entry r in
              cert_line (machine_id e) (row_issued_at r) (shown_serial (serial_hex e)) (fingerprint e)) <$> rows)
      end).

(** [cmd_secret_info]: the fingerprint it shows; a secret is created when there
    is none.  [b64] is base64 without padding. *)
Definition cmd_secret_info (fresh : list byte) (created : Creation) (f : SecretFile) : SecretFile * res StoreError (list byte) :=
  let '(f, r) := load_or_create_secret fresh created f in
  (f, secret ← r; Ok (b64 (take 8 (sha256 (crypto (pki alib)) secret)))).
End Reports.

(** [iso8601_now]: [None] is a clock before 1970. *)
Definition iso8601_now (now : option Z) : list byte := fmt_utc (default 0 now).

(** [main]'s exit code *)
Definition exit_code {E A} (r : res E A) : Z := match r with Ok _ => 0 | Err _ => 1 | Panic => 101 end.

(** ** Properties *)

Lemma char_count_ascii s : forallb is_ascii s = true -> char_count s = length s.
Proof.
  unfold char_count. induction s as [|b s IH]; [done|]. cbn [forallb List.filter]. intros [Hb Hs]%andb_true_iff.
  unfold is_ascii in Hb. unfold continues at 1, in_range. apply Z.ltb_lt in Hb.
  rewrite (proj2 (Z.leb_gt _ _)) by lia. cbn. by rewrite IH.
Qed.

Lemma take_chars_ascii n s : forallb is_ascii s = true -> take_chars n s = take n s.
Proof.
  revert n. induction s as [|b s IH]; intros n; [by destruct n|]. cbn [forallb take_chars]. intros [Hb Hs]%andb_true_iff.
  unfold is_ascii in Hb. unfold continues, in_range. apply Z.ltb_lt in Hb. rewrite (proj2 (Z.leb_gt _ _)) by lia. cbn.
  destruct n; [done|]. by rewrite IH.
Qed.

Lemma pad_width w s : forallb is_ascii s = true -> (length s <= w)%nat -> length (pad w s) = w.
Proof. intros Ha Hl. unfold pad. rewrite length_app, length_replicate, char_count_ascii by done. lia. Qed.

(** The table lines up: rows of plain texts that fit their columns are all as
    wide as the heading, and every column starts at the same place. *)
Lemma cert_lines_align m a s f :
  forallb is_ascii (m ++ a ++ s ++ f) = true -> (length m <= 32)%nat -> (length a <= 24)%nat -> (length f <= 64)%nat ->
  let line := cert_line m a (shown_serial s) f in
  length line = 134%nat /\ take 32 line = pad 32 m /\ take 24 (drop 32 line) = pad 24 a /\ drop 70 line = pad 64 f.
Proof.
  rewrite !forallb_app, !andb_true_iff. intros (Hm & Ha & Hs & Hf) Lm La Lf. cbn zeta. unfold cert_line, shown_serial.
  rewrite take_chars_ascii by done.
  assert (Ht : forallb is_ascii (take 12 s) = true).
  { rewrite <- (take_drop 12 s), forallb_app, andb_true_iff in Hs. by destruct Hs. }
  pose proof (pad_width 32 m Hm Lm) as E1. pose proof (pad_width 24 a Ha La) as E2.
  pose proof (pad_width 14 _ Ht ltac:(rewrite length_take; lia)) as E3. pose proof (pad_width 64 f Hf Lf) as E4.
  split; [rewrite !length_app; lia|]. split; [by rewrite take_app_length'|].
  split; [rewrite drop_app_length' by done; by rewrite take_app_length'|].
  rewrite (app_assoc (pad 32 m)), app_assoc. rewrite drop_app_length'; [done|]. rewrite !length_app. lia.
Qed.

(** The serial number a row shows is the first part of the certificate's only:
    [revoke-cert] compares whole numbers, so what the table shows revokes
    nothing. *)
Lemma shown_serial_revokes_nothing alib io f rows row :
  load_certs alib f = Ok rows -> row ∈ rows ->
  Forall (fun r => (12 < length (serial_hex (row_entry r)))%nat /\ forallb is_ascii (serial_hex (row_entry r)) = true) rows ->
  exists e, cmd_revoke_cert alib [lit "--serial"; shown_serial (serial_hex (row_entry row))] io f = (f, Err e).
Proof.
  intros El Hin Hs. unfold cmd_revoke_cert.
  change (revoke_args [lit "--serial"; shown_serial (serial_hex (row_entry row))] (mk_revoke_args None None))
    with (Ok (E:=CliError) (mk_revoke_args (Some (shown_serial (serial_hex (row_entry row)))) None)).
  cbn [map_err mbind res_bind ra_serial ra_id]. rewrite (bool_decide_false (Some _ = None)) by done. cbn [andb guard_err mbind res_bind].
  unfold update_certs. destruct (lock_ok io); cbn [negb]; [|by eexists]. rewrite El. cbn [mbind res_bind].
  assert (Keep : List.filter (fun r => negb (revokes (mk_revoke_args (Some (shown_serial (serial_hex (row_entry row)))) None) (row_entry r))) rows = rows).
  { rewrite Forall_forall in Hs. destruct (Hs row Hin) as [_ Ha]. clear El Hin. induction rows as [|r rows IH]; [done|]. cbn [List.filter].
    destruct (Hs r) as [Hl _]; [by left|]. unfold revokes. cbn [ra_serial ra_id]. rewrite orb_false_r, bool_decide_false.
    - cbn [negb]. f_equal. apply IH. intros x Hx. apply Hs. by right.
    - intros E. apply (f_equal length) in E. unfold shown_serial in E. rewrite take_chars_ascii, length_take in E by done. lia. }
  unfold revoke_rows. rewrite Keep, Nat.sub_diag. cbn. by eexists.
Qed.

(** Every certificate [issue-cert] makes has such a serial number. *)
Lemma issued_serial_is_long random :
  length random = 16%nat ->
  let s := serial_hex_of (random_serial random) in length s = 32%nat /\ forallb is_ascii s = true.
Proof.
  intros Hl. cbn zeta. assert (L : length (random_serial random) = 16%nat) by (by destruct random).
  revert L. generalize (random_serial random). intros l Hl'. split.
  - assert (E : forall l, length (serial_hex_of l) = (2 * length l)%nat)
      by (clear; induction l as [|b l IH]; [done|]; cbn [serial_hex_of flat_map app length]; fold (serial_hex_of l); lia).
    rewrite E. lia.
  - clear. unfold serial_hex_of. apply forallb_forall. intros x Hx. apply in_flat_map in Hx as (b & _ & Hx).
    destruct b, Hx as [<-|[<-|[]]]; reflexivity.
Qed.

(** The time of day a certificate is stamped with is twenty characters until
    the year 9999. *)
Example stamp : iso8601_now (Some 1700000000) = lit "2023-11-14T22:13:20Z".
Proof. vm_compute. reflexivity. Qed.
